(* ===== verification/_CoqProject ===== *)
-Q . S2P
Prelude.v
CProg.v
FlCommon.v
FlTcp.v
FlIcmp.v
FlIp6opts.v
FlMobility.v
FlIp.v
FlIp6.v
Filterlog.v
Voucher.v
Dhcpleases.v
Dhcpleases6.v
DlMain.v
CrsFcgi.v
CrsCommands.v
CrsQueue.v
CrsClients.v
CrsSession.v
CrsFds.v
FdAddr.v
FdTables.v
Fdns.v
FdFaults.v
FdLife.v
FdLex.v
FdConfig.v
FdLock.v
Qstats.v
Ifmedia.v
PhpIfaddrs.v
PhpPf.v
PhpInterfaces.v
PhpStates.v
PhpSwitch.v
PhpSystem.v
PhpIpsec.v
PhpCp.v
Cpustats.v
Minicron.v
ResetButton.v
TunnelShell.v
