(* ===== verification/Prelude.v ===== *)
(** * Verification of the C programs of the FreeSense system ports

    The repository holds the ports (build recipes with their own C, PHP and shell sources) of the
    system programs of a firewall.  The programs are separate processes that meet through files,
    sockets, the firewall's tables and the log: the packet filter writes captured packets to a pflog
    interface, [filterlog] turns each of them into one comma-separated log line; [filterdns] resolves
    host names and keeps the addresses in the tables of pf and ipfw; the DHCP server writes a lease
    file, [dhcpleases] keeps the names of its leases in the hosts file and [dhcpleases6] runs a
    command; the daemon [check_reload_status] takes commands from a socket ("filter reload",
    "interface newip wan") that [pfSctl] writes, and has them executed by a FastCGI server,
    aggregating those that arrive in a burst; [fcgicli] asks the same server directly; [voucher]
    prints and checks the signed tickets of the captive portal; [qstats] serves the statistics of the
    ALTQ queues, [cpustats] those of the processor; [minicron] runs a command at intervals; the reset
    button programs decide at boot whether the factory defaults are wanted; a module for PHP gives
    its scripts access to the kernel.

    ** Files

    - [Prelude]: machine integers (w-bit values are [Z] with the wrap-around written out), decimal
      and hexadecimal text, strings, separated columns, [sscanf]-like reading of numbers.
    - [CProg]: the programming model of the C code: results with faults ([Oob], a read outside the
      captured packet or of a null pointer; [ArrayBounds], an access outside an array; [NoFuel]), a
      state-and-fault monad over the output buffer ([struct sbuf]), [printf], reads from a packet, and
      the rules for reasoning about it.
    - [filterlog] (src/sysutils/filterlog/files): [FlCommon] (common.h, ipproto.h), [FlTcp]
      (print-tcp.c), [FlIcmp] (print-icmp.c), [FlIp6opts] (print-ip6opts.c), [FlMobility]
      (print-mobility.c), [FlIp] (print-ip.c), [FlIp6] (print-ip6.c), [Filterlog] (filterlog.c: the
      pflog header, the filter of reasons, the options and the loop over capture sessions).
    - [voucher] (src/sysutils/voucher/files/voucher.c): [Voucher].
    - [dhcpleases] (src/sysutils/dhcpleases/files/dhcpleases.c): [Dhcpleases]; [dhcpleases6]
      (src/sysutils/dhcpleases6/files/dhcpleases6.c): [Dhcpleases6], which takes what the two sources
      share from [Dhcpleases]; [DlMain], the main programs of both.
    - [check_reload_status] (src/sysutils/check_reload_status/files): [CrsFcgi] (fastcgi.h and the
      building of a request), [CrsCommands] (server.h and the parsing of a command line), [CrsQueue]
      (the queue and its callbacks, as a state machine), [CrsClients] (fcgicli.c and pfSctl.c),
      [CrsSession] (connections, and pfSctl and the daemon together), [CrsFds] (the descriptors of the
      daemon).
    - [filterdns] (src/net/filterdns/files): [FdAddr] (the lists of addresses of filterdns.c),
      [FdTables] (tables.c), [Fdns] (filterdns.c: hosts, actions, rounds, reloads, signals; the
      actions of the rules of parse.y), [FdFaults] (deleted actions, the end of the daemon, inputs that
      go wrong, runs), [FdLex] (the lexer of parse.y), [FdConfig] (its grammar, and main), [FdLife] (the
      tables of pf over the whole life of the daemon), [FdLock] (the lock and the semaphores of
      filterdns.c, one statement at a time).
    - the PHP module (src/devel/php-FreeSense-module/files): [Ifmedia] (the media words of
      ifmedia.c); of FreeSense.c: [PhpIfaddrs] (the addresses and parameters of interfaces), [PhpPf]
      (addresses of pf, the killing of states), [PhpInterfaces] (settings and counters of interfaces),
      [PhpStates] (rules, states and statistics of pf), [PhpSwitch] (Ethernet switches, with
      etherswitch.h), [PhpSystem] (the ARP table, files, serial ports, sysctls, the environment of the
      kernel), [PhpIpsec] (security associations), [PhpCp] (the captive portal).
    - [Qstats] (src/sysutils/qstats/files/qstats.c), [Cpustats], [Minicron] (src/sysutils/cpustats,
      minicron), [ResetButton] (src/sysutils/wrapalixresetbutton/files), [TunnelShell]
      (src/sysutils/ssh_tunnel_shell).

    A definition has the name of the C function it translates; a part of a long C function that has a
    definition of its own is named after what it does, and the function's definition composes them.

    ** State and operations

    The printers of [filterlog] run in the monad [M] of [CProg]: a packet is the list of captured
    bytes, every access to it is checked, and the state is the text in the [sbuf].  [Filterlog.flog]
    adds the array [filter_reasons] and the lines that were written.  [Voucher.main] is a function
    from options and files to the exit status and output.  [Dhcpleases.state] has the globals of the
    program (leases, hostssize) and the contents of the files it writes; [Dhcpleases.step] is what the
    main loop does for an event, [run] a sequence of events.  [CrsQueue.state] has the queue of
    entries with their pending timeouts; [CrsQueue.step] is the relation of the events that libevent
    may deliver in any order: a client's command, a timeout, a response.  [FdTables.sys] has the two
    descriptors that stay open and the state of the kernel; [Fdns.fdns] the lists of actions and hosts,
    which point to each other by number, their semaphores and states; [Fdns.step] is one round of one
    thread, a signal or a reload.  The part of a round under the lock is one step, also where the lock is
    taken for reading only; the end of a host, which is not under the lock, takes two steps, its decision
    ([check_hostname_leave]) and its removal ([check_hostname_remove]), so that a reload can come in
    between; [Fdns.ends] has the two ends of the daemon, after a signal and after a refused reload.  In
    [FdLock] the steps are the single statements of three threads that use the lock, the semaphores and the
    memory of an action.  [CrsClients.recv_event] is what the socket
    of [fcgicli] delivers: pieces of data, interruptions, errors.  [CrsSession.daemon] has the open connections and the queue, and
    [daemon_step] interleaves the clients with the events of the queue; [CrsFds.system] adds the table of
    open descriptors to it.  [FdLex.lexer] is the rest of the
    file with the characters that were pushed back.  [DlMain.main_step] is one answer of [kevent] or one
    signal.  [Qstats.state] is the tree of queues and the last ticket.  In the files of the PHP module a
    function maps its arguments and the answers of the system (or the state of the kernel, which its
    requests change) to the value the script gets, of the type [PhpIfaddrs.zval].  The programs of
    [ResetButton] are trees of calls, interpreted by [perform] with any function that answers a call
    from the calls before it.

    What the sources call but do not contain is a parameter: the class [FlCommon.Libc] (names of
    protocols, presentation of IPv6 addresses, constants of the system headers), [Voucher.Env] (files,
    keys) and the RSA operations in [Voucher.key], whose documented behaviour the theorems that need it
    assume ([Voucher.RsaPair]: signing and verifying with the two halves of a key are inverse to each
    other); [FdTables.Kernel] (the requests to pf and ipfw) with [FdTables.PfTables], what pf(4)
    promises of its tables when it refuses no request (what becomes of an error is in
    [failed_add_not_retried]); [Fdns.Resolver] (numeric IPv6 addresses); [Qstats.Double] (floating
    point); [Ifmedia.MediaTables] (the descriptions of net/if_media.h), [PhpIfaddrs.IfKernel] (ioctls
    of interfaces), [PhpPf.AddrInfo] (getaddrinfo), [PhpInterfaces.IfCtl] with [IfFlags] (requests that
    change interfaces, and what the kernel promises of the flags that a process can change), [PhpSwitch.SwitchCtl] with
    [SwitchGroups] (the driver of a switch), [TunnelShell.Termios] (flags of the terminal).  Each has a
    concrete instance
    ([demo_libc], [toy_pair], [demo_kernel] and so on) that the witnesses use.

    ** What the theorems show

    - [filterlog]: a well-formed IPv4 or IPv6 packet with UDP or TCP gives one line whose columns are
      exactly those of the packet, in order ([ipv4_log_line], [ipv6_log_line],
      [tcp_print_nine_columns]); packets do not influence each other; [decode_packet] ends on every
      packet; the IPv6 option printer reads only inside the captured options; the -r option is read as
      it is meant and writes only inside its array.
    - [voucher]: every voucher that is printed is accepted with its roll and ticket, a voucher that is
      accepted was signed with the private key for exactly that roll and ticket, the configuration
      file is read back.
    - [dhcpleases]: the tokenizer stays in its buffer and makes progress, the parser ends on every
      file, the leases of a well-formed file, whatever its blanks, comments and order of statements, are read
      as an independent specification says ([load_dhcp_file]), times are converted to the
      seconds of the Gregorian calendar, the hosts file is the original followed by the current leases
      after an update and is the original after SIGTERM, for the whole program with its options, the
      replaced lease file and failing calls ([dhcpleases_restores_hosts]).
    - [check_reload_status]: the request is well-formed FastCGI that decodes to the variables that
      were meant; every path of the tables is understood, and whatever a client sends the handler is
      defined and performs one step; the queue has at most two entries of an aggregated command and an
      aggregated command is never lost.  The result of [write] is an argument of [fcgi_send_command]; the
      theorems on requests that are sent say that it took all of the request.  [fcgicli] sends a well-formed
      request, prints the body of the response in whatever pieces it arrives, as long as the eight bytes of
      a header come together ([fcgicli_asks_and_prints], from the options to the exit status), and
      ends on every stream; [pfSctl] sends every command, and
      what it sends is answered, and has an entry in the queue of the daemon ([pfsctl_commands_executed]); clients cannot
      disturb the daemon or each other ([clients_independent]).  Together: a command given to [pfSctl]
      becomes one request that a FastCGI server reads as the script and the argument that were meant
      ([command_reaches_server]).  The open descriptors are always exactly those that the daemon knows of
      ([descriptors_accounted]), and the steps with descriptors refine those without.
    - [filterdns]: an update of a table implements the update of a set ([table_update_refines], a
      refinement against what pf promises); in every reachable state the reference counters count and
      an action has the addresses of its host or is going to run, but for an action that a reload attached
      to a host whose thread was about to leave ([refcnt_counts], [no_lost_update]; [stranded_reachable]
      shows that this happens); what a look-up finds reaches the tables, a reload leaves the actions of the
      new configuration and keeps those that stay, and the end after a signal deletes its entries; over its
      whole life the tables have only entries of its present actions and those that were there before,
      after its end by a signal only the latter, and after its end by a refused reload what they had
      ([nothing_left_behind]); when nothing is pending, names do not share addresses and the tables had no
      entry of theirs before the start, the tables are exactly what the hosts of the configuration have
      ([tables_follow_hosts]).  A
      configuration file is read as the rules it has, however they are written ([config_file_read]), and
      the lexer and the parser end on every file.  The lock excludes the readers while a reload has it
      ([lock_exclusive]), and the deletion of an action can finish exactly when its thread does not wait
      for the lock ([deletion_deadlocks_iff]).
    - the PHP module: the parts of a media word that are printed are read back as its subtype, its mode
      and its options ([media_word_roundtrip]); the list of addresses is sorted stably, and so an interface is reported with all
      of its addresses and no others; prefixes are set and read alike; states are killed for every
      IPv4 address of a name, however often it is given; flags are set bit by bit and no other flag that a
      process can change does; the states a script gets are those of the first 50001 that its filters
      select; VLAN groups of a switch are read back as they were set; the array of
      security associations is the tree of the message; the ARP table and the environment of the kernel
      are read completely.
    - [qstats]: the tree has every queue once.  [cpustats]: the shares are rounded correctly and
      add up.  [minicron]: the command line, and who is signalled.  Reset buttons: the defaults are
      asked for exactly when every look of two seconds found the pin of the button low, which is what the
      code takes for pressed.  The tunnel shell only
      waits.
    - Some theorems state where the code does not do what it means to: arrays that are indexed by
      unchecked values ([reason_outside_array], [hostname_overflows_namebuff],
      [tcp_options_overread]), a test that is inverted ([foreign_suffix_kept]), a switch that is left
      too early ([ip6_sctp_decoded_twice]), arguments and requests that are dropped
      ([aggregated_argument_dropped], [failed_request_not_repeated], [partial_write_taken_for_sent]), a deadlock
      ([deletion_can_deadlock]), memory that is used after it was freed ([freed_action_used]), a host
      that ends while a reload joins it ([host_end_races]), sockets that started commands inherit
      ([descriptors_inherited]), addresses that two names of a table share ([shared_address_lost]),
      masked entries and failed insertions of [filterdns]
      ([masked_entries_left], [failed_add_not_retried]), headers that arrive in pieces
      ([split_header_overflows]), addresses and prefixes that are lost when states are killed
      ([kill_skips_same_64], [kill_second_source_mask_lost]), a byte that ends a configuration
      ([nul_ends_config]), a sync that never succeeds ([fsync_never_true]), serial ports that are never
      found ([modem_devices_unopened]), levels that are not counted ([ipsec_sa_overflow]), and others.

    ** Fuel

    Loops that are not structural recursions take fuel, computed from the input where they start: the
    option and extension-header loops of [filterlog] the number of captured bytes (every round
    consumes one), C strings the length of the packet, the lease parser the length of the file (every
    token consumes a character), the loop of [fcgicli] over packets the bytes of the stream (every
    header consumes eight), the words of an IPv6 mask nine rounds (a length below 256 has at most
    seven full words), the loops of the lexer of [filterdns] the characters that are left and pushed
    back.  That this is enough is proved ([decode_packet_terminates], [load_dhcp_terminates],
    [cli_run_terminates], [set_ipmask_prefix], [parse_file_total]), so no theorem is about executions that
    were cut short.  The loop of [PhpSystem.ip_to_mac], which asks the kernel with a growing buffer, takes
    its fuel as an argument; [ip_to_mac_first] says how much it needs.

    ** Not modelled

    Diagnostics to the terminal and to syslog other than the log lines of [filterlog] (the logging
    calls change no state), failures of memory allocation, signal masks, the modes of sockets and pid
    files, the process that restarts [check_reload_status], and libpcap, libevent, OpenSSL, libpfctl,
    libvici and the C library, which are parameters or events.  Of the PHP module the registration of its
    functions and constants, and
    FreeSense_arginfo.h, which is generated.  The first part of ifmedia.c is disabled in the source.  The
    PHP, Python and shell sources and the makefiles of the ports are outside of the development. *)
From Stdlib Require Import ZArith Lia Ascii String.
From stdpp Require Import base list strings numbers.

(** * Machine integers

    A C integer of width [w] is a [Z]; every C operation that can leave the range of its type is
    followed by the reduction below that the type prescribes (two's complement). *)

Declare Scope c_scope.
Delimit Scope c_scope with C.
Open Scope Z_scope.

Definition u8 (z : Z) : Z := z mod 2 ^ 8.
Definition u16 (z : Z) : Z := z mod 2 ^ 16.
Definition u32 (z : Z) : Z := z mod 2 ^ 32.
Definition u64 (z : Z) : Z := z mod 2 ^ 64.
Definition i32 (z : Z) : Z := (z + 2 ^ 31) mod 2 ^ 32 - 2 ^ 31.
Definition i64 (z : Z) : Z := (z + 2 ^ 63) mod 2 ^ 64 - 2 ^ 63.

(** The C conditional tests an integer against zero. *)
Definition c_true (z : Z) : bool := negb (z =? 0).

Lemma u8_range z : 0 <= u8 z < 256.
Proof. apply Z.mod_pos_bound. lia. Qed.
Lemma u16_range z : 0 <= u16 z < 65536.
Proof. apply Z.mod_pos_bound. lia. Qed.
Lemma u32_range z : 0 <= u32 z < 4294967296.
Proof. apply Z.mod_pos_bound. lia. Qed.
Lemma u64_range z : 0 <= u64 z < 18446744073709551616.
Proof. apply Z.mod_pos_bound. lia. Qed.
Lemma i32_range z : -2147483648 <= i32 z < 2147483648.
Proof. unfold i32. pose proof (Z.mod_pos_bound (z + 2 ^ 31) (2 ^ 32)). lia. Qed.

Lemma u32_small z : 0 <= z < 4294967296 -> u32 z = z.
Proof. intros. apply Z.mod_small. lia. Qed.
Lemma u64_small z : 0 <= z < 18446744073709551616 -> u64 z = z.
Proof. intros. apply Z.mod_small. lia. Qed.
Lemma i32_small z : -2147483648 <= z < 2147483648 -> i32 z = z.
Proof. intros. unfold i32. rewrite Z.mod_small; lia. Qed.
Lemma i64_small z : -9223372036854775808 <= z < 9223372036854775808 -> i64 z = z.
Proof. intros. unfold i64. rewrite Z.mod_small; lia. Qed.

Lemma u32_sub_idemp a b : u32 (u32 a - b) = u32 (a - b).
Proof. apply Zminus_mod_idemp_l. Qed.
Lemma u32_add_idemp a b : u32 (u32 a + b) = u32 (a + b).
Proof. apply Zplus_mod_idemp_l. Qed.

Lemma land_upper a b : 0 <= a -> 0 <= b -> 0 <= Z.land a b <= b.
Proof.
  intros Ha Hb. split; [apply Z.land_nonneg; lia|].
  apply Z.ldiff_le; [lia|]. rewrite Z.land_comm.
  apply Z.bits_inj_iff'. intros n Hn.
  rewrite Z.ldiff_spec, Z.land_spec, Z.bits_0.
  destruct (Z.testbit a n), (Z.testbit b n); reflexivity.
Qed.

Lemma land_pow2_mod a k : 0 <= k -> Z.land a (2 ^ k - 1) = a mod 2 ^ k.
Proof. intros. rewrite <- Z.land_ones by lia. f_equal. rewrite Z.ones_equiv. lia. Qed.

(** Masking the bits from [k] on of an [n]-bit number. *)
Lemma land_high x n k : 0 <= k <= n -> 0 <= x < 2 ^ n -> Z.land x (2 ^ n - 2 ^ k) = x / 2 ^ k * 2 ^ k.
Proof.
  intros Hk Hx. replace (2 ^ n - 2 ^ k) with (Z.shiftl (Z.ones (n - k)) k).
  2:{ rewrite Z.shiftl_mul_pow2, Z.ones_equiv by lia.
      replace (2 ^ n) with (2 ^ (n - k) * 2 ^ k) by (rewrite <- Z.pow_add_r by lia; f_equal; lia). lia. }
  rewrite <- Z.shiftr_div_pow2, <- Z.shiftl_mul_pow2 by lia.
  apply Z.bits_inj'. intros i Hi. rewrite Z.land_spec. destruct (Z.ltb_spec i k).
  - rewrite !(Z.shiftl_spec_low _ k) by lia. apply andb_false_r.
  - rewrite !Z.shiftl_spec, Z.shiftr_spec, Z.sub_add, Z.testbit_ones_nonneg by lia.
    destruct (Z.ltb_spec (i - k) (n - k)); [apply andb_true_r|].
    rewrite <- (Z.mod_small x (2 ^ n)), Z.mod_pow2_bits_high by lia. done.
Qed.

Lemma pow2_pos k : 0 <= k -> 0 < 2 ^ k.
Proof. intros. apply Z.pow_pos_nonneg; lia. Qed.

Lemma pow2_le a b : 0 <= a <= b -> 2 ^ a <= 2 ^ b.
Proof. intros. apply Z.pow_le_mono_r; lia. Qed.

(** * Bytes *)

Definition byte_val (b : Byte.byte) : Z := Z.of_N (Byte.to_N b).
Definition byte_of_Z (z : Z) : Byte.byte :=
  default Byte.x00 (Byte.of_N (Z.to_N (u8 z))).

Lemma byte_val_range b : 0 <= byte_val b < 256.
Proof. unfold byte_val. pose proof (Byte.to_N_bounded b). lia. Qed.

Lemma byte_val_of_Z z : byte_val (byte_of_Z z) = u8 z.
Proof.
  unfold byte_val, byte_of_Z. pose proof (u8_range z) as R.
  destruct (Byte.of_N (Z.to_N (u8 z))) as [b|] eqn:E; simpl.
  - apply Byte.to_of_N in E. rewrite E. apply Z2N.id. lia.
  - apply Byte.of_N_None_iff in E. lia.
Qed.

Lemma byte_of_Z_val b : byte_of_Z (byte_val b) = b.
Proof.
  unfold byte_of_Z, byte_val. pose proof (byte_val_range b) as R. unfold byte_val in R.
  unfold u8. rewrite Z.mod_small by lia. rewrite N2Z.id, Byte.of_to_N. reflexivity.
Qed.

(** * Strings

    C strings are [string]s (the terminating NUL is not stored). *)

Definition ascii_val (c : ascii) : Z := Z.of_N (N_of_ascii c).
Definition ascii_of_Z (z : Z) : ascii := ascii_of_N (Z.to_N (u8 z)).

Lemma ascii_val_range c : 0 <= ascii_val c < 256.
Proof. unfold ascii_val. pose proof (N_ascii_bounded c). lia. Qed.

Lemma ascii_val_of_Z z : ascii_val (ascii_of_Z z) = u8 z.
Proof.
  unfold ascii_val, ascii_of_Z. pose proof (u8_range z).
  rewrite N_ascii_embedding by lia. lia.
Qed.

Lemma ascii_val_inj a b : ascii_val a = ascii_val b -> a = b.
Proof.
  unfold ascii_val. intros H. apply N2Z.inj in H.
  rewrite <- (ascii_N_embedding a), <- (ascii_N_embedding b). congruence.
Qed.

Definition string_of_bytes (l : list Byte.byte) : string :=
  string_of_list_ascii (ascii_of_byte <$> l).

#[global] Arguments String.append !_ _ / : simpl nomatch.

Lemma append_assoc (a b c : string) : (a +:+ b) +:+ c = a +:+ (b +:+ c).
Proof. induction a as [|x a IH]; cbn; congruence. Qed.

Lemma append_nil_r (a : string) : a +:+ "" = a.
Proof. induction a as [|x a IH]; cbn; congruence. Qed.

Lemma append_length (a b : string) :
  String.length (a +:+ b) = (String.length a + String.length b)%nat.
Proof. induction a as [|x a IH]; cbn; congruence. Qed.

Lemma append_inj_l (a b c : string) : a +:+ b = a +:+ c -> b = c.
Proof. induction a as [|x a IH]; cbn; [done|]. intros [= H]. auto. Qed.

(** [has_char c s]: the character occurs in the string. *)
Fixpoint has_char (c : ascii) (s : string) : bool :=
  match s with
  | EmptyString => false
  | String d s' => Ascii.eqb c d || has_char c s'
  end.

Lemma has_char_app c a b : has_char c (a +:+ b) = has_char c a || has_char c b.
Proof. induction a as [|x a IH]; cbn; [done|]. rewrite IH. apply orb_assoc. Qed.

(** [split_at c s] cuts [s] at every [c], the way [strsep] does: [n] separators give [n+1]
    pieces, empty ones included. *)
Fixpoint split_at (c : ascii) (s : string) : list string :=
  match s with
  | EmptyString => [""%string]
  | String d s' =>
      if Ascii.eqb c d then ""%string :: split_at c s'
      else match split_at c s' with
           | [] => [String d ""]
           | p :: ps => String d p :: ps
           end
  end.

Fixpoint join_with (c : ascii) (l : list string) : string :=
  match l with
  | [] => ""
  | [p] => p
  | p :: ps => p +:+ String c (join_with c ps)
  end.

Lemma split_at_nonempty c s : split_at c s <> [].
Proof. destruct s as [|d s]; cbn; [done|]. destruct (Ascii.eqb c d); [done|]. by destruct (split_at c s). Qed.

Lemma split_at_piece c p :
  has_char c p = false -> split_at c p = [p].
Proof.
  induction p as [|d p IH]; cbn; [done|].
  intros [-> H]%orb_false_iff. by rewrite IH.
Qed.

Lemma split_at_app c p s :
  has_char c p = false -> split_at c (p +:+ String c s) = p :: split_at c s.
Proof.
  induction p as [|d p IH]; cbn.
  - by rewrite Ascii.eqb_refl.
  - intros [-> H]%orb_false_iff. by rewrite IH.
Qed.

(** Splitting recovers the fields of a line whose fields do not contain the separator. *)
Lemma split_join c (l : list string) :
  l <> [] -> Forall (fun p => has_char c p = false) l -> split_at c (join_with c l) = l.
Proof.
  induction l as [|p [|q l] IH]; [done| |]; intros _ HF; inversion HF; subst.
  - cbn. by apply split_at_piece.
  - cbn [join_with]. rewrite split_at_app by done. f_equal. by apply IH.
Qed.

Lemma join_with_cons c p l : l <> [] -> join_with c (p :: l) = p +:+ String c (join_with c l).
Proof. by destruct l. Qed.

Lemma join_with_no_char c d (l : list string) :
  c <> d -> Forall (fun x => has_char c x = false) l -> has_char c (join_with d l) = false.
Proof.
  intros Hcd. induction 1 as [|x l Hx Hl IH]; [done|]. destruct l as [|y l]; [done|].
  rewrite join_with_cons, has_char_app, Hx by done. cbn [has_char orb]. rewrite IH.
  by rewrite (proj2 (Ascii.eqb_neq c d)) by done.
Qed.

(** * Numerals *)

Definition digit_char (d : Z) : ascii :=
  ascii_of_N (Z.to_N (if d <? 10 then 48 + d else 87 + d)).

Definition is_digit (c : ascii) : bool := (48 <=? ascii_val c) && (ascii_val c <=? 57).
Definition digit_val (c : ascii) : Z := ascii_val c - 48.

(** The digits of [z] in base [b], most significant first, in front of [acc]; 64 of them are
    enough for every C integer. *)
Fixpoint digits (b : Z) (fuel : nat) (z : Z) (acc : string) : string :=
  match fuel with
  | O => acc
  | S k =>
      let acc' := String (digit_char (z mod b)) acc in
      if z <? b then acc' else digits b k (z / b) acc'
  end.

Definition udec (z : Z) : string := digits 10 64 z "".
Definition uhex (z : Z) : string := digits 16 64 z "".
Definition sdec (z : Z) : string := if z <? 0 then String "-" (udec (- z)) else udec z.

Fixpoint repeat_char (n : nat) (c : ascii) : string :=
  match n with O => "" | S k => String c (repeat_char k c) end.

(** Zero padding to a minimal width, as in [%08x]. *)
Definition pad0 (w : nat) (s : string) : string :=
  repeat_char (w - String.length s) "0" +:+ s.

(** The value a run of decimal digits denotes, continuing from [acc]. *)
Fixpoint dec_value (acc : Z) (s : string) : Z * string :=
  match s with
  | String c s' => if is_digit c then dec_value (acc * 10 + digit_val c) s' else (acc, s)
  | EmptyString => (acc, s)
  end.

Lemma digit_char_dec d : 0 <= d < 10 -> is_digit (digit_char d) = true /\ digit_val (digit_char d) = d.
Proof.
  intros H. unfold is_digit, digit_val, digit_char, ascii_val.
  rewrite (proj2 (Z.ltb_lt d 10)) by lia.
  rewrite N_ascii_embedding by lia. split; [apply andb_true_intro; split; apply Z.leb_le; lia | lia].
Qed.

Lemma digits_app b k z acc : digits b k z acc = digits b k z "" +:+ acc.
Proof.
  revert z acc. induction k as [|k IH]; intros z acc; cbn; [done|].
  destruct (z <? b); [done|]. rewrite IH, (IH _ (String _ "")), append_assoc. done.
Qed.

Lemma digits_pow_bound b k z : 1 < b -> 0 <= z < b ^ Z.of_nat (S k) -> 0 <= z / b < b ^ Z.of_nat k.
Proof.
  intros Hb Hz. rewrite Nat2Z.inj_succ, Z.pow_succ_r in Hz by lia.
  split; [apply Z.div_pos; lia | apply Z.div_lt_upper_bound; lia].
Qed.

(** A decimal numeral followed by a non-digit reads back as its value. *)
Lemma dec_value_digits k z acc r :
  0 <= z < 10 ^ Z.of_nat k -> 0 <= acc ->
  exists n, dec_value acc (digits 10 k z r) = dec_value (acc * 10 ^ n + z) r /\ 0 <= n.
Proof.
  revert z acc r. induction k as [|k IH]; intros z acc r Hz Hacc; cbn [digits].
  - exists 0. split; [|lia]. f_equal. lia.
  - assert (Hd : 0 <= z mod 10 < 10) by (apply Z.mod_pos_bound; lia).
    destruct (digit_char_dec _ Hd) as [D1 D2].
    destruct (Z.ltb_spec z 10).
    + exists 1. split; [|lia]. cbn [dec_value]. rewrite D1, D2, Z.mod_small by lia.
      f_equal; lia.
    + destruct (IH (z / 10) acc (String (digit_char (z mod 10)) r)) as (n & E & Hn);
        [by apply digits_pow_bound; lia | lia|].
      exists (n + 1). split; [|lia]. rewrite E. cbn [dec_value]. rewrite D1, D2. f_equal.
      rewrite Z.pow_add_r by lia. pose proof (Z.div_mod z 10). lia.
Qed.

Lemma length_list_ascii str : length (list_ascii_of_string str) = String.length str.
Proof. induction str; cbn; congruence. Qed.

(** [isspace] in the C locale. *)
Definition isspace (c : ascii) : bool :=
  let v := ascii_val c in (v =? 32) || ((9 <=? v) && (v <=? 13)).

Fixpoint skip_space (s : string) : string :=
  match s with
  | String c r => if isspace c then skip_space r else s
  | EmptyString => s
  end.

Definition ULONG_MAX : Z := 2 ^ 64 - 1.

Definition starts_with_digit (s : string) : bool :=
  match s with String c _ => is_digit c | _ => false end.

Lemma dec_value_stop acc r : starts_with_digit r = false -> dec_value acc r = (acc, r).
Proof. destruct r as [|c r]; cbn; [done|]. by intros ->. Qed.

Lemma dec_value_udec z r :
  0 <= z < 2 ^ 64 -> starts_with_digit r = false -> dec_value 0 (udec z +:+ r) = (z, r).
Proof.
  intros Hz Hr. unfold udec. rewrite <- digits_app.
  destruct (dec_value_digits 64 z 0 r) as (n & E & _); [lia | lia|].
  rewrite E, Z.mul_0_l, Z.add_0_l. by apply dec_value_stop.
Qed.

Lemma dec_value_zeros k s : dec_value 0 (repeat_char k "0" +:+ s) = dec_value 0 s.
Proof. induction k as [|k IH]; [done|]. exact IH. Qed.

Lemma udec_inj a b : 0 <= a < 2 ^ 64 -> 0 <= b < 2 ^ 64 -> udec a = udec b -> a = b.
Proof.
  intros Ha Hb E. pose proof (dec_value_udec a "" Ha eq_refl) as H1.
  pose proof (dec_value_udec b "" Hb eq_refl) as H2. rewrite E, H2 in H1. by simplify_eq.
Qed.

Definition all_chars (P : ascii -> bool) : string -> bool :=
  fix go s := match s with EmptyString => true | String c s' => P c && go s' end.

Lemma all_chars_app P a b : all_chars P (a +:+ b) = all_chars P a && all_chars P b.
Proof. induction a as [|c a IH]; cbn; [done|]. rewrite IH. apply andb_assoc. Qed.

Lemma all_chars_no_char P c s : P c = false -> all_chars P s = true -> has_char c s = false.
Proof.
  intros HP. induction s as [|d s IH]; cbn; [done|].
  intros [Hd Hs]%andb_true_iff. rewrite IH by done.
  destruct (Ascii.eqb_spec c d); [subst; congruence | done].
Qed.

Lemma udec_digits z : 0 <= z -> all_chars is_digit (udec z) = true.
Proof.
  intros Hz. unfold udec. generalize 64%nat as k. intros k. revert z Hz.
  induction k as [|k IH]; intros z Hz; [done|]. cbn [digits].
  assert (Hd : 0 <= z mod 10 < 10) by (apply Z.mod_pos_bound; lia).
  destruct (digit_char_dec _ Hd) as [D1 _].
  destruct (z <? 10); [cbn; by rewrite D1|].
  rewrite digits_app, all_chars_app, IH by (apply Z.div_pos; lia). cbn. by rewrite D1.
Qed.

Lemma digits_nonempty b k : forall z acc, (String.length acc < String.length (digits b (S k) z acc))%nat.
Proof.
  induction k as [|k IH]; intros z acc; cbn [digits].
  - destruct (z <? b); cbn; lia.
  - destruct (z <? b); [cbn; lia|]. specialize (IH (z / b) (String (digit_char (z mod b)) acc)). cbn in IH |- *. lia.
Qed.

Lemma udec_first z : 0 <= z -> exists c r, udec z = String c r /\ is_digit c = true.
Proof.
  intros Hz. pose proof (udec_digits z Hz) as Hd. pose proof (digits_nonempty 10 63 z "") as Hl.
  change (digits 10 64 z "") with (udec z) in Hl. destruct (udec z) as [|c r]; [cbn in Hl; lia|].
  exists c, r. split; [done|]. cbn in Hd. by apply andb_true_iff in Hd as [Hc _].
Qed.

Lemma digit_not_space c : is_digit c = true -> isspace c = false.
Proof.
  unfold is_digit, isspace. intros [H1%Z.leb_le H2%Z.leb_le]%andb_true_iff.
  apply orb_false_iff. split; [apply Z.eqb_neq; lia|]. apply andb_false_iff. right. apply Z.leb_gt. lia.
Qed.

Lemma udec_no_char c z : is_digit c = false -> 0 <= z -> has_char c (udec z) = false.
Proof. intros Hc Hz. by eapply all_chars_no_char, udec_digits. Qed.

Lemma digits_length b k z acc n :
  1 < b -> 0 <= z < b ^ Z.of_nat n -> (0 < n)%nat ->
  (String.length (digits b k z acc) <= n + String.length acc)%nat.
Proof.
  intros Hb. revert z acc n. induction k as [|k IH]; intros z acc n Hz Hn; cbn [digits]; [lia|].
  destruct (Z.ltb_spec z b); [cbn; lia|]. destruct n as [|[|n]]; [lia| |].
  - cbn in Hz. lia.
  - etrans; [apply (IH _ _ (S n)); [by apply digits_pow_bound | lia]|]. cbn [String.length]. lia.
Qed.

Lemma udec_length z n :
  0 <= z < 10 ^ Z.of_nat n -> (0 < n)%nat -> (String.length (udec z) <= n)%nat.
Proof. intros Hz Hn. etrans; [by apply digits_length with (n := n)|]. cbn [String.length]. lia. Qed.

Lemma digit_char_not c d :
  0 <= d < 16 -> ascii_val c < 48 -> Ascii.eqb c (digit_char d) = false.
Proof.
  intros Hd Hc. apply Ascii.eqb_neq. intros ->. revert Hc.
  unfold ascii_val, digit_char. case_match; rewrite N_ascii_embedding; lia.
Qed.

Lemma digits_no_char b c k z acc :
  1 < b <= 16 -> 0 <= z -> ascii_val c < 48 -> has_char c acc = false ->
  has_char c (digits b k z acc) = false.
Proof.
  intros Hb Hz Hc. revert z acc Hz. induction k as [|k IH]; intros z acc Hz Ha; [done|].
  cbn [digits]. pose proof (Z.mod_pos_bound z b).
  assert (has_char c (String (digit_char (z mod b)) acc) = false) as Ha'.
  { cbn [has_char]. by rewrite digit_char_not by lia. }
  destruct (z <? b); [done|]. apply IH; [apply Z.div_pos; lia | done].
Qed.

Lemma uhex_no_char c z : 0 <= z -> ascii_val c < 48 -> has_char c (uhex z) = false.
Proof. intros. by apply digits_no_char. Qed.

Lemma join_with_app c l m :
  l <> [] -> m <> [] -> join_with c (l ++ m) = join_with c l +:+ String c (join_with c m).
Proof.
  intros Hl Hm. induction l as [|x [|y l] IH]; [done| |].
  - cbn [app]. by rewrite join_with_cons.
  - cbn [app] in *. rewrite (join_with_cons c x (y :: l ++ m)), (join_with_cons c x (y :: l)), IH by done.
    by rewrite append_assoc.
Qed.

Fixpoint str_take (n : nat) (s : string) : string :=
  match n, s with
  | S k, String c s' => String c (str_take k s')
  | _, _ => ""
  end.

Lemma str_take_length n s : (String.length (str_take n s) <= n)%nat.
Proof. revert s. induction n as [|n IH]; intros [|c s]; cbn; try lia. specialize (IH s). lia. Qed.

Lemma str_take_le n s : (String.length (str_take n s) <= String.length s)%nat.
Proof. revert s. induction n as [|n IH]; intros [|c s]; cbn; try lia. specialize (IH s). lia. Qed.

Lemma str_take_all n s : (String.length s <= n)%nat -> str_take n s = s.
Proof. revert s. induction n; intros [|c s]; cbn; intros; [done|lia|done|]. f_equal. auto with lia. Qed.

Lemma str_take_rest n s : exists t, s = str_take n s +:+ t.
Proof.
  revert s. induction n as [|n IH]; intros s; [by exists s|]. destruct s as [|c s]; [by exists ""|].
  destruct (IH s) as (t & E). exists t. cbn [str_take String.append]. by rewrite <- E.
Qed.
Lemma str_take_app a b : str_take (String.length a) (a +:+ b) = a.
Proof. induction a as [|c a IH]; cbn; [by destruct b|]. by rewrite IH. Qed.

Lemma repeat_char_length n c : String.length (repeat_char n c) = n.
Proof. induction n; cbn; congruence. Qed.

Lemma pad0_length w s : String.length (pad0 w s) = Nat.max w (String.length s).
Proof. unfold pad0. rewrite append_length, repeat_char_length. lia. Qed.

Lemma c_true_testbit a k : 0 <= a -> 0 <= k -> c_true (Z.land a (2 ^ k)) = Z.testbit a k.
Proof.
  intros Ha Hk. unfold c_true. rewrite Z.land_comm.
  destruct (Z.testbit a k) eqn:E.
  - apply negb_true_iff, Z.eqb_neq. intros H.
    assert (Hb : Z.testbit (Z.land (2 ^ k) a) k = false) by (rewrite H; apply Z.bits_0).
    rewrite Z.land_spec, Z.pow2_bits_true, E in Hb by lia. done.
  - apply negb_false_iff, Z.eqb_eq. apply Z.bits_inj'. intros n Hn.
    rewrite Z.land_spec, Z.bits_0, Z.pow2_bits_eqb by lia.
    destruct (Z.eqb_spec k n); [by subst | done].
Qed.

Lemma pad0_no_char c w s : c <> "0"%char -> has_char c s = false -> has_char c (pad0 w s) = false.
Proof.
  intros Hc Hs. unfold pad0. rewrite has_char_app, Hs, orb_false_r.
  generalize (w - String.length s)%nat. induction n as [|n IH]; [done|]. cbn. rewrite IH, orb_false_r.
  by apply Ascii.eqb_neq.
Qed.

Lemma pad0_0 s : pad0 0 s = s.
Proof. done. Qed.
#[global] Opaque udec uhex.

(** Reassociates appends to the right and merges literal pieces. *)
Ltac str_norm :=
  repeat (progress (rewrite ?pad0_0, ?append_assoc, ?append_nil_r;
                    cbn [String.append join_with])).

(** ** Characters and character arrays *)

Definition TAB : ascii := ascii_of_Z 9.
Definition LF : ascii := ascii_of_Z 10.
Definition CR : ascii := ascii_of_Z 13.
Definition QUOTE : ascii := ascii_of_Z 34.

(** A character array up to its NUL. *)
Fixpoint c_str (s : string) : string :=
  match s with
  | EmptyString => EmptyString
  | String c s => if Ascii.eqb c "000" then EmptyString else String c (c_str s)
  end.

Lemma c_str_length s : (String.length (c_str s) <= String.length s)%nat.
Proof. induction s as [|c s IH]; cbn; [done|]. destruct (Ascii.eqb c "000"); cbn; lia. Qed.

Lemma c_str_plain s : has_char "000" s = false -> c_str s = s.
Proof.
  induction s as [|c s IH]; cbn [has_char c_str]; intros H; [done|]. apply orb_false_iff in H as [Hc Hs].
  rewrite IH by done. destruct (Ascii.eqb_spec c "000") as [-> |]; [done | done].
Qed.

(** ** Numbers as the C library reads them *)

(** A decimal number with optional sign, as the [%d] and [%lu] conversions and [atoi] read it: sign,
    magnitude, rest. *)
Definition scan_number (s : string) : option (bool * Z * string) :=
  let '(neg, r) :=
    match skip_space s with
    | String "-" r => (true, r)
    | String "+" r => (false, r)
    | r => (false, r)
    end in
  if starts_with_digit r then let '(v, rest) := dec_value 0 r in Some (neg, v, rest) else None.

Definition LONG_MAX : Z := 2 ^ 63 - 1.

(** [strtol] saturates, and its value is stored in an [int]. *)
Definition to_int (neg : bool) (v : Z) : Z :=
  i32 (if neg then Z.max (- v) (- LONG_MAX - 1) else Z.min v LONG_MAX).

Definition scan_d (s : string) : option (Z * string) :=
  match scan_number s with Some (neg, v, rest) => Some (to_int neg v, rest) | None => None end.

Definition atoi (s : string) : Z :=
  match scan_number s with Some (neg, v, _) => to_int neg v | None => 0 end.

Lemma scan_number_sdec z rest :
  - 2 ^ 63 <= z < 2 ^ 64 -> starts_with_digit rest = false ->
  scan_number (sdec z +:+ rest) = Some (z <? 0, Z.abs z, rest).
Proof.
  intros Hz Hr. unfold scan_number, sdec. destruct (Z.ltb_spec z 0).
  - destruct (udec_first (- z)) as (d & r & E & Hd); [lia|].
    cbn [String.append skip_space]. change (isspace "-") with false. cbn iota.
    rewrite E at 1. cbn [String.append starts_with_digit]. rewrite Hd.
    rewrite dec_value_udec by (done || lia). do 3 f_equal. lia.
  - destruct (udec_first z) as (d & r & E & Hd); [lia|].
    assert (Hs : skip_space (udec z +:+ rest) = udec z +:+ rest).
    { rewrite E. cbn. by rewrite digit_not_space. }
    rewrite Hs. pose proof (dec_value_udec z rest ltac:(lia) Hr) as Hv.
    assert (Hsd : starts_with_digit (udec z +:+ rest) = true) by (rewrite E; done).
    revert Hs Hv Hsd. rewrite E. cbn [String.append]. intros _ Hv Hsd.
    assert (d <> "-"%char /\ d <> "+"%char) as [H1 H2] by (split; intros ->; done).
    rewrite Z.abs_eq by lia.
    destruct d as [[] [] [] [] [] [] [] []]; try done; by rewrite Hsd, Hv.
Qed.

Lemma scan_d_sdec z rest :
  - 2 ^ 31 <= z < 2 ^ 31 -> starts_with_digit rest = false -> scan_d (sdec z +:+ rest) = Some (z, rest).
Proof.
  intros Hz Hr. unfold scan_d. rewrite scan_number_sdec by (done || lia). do 2 f_equal.
  unfold to_int, LONG_MAX. destruct (Z.ltb_spec z 0); rewrite i32_small by lia; lia.
Qed.

(** * Internet addresses *)

(** [inet_pton(AF_INET, ...)]: four decimal octets, without leading zeros. *)
Definition octet (s : string) : option Z :=
  match s with
  | EmptyString => None
  | String c r =>
      if negb (all_chars is_digit s) || (Ascii.eqb c "0" && negb (String.eqb r "")) then None
      else let v := (dec_value 0 s).1 in if v <=? 255 then Some v else None
  end.

Definition inet_pton (s : string) : option (list Z) :=
  match map octet (split_at "." s) with
  | [Some a; Some b; Some c; Some d] => Some [a; b; c; d]
  | _ => None
  end.
