(* ===== verification/CProg.v ===== *)
(** The programming model of the C printers: faults, a state-and-fault monad whose state is the
    output buffer ([struct sbuf]), [printf] formatting, reads from a captured packet, and the
    weakest-precondition calculus the component files reason with. *)
From Stdlib Require Import ZArith Lia Ascii String.
From stdpp Require Import base list strings numbers.
From S2P Require Import Prelude.
Open Scope Z_scope.

(** What can go wrong in a C program that the model makes visible. *)
Inductive fault : Type :=
  | Oob (off : Z)        (* a read at byte [off], outside the captured packet *)
  | ArrayBounds (i : Z)  (* an index outside a fixed-size array *)
  | BadFormat            (* a [printf] conversion without a matching argument *)
  | NoFuel.              (* the step bound of a loop was exhausted *)

Inductive outcome (A : Type) : Type :=
  | Ok (a : A)
  | Fail (f : fault).
Arguments Ok {A} a.
Arguments Fail {A} f.

(** Results that may be a fault, without a buffer. *)
#[export] Instance outcome_ret : MRet outcome := fun A a => Ok a.
#[export] Instance outcome_bind : MBind outcome := fun A B k m =>
  match m with Ok a => k a | Fail f => Fail f end.

(** The text accumulated in the [struct sbuf] the printers write to. *)
Definition sbuf_t : Type := string.

Definition M (A : Type) : Type := sbuf_t -> outcome (A * sbuf_t).

#[global] Instance M_ret : MRet M := fun A a s => Ok (a, s).
#[global] Instance M_bind : MBind M := fun A B k m s =>
  match m s with
  | Ok (a, s') => k a s'
  | Fail f => Fail f
  end.

Definition fail {A} (f : fault) : M A := fun _ => Fail f.

(** ** Formatting *)

Inductive arg : Type :=
  | AInt (z : Z)
  | AStr (s : string).

(** One conversion: flags and width are the zero padding [w] (0 for none), [long] the [l]
    modifier, [c] the conversion character. *)
Definition convert (w : nat) (long : bool) (c : ascii) (a : arg) : option string :=
  match a with
  | AInt z =>
      if Ascii.eqb c "u" then Some (pad0 w (udec (if long then u64 z else u32 z)))
      else if Ascii.eqb c "d" then Some (pad0 w (sdec (if long then i64 z else i32 z)))
      else if Ascii.eqb c "x" then Some (pad0 w (uhex (if long then u64 z else u32 z)))
      else if Ascii.eqb c "c" then Some (String (ascii_of_Z z) "")
      else None
  | AStr s => if Ascii.eqb c "s" then Some s else None
  end.

(** [format f args] is the text [printf] produces for the format [f]; [None] when a conversion
    has no argument of its kind. *)
Fixpoint format (f : string) (args : list arg) : option string :=
  let conv w long c r :=
    match args with
    | [] => None
    | a :: args' =>
        match convert w long c a, format r args' with
        | Some t, Some u => Some (t +:+ u)
        | _, _ => None
        end
    end in
  match f with
  | EmptyString => Some ""%string
  | String "%" (String "0" (String "x" r)) => conv 0%nat false "x"%char r
  | String "%" (String "0" (String w (String c r))) =>
      conv (Z.to_nat (digit_val w)) false c r
  | String "%" (String "l" (String c r)) => conv 0%nat true c r
  | String "%" (String c r) => conv 0%nat false c r
  | String c r => match format r args with Some u => Some (String c u) | None => None end
  end.

Definition sbuf_printf (f : string) (args : list arg) : M unit := fun s =>
  match format f args with
  | Some t => Ok (tt, s +:+ t)
  | None => Fail BadFormat
  end.

(** ** The captured packet *)

Definition packet : Type := list Byte.byte.

Definition plen (p : packet) : Z := Z.of_nat (length p).

(** The byte at an offset, 0 outside the packet (only used where the offset is inside). *)
Definition byte_at (p : packet) (off : Z) : Z :=
  match p !! Z.to_nat off with Some b => byte_val b | None => 0 end.

Definition in_packet (p : packet) (off : Z) : bool := (0 <=? off) && (off <? plen p).

Definition rd8 (p : packet) (off : Z) : M Z := fun s =>
  if in_packet p off then Ok (byte_at p off, s) else Fail (Oob off).

(** [n] consecutive bytes, as the address functions take them. *)
Fixpoint rd_bytes (p : packet) (off : Z) (n : nat) : M (list Z) :=
  match n with
  | O => mret []
  | S k => b ← rd8 p off; bs ← rd_bytes p (off + 1) k; mret (b :: bs)
  end.

Fixpoint bytes_at (p : packet) (off : Z) (n : nat) : list Z :=
  match n with
  | O => []
  | S k => byte_at p off :: bytes_at p (off + 1) k
  end.

(** A NUL-terminated string starting at [off] ([%s] of a [char] array field): reading goes on
    until a NUL byte, wherever it is. *)
Fixpoint rd_cstr (p : packet) (off : Z) (fuel : nat) : M string :=
  match fuel with
  | O => fail NoFuel
  | S k =>
      b ← rd8 p off;
      if b =? 0 then mret ""%string
      else r ← rd_cstr p (off + 1) k; mret (String (ascii_of_Z b) r)
  end.

Lemma byte_at_range p off : 0 <= byte_at p off < 256.
Proof. unfold byte_at. destruct (p !! _); [apply byte_val_range | lia]. Qed.

Lemma in_packet_true p off : 0 <= off < plen p -> in_packet p off = true.
Proof. intros. apply andb_true_intro. split; [apply Z.leb_le | apply Z.ltb_lt]; lia. Qed.

Lemma plen_nonneg p : 0 <= plen p.
Proof. unfold plen. lia. Qed.

(** ** Weakest preconditions

    [wp E m Q s]: run from the buffer [s], [m] either finishes with a result and a buffer that
    satisfy [Q], or raises a fault that [E] allows. *)
Definition wp {A} (E : fault -> Prop) (m : M A) (Q : A -> sbuf_t -> Prop) (s : sbuf_t) : Prop :=
  match m s with
  | Ok (a, s') => Q a s'
  | Fail f => E f
  end.

(** No fault at all: the program is memory safe and finishes. *)
Definition no_fault (f : fault) : Prop := False.

(** Every fault but exhausted fuel: the program finishes, whatever it reads. *)
Definition not_fuel (f : fault) : Prop := f <> NoFuel.

Lemma wp_bind {A B} E (m : M A) (k : A -> M B) Q s :
  wp E m (fun a => wp E (k a) Q) s -> wp E (m ≫= k) Q s.
Proof. unfold wp, mbind, M_bind. by destruct (m s) as [[a s']|]. Qed.

Lemma wp_ret {A} E (a : A) Q s : Q a s -> wp E (mret a) Q s.
Proof. done. Qed.

Lemma wp_fail {A} (E : fault -> Prop) f (Q : A -> sbuf_t -> Prop) s : E f -> wp E (fail f) Q s.
Proof. done. Qed.

Lemma wp_mono {A} E (m : M A) (Q Q' : A -> sbuf_t -> Prop) s :
  wp E m Q s -> (forall a s', Q a s' -> Q' a s') -> wp E m Q' s.
Proof. unfold wp. destruct (m s) as [[a s']|]; auto. Qed.

Lemma wp_rd8 (E : fault -> Prop) p off Q s :
  (0 <= off < plen p -> Q (byte_at p off) s) ->
  (~ (0 <= off < plen p) -> E (Oob off)) ->
  wp E (rd8 p off) Q s.
Proof.
  intros H1 H2. unfold wp, rd8, in_packet.
  destruct (Z.leb_spec 0 off), (Z.ltb_spec off (plen p)); cbn; (apply H1 || apply H2); lia.
Qed.

Lemma wp_printf (E : fault -> Prop) f args t Q s :
  format f args = Some t -> Q tt (s +:+ t) -> wp E (sbuf_printf f args) Q s.
Proof. intros Hf HQ. unfold wp, sbuf_printf. by rewrite Hf. Qed.

Lemma wp_run {A} E (m : M A) Q s :
  (forall f, ~ E f) -> wp E m Q s -> exists a s', m s = Ok (a, s') /\ Q a s'.
Proof. unfold wp. intros HE. destruct (m s) as [[a s']|f]; [eauto | intros H; by destruct (HE f)]. Qed.

(** ** Running a program step by step *)

Lemma bind_ok {A B} (m : M A) (k : A -> M B) s a s' :
  m s = Ok (a, s') -> (m ≫= k) s = k a s'.
Proof. unfold mbind, M_bind. by intros ->. Qed.

Lemma bind_assoc {A B C} (m : M A) (f : A -> M B) (g : B -> M C) s :
  (m ≫= (fun a => f a ≫= g)) s = ((m ≫= f) ≫= g) s.
Proof. unfold mbind, M_bind. by destruct (m s) as [[a s']|]. Qed.

Lemma bind_rd8 {B} p off (k : Z -> M B) s :
  0 <= off < plen p -> (rd8 p off ≫= k) s = k (byte_at p off) s.
Proof. intros H. apply bind_ok. unfold rd8. by rewrite in_packet_true. Qed.

Lemma rd8_oob p off s : ~ (0 <= off < plen p) -> rd8 p off s = Fail (Oob off).
Proof.
  intros H. unfold rd8, in_packet.
  destruct (Z.leb_spec 0 off), (Z.ltb_spec off (plen p)); cbn; (done || lia).
Qed.

Lemma bind_printf {B} f args t (k : unit -> M B) s :
  format f args = Some t -> (sbuf_printf f args ≫= k) s = k tt (s +:+ t).
Proof. intros H. apply bind_ok. unfold sbuf_printf. by rewrite H. Qed.

Lemma rd_bytes_ok p off n s :
  0 <= off -> off + Z.of_nat n <= plen p -> rd_bytes p off n s = Ok (bytes_at p off n, s).
Proof.
  revert off. induction n as [|n IH]; intros off H1 H2; [done|].
  cbn [rd_bytes bytes_at]. rewrite bind_rd8 by lia. unfold mbind, M_bind.
  by rewrite IH by lia.
Qed.

Lemma bind_rd_bytes {B} p off n (k : list Z -> M B) s :
  0 <= off -> off + Z.of_nat n <= plen p ->
  (rd_bytes p off n ≫= k) s = k (bytes_at p off n) s.
Proof. intros. apply bind_ok. by apply rd_bytes_ok. Qed.


Lemma wp_rd_bytes (E : fault -> Prop) p off n s (Q : list Z -> sbuf_t -> Prop) :
  0 <= off -> off + Z.of_nat n <= plen p -> Q (bytes_at p off n) s ->
  wp E (rd_bytes p off n) Q s.
Proof. intros H1 H2 HQ. unfold wp. by rewrite rd_bytes_ok. Qed.

(** ** Loops never run out of fuel

    [nofuel m] says that [m] never raises [NoFuel]; the hint base [fuel] closes it for
    programs without loops, and each loop has its own lemma in the base. *)
Definition nofuel {A} (m : M A) : Prop := forall s, m s <> Fail NoFuel.

Create HintDb fuel.

Lemma nofuel_bind {A B} (m : M A) (k : A -> M B) :
  nofuel m -> (forall a, nofuel (k a)) -> nofuel (m ≫= k).
Proof.
  intros Hm Hk s. unfold mbind, M_bind. specialize (Hm s).
  destruct (m s) as [[a s']|f]; [apply Hk | congruence].
Qed.

Lemma nofuel_ret {A} (a : A) : nofuel (mret a : M A).
Proof. done. Qed.

Lemma nofuel_rd8 p off : nofuel (rd8 p off).
Proof. intros s. unfold rd8. by destruct (in_packet p off). Qed.

Lemma nofuel_rd8_bind {B} p off (k : Z -> M B) :
  (0 <= off < plen p -> nofuel (k (byte_at p off))) -> nofuel (rd8 p off ≫= k).
Proof.
  intros H s. destruct (decide (0 <= off < plen p)) as [Hin|Hout].
  - rewrite bind_rd8 by done. by apply H.
  - unfold mbind, M_bind. by rewrite rd8_oob.
Qed.

Lemma nofuel_printf f args : nofuel (sbuf_printf f args).
Proof. intros s. unfold sbuf_printf. by destruct (format f args). Qed.

Lemma nofuel_if {A} (b : bool) (m n : M A) : nofuel m -> nofuel n -> nofuel (if b then m else n).
Proof. by destruct b. Qed.

Lemma nofuel_fail {A} f : f <> NoFuel -> nofuel (fail f : M A).
Proof. intros H s [=]. done. Qed.

Lemma nofuel_wp {A} (m : M A) :
  (forall s, wp not_fuel m (fun _ _ => True) s) -> nofuel m.
Proof. intros H s E. specialize (H s). unfold wp in H. rewrite E in H. by apply H. Qed.

Lemma wp_nofuel {A} (m : M A) s : nofuel m -> wp not_fuel m (fun _ _ => True) s.
Proof. intros H. unfold wp. specialize (H s). destruct (m s) as [[a s']|f]; [done | congruence]. Qed.

#[export] Hint Resolve nofuel_bind nofuel_ret nofuel_rd8 nofuel_printf nofuel_if : fuel.
#[export] Hint Extern 4 (nofuel (fail _)) => apply nofuel_fail; discriminate : fuel.

Lemma nofuel_rd_bytes p off n : nofuel (rd_bytes p off n).
Proof. revert off. induction n as [|n IH]; intros off; cbn; eauto with fuel. Qed.

#[export] Hint Resolve nofuel_rd_bytes : fuel.

(** A string read stops at the end of the packet at the latest. *)
Lemma nofuel_rd_cstr p off fuel :
  plen p - off < Z.of_nat fuel -> 0 < Z.of_nat fuel -> nofuel (rd_cstr p off fuel).
Proof.
  revert off. induction fuel as [|n IH]; intros off H Hp s; [lia|].
  cbn [rd_cstr]. revert s. apply nofuel_rd8_bind. intros Hin.
  apply nofuel_if; [eauto with fuel|]. apply nofuel_bind; [apply IH; lia | eauto with fuel].
Qed.

(** Splits a loop-free program into its reads and prints and closes them with [fuel]. *)
Ltac nofuel_steps :=
  repeat lazymatch goal with
    | |- nofuel (_ ≫= _) => apply nofuel_bind
    | |- nofuel (if _ then _ else _) => apply nofuel_if
    | |- nofuel _ => fail
    | |- forall _, _ => intros ?
    end; eauto with fuel.

(** [has_bytes p off bs]: the captured packet holds exactly [bs] from [off] on. *)
Definition has_bytes (p : packet) (off : Z) (bs : list Z) : Prop :=
  0 <= off /\ off + Z.of_nat (length bs) <= plen p /\ bytes_at p off (length bs) = bs.

Lemma has_bytes_cons p off b bs :
  has_bytes p off (b :: bs) <->
  0 <= off < plen p /\ byte_at p off = b /\ has_bytes p (off + 1) bs.
Proof.
  unfold has_bytes. cbn [length bytes_at]. rewrite Nat2Z.inj_succ. split.
  - intros (H1 & H2 & [= H3 H4]). repeat split; auto; lia.
  - intros ([H1 H1'] & H2 & H3 & H4 & H5). repeat split; [lia | lia | congruence].
Qed.

Lemma has_bytes_app p off a b :
  has_bytes p off (a ++ b) <->
  has_bytes p off a /\ has_bytes p (off + Z.of_nat (length a)) b.
Proof.
  revert off. induction a as [|x a IH]; intros off.
  - cbn [app length Z.of_nat]. rewrite Z.add_0_r. split; [|tauto]. intros H. split; [|done].
    destruct H as (H1 & H2 & _). repeat split; [lia|]. cbn. lia.
  - cbn [app length]. rewrite !has_bytes_cons, IH, Nat2Z.inj_succ.
    replace (off + 1 + Z.of_nat (length a)) with (off + Z.succ (Z.of_nat (length a))) by lia.
    tauto.
Qed.

Lemma bind_printf_ret f args t s :
  format f args = Some t -> sbuf_printf f args s = Ok (tt, s +:+ t).
Proof. intros H. unfold sbuf_printf. by rewrite H. Qed.

Lemma printf_s s t : sbuf_printf "%s" [AStr t] s = Ok (tt, s +:+ t).
Proof. unfold sbuf_printf. cbn. by rewrite append_nil_r. Qed.
