(* ===== verification/FlCommon.v ===== *)
(** filterlog: what its printers share (common.h, ipproto.h and the tables they look codes up
    in): [struct tok] tables and [code2str], big-endian extraction, the protocol numbers and the
    layout of the IPv4 header. *)
From Stdlib Require Import ZArith Lia Ascii String.
From stdpp Require Import base list strings numbers.
From S2P Require Import Prelude CProg.
Open Scope string_scope.
Open Scope list_scope.
Open Scope Z_scope.

(** What the program takes from its platform: the textual form of an IPv6 address ([inet_ntop]
    with [AF_INET6]), the protocol database ([getprotobynumber], the [p_name] of the entry if
    there is one), the mask of the fragment offset in [ip6f_offlg] ([IP6F_OFF_MASK] of
    netinet/ip6.h: 0xfff8 on big-endian hosts, 0xf8ff on little-endian ones), and the order in
    which the compiler evaluates the arguments of a call, which C leaves open. *)
Class Libc : Type := {
  inet_ntop6 : list Z -> string;
  getprotobynumber : Z -> option string;
  IP6F_OFF_MASK : Z;
  args_right_to_left : bool
}.

(** A concrete platform for the examples: IPv6 addresses as colon-separated bytes, three known
    protocols, a little-endian host, arguments evaluated left to right. *)
Definition demo_libc : Libc := {|
  inet_ntop6 := fun b => join_with ":" (map uhex b);
  getprotobynumber := fun n =>
    if n =? 1 then Some "icmp" else if n =? 6 then Some "tcp" else if n =? 17 then Some "udp" else None;
  IP6F_OFF_MASK := 0xf8ff;
  args_right_to_left := false
|}.

(** ** struct tok and code2str *)

Record tok : Type := Tok { action : Z; descr : string }.

(** The [{ 0, NULL }] entry that ends every table is the end of the list. *)
Fixpoint code2str (trans : list tok) (unknown : string) (act : Z) : string :=
  match trans with
  | [] => unknown
  | t :: rest => if act =? action t then descr t else code2str rest unknown act
  end.

Lemma code2str_unknown trans unknown act :
  Forall (fun t => action t <> act) trans -> code2str trans unknown act = unknown.
Proof.
  induction 1 as [|t l Ht _ IH]; cbn; [done|].
  by rewrite (proj2 (Z.eqb_neq _ _)) by congruence.
Qed.

Lemma code2str_first pre t post unknown :
  Forall (fun t' => action t' <> action t) pre ->
  code2str (pre ++ t :: post) unknown (action t) = descr t.
Proof.
  induction 1 as [|t' l Ht _ IH]; cbn; [by rewrite Z.eqb_refl|].
  by rewrite (proj2 (Z.eqb_neq _ _)) by congruence.
Qed.

(** Whatever the code, the answer is the fallback or an entry of the table. *)
Lemma code2str_cases trans unknown act (P : string -> Prop) :
  P unknown -> Forall (fun t => P (descr t)) trans -> P (code2str trans unknown act).
Proof. intros Hu. induction 1; cbn; [done|]. by destruct (_ =? _). Qed.

(** ** Big-endian extraction *)

Definition EXTRACT_16BITS (p : packet) (off : Z) : M Z :=
  a ← rd8 p off; b ← rd8 p (off + 1); mret (a * 256 + b).

Definition EXTRACT_32BITS (p : packet) (off : Z) : M Z :=
  a ← EXTRACT_16BITS p off; b ← EXTRACT_16BITS p (off + 2); mret (a * 65536 + b).

Definition be16_at (p : packet) (off : Z) : Z := byte_at p off * 256 + byte_at p (off + 1).
Definition be32_at (p : packet) (off : Z) : Z := be16_at p off * 65536 + be16_at p (off + 2).

Lemma be16_range p off : 0 <= be16_at p off < 65536.
Proof. unfold be16_at. pose proof (byte_at_range p off). pose proof (byte_at_range p (off + 1)). lia. Qed.

Lemma be32_range p off : 0 <= be32_at p off < 4294967296.
Proof. unfold be32_at. pose proof (be16_range p off). pose proof (be16_range p (off + 2)). lia. Qed.

Lemma extract16_ok p off s :
  0 <= off -> off + 2 <= plen p -> EXTRACT_16BITS p off s = Ok (be16_at p off, s).
Proof. intros. unfold EXTRACT_16BITS. by rewrite !bind_rd8 by lia. Qed.

Lemma bind_extract16 {B} p off (k : Z -> M B) s :
  0 <= off -> off + 2 <= plen p -> (EXTRACT_16BITS p off ≫= k) s = k (be16_at p off) s.
Proof. intros. apply bind_ok. by apply extract16_ok. Qed.

Lemma extract32_ok p off s :
  0 <= off -> off + 4 <= plen p -> EXTRACT_32BITS p off s = Ok (be32_at p off, s).
Proof. intros. unfold EXTRACT_32BITS. by rewrite !bind_extract16 by lia. Qed.

Lemma bind_extract32 {B} p off (k : Z -> M B) s :
  0 <= off -> off + 4 <= plen p -> (EXTRACT_32BITS p off ≫= k) s = k (be32_at p off) s.
Proof. intros. apply bind_ok. by apply extract32_ok. Qed.

Lemma nofuel_extract16 p off : nofuel (EXTRACT_16BITS p off).
Proof. unfold EXTRACT_16BITS. eauto with fuel. Qed.
Lemma nofuel_extract32 p off : nofuel (EXTRACT_32BITS p off).
Proof. unfold EXTRACT_32BITS. eauto using nofuel_extract16 with fuel. Qed.
#[export] Hint Resolve nofuel_extract16 nofuel_extract32 : fuel.

(** The dotted-quad text of four address bytes ([inet_ntoa]). *)
Definition inet_ntoa (b : list Z) : string :=
  match b with
  | [b0; b1; b2; b3] => udec b0 +:+ "." +:+ udec b1 +:+ "." +:+ udec b2 +:+ "." +:+ udec b3
  | _ => ""
  end.

Definition rd_in_addr (p : packet) (off : Z) : M string :=
  b ← rd_bytes p off 4; mret (inet_ntoa b).

Definition rd_in6_addr `{Libc} (p : packet) (off : Z) : M string :=
  b ← rd_bytes p off 16; mret (inet_ntop6 b).

Lemma bind_in_addr {B} p off (k : string -> M B) s :
  0 <= off -> off + 4 <= plen p ->
  (rd_in_addr p off ≫= k) s = k (inet_ntoa (bytes_at p off 4)) s.
Proof. intros. apply bind_ok. unfold rd_in_addr. by rewrite bind_rd_bytes by lia. Qed.

Lemma bind_in6_addr `{Libc} {B} p off (k : string -> M B) s :
  0 <= off -> off + 16 <= plen p ->
  (rd_in6_addr p off ≫= k) s = k (inet_ntop6 (bytes_at p off 16)) s.
Proof. intros. apply bind_ok. unfold rd_in6_addr. by rewrite bind_rd_bytes by lia. Qed.

Lemma nofuel_in_addr p off : nofuel (rd_in_addr p off).
Proof. unfold rd_in_addr. eauto with fuel. Qed.
Lemma nofuel_in6_addr `{Libc} p off : nofuel (rd_in6_addr p off).
Proof. unfold rd_in6_addr. eauto with fuel. Qed.
#[export] Hint Resolve nofuel_in_addr nofuel_in6_addr : fuel.

Lemma bytes_at_nonneg p off n : Forall (fun b => 0 <= b) (bytes_at p off n).
Proof. revert off. induction n as [|n IH]; intros off; cbn; constructor; [apply byte_at_range | apply IH]. Qed.

Lemma inet_ntoa_no_comma p off : has_char "," (inet_ntoa (bytes_at p off 4)) = false.
Proof.
  unfold inet_ntoa. cbn [bytes_at]. rewrite !has_char_app.
  rewrite !udec_no_char by (done || apply byte_at_range). done.
Qed.

#[global] Arguments code2str : simpl never.
#[global] Arguments inet_ntoa : simpl never.

(** ** Protocol numbers (ipproto.h) *)

Definition IPPROTO_HOPOPTS : Z := 0.
Definition IPPROTO_ICMP : Z := 1.
Definition IPPROTO_IGMP : Z := 2.
Definition IPPROTO_IPV4 : Z := 4.
Definition IPPROTO_TCP : Z := 6.
Definition IPPROTO_EGP : Z := 8.
Definition IPPROTO_PIGP : Z := 9.
Definition IPPROTO_UDP : Z := 17.
Definition IPPROTO_DCCP : Z := 33.
Definition IPPROTO_IPV6 : Z := 41.
Definition IPPROTO_ROUTING : Z := 43.
Definition IPPROTO_FRAGMENT : Z := 44.
Definition IPPROTO_RSVP : Z := 46.
Definition IPPROTO_GRE : Z := 47.
Definition IPPROTO_ESP : Z := 50.
Definition IPPROTO_AH : Z := 51.
Definition IPPROTO_MOBILE : Z := 55.
Definition IPPROTO_ICMPV6 : Z := 58.
Definition IPPROTO_DSTOPTS : Z := 60.
Definition IPPROTO_MOBILITY_OLD : Z := 62.
Definition IPPROTO_EIGRP : Z := 88.
Definition IPPROTO_OSPF : Z := 89.
Definition IPPROTO_PIM : Z := 103.
Definition IPPROTO_IPCOMP : Z := 108.
Definition IPPROTO_VRRP : Z := 112.
Definition IPPROTO_CARP : Z := 112.
Definition IPPROTO_PGM : Z := 113.
Definition IPPROTO_SCTP : Z := 132.
Definition IPPROTO_MOBILITY : Z := 135.
Definition IPPROTO_PFSYNC : Z := 240.   (* netinet/in.h *)

Definition ipproto_values : list tok := [
  Tok IPPROTO_HOPOPTS "Options"; Tok IPPROTO_ICMP "ICMP"; Tok IPPROTO_IGMP "IGMP";
  Tok IPPROTO_IPV4 "IPIP"; Tok IPPROTO_TCP "TCP"; Tok IPPROTO_EGP "EGP";
  Tok IPPROTO_PIGP "IGRP"; Tok IPPROTO_UDP "UDP"; Tok IPPROTO_DCCP "DCCP";
  Tok IPPROTO_IPV6 "IPv6"; Tok IPPROTO_ROUTING "Routing"; Tok IPPROTO_FRAGMENT "Fragment";
  Tok IPPROTO_RSVP "RSVP"; Tok IPPROTO_GRE "GRE"; Tok IPPROTO_ESP "ESP"; Tok IPPROTO_AH "AH";
  Tok IPPROTO_MOBILE "Mobile IP"; Tok IPPROTO_ICMPV6 "ICMPv6";
  Tok IPPROTO_MOBILITY_OLD "Mobile IP (old)"; Tok IPPROTO_EIGRP "EIGRP";
  Tok IPPROTO_OSPF "OSPF"; Tok IPPROTO_PIM "PIM"; Tok IPPROTO_IPCOMP "Compressed IP";
  Tok IPPROTO_VRRP "VRRP"; Tok IPPROTO_PGM "PGM"; Tok IPPROTO_SCTP "SCTP";
  Tok IPPROTO_MOBILITY "Mobility"; Tok IPPROTO_CARP "CARP"; Tok IPPROTO_PFSYNC "pfsync" ].

(** ** The IPv4 header (struct ip of netinet/ip.h, 20 bytes) *)

Definition sizeof_ip : Z := 20.
Definition off_ip_tos : Z := 1.
Definition off_ip_len : Z := 2.
Definition off_ip_id : Z := 4.
Definition off_ip_off : Z := 6.
Definition off_ip_ttl : Z := 8.
Definition off_ip_p : Z := 9.
Definition off_ip_src : Z := 12.
Definition off_ip_dst : Z := 16.

(** The two nibbles of the first byte: [ip_v] the high one, [ip_hl] the low one. *)
Definition IP_V (p : packet) (ip : Z) : M Z := b ← rd8 p ip; mret (Z.shiftr b 4).
Definition IP_HL (p : packet) (ip : Z) : M Z := b ← rd8 p ip; mret (Z.land b 15).

Definition ip_v_at (p : packet) (ip : Z) : Z := Z.shiftr (byte_at p ip) 4.
Definition ip_hl_at (p : packet) (ip : Z) : Z := Z.land (byte_at p ip) 15.

Lemma ip_v_range p ip : 0 <= ip_v_at p ip < 16.
Proof.
  unfold ip_v_at. rewrite Z.shiftr_div_pow2 by lia. pose proof (byte_at_range p ip).
  change (2 ^ 4) with 16. split; [apply Z.div_pos | apply Z.div_lt_upper_bound]; lia.
Qed.

Lemma ip_hl_range p ip : 0 <= ip_hl_at p ip < 16.
Proof.
  unfold ip_hl_at. change 15 with (2 ^ 4 - 1). rewrite land_pow2_mod by lia.
  apply Z.mod_pos_bound. lia.
Qed.

Lemma bind_IP_V {B} p ip (k : Z -> M B) s :
  0 <= ip < plen p -> (IP_V p ip ≫= k) s = k (ip_v_at p ip) s.
Proof. intros. apply bind_ok. unfold IP_V. by rewrite bind_rd8 by lia. Qed.

Lemma bind_IP_HL {B} p ip (k : Z -> M B) s :
  0 <= ip < plen p -> (IP_HL p ip ≫= k) s = k (ip_hl_at p ip) s.
Proof. intros. apply bind_ok. unfold IP_HL. by rewrite bind_rd8 by lia. Qed.

Lemma nofuel_IP_HL_bind {B} p ip (k : Z -> M B) :
  nofuel (k (ip_hl_at p ip)) -> nofuel (IP_HL p ip ≫= k).
Proof.
  intros Hk s. unfold IP_HL. rewrite <- bind_assoc. revert s.
  apply nofuel_rd8_bind. intros _ s. apply Hk.
Qed.

Lemma nofuel_IP_V p ip : nofuel (IP_V p ip).
Proof. unfold IP_V. eauto with fuel. Qed.
Lemma nofuel_IP_HL p ip : nofuel (IP_HL p ip).
Proof. unfold IP_HL. eauto with fuel. Qed.
#[export] Hint Resolve nofuel_IP_V nofuel_IP_HL : fuel.

(** ** Printing values that are in range

    The conversions reduce their argument to the width of the type; on values of packet fields
    that reduction does nothing. *)
Lemma sdec_nonneg z : 0 <= z -> sdec z = udec z.
Proof. intros. unfold sdec. by rewrite (proj2 (Z.ltb_ge _ _)). Qed.

Lemma u32_be16 p off : u32 (be16_at p off) = be16_at p off.
Proof. apply u32_small. pose proof (be16_range p off). lia. Qed.
Lemma u32_be32 p off : u32 (be32_at p off) = be32_at p off.
Proof. apply u32_small. pose proof (be32_range p off). lia. Qed.
Lemma u32_byte p off : u32 (byte_at p off) = byte_at p off.
Proof. apply u32_small. pose proof (byte_at_range p off). lia. Qed.
Lemma i32_be16 p off : sdec (i32 (be16_at p off)) = udec (be16_at p off).
Proof. pose proof (be16_range p off). rewrite i32_small, sdec_nonneg by lia. done. Qed.
Lemma i32_byte p off : sdec (i32 (byte_at p off)) = udec (byte_at p off).
Proof. pose proof (byte_at_range p off). rewrite i32_small, sdec_nonneg by lia. done. Qed.
Lemma u32_ip_v p off : u32 (ip_v_at p off) = ip_v_at p off.
Proof. apply u32_small. pose proof (ip_v_range p off). lia. Qed.

Create Rewrite HintDb narrow.
#[export] Hint Rewrite u32_be16 u32_be32 u32_byte i32_be16 i32_byte u32_ip_v pad0_0 : narrow.

Lemma bind_if_printf {B} (b : bool) f1 a1 t1 f2 a2 t2 (k : unit -> M B) s :
  format f1 a1 = Some t1 -> format f2 a2 = Some t2 ->
  ((if b then sbuf_printf f1 a1 else sbuf_printf f2 a2) ≫= k) s
  = k tt (s +:+ (if b then t1 else t2)).
Proof. intros. by destruct b; erewrite bind_printf. Qed.

Lemma bind_if_only {B} (b : bool) f a t (k : unit -> M B) s :
  format f a = Some t ->
  ((if b then sbuf_printf f a else mret tt) ≫= k) s = k tt (s +:+ (if b then t else "")).
Proof. intros. destruct b; [by erewrite bind_printf|]. rewrite append_nil_r. by apply bind_ok. Qed.

(** ** Symbolic execution

    [run1] performs the next step of a program at the head of an equation's left-hand side,
    with the offsets left to [lia]. *)
Ltac run1 :=
  first
    [ rewrite bind_rd8 by lia
    | rewrite bind_extract16 by lia
    | rewrite bind_extract32 by lia
    | rewrite bind_in_addr by lia
    | rewrite bind_in6_addr by lia
    | rewrite bind_IP_V by lia
    | rewrite bind_IP_HL by lia
    | rewrite bind_rd_bytes by lia
    | erewrite bind_printf by (cbn; reflexivity)
    | erewrite bind_if_printf by (cbn; reflexivity)
    | erewrite bind_if_only by (cbn; reflexivity) ].
Ltac run := repeat run1.

(** ** Memory safety of printers

    [yields E m P]: from every buffer, [m] either finishes, having only appended to the buffer,
    with a result that satisfies [P], or raises a fault that [E] allows.  With [no_fault] this is
    memory safety (and termination); with [not_fuel] it is termination for every packet.
    [prints m] is the former for a program without a result. *)
Definition yields {A} (E : fault -> Prop) (m : M A) (P : A -> Prop) : Prop :=
  forall s, match m s with
            | Ok (a, s') => (exists t, s' = s +:+ t) /\ P a
            | Fail f => E f
            end.

Abbreviation prints m := (yields no_fault m (fun _ : unit => True)).

Section Yields.
Context {A : Type} (E : fault -> Prop) (P : A -> Prop).

Lemma yields_ret (a : A) : P a -> yields E (mret a) P.
Proof. intros H s. split; [|done]. exists "". by rewrite append_nil_r. Qed.

Lemma yields_seq {B} (m : M B) (k : B -> M A) (Q : B -> Prop) :
  yields E m Q -> (forall b, Q b -> yields E (k b) P) -> yields E (m ≫= k) P.
Proof.
  intros Hm Hk s. unfold mbind, M_bind. specialize (Hm s).
  destruct (m s) as [[b s']|f]; [|done]. destruct Hm as [[t ->] Hb].
  specialize (Hk b Hb (s +:+ t)). destruct (k b (s +:+ t)) as [[a s'']|f]; [|done].
  destruct Hk as [[u ->] Ha]. split; [|done]. exists (t +:+ u). apply append_assoc.
Qed.

Lemma yields_printf f args (k : unit -> M A) :
  is_Some (format f args) -> yields E (k tt) P -> yields E (sbuf_printf f args ≫= k) P.
Proof.
  intros [t Ht] Hk. apply yields_seq with (fun _ => True); [|by intros []].
  intros s. unfold sbuf_printf. rewrite Ht. split; [by exists t | done].
Qed.

Lemma yields_rd8 p off (k : Z -> M A) :
  (0 <= off < plen p -> yields E (k (byte_at p off)) P) ->
  (~ (0 <= off < plen p) -> E (Oob off)) -> yields E (rd8 p off ≫= k) P.
Proof.
  intros Hk HE s. destruct (decide (0 <= off < plen p)) as [Hin|Hout].
  - rewrite bind_rd8 by done. by apply Hk.
  - unfold mbind, M_bind. rewrite rd8_oob by done. auto.
Qed.
End Yields.

Lemma yields_last E f args : is_Some (format f args) -> yields E (sbuf_printf f args) (fun _ => True).
Proof. intros [t Ht] s. unfold sbuf_printf. rewrite Ht. split; [by exists t | done]. Qed.

Lemma yields_weaken {A} E (m : M A) (P Q : A -> Prop) :
  yields E m P -> (forall a, P a -> Q a) -> yields E m Q.
Proof. intros H HPQ s. specialize (H s). destruct (m s) as [[a s']|f]; [|done]. destruct H. auto. Qed.

Lemma yields_nofuel {A} (m : M A) P : yields not_fuel m P -> nofuel m.
Proof. intros H s Es. specialize (H s). rewrite Es in H. by apply H. Qed.

Lemma prints_run (m : M unit) s : prints m -> exists t, m s = Ok (tt, s +:+ t).
Proof.
  intros H. specialize (H s). destruct (m s) as [[[] s']|f]; [|done].
  destruct H as [[t ->] _]. by exists t.
Qed.

(** Reads of several bytes: inside the packet, or any out-of-bounds fault is allowed. *)
Lemma yields_extract16 {A} E (P : A -> Prop) p off (k : Z -> M A) :
  (0 <= off /\ off + 2 <= plen p) \/ (forall o, E (Oob o)) ->
  yields E (k (be16_at p off)) P -> yields E (EXTRACT_16BITS p off ≫= k) P.
Proof.
  intros HE Hk. apply yields_seq with (fun v => v = be16_at p off); [|by intros ? ->].
  unfold EXTRACT_16BITS. repeat (apply yields_rd8; [intros _|destruct HE; [lia|auto]]).
  by apply yields_ret.
Qed.

Lemma yields_extract32 {A} E (P : A -> Prop) p off (k : Z -> M A) :
  (0 <= off /\ off + 4 <= plen p) \/ (forall o, E (Oob o)) ->
  yields E (k (be32_at p off)) P -> yields E (EXTRACT_32BITS p off ≫= k) P.
Proof.
  intros HE Hk. apply yields_seq with (fun v => v = be32_at p off); [|by intros ? ->].
  unfold EXTRACT_32BITS.
  repeat (apply yields_extract16; [destruct HE; [left; lia | by right]|]). by apply yields_ret.
Qed.

Section YieldsReads.
Context {A : Type} (E : fault -> Prop) (P : A -> Prop) (p : packet) (off : Z).

Lemma yields_rd_bytes n : forall o (k : list Z -> M A),
  (0 <= o /\ o + Z.of_nat n <= plen p) \/ (forall o, E (Oob o)) ->
  (forall b, yields E (k b) P) -> yields E (rd_bytes p o n ≫= k) P.
Proof.
  intros o k HE Hk. apply yields_seq with (fun _ => True); [|auto]. clear k Hk.
  revert o HE. induction n as [|n IH]; intros o HE; cbn [rd_bytes]; [by apply yields_ret|].
  apply yields_rd8; [intros Hin|destruct HE; [lia|auto]].
  apply yields_seq with (fun _ => True); [|intros; by apply yields_ret].
  apply IH. destruct HE; [left; lia | by right].
Qed.

Lemma yields_in_addr (k : string -> M A) :
  (0 <= off /\ off + 4 <= plen p) \/ (forall o, E (Oob o)) ->
  (forall a, yields E (k a) P) -> yields E (rd_in_addr p off ≫= k) P.
Proof.
  intros HE Hk s. unfold rd_in_addr.
  rewrite <- (bind_assoc (rd_bytes p off 4) (fun b => mret (inet_ntoa b)) k).
  revert s. apply yields_rd_bytes; [done|]. intros b s. apply Hk.
Qed.

Lemma yields_in6_addr `{Libc} (k : string -> M A) :
  (0 <= off /\ off + 16 <= plen p) \/ (forall o, E (Oob o)) ->
  (forall a, yields E (k a) P) -> yields E (rd_in6_addr p off ≫= k) P.
Proof.
  intros HE Hk s. unfold rd_in6_addr.
  rewrite <- (bind_assoc (rd_bytes p off 16) (fun b => mret (inet_ntop6 b)) k).
  revert s. apply yields_rd_bytes; [done|]. intros b s. apply Hk.
Qed.

Lemma yields_IP_HL (k : Z -> M A) :
  (0 <= off < plen p) \/ (forall o, E (Oob o)) ->
  yields E (k (ip_hl_at p off)) P -> yields E (IP_HL p off ≫= k) P.
Proof.
  intros HE Hk. apply yields_seq with (fun v => v = ip_hl_at p off); [|by intros ? ->].
  apply yields_rd8; [intros _; by apply yields_ret | intros; destruct HE; [lia|auto]].
Qed.

Lemma yields_IP_V (k : Z -> M A) :
  (0 <= off < plen p) \/ (forall o, E (Oob o)) ->
  yields E (k (ip_v_at p off)) P -> yields E (IP_V p off ≫= k) P.
Proof.
  intros HE Hk. apply yields_seq with (fun v => v = ip_v_at p off); [|by intros ? ->].
  apply yields_rd8; [intros _; by apply yields_ret | intros; destruct HE; [lia|auto]].
Qed.
End YieldsReads.

(** Walks through a printer; the bounds of the reads are left to [lia] (or to a hypothesis that
    allows out-of-bounds faults), and a test becomes a hypothesis of both branches. *)
Ltac yields_bounds :=
  first [ left; lia
        | right; assumption
        | match goal with H : _ \/ (forall o, _ (Oob o)) |- _ =>
            destruct H; [left; lia | right; assumption] end ].
Ltac yields_oob :=
  intros;
  first [ exfalso; lia
        | match goal with H : forall o, _ (Oob o) |- _ => apply H end
        | match goal with H : _ \/ (forall o, _ (Oob o)) |- _ =>
            destruct H as [?|H]; [exfalso; lia | apply H] end ].
Ltac yields_step :=
  lazymatch goal with
  | |- yields _ (rd8 _ _ ≫= _) _ => apply yields_rd8; [intros _|yields_oob]
  | |- yields _ (EXTRACT_16BITS _ _ ≫= _) _ => apply yields_extract16; [yields_bounds|]
  | |- yields _ (EXTRACT_32BITS _ _ ≫= _) _ => apply yields_extract32; [yields_bounds|]
  | |- yields _ (rd_in_addr _ _ ≫= _) _ => apply yields_in_addr; [yields_bounds|intros ?]
  | |- yields _ (rd_in6_addr _ _ ≫= _) _ => apply yields_in6_addr; [yields_bounds|intros ?]
  | |- yields _ (IP_HL _ _ ≫= _) _ => apply yields_IP_HL; [yields_bounds|]
  | |- yields _ (IP_V _ _ ≫= _) _ => apply yields_IP_V; [yields_bounds|]
  | |- yields _ (sbuf_printf _ _ ≫= _) _ => apply yields_printf; [try (eexists; cbn; reflexivity)|]
  | |- yields _ (sbuf_printf _ _) _ => apply yields_last; try (eexists; cbn; reflexivity)
  | |- yields _ (_ ≫= _) _ => apply yields_seq with (fun _ => True); [|intros ? _]
  | |- yields _ (mret _) _ => apply yields_ret
  | |- yields _ (if ?b then _ else _) _ => destruct b eqn:?
  | |- yields _ (let _ := _ in _) _ => cbv zeta
  end.
Ltac yields_steps := repeat yields_step; try exact I; try done.
