(* ===== verification/FlTcp.v ===== *)
(** filterlog, print-tcp.c: the TCP printer and its option loop, the columns it produces for a
    well-formed segment, and how far the option loop can read. *)
From Stdlib Require Import ZArith Lia Ascii String.
From stdpp Require Import base list strings numbers.
From S2P Require Import Prelude CProg FlCommon.
Open Scope string_scope.
Open Scope list_scope.
Open Scope Z_scope.

(** ** Constants *)

Definition TCPOPT_EOL : Z := 0.
Definition TCPOPT_NOP : Z := 1.
Definition TCPOPT_MAXSEG : Z := 2.
Definition TCPOPT_WSCALE : Z := 3.
Definition TCPOPT_SACKOK : Z := 4.
Definition TCPOPT_SACK : Z := 5.
Definition TCPOPT_ECHO : Z := 6.
Definition TCPOPT_ECHOREPLY : Z := 7.
Definition TCPOPT_TIMESTAMP : Z := 8.
Definition TCPOPT_CC : Z := 11.
Definition TCPOPT_CCNEW : Z := 12.
Definition TCPOPT_CCECHO : Z := 13.
Definition TCPOPT_SIGNATURE : Z := 19.
Definition TCPOPT_SCPS : Z := 20.
Definition TCPOPT_UTO : Z := 28.
Definition TCPOPT_AUTH : Z := 29.
Definition TCP_SIGLEN : Z := 16.

Definition ZEROLENOPT (o : Z) : bool := (o =? TCPOPT_EOL) || (o =? TCPOPT_NOP).

Definition tcp_option_values : list tok := [
  Tok TCPOPT_EOL "eol"; Tok TCPOPT_NOP "nop"; Tok TCPOPT_MAXSEG "mss";
  Tok TCPOPT_WSCALE "wscale"; Tok TCPOPT_SACKOK "sackOK"; Tok TCPOPT_SACK "sack";
  Tok TCPOPT_ECHO "echo"; Tok TCPOPT_ECHOREPLY "echoreply"; Tok TCPOPT_TIMESTAMP "TS";
  Tok TCPOPT_CC "cc"; Tok TCPOPT_CCNEW "ccnew"; Tok TCPOPT_CCECHO "";
  Tok TCPOPT_SIGNATURE "md5"; Tok TCPOPT_SCPS "scps"; Tok TCPOPT_UTO "uto";
  Tok TCPOPT_AUTH "enhanced auth" ].

(** struct tcphdr of netinet/tcp.h, 20 bytes; [th_off] is the high nibble of byte 12. *)
Definition sizeof_tcphdr : Z := 20.
Definition off_th_sport : Z := 0.
Definition off_th_dport : Z := 2.
Definition off_th_seq : Z := 4.
Definition off_th_ack : Z := 8.
Definition off_th_off : Z := 12.
Definition off_th_flags : Z := 13.
Definition off_th_win : Z := 14.
Definition off_th_urp : Z := 18.

Definition TH_FIN : Z := 1.
Definition TH_SYN : Z := 2.
Definition TH_RST : Z := 4.
Definition TH_PUSH : Z := 8.
Definition TH_ACK : Z := 16.
Definition TH_URG : Z := 32.
Definition TH_ECE : Z := 64.
Definition TH_CWR : Z := 128.

(** ** The option loop *)

(** The [switch (opt)] that sets [datalen]; [len - 2] is an unsigned subtraction. *)
Definition tcp_opt_datalen (opt len : Z) : Z :=
  if (opt =? TCPOPT_MAXSEG) || (opt =? TCPOPT_UTO) then 2
  else if opt =? TCPOPT_WSCALE then 1
  else if (opt =? TCPOPT_CC) || (opt =? TCPOPT_CCNEW) || (opt =? TCPOPT_CCECHO)
          || (opt =? TCPOPT_ECHO) || (opt =? TCPOPT_ECHOREPLY) then 4
  else if opt =? TCPOPT_TIMESTAMP then 8
  else if opt =? TCPOPT_SIGNATURE then TCP_SIGLEN
  else if (opt =? TCPOPT_EOL) || (opt =? TCPOPT_NOP) || (opt =? TCPOPT_SACKOK) then 0
  else u32 (len - 2).

(** [while (hlen > 0)]: [cp] and [hlen] are the C variables, [ch] is ['\0'] ([false]) or [';']
    ([true]).  [goto bad] is the [if] that prints the error text. *)
Fixpoint tcp_options (p : packet) (fuel : nat) (cp hlen : Z) (ch : bool) : M unit :=
  match fuel with
  | O => fail NoFuel
  | S k =>
      if hlen <=? 0 then mret tt
      else
        (if ch then sbuf_printf "%c" [AInt 59] else mret tt);;
        opt ← rd8 p cp;
        if ZEROLENOPT opt then
          let hlen1 := u32 (hlen - 1) in
          sbuf_printf "%s" [AStr (code2str tcp_option_values "Unknown Option %u" opt)];;
          let datalen := tcp_opt_datalen opt 1 in
          if opt =? TCPOPT_EOL then mret tt
          else tcp_options p k (cp + 1 + datalen) (u32 (hlen1 - datalen)) true
        else
          len ← rd8 p (cp + 1);
          if (len <? 2) || (hlen <? len) then
            sbuf_printf "[bad opt]," [];;
            (if ch then sbuf_printf ">," [] else mret tt)
          else
            let hlen1 := u32 (u32 (hlen - 1) - 1) in
            sbuf_printf "%s" [AStr (code2str tcp_option_values "Unknown Option %u" opt)];;
            let datalen := tcp_opt_datalen opt len in
            tcp_options p k (cp + 2 + datalen) (u32 (hlen1 - datalen)) true
  end.

(** ** tcp_print *)

Definition flag_str (flags mask : Z) (s : string) : arg :=
  AStr (if c_true (Z.land flags mask) then s else "").

Definition tcp_print (p : packet) (bp length bp2 : Z) : M unit :=
  th_off ← rd8 p (bp + off_th_off);
  let hlen := Z.land (Z.shiftr th_off 4) 15 * 4 in
  if hlen <? sizeof_tcphdr then
    sbuf_printf "errormsg='tcp %d [bad hdr length %u - too short < %lu]',"
      [AInt (u32 (length - hlen)); AInt hlen; AInt sizeof_tcphdr]
  else
    _ ← IP_V p bp2;
    sport ← EXTRACT_16BITS p (bp + off_th_sport);
    dport ← EXTRACT_16BITS p (bp + off_th_dport);
    sbuf_printf "%u,%u,%d," [AInt sport; AInt dport; AInt (u32 (length - hlen))];;
    seq ← EXTRACT_32BITS p (bp + off_th_seq);
    ack ← EXTRACT_32BITS p (bp + off_th_ack);
    win ← EXTRACT_16BITS p (bp + off_th_win);
    urp ← EXTRACT_16BITS p (bp + off_th_urp);
    flags ← rd8 p (bp + off_th_flags);
    sbuf_printf "%s%s%s"
      [flag_str flags TH_FIN "F"; flag_str flags TH_SYN "S"; flag_str flags TH_RST "R"];;
    sbuf_printf "%s%s%s"
      [flag_str flags TH_PUSH "P"; flag_str flags TH_ACK "A"; flag_str flags TH_URG "U"];;
    sbuf_printf "%s%s," [flag_str flags TH_ECE "E"; flag_str flags TH_CWR "C"];;
    if length <? hlen then
      sbuf_printf "errormsg='[bad hdr length %u - too long, > %u]'," [AInt hlen; AInt length]
    else
      let length := u32 (length - hlen) in
      (if (0 <? length) || c_true (Z.land flags (Z.lor (Z.lor TH_SYN TH_FIN) TH_RST)) then
         if 0 <? length then
           sbuf_printf "%u:%u," [AInt seq; AInt (u32 (seq + length))]
         else sbuf_printf "%u," [AInt seq]
       else sbuf_printf "," []);;
      (if c_true (Z.land flags TH_ACK) then sbuf_printf "%u," [AInt ack]
       else sbuf_printf "," []);;
      sbuf_printf "%d," [AInt win];;
      (if c_true (Z.land flags TH_URG) then sbuf_printf "%d," [AInt urp]
       else sbuf_printf "," []);;
      if sizeof_tcphdr <? hlen then
        tcp_options p (S (List.length p)) (bp + sizeof_tcphdr) (hlen - sizeof_tcphdr) false
      else mret tt.

(** ** Termination *)

Lemma tcp_opt_datalen_nonneg opt len : 0 <= tcp_opt_datalen opt len.
Proof. unfold tcp_opt_datalen, TCP_SIGLEN. pose proof (u32_range (len - 2)). repeat case_match; lia. Qed.

(** Every turn of the loop moves [cp] forward, and a turn beyond the packet reads out of
    bounds: the loop ends within the captured length, whatever the option bytes are. *)
Lemma nofuel_tcp_options p fuel cp hlen ch :
  0 <= cp -> plen p - cp < Z.of_nat fuel -> (0 < fuel)%nat ->
  nofuel (tcp_options p fuel cp hlen ch).
Proof.
  revert cp hlen ch. induction fuel as [|k IH]; intros cp hlen ch Hcp Hf Hp; [lia|].
  cbn [tcp_options]. apply nofuel_if; [eauto with fuel|].
  apply nofuel_bind; [eauto with fuel|]. intros _.
  apply nofuel_rd8_bind. intros Hin. apply nofuel_if.
  - apply nofuel_bind; [eauto with fuel|]. intros _. apply nofuel_if; [eauto with fuel|].
    pose proof (tcp_opt_datalen_nonneg (byte_at p cp) 1). apply IH; lia.
  - apply nofuel_rd8_bind. intros _. apply nofuel_if; [eauto with fuel|].
    apply nofuel_bind; [eauto with fuel|]. intros _.
    pose proof (tcp_opt_datalen_nonneg (byte_at p cp) (byte_at p (cp + 1))). apply IH; lia.
Qed.

Lemma nofuel_tcp_print p bp length bp2 : 0 <= bp -> nofuel (tcp_print p bp length bp2).
Proof.
  intros Hbp. unfold tcp_print. nofuel_steps.
  apply nofuel_tcp_options; unfold plen, sizeof_tcphdr; lia.
Qed.

(** ** Well-formed options

    An option as the RFCs have it: kind and data, with a length octet unless the kind is EOL or
    NOP, and with the data length the kind prescribes. *)
Record topt : Type := TOpt { t_kind : Z; t_data : list Z }.

Definition topt_encode (o : topt) : list Z :=
  if ZEROLENOPT (t_kind o) then [t_kind o]
  else t_kind o :: (2 + Z.of_nat (length (t_data o))) :: t_data o.

Definition topt_wf (o : topt) : Prop :=
  t_kind o <> TCPOPT_EOL /\
  Z.of_nat (length (t_data o)) = tcp_opt_datalen (t_kind o) (2 + Z.of_nat (length (t_data o))).

Definition topt_name (o : topt) : string :=
  code2str tcp_option_values "Unknown Option %u" (t_kind o).

(** The option area: the options, then nothing or an EOL and whatever follows it. *)
Definition opts_area (opts : list topt) (pad : list Z) : list Z := flat_map topt_encode opts ++ pad.
Definition pad_wf (pad : list Z) : Prop := match pad with [] => True | b :: _ => b = TCPOPT_EOL end.
Definition pad_names (pad : list Z) : list string := match pad with [] => [] | _ => ["eol"] end.

Definition opts_names (opts : list topt) (pad : list Z) : list string :=
  map topt_name opts ++ pad_names pad.

(** The text of a list of names when a separator is due before the first one or not. *)
Fixpoint sep_names (ch : bool) (names : list string) : string :=
  match names with
  | [] => ""
  | n :: ns => (if ch then ";" else "") +:+ n +:+ sep_names true ns
  end.

Lemma sep_names_join names : sep_names false names = join_with ";" names.
Proof.
  assert (H : forall l, sep_names true l = match l with [] => "" | _ => String ";" (join_with ";" l) end).
  { induction l as [|n l IH]; [done|]. cbn [sep_names]. rewrite IH.
    destruct l; [by rewrite append_nil_r|]. done. }
  destruct names as [|n l]; [done|]. cbn [sep_names]. rewrite H.
  destruct l; [by rewrite append_nil_r|]. done.
Qed.

Lemma opts_area_len opts pad :
  (length opts + length pad <= length (opts_area opts pad))%nat.
Proof.
  unfold opts_area. rewrite length_app. enough (length opts <= length (flat_map topt_encode opts))%nat by lia.
  induction opts as [|o opts IH]; cbn [flat_map length]; [lia|]. rewrite length_app.
  enough (1 <= length (topt_encode o))%nat by lia. unfold topt_encode. case_match; cbn; lia.
Qed.

Lemma opts_area_cons o opts pad : opts_area (o :: opts) pad = topt_encode o ++ opts_area opts pad.
Proof. unfold opts_area. cbn [flat_map]. by rewrite app_assoc. Qed.

Lemma bind_sep (ch : bool) (k : unit -> M unit) s :
  ((if ch then sbuf_printf "%c" [AInt 59] else (mret tt : M unit)) ≫= k) s
  = k tt (s +:+ (if ch then ";" else "")).
Proof.
  destruct ch; [by erewrite bind_printf by reflexivity|].
  rewrite append_nil_r. by apply bind_ok.
Qed.

Definition sep_text (ch : bool) : string := if ch then ";" else "".

(** One turn of the loop on an option without a length octet, and on one with it. *)
Lemma tcp_options_nop p k cp hlen ch s :
  0 <= cp < plen p -> byte_at p cp = TCPOPT_NOP -> 0 < hlen < 2 ^ 31 ->
  tcp_options p (S k) cp hlen ch s
  = tcp_options p k (cp + 1) (hlen - 1) true (s +:+ sep_text ch +:+ "nop").
Proof.
  intros Hin Hb Hh. cbn [tcp_options]. rewrite (proj2 (Z.leb_gt _ _)) by lia.
  rewrite bind_sep, bind_rd8, Hb by done. change (ZEROLENOPT TCPOPT_NOP) with true.
  cbn iota beta zeta. erewrite bind_printf by reflexivity.
  change (TCPOPT_NOP =? TCPOPT_EOL) with false. cbn iota.
  change (tcp_opt_datalen TCPOPT_NOP 1) with 0.
  rewrite (u32_small (hlen - 1)), u32_small, !Z.sub_0_r, Z.add_0_r, append_assoc by lia. done.
Qed.

Lemma tcp_options_tlv p k cp hlen ch opt len s :
  0 <= cp -> cp + 1 < plen p -> byte_at p cp = opt -> byte_at p (cp + 1) = len ->
  ZEROLENOPT opt = false -> 2 <= len <= hlen -> hlen < 2 ^ 31 -> tcp_opt_datalen opt len = len - 2 ->
  tcp_options p (S k) cp hlen ch s
  = tcp_options p k (cp + len) (hlen - len) true
      (s +:+ sep_text ch +:+ code2str tcp_option_values "Unknown Option %u" opt).
Proof.
  intros H0 Hin Hb Hb' Hz Hl Hh Hd. cbn [tcp_options]. rewrite (proj2 (Z.leb_gt _ _)) by lia.
  rewrite bind_sep, bind_rd8, Hb, Hz by lia. cbn iota beta zeta. rewrite bind_rd8, Hb' by lia.
  rewrite (proj2 (Z.ltb_ge len 2)), (proj2 (Z.ltb_ge hlen len)) by lia.
  cbn iota beta zeta delta [orb]. erewrite bind_printf by reflexivity. rewrite Hd.
  rewrite (u32_small (hlen - 1)), (u32_small (hlen - 1 - 1)), u32_small by lia.
  rewrite append_nil_r, append_assoc. f_equal; lia.
Qed.

(** The option loop on a well-formed option area reads exactly the area and prints the names of
    the options, separated by semicolons, up to the first EOL. *)
Lemma tcp_options_wf p opts pad fuel cp hlen ch s :
  Forall topt_wf opts -> pad_wf pad ->
  has_bytes p cp (opts_area opts pad) ->
  hlen = Z.of_nat (length (opts_area opts pad)) -> hlen < 2 ^ 31 ->
  (length opts + length pad < fuel)%nat ->
  tcp_options p fuel cp hlen ch s = Ok (tt, s +:+ sep_names ch (opts_names opts pad)).
Proof.
  intros Hwf Hpad. revert fuel cp hlen ch s.
  induction Hwf as [|o opts [Hk Hd] Hwf IH]; intros fuel cp hlen ch s Hb Hl H31 Hf;
    (destruct fuel as [|fuel]; [lia|]).
  - destruct pad as [|b pad]; cbn in Hl; cbn [tcp_options].
    + subst hlen. cbn. by rewrite append_nil_r.
    + cbn in Hpad. subst b. rewrite (proj2 (Z.leb_gt _ _)) by lia.
      apply has_bytes_cons in Hb as (Hb1 & Hb2 & _).
      rewrite bind_sep, bind_rd8, Hb2 by done.
      change (ZEROLENOPT TCPOPT_EOL) with true. cbn iota beta.
      erewrite bind_printf by reflexivity. cbn. by rewrite append_assoc.
  - rewrite opts_area_cons in Hb, Hl. apply has_bytes_app in Hb as [Hb Hb'].
    rewrite length_app, Nat2Z.inj_add in Hl. cbn [length] in Hf.
    unfold opts_names. cbn [map app sep_names]. unfold topt_name at 1.
    destruct (ZEROLENOPT (t_kind o)) eqn:Hz.
    + assert (He : topt_encode o = [t_kind o]) by (unfold topt_encode; by rewrite Hz).
      rewrite He in Hl, Hb, Hb'. cbn [length] in Hl, Hb'. apply has_bytes_cons in Hb as (Hb1 & Hb2 & _).
      assert (Hnop : t_kind o = TCPOPT_NOP) by (apply orb_true_iff in Hz as [H|H]; lia).
      rewrite tcp_options_nop, IH by (done || lia). by rewrite Hnop, !append_assoc.
    + assert (He : topt_encode o = t_kind o :: (2 + Z.of_nat (length (t_data o))) :: t_data o)
        by (unfold topt_encode; by rewrite Hz).
      rewrite He in Hl, Hb, Hb'. cbn [length] in Hl, Hb'. rewrite !Nat2Z.inj_succ in Hl, Hb'.
      apply has_bytes_cons in Hb as (Hb1 & Hb2 & Hb). apply has_bytes_cons in Hb as (Hb3 & Hb4 & _).
      erewrite tcp_options_tlv by (done || lia). rewrite IH; [by rewrite !append_assoc| |lia..].
      by replace (cp + (2 + Z.of_nat (length (t_data o))))
        with (cp + Z.succ (Z.succ (Z.of_nat (length (t_data o))))) by lia.
Qed.

(** ** The columns of a TCP line *)

(** The letters of the flags that are set, in the order of their bits. *)
Definition tcp_flags_text (flags : Z) : string :=
  foldr (fun il acc => (if Z.testbit flags (fst il) then snd il else "") +:+ acc) ""
    [(0, "F"); (1, "S"); (2, "R"); (3, "P"); (4, "A"); (5, "U"); (6, "E"); (7, "C")].

Definition tcp_seq_column (seq len flags : Z) : string :=
  if 0 <? len then udec seq +:+ ":" +:+ udec (u32 (seq + len))
  else if Z.testbit flags 0 || Z.testbit flags 1 || Z.testbit flags 2 then udec seq else "".

(** Source port, destination port, data length, flags, sequence numbers, acknowledgement, window,
    urgent pointer and options. *)
Definition tcp_columns (p : packet) (bp len : Z) (opts : list topt) (pad : list Z) : list string :=
  let flags := byte_at p (bp + 13) in
  [ udec (be16_at p bp); udec (be16_at p (bp + 2)); udec len;
    tcp_flags_text flags;
    tcp_seq_column (be32_at p (bp + 4)) len flags;
    (if Z.testbit flags 4 then udec (be32_at p (bp + 8)) else "");
    udec (be16_at p (bp + 14));
    (if Z.testbit flags 5 then udec (be16_at p (bp + 18)) else "");
    join_with ";" (opts_names opts pad) ].

Lemma syn_fin_rst flags : 0 <= flags ->
  c_true (Z.land flags (Z.lor (Z.lor TH_SYN TH_FIN) TH_RST))
  = Z.testbit flags 0 || Z.testbit flags 1 || Z.testbit flags 2.
Proof.
  intros H. rewrite <- !(c_true_testbit flags) by lia.
  change (2 ^ 0) with TH_FIN. change (2 ^ 1) with TH_SYN. change (2 ^ 2) with TH_RST.
  unfold c_true. rewrite <- !negb_andb. f_equal.
  rewrite !Z.land_lor_distr_r.
  apply eq_iff_eq_true. rewrite !andb_true_iff, !Z.eqb_eq, !Z.lor_eq_0_iff. tauto.
Qed.

(** A segment whose header, options included, is captured and fits in the IP payload. *)
Record tcp_valid (p : packet) (bp length : Z) (opts : list topt) (pad : list Z) : Prop := {
  tv_bp : 0 <= bp;
  tv_hdr : bp + sizeof_tcphdr <= plen p;
  tv_off : Z.land (Z.shiftr (byte_at p (bp + off_th_off)) 4) 15 * 4
           = sizeof_tcphdr + Z.of_nat (List.length (opts_area opts pad));
  tv_len : sizeof_tcphdr + Z.of_nat (List.length (opts_area opts pad)) <= length < 2 ^ 31;
  tv_opts : Forall topt_wf opts;
  tv_pad : pad_wf pad;
  tv_bytes : has_bytes p (bp + sizeof_tcphdr) (opts_area opts pad)
}.

Lemma bind_seq_column (k : unit -> M unit) s (b : bool) seq len flags :
  0 <= len -> b = Z.testbit flags 0 || Z.testbit flags 1 || Z.testbit flags 2 ->
  0 <= seq < 2 ^ 32 ->
  ((if (0 <? len) || b then
      if 0 <? len then sbuf_printf "%u:%u," [AInt seq; AInt (u32 (seq + len))]
      else sbuf_printf "%u," [AInt seq]
    else sbuf_printf "," []) ≫= k) s
  = k tt (s +:+ tcp_seq_column seq len flags +:+ ",").
Proof.
  intros Hl -> Hs. unfold tcp_seq_column.
  assert (u32 (u32 (seq + len)) = u32 (seq + len)) as Hu by (apply u32_small, u32_range).
  destruct (0 <? len); cbn [orb]; [|case_match]; erewrite bind_printf by reflexivity;
    rewrite ?Hu, ?(u32_small seq) by lia; by str_norm.
Qed.

Lemma tcp_options_tail p bp opts pad s :
  Forall topt_wf opts -> pad_wf pad -> has_bytes p (bp + 20) (opts_area opts pad) ->
  Z.of_nat (length (opts_area opts pad)) < 2 ^ 31 ->
  (if 20 <? 20 + Z.of_nat (length (opts_area opts pad)) then
     tcp_options p (S (length p)) (bp + 20) (20 + Z.of_nat (length (opts_area opts pad)) - 20) false
   else mret tt) s = Ok (tt, s +:+ join_with ";" (opts_names opts pad)).
Proof.
  intros Hwf Hpad Hb Hn. pose proof (opts_area_len opts pad) as Hlen.
  pose proof Hb as (Hb1 & Hb2 & _). unfold plen in Hb2.
  destruct (Z.ltb_spec 20 (20 + Z.of_nat (length (opts_area opts pad)))).
  - rewrite <- sep_names_join. apply tcp_options_wf; try done; lia.
  - destruct opts, pad; cbn [length] in Hlen; try lia. by rewrite append_nil_r.
Qed.

Lemma tcp_print_ok p bp length bp2 opts pad s :
  tcp_valid p bp length opts pad -> 0 <= bp2 < plen p ->
  tcp_print p bp length bp2 s
  = Ok (tt, s +:+ join_with "," (tcp_columns p bp
        (length - sizeof_tcphdr - Z.of_nat (List.length (opts_area opts pad))) opts pad)).
Proof.
  intros [Hbp Hh Ho Hl Hwf Hpad Hb] Hbp2.
  unfold tcp_print, off_th_sport, off_th_dport, off_th_seq, off_th_ack, off_th_flags,
    off_th_win, off_th_urp, off_th_off in *.
  set (n := Z.of_nat (List.length (opts_area opts pad))) in *.
  assert (Hn : 0 <= n) by lia. unfold sizeof_tcphdr in *.
  run1. rewrite Ho, (proj2 (Z.ltb_ge _ _)) by lia. cbn iota. rewrite Z.add_0_r. run.
  pose proof (byte_at_range p (bp + 13)) as Hfl. set (fl := byte_at p (bp + 13)) in *.
  rewrite (proj2 (Z.ltb_ge _ _)) by lia. cbn iota.
  rewrite syn_fin_rst, (u32_small (length - _)) by lia.
  rewrite (bind_seq_column _ _ _ _ _ fl) by (done || lia || apply be32_range). run.
  unfold n. rewrite tcp_options_tail by (done || lia). fold n.
  unfold tcp_columns, tcp_flags_text. cbn [foldr fst snd]. fold fl.
  rewrite <- !(c_true_testbit fl) by lia.
  autorewrite with narrow. rewrite i32_small, sdec_nonneg by lia.
  replace (length - 20 - n) with (length - (20 + n)) by lia.
  do 2 f_equal. change (2 ^ 4) with TH_ACK. change (2 ^ 5) with TH_URG.
  destruct (c_true (Z.land fl TH_ACK)), (c_true (Z.land fl TH_URG)); by str_norm.
Qed.

(** The columns contain no comma, so a reader that cuts the text at commas finds them again. *)
Lemma opts_names_no_comma opts pad : has_char "," (join_with ";" (opts_names opts pad)) = false.
Proof.
  assert (Hn : Forall (fun n => has_char "," n = false) (opts_names opts pad)).
  { apply Forall_app. split; [|by destruct pad; repeat constructor].
    apply Forall_map, Forall_true. intros o. unfold topt_name.
    apply (code2str_cases _ _ _ (fun n => has_char "," n = false)); [done|]. by repeat constructor. }
  induction Hn as [|n l Hn Hl IH]; [done|]. destruct l; [by cbn|].
  rewrite join_with_cons, has_char_app by done. rewrite Hn. cbn [has_char orb]. by rewrite IH.
Qed.

Lemma tcp_columns_no_comma p bp len opts pad :
  0 <= len -> Forall (fun c => has_char "," c = false) (tcp_columns p bp len opts pad).
Proof.
  intros Hl. unfold tcp_columns, tcp_flags_text, tcp_seq_column.
  repeat apply Forall_cons; cbn [foldr fst snd]; try apply opts_names_no_comma;
    repeat case_match; rewrite ?has_char_app; cbn [has_char orb Ascii.eqb];
    rewrite ?udec_no_char by (done || (apply u32_range) || (apply be16_range) || (apply be32_range) || lia);
    done.
Qed.

(** For every TCP segment whose header and (well-formed) options are captured and fit in the
    IP payload, [tcp_print] succeeds, appends to the log line and nothing else, and what it
    appends is exactly nine comma-separated columns: ports, data length, the letters of the set
    flags, sequence range, acknowledgement, window, urgent pointer and the option names joined by
    semicolons, whichever of the optional ones are present. *)
Theorem tcp_print_nine_columns p bp length bp2 opts pad s :
  tcp_valid p bp length opts pad -> 0 <= bp2 < plen p ->
  exists t, tcp_print p bp length bp2 s = Ok (tt, s +:+ t) /\
    split_at "," t
    = tcp_columns p bp (length - sizeof_tcphdr - Z.of_nat (List.length (opts_area opts pad))) opts pad.
Proof.
  intros Hv Hbp2. eexists. split; [by apply tcp_print_ok|].
  apply split_join; [done|]. apply tcp_columns_no_comma. destruct Hv. lia.
Qed.

Definition syn_segment : packet :=
  map byte_of_Z
    [ 0xc0;0x01; 0x01;0xbb; 0;0;0;1; 0;0;0;0; 0xa0; 0x02; 0xff;0xff; 0;0; 0;0;
      2;4;0x05;0xb4; 4;2; 8;10;0;0;0;1;0;0;0;0; 1; 3;3;7 ].

Lemma tcp_print_nine_columns_witness :
  exists t, tcp_print syn_segment 0 40 0 "" = Ok (tt, t) /\
    split_at "," t = ["49153"; "443"; "0"; "S"; "1"; ""; "65535"; ""; "mss;sackOK;TS;nop;wscale"].
Proof.
  destruct (tcp_print_nine_columns syn_segment 0 40 0
    [TOpt 2 [5;180]; TOpt 4 []; TOpt 8 [0;0;0;1;0;0;0;0]; TOpt 1 []; TOpt 3 [7]] [] "")
    as (t & H1 & H2).
  - constructor; [lia | vm_compute; congruence | vm_compute; reflexivity | vm_compute; split; congruence | | done | ].
    + repeat constructor; vm_compute; congruence.
    + repeat split; vm_compute; congruence.
  - vm_compute. split; congruence.
  - exists t. split; [exact H1|]. rewrite H2. vm_compute. reflexivity.
Defined.

(** The data lengths of the option kinds are fixed by the printer, not by the length octet:
    a segment whose complete header (24 bytes) is captured, and which ends in an MSS option of
    length octet 2, makes the remaining-length counter wrap below zero, and the loop goes on to
    read beyond the captured packet. *)
Theorem tcp_options_overread :
  exists p, plen p = 24 /\ Z.shiftr (byte_at p off_th_off) 4 * 4 = 24 /\
    tcp_print p 0 24 0 "" = Fail (Oob 26).
Proof.
  exists (map byte_of_Z [0;80; 0;81; 0;0;0;1; 0;0;0;0; 0x60; 0x02; 0;16; 0;0; 0;0; 1;1;2;2]).
  vm_compute. done.
Qed.
