(* ===== verification/FlIcmp.v ===== *)
(** filterlog, print-icmp.c: the ICMP printer, its tables and the timestamp formatter. *)
From Stdlib Require Import ZArith Lia Ascii String.
From stdpp Require Import base list strings numbers.
From S2P Require Import Prelude CProg FlCommon.
Open Scope string_scope.
Open Scope list_scope.
Open Scope Z_scope.

(** ** struct icmp: byte offsets of its fields and union members *)

Definition off_icmp_type : Z := 0.
Definition off_icmp_code : Z := 1.
Definition off_icmp_pptr : Z := 4.
Definition off_icmp_gwaddr : Z := 4.
Definition off_icmp_id : Z := 4.
Definition off_icmp_seq : Z := 6.
Definition off_icmp_void : Z := 4.
Definition off_icmp_otime : Z := 8.
Definition off_icmp_rtime : Z := 12.
Definition off_icmp_ttime : Z := 16.
Definition off_icmp_ip : Z := 8.
Definition off_icmp_mask : Z := 8.

(** struct mtu_discovery and struct ih_rdiscovery, both laid over [icmp_void]. *)
Definition off_nexthopmtu : Z := 2.
Definition off_ird_addrnum : Z := 0.
Definition off_ird_addrsiz : Z := 1.
Definition off_ird_lifetime : Z := 2.

(** ** Types and codes *)

Definition ICMP_ECHOREPLY : Z := 0.
Definition ICMP_UNREACH : Z := 3.
Definition ICMP_UNREACH_NET : Z := 0.
Definition ICMP_UNREACH_HOST : Z := 1.
Definition ICMP_UNREACH_PROTOCOL : Z := 2.
Definition ICMP_UNREACH_PORT : Z := 3.
Definition ICMP_UNREACH_NEEDFRAG : Z := 4.
Definition ICMP_UNREACH_SRCFAIL : Z := 5.
Definition ICMP_UNREACH_NET_UNKNOWN : Z := 6.
Definition ICMP_UNREACH_HOST_UNKNOWN : Z := 7.
Definition ICMP_UNREACH_ISOLATED : Z := 8.
Definition ICMP_UNREACH_NET_PROHIB : Z := 9.
Definition ICMP_UNREACH_HOST_PROHIB : Z := 10.
Definition ICMP_UNREACH_TOSNET : Z := 11.
Definition ICMP_UNREACH_TOSHOST : Z := 12.
Definition ICMP_UNREACH_FILTER_PROHIB : Z := 13.
Definition ICMP_UNREACH_HOST_PRECEDENCE : Z := 14.
Definition ICMP_UNREACH_PRECEDENCE_CUTOFF : Z := 15.
Definition ICMP_SOURCEQUENCH : Z := 4.
Definition ICMP_REDIRECT : Z := 5.
Definition ICMP_REDIRECT_NET : Z := 0.
Definition ICMP_REDIRECT_HOST : Z := 1.
Definition ICMP_REDIRECT_TOSNET : Z := 2.
Definition ICMP_REDIRECT_TOSHOST : Z := 3.
Definition ICMP_ECHO : Z := 8.
Definition ICMP_ROUTERADVERT : Z := 9.
Definition ICMP_ROUTERSOLICIT : Z := 10.
Definition ICMP_TIMXCEED : Z := 11.
Definition ICMP_TIMXCEED_INTRANS : Z := 0.
Definition ICMP_TIMXCEED_REASS : Z := 1.
Definition ICMP_PARAMPROB : Z := 12.
Definition ICMP_TSTAMP : Z := 13.
Definition ICMP_TSTAMPREPLY : Z := 14.
Definition ICMP_IREQ : Z := 15.
Definition ICMP_IREQREPLY : Z := 16.
Definition ICMP_MASKREQ : Z := 17.
Definition ICMP_MASKREPLY : Z := 18.

Definition icmp2str : list tok := [
  Tok ICMP_ECHOREPLY "echo reply"; Tok ICMP_SOURCEQUENCH "source quench";
  Tok ICMP_ECHO "echo request"; Tok ICMP_ROUTERSOLICIT "router solicitation";
  Tok ICMP_TSTAMP "time stamp request"; Tok ICMP_TSTAMPREPLY "time stamp reply";
  Tok ICMP_IREQ "information request"; Tok ICMP_IREQREPLY "information reply";
  Tok ICMP_MASKREQ "address mask request" ].

Definition unreach2str : list tok := [
  Tok ICMP_UNREACH_NET "net %s unreachable";
  Tok ICMP_UNREACH_HOST "host %s unreachable";
  Tok ICMP_UNREACH_SRCFAIL "%s unreachable - source route failed";
  Tok ICMP_UNREACH_NET_UNKNOWN "net %s unreachable - unknown";
  Tok ICMP_UNREACH_HOST_UNKNOWN "host %s unreachable - unknown";
  Tok ICMP_UNREACH_ISOLATED "%s unreachable - source host isolated";
  Tok ICMP_UNREACH_NET_PROHIB "net %s unreachable - admin prohibited";
  Tok ICMP_UNREACH_HOST_PROHIB "host %s unreachable - admin prohibited";
  Tok ICMP_UNREACH_TOSNET "net %s unreachable - tos prohibited";
  Tok ICMP_UNREACH_TOSHOST "host %s unreachable - tos prohibited";
  Tok ICMP_UNREACH_FILTER_PROHIB "host %s unreachable - admin prohibited filter";
  Tok ICMP_UNREACH_HOST_PRECEDENCE "host %s unreachable - host precedence violation";
  Tok ICMP_UNREACH_PRECEDENCE_CUTOFF "host %s unreachable - precedence cutoff" ].

Definition type2str : list tok := [
  Tok ICMP_REDIRECT_NET "redirect %s to net %s";
  Tok ICMP_REDIRECT_HOST "redirect %s to host %s";
  Tok ICMP_REDIRECT_TOSNET "redirect-tos %s to net %s";
  Tok ICMP_REDIRECT_TOSHOST "redirect-tos %s to host %s" ].

(** ** icmp_tstamp_print

    The text of a number of milliseconds since midnight; [snprintf] cuts it to the 63 characters
    that fit in the static buffer. *)
Definition icmp_tstamp_print (tstamp : Z) : string :=
  let msec := tstamp mod 1000 in
  let sec := tstamp / 1000 in
  let min := sec / 60 in
  let sec := u32 (sec - u32 (min * 60)) in
  let hrs := min / 60 in
  let min := u32 (min - u32 (hrs * 60)) in
  str_take 63 (default "" (format "%02u:%02u:%02u.%03u" [AInt hrs; AInt min; AInt sec; AInt msec])).

(** ** icmp_print *)

(** case ICMP_UNREACH *)
Definition icmp_unreach_print (p : packet) (dp icmp_code : Z) : M unit :=
  let oip := dp + off_icmp_ip in
  if icmp_code =? ICMP_UNREACH_PROTOCOL then
    dst ← rd_in_addr p (oip + off_ip_dst);
    proto ← rd8 p (oip + off_ip_p);
    sbuf_printf "unreachproto,%s,%d" [AStr dst; AInt proto]
  else if icmp_code =? ICMP_UNREACH_PORT then
    hl ← IP_HL p oip;
    let hlen := hl * 4 in
    let ouh := oip + hlen in
    dport ← EXTRACT_16BITS p (ouh + 2);
    sbuf_printf "unreachport," [];;
    ip_p ← rd8 p (oip + off_ip_p);
    dst ← rd_in_addr p (oip + off_ip_dst);
    if ip_p =? IPPROTO_TCP then sbuf_printf "%s,TCP,%u" [AStr dst; AInt dport]
    else if ip_p =? IPPROTO_UDP then sbuf_printf "%s,UDP,%u" [AStr dst; AInt dport]
    else sbuf_printf "%s,%d,%d" [AStr dst; AInt ip_p; AInt dport]
  else if icmp_code =? ICMP_UNREACH_NEEDFRAG then
    mtu ← EXTRACT_16BITS p (dp + off_icmp_void + off_nexthopmtu);
    dst ← rd_in_addr p (oip + off_ip_dst);
    if c_true mtu then sbuf_printf "needfrag,%s,%d" [AStr dst; AInt mtu]
    else sbuf_printf "needfrag,%s need to frag" [AStr dst]
  else
    sbuf_printf "unreach," [];;
    dst ← rd_in_addr p (oip + off_ip_dst);
    sbuf_printf (code2str unreach2str "%s unreachable" icmp_code) [AStr dst].

(** case ICMP_ROUTERADVERT *)
Definition icmp_routeradvert_print (p : packet) (dp : Z) : M unit :=
  sbuf_printf "routeradv" [];;
  let ihp := dp + off_icmp_void in
  lifetime ← EXTRACT_16BITS p (ihp + off_ird_lifetime);
  (if lifetime <? 60 then sbuf_printf "%u," [AInt lifetime]
   else if lifetime <? 60 * 60 then
     sbuf_printf "%u:%02u," [AInt (lifetime / 60); AInt (lifetime mod 60)]
   else sbuf_printf "%u:%02u:%02u,"
          [AInt (lifetime / 3600); AInt ((lifetime mod 3600) / 60); AInt (lifetime mod 60)]);;
  num ← rd8 p (ihp + off_ird_addrnum);
  sbuf_printf "%d," [AInt num];;
  size ← rd8 p (ihp + off_ird_addrsiz);
  if negb (size =? 2) then sbuf_printf "%d," [AInt size] else mret tt.

(** case ICMP_TSTAMPREPLY *)
Definition icmp_tstampreply_print (p : packet) (dp : Z) : M unit :=
  id ← EXTRACT_16BITS p (dp + off_icmp_id);
  seq ← EXTRACT_16BITS p (dp + off_icmp_seq);
  otime ← EXTRACT_32BITS p (dp + off_icmp_otime);
  sbuf_printf "tstampreply, %u,%u,%s," [AInt id; AInt seq; AStr (icmp_tstamp_print otime)];;
  rtime ← EXTRACT_32BITS p (dp + off_icmp_rtime);
  sbuf_printf "%s," [AStr (icmp_tstamp_print rtime)];;
  ttime ← EXTRACT_32BITS p (dp + off_icmp_ttime);
  sbuf_printf "%s" [AStr (icmp_tstamp_print ttime)].

(** The [switch (dp->icmp_type)]. *)
Definition icmp_body_print `{Libc} (p : packet) (dp : Z) : M unit :=
  icmp_type ← rd8 p (dp + off_icmp_type);
  if (icmp_type =? ICMP_ECHO) || (icmp_type =? ICMP_ECHOREPLY) then
    id ← EXTRACT_16BITS p (dp + off_icmp_id);
    seq ← EXTRACT_16BITS p (dp + off_icmp_seq);
    sbuf_printf "%s,%u,%u"
      [AStr (if icmp_type =? ICMP_ECHO then "request" else "reply"); AInt id; AInt seq]
  else if icmp_type =? ICMP_UNREACH then
    icmp_code ← rd8 p (dp + off_icmp_code);
    icmp_unreach_print p dp icmp_code
  else if icmp_type =? ICMP_REDIRECT then
    sbuf_printf "redirect," [];;
    icmp_code ← rd8 p (dp + off_icmp_code);
    dst ← rd_in_addr p (dp + off_icmp_ip + off_ip_dst);
    gw ← rd_in_addr p (dp + off_icmp_gwaddr);
    (* both arguments point to the static buffer of inet_ntoa, which holds the address that was
       converted last *)
    let shared := if args_right_to_left then dst else gw in
    sbuf_printf (code2str type2str "redirect-?? %s to net %s," icmp_code) [AStr shared; AStr shared]
  else if icmp_type =? ICMP_ROUTERADVERT then icmp_routeradvert_print p dp
  else if icmp_type =? ICMP_TIMXCEED then
    sbuf_printf "timexceed," [];;
    icmp_code ← rd8 p (dp + off_icmp_code);
    if icmp_code =? ICMP_TIMXCEED_INTRANS then sbuf_printf "time exceeded in-transit" []
    else if icmp_code =? ICMP_TIMXCEED_REASS then sbuf_printf "ip reassembly time exceeded" []
    else sbuf_printf "time exceeded-#%d" [AInt icmp_code]
  else if icmp_type =? ICMP_PARAMPROB then
    icmp_code ← rd8 p (dp + off_icmp_code);
    if c_true icmp_code then
      sbuf_printf "paramprob, parameter problem - code %d" [AInt icmp_code]
    else
      pptr ← rd8 p (dp + off_icmp_pptr);
      sbuf_printf "paramprob, parameter problem - octet %d" [AInt pptr]
  else if icmp_type =? ICMP_MASKREPLY then
    mask ← EXTRACT_32BITS p (dp + off_icmp_mask);
    sbuf_printf "maskreply, address mask is 0x%08x" [AInt mask]
  else if icmp_type =? ICMP_TSTAMP then
    id ← EXTRACT_16BITS p (dp + off_icmp_id);
    seq ← EXTRACT_16BITS p (dp + off_icmp_seq);
    sbuf_printf "tstamp,%u,%u" [AInt id; AInt seq]
  else if icmp_type =? ICMP_TSTAMPREPLY then icmp_tstampreply_print p dp
  else sbuf_printf "%s" [AStr (code2str icmp2str "type-??" icmp_type)].

Definition icmp_print `{Libc} (p : packet) (bp plen bp2 fragmented : Z) : M unit :=
  icmp_body_print p bp;;
  sbuf_printf "%u" [AInt plen].

(** ** Termination and memory safety *)

Lemma nofuel_icmp_print `{Libc} p bp plen bp2 frag : nofuel (icmp_print p bp plen bp2 frag).
Proof.
  unfold icmp_print, icmp_body_print, icmp_unreach_print, icmp_routeradvert_print,
    icmp_tstampreply_print. nofuel_steps.
Qed.
#[export] Hint Resolve nofuel_icmp_print : fuel.

Lemma unreach_format code dst : is_Some (format (code2str unreach2str "%s unreachable" code) [AStr dst]).
Proof.
  apply (code2str_cases _ _ _ (fun f => is_Some (format f [AStr dst]))); [by eexists|].
  repeat constructor; by eexists.
Qed.

Lemma redirect_format code a b :
  is_Some (format (code2str type2str "redirect-?? %s to net %s," code) [AStr a; AStr b]).
Proof.
  apply (code2str_cases _ _ _ (fun f => is_Some (format f [AStr a; AStr b]))); [by eexists|].
  repeat constructor; by eexists.
Qed.

(** 72 captured bytes (the ICMP header, the longest quoted IP header and the ports after it) are
    enough for every type and code. *)
Lemma icmp_print_prints `{Libc} p bp len bp2 frag :
  0 <= bp -> bp + 72 <= plen p -> prints (icmp_print p bp len bp2 frag).
Proof.
  intros Hbp Hp. unfold icmp_print, icmp_body_print, icmp_unreach_print,
    icmp_routeradvert_print, icmp_tstampreply_print.
  pose proof (ip_hl_range p (bp + off_icmp_ip)) as Hhl.
  unfold off_icmp_type, off_icmp_code, off_icmp_pptr, off_icmp_gwaddr, off_icmp_id, off_icmp_seq,
    off_icmp_void, off_icmp_otime, off_icmp_rtime, off_icmp_ttime, off_icmp_ip, off_icmp_mask,
    off_nexthopmtu, off_ird_addrnum, off_ird_addrsiz, off_ird_lifetime, off_ip_dst, off_ip_p in *.
  yields_steps; auto using unreach_format, redirect_format.
Qed.

(** ** Properties *)

(** The largest value is below 1194 hours, so the text always fits in the 64-byte buffer. *)
Lemma tstamp_fits h m s ms :
  0 <= h < 10000 -> 0 <= m < 60 -> 0 <= s < 60 -> 0 <= ms < 1000 ->
  (String.length (pad0 2 (udec h) +:+ ":" +:+ pad0 2 (udec m) +:+ ":" +:+ pad0 2 (udec s)
     +:+ "." +:+ pad0 3 (udec ms)) <= 63)%nat.
Proof.
  intros. rewrite !append_length, !pad0_length. cbn [String.length].
  pose proof (udec_length h 4). pose proof (udec_length m 2). pose proof (udec_length s 2).
  pose proof (udec_length ms 3). lia.
Qed.

Lemma tstamp_format h m s ms :
  format "%02u:%02u:%02u.%03u" [AInt h; AInt m; AInt s; AInt ms]
  = Some (pad0 2 (udec (u32 h)) +:+ ":" +:+ pad0 2 (udec (u32 m)) +:+ ":" +:+ pad0 2 (udec (u32 s))
            +:+ "." +:+ pad0 3 (udec (u32 ms))).
Proof. cbn. by str_norm. Qed.

(** For every 32-bit timestamp, [icmp_tstamp_print] produces [hh:mm:ss.mmm] for the hours,
    minutes (below 60), seconds (below 60) and milliseconds (below 1000) that add up to it, and
    the text is never cut by the size of the static buffer. *)
Theorem icmp_tstamp_print_correct t :
  0 <= t < 2 ^ 32 ->
  exists h m s ms,
    t = ((h * 60 + m) * 60 + s) * 1000 + ms /\ 0 <= h /\ 0 <= m < 60 /\ 0 <= s < 60 /\ 0 <= ms < 1000 /\
    icmp_tstamp_print t
    = pad0 2 (udec h) +:+ ":" +:+ pad0 2 (udec m) +:+ ":" +:+ pad0 2 (udec s)
        +:+ "." +:+ pad0 3 (udec ms).
Proof.
  intros Ht. exists (t / 1000 / 60 / 60), (t / 1000 / 60 mod 60), (t / 1000 mod 60), (t mod 1000).
  assert (0 <= t / 1000 < 4294968) by (split; [apply Z.div_pos | apply Z.div_lt_upper_bound]; lia).
  assert (0 <= t / 1000 / 60 < 71583) by (split; [apply Z.div_pos | apply Z.div_lt_upper_bound]; lia).
  assert (0 <= t / 1000 / 60 / 60 < 1194) by (split; [apply Z.div_pos | apply Z.div_lt_upper_bound]; lia).
  pose proof (Z.mod_pos_bound t 1000). pose proof (Z.mod_pos_bound (t / 1000) 60).
  pose proof (Z.mod_pos_bound (t / 1000 / 60) 60).
  pose proof (Z.div_mod t 1000). pose proof (Z.div_mod (t / 1000) 60).
  pose proof (Z.div_mod (t / 1000 / 60) 60).
  repeat split; try lia. unfold icmp_tstamp_print.
  rewrite (u32_small (t / 1000 / 60 * 60)), (u32_small (t / 1000 / 60 / 60 * 60)) by lia.
  replace (t / 1000 - t / 1000 / 60 * 60) with (t / 1000 mod 60) by lia.
  replace (t / 1000 / 60 - t / 1000 / 60 / 60 * 60) with (t / 1000 / 60 mod 60) by lia.
  rewrite tstamp_format. cbn [default]. rewrite !u32_small by (rewrite ?u32_small; lia).
  by rewrite str_take_all by (apply tstamp_fits; lia).
Qed.

Lemma icmp_tstamp_print_correct_witness :
  0 <= 86399999 < 2 ^ 32 /\ icmp_tstamp_print 86399999 = "23:59:59.999".
Proof.
  split; [lia|]. destruct (icmp_tstamp_print_correct 86399999) as (h & m & s & ms & _ & _ & _ & _ & _ & E);
    [lia|]. vm_compute. reflexivity.
Defined.

(** An echo request or reply with identifier [id] and sequence number [seq]. *)
Definition echo_packet (ty id seq : Z) : packet :=
  map byte_of_Z [ty; 0; 0; 0; id / 256; id mod 256; seq / 256; seq mod 256].

Lemma icmp_echo_text `{Libc} p bp len bp2 frag s :
  0 <= bp -> bp + 8 <= plen p -> 0 <= len < 2 ^ 32 -> byte_at p bp = ICMP_ECHO ->
  icmp_print p bp len bp2 frag s
  = Ok (tt, s +:+ ("request," +:+ udec (be16_at p (bp + 4)) +:+ "," +:+ udec (be16_at p (bp + 6))
                     +:+ udec len)).
Proof.
  intros Hbp Hp Hl Ht. unfold icmp_print. erewrite bind_ok.
  2:{ unfold icmp_body_print, off_icmp_type, off_icmp_id, off_icmp_seq. rewrite Z.add_0_r.
      run1. rewrite Ht. cbn -[EXTRACT_16BITS sbuf_printf]. do 2 run1.
      apply bind_printf_ret. cbn. reflexivity. }
  erewrite bind_printf_ret by (cbn; reflexivity).
  autorewrite with narrow. rewrite u32_small by lia. by str_norm.
Qed.

(** The length that [icmp_print] appends to every message follows the sequence number of an
    echo message without a separator, so the line does not determine them: sequence number 1 in a
    164-byte message and sequence number 11 in a 64-byte one give the same text. *)
Theorem icmp_echo_ambiguous `{Libc} s bp2 frag :
  icmp_print (echo_packet ICMP_ECHO 7 1) 0 164 bp2 frag s = Ok (tt, s +:+ "request,7,1164") /\
  icmp_print (echo_packet ICMP_ECHO 7 11) 0 64 bp2 frag s = Ok (tt, s +:+ "request,7,1164").
Proof. split; rewrite icmp_echo_text; done || lia. Qed.

(** A redirect names the destination and the gateway through one static buffer: whatever the
    order of evaluation, the line shows a single address in both places, even when the
    destination and the gateway of the message differ. *)
Theorem icmp_redirect_same_address `{Libc} p s bp2 frag len code :
  28 <= plen p -> byte_at p 0 = ICMP_REDIRECT -> byte_at p 1 = code -> 0 <= len < 2 ^ 32 ->
  exists a t,
    (a = inet_ntoa (bytes_at p 24 4) \/ a = inet_ntoa (bytes_at p 4 4)) /\
    format (code2str type2str "redirect-?? %s to net %s," code) [AStr a; AStr a] = Some t /\
    icmp_print p 0 len bp2 frag s = Ok (tt, s +:+ "redirect," +:+ t +:+ udec len).
Proof.
  intros Hp Ht Hc Hl.
  set (a := if args_right_to_left then inet_ntoa (bytes_at p 24 4) else inet_ntoa (bytes_at p 4 4)).
  destruct (redirect_format code a a) as [t Hf]. exists a, t.
  split; [unfold a; destruct args_right_to_left; [left | right]; reflexivity|]. split; [exact Hf|].
  unfold icmp_print. erewrite bind_ok.
  2:{ unfold icmp_body_print, off_icmp_type, off_icmp_code, off_icmp_gwaddr, off_icmp_ip, off_ip_dst.
      rewrite !Z.add_0_l. run1. rewrite Ht.
      change (ICMP_REDIRECT =? ICMP_ECHO) with false. change (ICMP_REDIRECT =? ICMP_ECHOREPLY) with false.
      change (ICMP_REDIRECT =? ICMP_UNREACH) with false. change (ICMP_REDIRECT =? ICMP_REDIRECT) with true.
      cbn iota beta delta [orb]. do 4 run1. rewrite Hc. fold a.
      apply bind_printf_ret, Hf. }
  erewrite bind_printf_ret by (cbn; reflexivity). rewrite u32_small by lia. by str_norm.
Qed.

Definition redirect_packet : packet :=
  map byte_of_Z
    ([5; 1; 0; 0; 192; 168; 1; 254] ++
     [0x45; 0; 0; 28; 0; 0; 0; 0; 64; 17; 0; 0; 10; 0; 0; 1; 8; 8; 4; 4]).

Lemma icmp_redirect_same_address_witness :
  bytes_at redirect_packet 24 4 <> bytes_at redirect_packet 4 4 /\
  exists a t,
    (a = inet_ntoa (bytes_at redirect_packet 24 4) \/ a = inet_ntoa (bytes_at redirect_packet 4 4)) /\
    format (code2str type2str "redirect-?? %s to net %s," 1) [AStr a; AStr a] = Some t /\
    icmp_print (H := demo_libc) redirect_packet 0 28 0 0 "" = Ok (tt, "redirect," +:+ t +:+ udec 28).
Proof.
  split; [vm_compute; congruence|].
  apply (icmp_redirect_same_address (H := demo_libc) redirect_packet "" 0 0 28 1);
    (vm_compute; congruence) || (vm_compute; split; congruence) || reflexivity.
Defined.
