(* ===== verification/FlIp6opts.v ===== *)
(** filterlog, print-ip6opts.c: the hop-by-hop and destination option printers of IPv6. *)
From Stdlib Require Import ZArith Lia Ascii String.
From stdpp Require Import base list strings numbers.
From S2P Require Import Prelude CProg FlCommon.
Open Scope string_scope.
Open Scope list_scope.
Open Scope Z_scope.

Definition IP6OPT_PAD1 : Z := 0x00.
Definition IP6OPT_PADN : Z := 0x01.
Definition IP6OPT_ROUTER_ALERT : Z := 0x05.
Definition IP6OPT_JUMBO : Z := 0xc2.
Definition IP6OPT_MINLEN : Z := 2.
Definition IP6OPT_RTALERT_LEN : Z := 4.
Definition IP6OPT_JUMBO_LEN : Z := 6.
Definition IP6OPT_HOMEADDR_MINLEN : Z := 18.
Definition IP6OPT_BU_MINLEN : Z := 10.
Definition IP6OPT_BA_MINLEN : Z := 13.
Definition IP6OPT_BR_MINLEN : Z := 2.
Definition IP6SOPT_UI : Z := 0x2.
Definition IP6SOPT_UI_MINLEN : Z := 4.
Definition IP6SOPT_ALTCOA : Z := 0x3.
Definition IP6SOPT_ALTCOA_MINLEN : Z := 18.
Definition IP6SOPT_AUTH : Z := 0x4.
Definition IP6SOPT_AUTH_MINLEN : Z := 6.
Definition IP6OPT_BINDING_UPDATE : Z := 0xc6.
Definition IP6OPT_BINDING_ACK : Z := 0x07.
Definition IP6OPT_BINDING_REQ : Z := 0x08.
Definition IP6OPT_HOME_ADDRESS : Z := 0xc9.

Section Options.
Context `{Libc}.
Variable p : packet.

(** The head of both option loops: the length of the option at [i], or [None] for [goto trunc]. *)
Definition opt_length (bp len i : Z) : M (option Z) :=
  b ← rd8 p (bp + i);
  if b =? IP6OPT_PAD1 then mret (if len <? i + 1 then None else Some 1)
  else if i + 1 <? len then
    l ← rd8 p (bp + i + 1);
    let optlen := l + 2 in
    mret (if len <? i + optlen then None else Some optlen)
  else mret None.

(** The [switch (bp[i])] of [ip6_sopt_print]; [false] for [goto trunc]. *)
Definition ip6_sopt_one (bp len i : Z) : M bool :=
  b ← rd8 p (bp + i);
  if b =? IP6OPT_PAD1 then sbuf_printf "pad1 " [];; mret true
  else if b =? IP6OPT_PADN then
    if len - i <? IP6OPT_MINLEN then sbuf_printf "padn=trunc " [];; mret false
    else sbuf_printf "padn " [];; mret true
  else if b =? IP6SOPT_UI then
    if len - i <? IP6SOPT_UI_MINLEN then sbuf_printf "ui=trunc " [];; mret false
    else
      v ← EXTRACT_16BITS p (bp + i + 2);
      sbuf_printf "ui=0x%04x " [AInt v];; mret true
  else if b =? IP6SOPT_ALTCOA then
    if len - i <? IP6SOPT_ALTCOA_MINLEN then sbuf_printf "altcoa=trunc " [];; mret false
    else
      a ← rd_in6_addr p (bp + i + 2);
      sbuf_printf "alt-CoA=%s " [AStr a];; mret true
  else if b =? IP6SOPT_AUTH then
    if len - i <? IP6SOPT_AUTH_MINLEN then sbuf_printf "auth=trunc " [];; mret false
    else
      v ← EXTRACT_32BITS p (bp + i + 2);
      sbuf_printf "auth-spi=0x%08x " [AInt v];; mret true
  else
    if len - i <? IP6OPT_MINLEN then sbuf_printf "sopt_type_trunc=%d)" [AInt b];; mret false
    else
      l ← rd8 p (bp + i + 1);
      sbuf_printf "sopt_type=0x%02x len=%d" [AInt b; AInt l];; mret true.

Fixpoint ip6_sopt_loop (fuel : nat) (bp len i : Z) : M unit :=
  match fuel with
  | O => fail NoFuel
  | S k =>
      if i <? len then
        o ← opt_length bp len i;
        match o with
        | None => sbuf_printf "[trunc] " []
        | Some optlen =>
            go ← ip6_sopt_one bp len i;
            if (go : bool) then ip6_sopt_loop k bp len (i + optlen) else sbuf_printf "[trunc] " []
        end
      else mret tt
  end.

Definition ip6_sopt_print (bp len : Z) : M unit := ip6_sopt_loop (S (Z.to_nat len)) bp len 0.

(** case IP6OPT_HOME_ADDRESS *)
Definition ip6_opt_homeaddr (bp len i optlen : Z) : M bool :=
  if len - i <? IP6OPT_HOMEADDR_MINLEN then sbuf_printf "HOMEADDRTRUNC," [];; mret false
  else
    l ← rd8 p (bp + i + 1);
    if l <? IP6OPT_HOMEADDR_MINLEN - 2 then
      sbuf_printf "HOMEADDRINVALID, %d," [AInt l];; mret false
    else
      a ← rd_in6_addr p (bp + i + 2);
      sbuf_printf "HOMEADDR, %s," [AStr a];;
      (if IP6OPT_HOMEADDR_MINLEN - 2 <? l then
         ip6_sopt_print (bp + i + IP6OPT_HOMEADDR_MINLEN) (optlen - IP6OPT_HOMEADDR_MINLEN)
       else mret tt);;
      mret true.

(** case IP6OPT_BINDING_UPDATE *)
Definition ip6_opt_binding_update (bp len i optlen : Z) : M bool :=
  if len - i <? IP6OPT_BU_MINLEN then sbuf_printf "BINDINGUPTRUNC," [];; mret false
  else
    l ← rd8 p (bp + i + 1);
    if l <? IP6OPT_BU_MINLEN - 2 then
      sbuf_printf "BINDINGUPINVALID,%d," [AInt l];; mret false
    else
      sbuf_printf "BINDINGUP," [];;
      f ← rd8 p (bp + i + 2);
      (if c_true (Z.land f 0x80) then sbuf_printf "A" [] else mret tt);;
      (if c_true (Z.land f 0x40) then sbuf_printf "H" [] else mret tt);;
      (if c_true (Z.land f 0x20) then sbuf_printf "S" [] else mret tt);;
      (if c_true (Z.land f 0x10) then sbuf_printf "D" [] else mret tt);;
      b3 ← rd8 p (bp + i + 3);
      b4 ← rd8 p (bp + i + 4);
      (if c_true (Z.land f 0x0f) || c_true b3 || c_true b4 then sbuf_printf "r" [] else mret tt);;
      b5 ← rd8 p (bp + i + 5);
      sbuf_printf ",%u," [AInt b5];;
      v ← EXTRACT_32BITS p (bp + i + 6);
      sbuf_printf "%u," [AInt v];;
      (if IP6OPT_BU_MINLEN - 2 <? l then
         ip6_sopt_print (bp + i + IP6OPT_BU_MINLEN) (optlen - IP6OPT_BU_MINLEN)
       else mret tt);;
      mret true.

(** case IP6OPT_BINDING_ACK *)
Definition ip6_opt_binding_ack (bp len i optlen : Z) : M bool :=
  if len - i <? IP6OPT_BA_MINLEN then sbuf_printf "BINDINGACKTRUNC," [];; mret false
  else
    l ← rd8 p (bp + i + 1);
    if l <? IP6OPT_BA_MINLEN - 2 then
      sbuf_printf "BINDINGACKINVALID,%d," [AInt l];; mret false
    else
      sbuf_printf "BINDINGACK," [];;
      b2 ← rd8 p (bp + i + 2);
      sbuf_printf "%u," [AInt b2];;
      b3 ← rd8 p (bp + i + 3);
      (if c_true b3 then sbuf_printf "res," [] else sbuf_printf "," []);;
      b4 ← rd8 p (bp + i + 4);
      sbuf_printf "%u," [AInt b4];;
      v5 ← EXTRACT_32BITS p (bp + i + 5);
      sbuf_printf "%u," [AInt v5];;
      v9 ← EXTRACT_32BITS p (bp + i + 9);
      sbuf_printf "%u," [AInt v9];;
      (if IP6OPT_BA_MINLEN - 2 <? l then
         ip6_sopt_print (bp + i + IP6OPT_BA_MINLEN) (optlen - IP6OPT_BA_MINLEN)
       else mret tt);;
      mret true.

(** The [switch (bp[i])] of [ip6_opt_print]; [false] for [goto trunc]. *)
Definition ip6_opt_one (bp len i optlen : Z) : M bool :=
  b ← rd8 p (bp + i);
  if b =? IP6OPT_PAD1 then sbuf_printf "PAD1," [];; mret true
  else if b =? IP6OPT_PADN then
    if len - i <? IP6OPT_MINLEN then sbuf_printf "PADNTRUNC," [];; mret false
    else sbuf_printf "PADN," [];; mret true
  else if b =? IP6OPT_ROUTER_ALERT then
    if len - i <? IP6OPT_RTALERT_LEN then sbuf_printf "RTALERTTRUNC," [];; mret false
    else
      l ← rd8 p (bp + i + 1);
      if negb (l =? IP6OPT_RTALERT_LEN - 2) then
        sbuf_printf "RTALERTINVALID, %d," [AInt l];; mret false
      else
        v ← EXTRACT_16BITS p (bp + i + 2);
        sbuf_printf "RTALERT,0x%04x," [AInt v];; mret true
  else if b =? IP6OPT_JUMBO then
    if len - i <? IP6OPT_JUMBO_LEN then sbuf_printf "JUMBOTRUNC," [];; mret false
    else
      l ← rd8 p (bp + i + 1);
      if negb (l =? IP6OPT_JUMBO_LEN - 2) then
        sbuf_printf "JUMBOINVALID,%d," [AInt l];; mret false
      else
        v ← EXTRACT_32BITS p (bp + i + 2);
        sbuf_printf "JUMBO,%u," [AInt v];; mret true
  else if b =? IP6OPT_HOME_ADDRESS then ip6_opt_homeaddr bp len i optlen
  else if b =? IP6OPT_BINDING_UPDATE then ip6_opt_binding_update bp len i optlen
  else if b =? IP6OPT_BINDING_ACK then ip6_opt_binding_ack bp len i optlen
  else if b =? IP6OPT_BINDING_REQ then
    if len - i <? IP6OPT_BR_MINLEN then sbuf_printf "BINDINGREQTRUNC," [];; mret false
    else
      sbuf_printf "BINDINGREQ," [];;
      l ← rd8 p (bp + i + 1);
      (if IP6OPT_BR_MINLEN - 2 <? l then
         ip6_sopt_print (bp + i + IP6OPT_BR_MINLEN) (optlen - IP6OPT_BR_MINLEN)
       else mret tt);;
      mret true
  else
    if len - i <? IP6OPT_MINLEN then sbuf_printf "TYPETRUNC,%d," [AInt b];; mret false
    else
      l ← rd8 p (bp + i + 1);
      sbuf_printf "TYPE,0x%02x,%d," [AInt b; AInt l];; mret true.

Fixpoint ip6_opt_loop (fuel : nat) (bp len i : Z) : M unit :=
  match fuel with
  | O => fail NoFuel
  | S k =>
      if i <? len then
        o ← opt_length bp len i;
        match o with
        | None => mret tt
        | Some optlen =>
            go ← ip6_opt_one bp len i optlen;
            if (go : bool) then ip6_opt_loop k bp len (i + optlen) else mret tt
        end
      else mret tt
  end.

Definition ip6_opt_print (bp len : Z) : M unit :=
  if len =? 0 then mret tt else ip6_opt_loop (S (Z.to_nat len)) bp len 0.

(** struct ip6_hbh and struct ip6_dest: next header, length; 2 bytes. *)
Definition sizeof_ip6_hbh : Z := 2.

Definition hbhopt_print (bp : Z) : M Z :=
  ip6h_len ← rd8 p (bp + 1);
  let hbhlen := Z.shiftl (ip6h_len + 1) 3 in
  sbuf_printf "HBH," [];;
  ip6_opt_print (bp + sizeof_ip6_hbh) (hbhlen - sizeof_ip6_hbh);;
  mret hbhlen.

Definition dstopt_print (bp : Z) : M Z :=
  ip6d_len ← rd8 p (bp + 1);
  let dstoptlen := Z.shiftl (ip6d_len + 1) 3 in
  sbuf_printf "DSTOPT," [];;
  ip6_opt_print (bp + sizeof_ip6_hbh) (dstoptlen - sizeof_ip6_hbh);;
  mret dstoptlen.

End Options.

(** ** Safety and termination of the option loops

    [captured E p bp len]: the [len] bytes from [bp] are in the packet, or out-of-bounds faults
    are allowed; the proofs below cover memory safety and termination at once. *)
Definition captured (E : fault -> Prop) (p : packet) (bp len : Z) : Prop :=
  (0 <= bp /\ bp + len <= plen p) \/ (forall o, E (Oob o)).

Section Safety.
Context `{Libc} (E : fault -> Prop) (p : packet).

Lemma opt_length_yields bp len i :
  captured E p bp len -> 0 <= i < len ->
  yields E (opt_length p bp len i)
    (fun o => forall n, o = Some n -> 1 <= n /\ i + n <= len).
Proof.
  intros Hc Hi. unfold opt_length. unfold captured in Hc.
  pose proof (byte_at_range p (bp + i + 1)).
  yields_steps; intros n; repeat case_match; intros [= <-]; lia.
Qed.

Lemma ip6_sopt_one_yields bp len i :
  captured E p bp len -> 0 <= i < len -> yields E (ip6_sopt_one p bp len i) (fun _ => True).
Proof.
  intros Hc Hi. unfold captured in Hc.
  unfold ip6_sopt_one, IP6OPT_MINLEN, IP6SOPT_UI_MINLEN, IP6SOPT_ALTCOA_MINLEN, IP6SOPT_AUTH_MINLEN.
  yields_steps.
Qed.

Lemma ip6_sopt_loop_yields fuel bp len i :
  captured E p bp len -> 0 <= i -> len - i < Z.of_nat fuel -> (0 < fuel)%nat ->
  yields E (ip6_sopt_loop p fuel bp len i) (fun _ => True).
Proof.
  intros Hc. revert i. induction fuel as [|k IH]; intros i Hi Hf Hp; [lia|].
  cbn [ip6_sopt_loop]. destruct (Z.ltb_spec i len); [|by apply yields_ret].
  eapply yields_seq; [apply opt_length_yields; (done || lia)|]. intros [n|] Hn; [|yields_steps].
  destruct (Hn n eq_refl). eapply yields_seq; [apply ip6_sopt_one_yields; (done || lia)|]. intros [] _.
  - apply IH; lia.
  - yields_steps.
Qed.

Lemma ip6_sopt_print_yields bp len :
  captured E p bp len -> yields E (ip6_sopt_print p bp len) (fun _ => True).
Proof. intros. apply ip6_sopt_loop_yields; (done || lia). Qed.

(** A sub-option area inside the option at [i]. *)
Lemma captured_sub bp len i n optlen :
  captured E p bp len -> 0 <= i -> 0 <= n -> i + optlen <= len ->
  captured E p (bp + i + n) (optlen - n).
Proof. unfold captured. intros [?|?] ? ? ?; [left; lia | by right]. Qed.

Lemma ip6_opt_one_yields bp len i optlen :
  captured E p bp len -> 0 <= i < len -> i + optlen <= len ->
  yields E (ip6_opt_one p bp len i optlen) (fun _ => True).
Proof.
  intros Hc Hi Ho.
  assert (Hs : forall n, 0 <= n ->
    yields E (ip6_sopt_print p (bp + i + n) (optlen - n)) (fun _ => True)).
  { intros n Hn. apply ip6_sopt_print_yields. apply captured_sub with len; (done || lia). }
  unfold captured in Hc.
  unfold ip6_opt_one, ip6_opt_homeaddr, ip6_opt_binding_update, ip6_opt_binding_ack, IP6OPT_MINLEN,
    IP6OPT_RTALERT_LEN, IP6OPT_JUMBO_LEN, IP6OPT_HOMEADDR_MINLEN, IP6OPT_BU_MINLEN,
    IP6OPT_BA_MINLEN, IP6OPT_BR_MINLEN.
  yields_steps; apply Hs; lia.
Qed.

Lemma ip6_opt_loop_yields fuel bp len i :
  captured E p bp len -> 0 <= i -> len - i < Z.of_nat fuel -> (0 < fuel)%nat ->
  yields E (ip6_opt_loop p fuel bp len i) (fun _ => True).
Proof.
  intros Hc. revert i. induction fuel as [|k IH]; intros i Hi Hf Hp; [lia|].
  cbn [ip6_opt_loop]. destruct (Z.ltb_spec i len); [|by apply yields_ret].
  eapply yields_seq; [apply opt_length_yields; (done || lia)|]. intros [n|] Hn; [|yields_steps].
  destruct (Hn n eq_refl). eapply yields_seq; [apply ip6_opt_one_yields; (done || lia)|]. intros [] _.
  - apply IH; lia.
  - yields_steps.
Qed.

Lemma ip6_opt_print_yields bp len :
  captured E p bp len -> yields E (ip6_opt_print p bp len) (fun _ => True).
Proof.
  intros. unfold ip6_opt_print. destruct (len =? 0); [by apply yields_ret|].
  apply ip6_opt_loop_yields; (done || lia).
Qed.

(** The printers of the two headers return the header length, a multiple of 8 and at least 8. *)
Lemma hbhopt_print_yields bp :
  (0 <= bp /\ bp + 8 * (byte_at p (bp + 1) + 1) <= plen p /\ bp + 2 <= plen p)
    \/ (forall o, E (Oob o)) ->
  yields E (hbhopt_print p bp) (fun n => n = 8 * (byte_at p (bp + 1) + 1)).
Proof.
  intros HE. unfold hbhopt_print. pose proof (byte_at_range p (bp + 1)). yields_step.
  rewrite Z.shiftl_mul_pow2 by lia. yields_steps; [|lia].
  apply ip6_opt_print_yields. unfold captured, sizeof_ip6_hbh. destruct HE; [left; lia | by right].
Qed.

Lemma dstopt_print_yields bp :
  (0 <= bp /\ bp + 8 * (byte_at p (bp + 1) + 1) <= plen p /\ bp + 2 <= plen p)
    \/ (forall o, E (Oob o)) ->
  yields E (dstopt_print p bp) (fun n => n = 8 * (byte_at p (bp + 1) + 1)).
Proof.
  intros HE. unfold dstopt_print. pose proof (byte_at_range p (bp + 1)). yields_step.
  rewrite Z.shiftl_mul_pow2 by lia. yields_steps; [|lia].
  apply ip6_opt_print_yields. unfold captured, sizeof_ip6_hbh. destruct HE; [left; lia | by right].
Qed.
End Safety.

(** C26. For every IPv6 option area that is captured, whatever its bytes are (unknown options,
    truncated options, wrong lengths, nested sub-options), [ip6_opt_print] reads only inside the
    area, finishes, and only appends to the log line. *)
Theorem ip6_opt_print_safe `{Libc} p bp len s :
  0 <= bp -> bp + len <= plen p ->
  exists t, ip6_opt_print p bp len s = Ok (tt, s +:+ t).
Proof. intros. apply prints_run, ip6_opt_print_yields. left. lia. Qed.

Definition binding_update_area : packet :=
  map byte_of_Z [0xc6; 0x0a; 0xc0; 0; 0; 9; 0; 0; 1; 0; 0x02; 0x00;  1; 1; 0;  0x07; 0x40].

Lemma ip6_opt_print_safe_witness :
  0 <= 0 /\ 0 + 17 <= plen binding_update_area /\
  exists t, ip6_opt_print (H := demo_libc) binding_update_area 0 17 "" = Ok (tt, t).
Proof.
  split; [lia|]. split; [vm_compute; congruence|].
  apply (ip6_opt_print_safe (H := demo_libc) binding_update_area 0 17 ""); [lia | vm_compute; congruence].
Defined.

Lemma nofuel_hbhopt_print `{Libc} p bp : nofuel (hbhopt_print p bp).
Proof. eapply yields_nofuel, hbhopt_print_yields. right. by intros o [=]. Qed.
Lemma nofuel_dstopt_print `{Libc} p bp : nofuel (dstopt_print p bp).
Proof. eapply yields_nofuel, dstopt_print_yields. right. by intros o [=]. Qed.
