(* ===== verification/FlMobility.v ===== *)
(** filterlog, print-mobility.c: the IPv6 mobility header printer. *)
From Stdlib Require Import ZArith Lia Ascii String.
From stdpp Require Import base list strings numbers.
From S2P Require Import Prelude CProg FlCommon.
Open Scope string_scope.
Open Scope list_scope.
Open Scope Z_scope.

(** struct ip6_mobility: byte offsets. *)
Definition off_ip6m_len : Z := 1.
Definition off_ip6m_type : Z := 2.
Definition off_ip6m_data16 : Z := 6.
Definition off_ip6m_data8 : Z := 6.

Definition IP6M_MINLEN : Z := 8.
Definition IP6M_BINDING_REQUEST : Z := 0.
Definition IP6M_HOME_TEST_INIT : Z := 1.
Definition IP6M_CAREOF_TEST_INIT : Z := 2.
Definition IP6M_HOME_TEST : Z := 3.
Definition IP6M_CAREOF_TEST : Z := 4.
Definition IP6M_BINDING_UPDATE : Z := 5.
Definition IP6M_BINDING_ACK : Z := 6.
Definition IP6M_BINDING_ERROR : Z := 7.

Definition mobility_print `{Libc} (p : packet) (bp len : Z) : M Z :=
  ip6m_len ← rd8 p (bp + off_ip6m_len);
  let mhlen := Z.shiftl (ip6m_len + 1) 3 in
  type ← rd8 p (bp + off_ip6m_type);
  let hlen := IP6M_MINLEN in
  if type =? IP6M_BINDING_REQUEST then
    sbuf_printf "BRR," [];;
    mret mhlen
  else if (type =? IP6M_HOME_TEST_INIT) || (type =? IP6M_CAREOF_TEST_INIT) then
    sbuf_printf "%soTI," [AStr (if type =? IP6M_HOME_TEST_INIT then "H" else "C")];;
    a ← EXTRACT_32BITS p (bp + hlen);
    b ← EXTRACT_32BITS p (bp + hlen + 4);
    sbuf_printf "%s, %08x:%08x,"
      [AStr (if type =? IP6M_HOME_TEST_INIT then "Home" else "Care-of"); AInt a; AInt b];;
    mret mhlen
  else if (type =? IP6M_HOME_TEST) || (type =? IP6M_CAREOF_TEST) then
    sbuf_printf "%soT," [AStr (if type =? IP6M_HOME_TEST then "H" else "C")];;
    n ← EXTRACT_16BITS p (bp + off_ip6m_data16);
    sbuf_printf "0x%x, " [AInt n];;
    a ← EXTRACT_32BITS p (bp + hlen);
    b ← EXTRACT_32BITS p (bp + hlen + 4);
    sbuf_printf "%s, %08x:%08x,"
      [AStr (if type =? IP6M_HOME_TEST then "Home" else "Care-of"); AInt a; AInt b];;
    let hlen := hlen + 8 in
    c ← EXTRACT_32BITS p (bp + hlen);
    d ← EXTRACT_32BITS p (bp + hlen + 4);
    sbuf_printf "%08x:%08x," [AInt c; AInt d];;
    mret mhlen
  else if type =? IP6M_BINDING_UPDATE then
    sbuf_printf "BINDINGUPDATE," [];;
    n ← EXTRACT_16BITS p (bp + off_ip6m_data16);
    sbuf_printf "%d," [AInt n];;
    f ← rd8 p (bp + hlen);
    (if c_true (Z.land f 0xf0) then sbuf_printf " " [] else mret tt);;
    (if c_true (Z.land f 0x80) then sbuf_printf "A" [] else mret tt);;
    (if c_true (Z.land f 0x40) then sbuf_printf "H" [] else mret tt);;
    (if c_true (Z.land f 0x20) then sbuf_printf "L" [] else mret tt);;
    (if c_true (Z.land f 0x10) then sbuf_printf "K" [] else mret tt);;
    let hlen := hlen + 1 + 1 in
    t ← EXTRACT_16BITS p (bp + hlen);
    sbuf_printf "%d," [AInt (Z.shiftl t 2)];;
    mret mhlen
  else if type =? IP6M_BINDING_ACK then
    sbuf_printf "BINDINGACK," [];;
    st ← rd8 p (bp + off_ip6m_data8);
    sbuf_printf "%d," [AInt st];;
    f ← rd8 p (bp + off_ip6m_data8 + 1);
    (if c_true (Z.land f 0x80) then sbuf_printf "K" [] else mret tt);;
    sq ← EXTRACT_16BITS p (bp + hlen);
    sbuf_printf "%d," [AInt sq];;
    let hlen := hlen + 2 in
    t ← EXTRACT_16BITS p (bp + hlen);
    sbuf_printf "%d," [AInt (Z.shiftl t 2)];;
    mret mhlen
  else if type =? IP6M_BINDING_ERROR then
    sbuf_printf "BINDINGERR," [];;
    st ← rd8 p (bp + off_ip6m_data8);
    sbuf_printf "%d," [AInt st];;
    a ← rd_in6_addr p (bp + hlen);
    sbuf_printf "%s," [AStr a];;
    mret mhlen
  else
    sbuf_printf "TYPE,%d,%d" [AInt type; AInt ip6m_len];;
    mret mhlen.

(** The header is read up to 24 bytes from its start, whatever length it declares. *)
Lemma mobility_print_yields `{Libc} (E : fault -> Prop) p bp len :
  (0 <= bp /\ bp + 24 <= plen p) \/ (forall o, E (Oob o)) ->
  yields E (mobility_print p bp len) (fun n => n = 8 * (byte_at p (bp + 1) + 1)).
Proof.
  intros HE. unfold mobility_print, off_ip6m_len, off_ip6m_type, off_ip6m_data16, off_ip6m_data8,
    IP6M_MINLEN.
  yields_steps; rewrite Z.shiftl_mul_pow2 by lia; lia.
Qed.

Lemma nofuel_mobility_print `{Libc} p bp len : nofuel (mobility_print p bp len).
Proof. eapply yields_nofuel, mobility_print_yields. right. by intros o [=]. Qed.
#[export] Hint Resolve nofuel_mobility_print : fuel.
