(* ===== verification/FlIp.v ===== *)
(** filterlog, print-ip.c: the IPv4 printer, its protocol dispatch, and the columns of an IPv4
    log line. *)
From Stdlib Require Import ZArith Lia Ascii String.
From stdpp Require Import base list strings numbers.
From S2P Require Import Prelude CProg FlCommon FlTcp FlIcmp.
Open Scope string_scope.
Open Scope list_scope.
Open Scope Z_scope.

Definition MAXIMUM_SNAPLEN : Z := 65535.
Definition IP_RES : Z := 0x8000.
Definition IP_DF : Z := 0x4000.
Definition IP_MF : Z := 0x2000.
Definition IP_OFFMASK : Z := 0x1fff.

Definition ip_frag_values : list tok := [Tok IP_MF "+"; Tok IP_DF "DF"; Tok IP_RES "rsvd"].

(** struct udphdr and struct sctphdr *)
Definition off_uh_sport : Z := 0.
Definition off_uh_dport : Z := 2.
Definition off_uh_ulen : Z := 4.
Definition sizeof_sctphdr : Z := 12.

(** [ip] and [cp] are offsets in the packet; [advance] is only used by disabled code. *)
Record ip_print_demux_state : Type := {
  ip : Z; cp : Z; len : Z; off : Z; nh : Z
}.

Section Ip.
Context `{Libc}.
Variable p : packet.

Definition udp_print (cp : Z) : M unit :=
  sport ← EXTRACT_16BITS p (cp + off_uh_sport);
  dport ← EXTRACT_16BITS p (cp + off_uh_dport);
  ulen ← EXTRACT_16BITS p (cp + off_uh_ulen);
  sbuf_printf "%d,%d,%d" [AInt sport; AInt dport; AInt ulen].

(** The length is an [u_int] from which a [size_t] is subtracted. *)
Definition sctp_print (cp len : Z) : M unit :=
  sport ← EXTRACT_16BITS p cp;
  dport ← EXTRACT_16BITS p (cp + 2);
  sbuf_printf "%d,%d,%lu" [AInt sport; AInt dport; AInt (u64 (len - sizeof_sctphdr))].

(** Type, ttl, vhid, version, advskew, advbase. *)
Definition vrrp_print (cp ip : Z) : M unit :=
  b0 ← rd8 p cp;
  ttl ← rd8 p (ip + off_ip_ttl);
  b1 ← rd8 p (cp + 1);
  b2 ← rd8 p (cp + 2);
  b5 ← rd8 p (cp + 5);
  sbuf_printf "%s,%d,%d,%d,%d,%d"
    [AStr (if Z.land b0 0x0f =? 1 then "advertise" else "unkwn"); AInt ttl; AInt b1;
     AInt (Z.shiftr (Z.land b0 0xf0) 4); AInt b2; AInt b5].

Definition ip_print_demux (ipds : ip_print_demux_state) : M unit :=
  if nh ipds =? IPPROTO_TCP then tcp_print p (cp ipds) (len ipds) (ip ipds)
  else if nh ipds =? IPPROTO_UDP then udp_print (cp ipds)
  else if nh ipds =? IPPROTO_SCTP then sctp_print (cp ipds) (len ipds)
  else if nh ipds =? IPPROTO_ICMP then
    icmp_print p (cp ipds) (len ipds) (ip ipds) (Z.land (off ipds) (Z.lor IP_MF IP_OFFMASK))
  else if nh ipds =? IPPROTO_IPV4 then sbuf_printf "IPV4-IN-IPV4," []
  else if nh ipds =? IPPROTO_IPV6 then sbuf_printf "IPV6-IN-IPV4," []
  else if nh ipds =? IPPROTO_VRRP then vrrp_print (cp ipds) (ip ipds)
  else sbuf_printf "datalength=%d " [AInt (len ipds)].

(** The [switch (ip_tos & 0x03)]. *)
Definition ecn_print (ip_tos : Z) : M unit :=
  if c_true (Z.land ip_tos 0x03) then
    let e := Z.land ip_tos 0x03 in
    if e =? 1 then sbuf_printf "1" []
    else if e =? 2 then sbuf_printf "0" []
    else if e =? 3 then sbuf_printf "CE" []
    else mret tt
  else mret tt.

Definition ip_print (bp length : Z) : M unit :=
  v ← IP_V p bp;
  sbuf_printf "%u," [AInt v];;
  ip_len ← EXTRACT_16BITS p (bp + off_ip_len);
  if MAXIMUM_SNAPLEN <? ip_len then sbuf_printf "[|ip])," []
  else if length <? sizeof_ip then sbuf_printf "truncated-ip= %u)," [AInt length]
  else
    hl ← IP_HL p bp;
    let hlen := hl * 4 in
    if hlen <? sizeof_ip then sbuf_printf "bad-hlen=%u)," [AInt hlen]
    else
      let len := ip_len in
      (if length <? len then
         sbuf_printf "error='truncated-ip %u bytes missing!'," [AInt (u32 (len - length))]
       else mret tt);;
      if len <? hlen then sbuf_printf "bad-len=%u," [AInt len]
      else
        let len := u32 (len - hlen) in
        off ← EXTRACT_16BITS p (bp + off_ip_off);
        ip_tos ← rd8 p (bp + off_ip_tos);
        sbuf_printf "0x%x," [AInt ip_tos];;
        ecn_print ip_tos;;
        ip_ttl ← rd8 p (bp + off_ip_ttl);
        sbuf_printf ",%u," [AInt ip_ttl];;
        ip_id ← EXTRACT_16BITS p (bp + off_ip_id);
        ip_p ← rd8 p (bp + off_ip_p);
        sbuf_printf "%u,%u,%s,%u,"
          [AInt ip_id; AInt (Z.land off 0x1fff * 8);
           AStr (code2str ip_frag_values "none" (Z.land off 0xe000)); AInt ip_p];;
        (match getprotobynumber ip_p with
         | Some p_name => sbuf_printf "%s," [AStr p_name]
         | None => sbuf_printf "%s," [AStr (code2str ipproto_values "unknown" ip_p)]
         end);;
        sbuf_printf "%u," [AInt ip_len];;
        src ← rd_in_addr p (bp + off_ip_src);
        sbuf_printf "%s," [AStr src];;
        dst ← rd_in_addr p (bp + off_ip_dst);
        sbuf_printf "%s," [AStr dst];;
        if Z.land off 0x1fff =? 0 then
          ip_print_demux {| ip := bp; cp := bp + hlen; len := len; off := off; nh := ip_p |}
        else mret tt.

(** ** Termination *)

Lemma nofuel_ip_print_demux st : 0 <= cp st -> nofuel (ip_print_demux st).
Proof.
  intros Hcp. unfold ip_print_demux, udp_print, sctp_print, vrrp_print. nofuel_steps.
  by apply nofuel_tcp_print.
Qed.

Lemma nofuel_ip_print bp length : 0 <= bp -> nofuel (ip_print bp length).
Proof.
  intros Hbp. unfold ip_print. apply nofuel_bind; [eauto with fuel|]. intros v.
  apply nofuel_bind; [eauto with fuel|]. intros _. apply nofuel_bind; [eauto with fuel|]. intros l.
  do 2 (apply nofuel_if; [eauto with fuel|]).
  apply nofuel_IP_HL_bind. pose proof (ip_hl_range p bp). unfold ecn_print. nofuel_steps.
  - destruct (getprotobynumber _); eauto with fuel.
  - apply nofuel_ip_print_demux. cbn. lia.
Qed.
End Ip.

(** ** The columns of an IPv4 line *)

(** A header that is captured, has a legal length and covers no more than the packet. *)
Record ip_valid (p : packet) (bp length : Z) : Prop := {
  iv_bp : 0 <= bp;
  iv_cap : bp + sizeof_ip <= plen p;
  iv_hl : 5 <= ip_hl_at p bp;
  iv_len : ip_hl_at p bp * 4 <= be16_at p (bp + off_ip_len) <= length
}.

Definition ecn_text (ip_tos : Z) : string :=
  match ip_tos mod 4 with 1 => "1" | 2 => "0" | 3 => "CE" | _ => "" end.

(** The three flag bits as a number: 4 reserved, 2 don't fragment, 1 more fragments. *)
Definition frag_text (bits : Z) : string :=
  if bits =? 1 then "+" else if bits =? 2 then "DF" else if bits =? 4 then "rsvd" else "none".

Definition proto_text `{Libc} (ip_p : Z) : string :=
  default (code2str ipproto_values "unknown" ip_p) (getprotobynumber ip_p).

(** Version, TOS, ECN, TTL, identification, fragment offset in bytes, flags, protocol number and
    name, total length, source and destination. *)
Definition ip_columns `{Libc} (p : packet) (bp : Z) : list string :=
  let off := be16_at p (bp + 6) in
  [ udec (ip_v_at p bp); "0x" +:+ uhex (byte_at p (bp + 1)); ecn_text (byte_at p (bp + 1));
    udec (byte_at p (bp + 8)); udec (be16_at p (bp + 4)); udec (off mod 8192 * 8);
    frag_text (off / 8192); udec (byte_at p (bp + 9)); proto_text (byte_at p (bp + 9));
    udec (be16_at p (bp + 2)); inet_ntoa (bytes_at p (bp + 12) 4);
    inet_ntoa (bytes_at p (bp + 16) 4) ].

Lemma bind_ecn {B} tos (k : unit -> M B) s :
  (ecn_print tos ≫= k) s = k tt (s +:+ ecn_text tos).
Proof.
  apply bind_ok. unfold ecn_print, ecn_text. cbv zeta.
  replace (Z.land tos 3) with (tos mod 4) by (symmetry; apply (land_pow2_mod tos 2); lia).
  pose proof (Z.mod_pos_bound tos 4).
  assert (tos mod 4 = 0 \/ tos mod 4 = 1 \/ tos mod 4 = 2 \/ tos mod 4 = 3)
    as [E|[E|[E|E]]] by lia; rewrite E; cbn; [by rewrite append_nil_r|done..].
Qed.

Lemma frag_text_ok off : 0 <= off < 65536 ->
  code2str ip_frag_values "none" (Z.land off 0xe000) = frag_text (off / 8192).
Proof.
  intros Ho. pose proof (land_high off 16 13 ltac:(lia) Ho) as E.
  change (2 ^ 16 - 2 ^ 13) with 0xe000 in E. change (2 ^ 13) with 8192 in E.
  rewrite E. unfold ip_frag_values, frag_text, IP_MF, IP_DF, IP_RES. cbv [code2str action descr].
  repeat case_match; (done || lia).
Qed.

Lemma bind_proto `{Libc} {B} ip_p (k : unit -> M B) s :
  ((match getprotobynumber ip_p with
    | Some p_name => sbuf_printf "%s," [AStr p_name]
    | None => sbuf_printf "%s," [AStr (code2str ipproto_values "unknown" ip_p)]
    end) ≫= k) s = k tt (s +:+ proto_text ip_p +:+ ",").
Proof. unfold proto_text. by destruct (getprotobynumber ip_p); erewrite bind_printf by reflexivity. Qed.

(** A valid header prints its twelve columns, each followed by a comma, and an unfragmented
    packet (or a first fragment) goes on with its protocol. *)
Lemma ip_print_ok `{Libc} p bp length s :
  ip_valid p bp length ->
  ip_print p bp length s
  = (if be16_at p (bp + 6) mod 8192 =? 0 then
       ip_print_demux p {| ip := bp; cp := bp + ip_hl_at p bp * 4;
                           len := be16_at p (bp + 2) - ip_hl_at p bp * 4;
                           off := be16_at p (bp + 6); nh := byte_at p (bp + 9) |}
     else mret tt) (s +:+ join_with "," (ip_columns p bp ++ [""])).
Proof.
  intros [Hbp Hc Hhl Hl]. pose proof (ip_hl_range p bp). pose proof (be16_range p (bp + 2)).
  pose proof (be16_range p (bp + 6)).
  unfold ip_print, sizeof_ip, off_ip_len, off_ip_off, off_ip_tos, off_ip_ttl, off_ip_id, off_ip_p,
    off_ip_src, off_ip_dst, MAXIMUM_SNAPLEN in *.
  do 3 run1. rewrite !(proj2 (Z.ltb_ge _ _)) by lia. cbn iota. run1.
  rewrite (proj2 (Z.ltb_ge (_ * 4) 20)) by lia. cbn iota.
  rewrite (bind_ok (mret tt) _ _ tt _ eq_refl), (proj2 (Z.ltb_ge (be16_at p (bp + 2)) _)) by lia.
  cbn iota. run. rewrite bind_ecn. run. rewrite bind_proto. run.
  rewrite frag_text_ok, (u32_small (_ - _)) by lia.
  change 0x1fff with (2 ^ 13 - 1). rewrite land_pow2_mod by lia. change (2 ^ 13) with 8192.
  pose proof (Z.mod_pos_bound (be16_at p (bp + 6)) 8192).
  f_equal. unfold ip_columns. autorewrite with narrow. rewrite u32_small by lia. by str_norm.
Qed.

(** Protocol names without a comma: true of every entry of the protocols database, and of the
    fallback table. *)
Definition proto_names_ok `{Libc} : Prop :=
  forall n name, getprotobynumber n = Some name -> has_char "," name = false.

Lemma proto_text_no_comma `{Libc} n : proto_names_ok -> has_char "," (proto_text n) = false.
Proof.
  intros Hok. unfold proto_text. destruct (getprotobynumber n) as [name|] eqn:E; cbn; [by eapply Hok|].
  apply (code2str_cases _ _ _ (fun t => has_char "," t = false)); [done|]. by repeat constructor.
Qed.

Lemma ecn_text_no_comma tos : has_char "," (ecn_text tos) = false.
Proof. unfold ecn_text. by repeat case_match. Qed.

Lemma frag_text_no_comma bits : has_char "," (frag_text bits) = false.
Proof. unfold frag_text. by repeat case_match. Qed.

Lemma ip_columns_no_comma `{Libc} p bp :
  proto_names_ok -> Forall (fun c => has_char "," c = false) (ip_columns p bp).
Proof.
  intros Hok. pose proof (ip_v_range p bp). pose proof (be16_range p (bp + 2)).
  pose proof (be16_range p (bp + 4)). pose proof (Z.mod_pos_bound (be16_at p (bp + 6)) 8192).
  pose proof (byte_at_range p (bp + 1)). pose proof (byte_at_range p (bp + 8)).
  pose proof (byte_at_range p (bp + 9)).
  assert (Hd : forall z, 0 <= z -> has_char "," (udec z) = false) by (intros; by apply udec_no_char).
  unfold ip_columns. cbv zeta. constructor; [apply Hd; lia|].
  constructor; [rewrite has_char_app, uhex_no_char by (lia || reflexivity); reflexivity|].
  constructor; [apply ecn_text_no_comma|]. do 3 (constructor; [apply Hd; lia|]).
  constructor; [apply frag_text_no_comma|]. constructor; [apply Hd; lia|].
  constructor; [apply proto_text_no_comma, Hok|]. constructor; [apply Hd; lia|].
  do 2 (constructor; [apply inet_ntoa_no_comma|]). constructor.
Qed.

Definition udp_columns (p : packet) (up : Z) : list string :=
  [udec (be16_at p up); udec (be16_at p (up + 2)); udec (be16_at p (up + 4))].

Lemma ip_print_udp_ok `{Libc} p bp length s :
  ip_valid p bp length -> be16_at p (bp + 6) mod 8192 = 0 -> byte_at p (bp + 9) = IPPROTO_UDP ->
  bp + ip_hl_at p bp * 4 + 8 <= plen p ->
  ip_print p bp length s
  = Ok (tt, s +:+ join_with "," (ip_columns p bp ++ udp_columns p (bp + ip_hl_at p bp * 4))).
Proof.
  intros Hv Hf Hp Hc. rewrite ip_print_ok, Hf by done. cbn [Z.eqb].
  unfold ip_print_demux. cbn [nh cp len ip off]. rewrite Hp. cbn [Z.eqb Pos.eqb IPPROTO_UDP IPPROTO_TCP].
  pose proof (ip_hl_range p bp). destruct Hv.
  unfold udp_print, off_uh_sport, off_uh_dport, off_uh_ulen. rewrite Z.add_0_r. run.
  erewrite bind_printf_ret by (cbn; reflexivity). autorewrite with narrow.
  rewrite !join_with_app by done. unfold udp_columns. by str_norm.
Qed.

Lemma ip_print_tcp_ok `{Libc} p bp length opts pad s :
  ip_valid p bp length -> be16_at p (bp + 6) mod 8192 = 0 -> byte_at p (bp + 9) = IPPROTO_TCP ->
  let tp := bp + ip_hl_at p bp * 4 in
  let plen := be16_at p (bp + 2) - ip_hl_at p bp * 4 in
  tcp_valid p tp plen opts pad ->
  ip_print p bp length s
  = Ok (tt, s +:+ join_with "," (ip_columns p bp ++
        tcp_columns p tp (plen - sizeof_tcphdr - Z.of_nat (List.length (opts_area opts pad))) opts pad)).
Proof.
  intros Hv Hf Hp tp plen Ht. rewrite ip_print_ok, Hf by done. cbn [Z.eqb].
  unfold ip_print_demux. cbn [nh cp len ip off]. rewrite Hp. cbn [Z.eqb Pos.eqb IPPROTO_TCP].
  fold tp plen. erewrite tcp_print_ok; [|done|].
  - rewrite !join_with_app by done. do 2 f_equal. by str_norm.
  - destruct Hv. unfold sizeof_ip in *. lia.
Qed.
