(* ===== verification/FlIp6.v ===== *)
(** filterlog, print-ip6.c: the IPv6 printer, its chain of extension headers and the columns of an
    IPv6 log line. *)
From Stdlib Require Import ZArith Lia Ascii String.
From stdpp Require Import base list strings numbers.
From S2P Require Import Prelude CProg FlCommon FlTcp FlIp6opts FlMobility FlIp.
Open Scope string_scope.
Open Scope list_scope.
Open Scope Z_scope.

(** struct ip6_hdr, struct ip6_rthdr0 and struct ip6_frag *)
Definition sizeof_ip6_hdr : Z := 40.
Definition off_ip6_plen : Z := 4.
Definition off_ip6_nxt : Z := 6.
Definition off_ip6_hlim : Z := 7.
Definition off_ip6_src : Z := 8.
Definition off_ip6_dst : Z := 24.
Definition off_ip6r_len : Z := 1.
Definition off_ip6r_type : Z := 2.
Definition off_ip6r_segleft : Z := 3.
Definition off_ip6r0_reserved : Z := 4.
Definition sizeof_ip6_rthdr0 : Z := 8.
Definition sizeof_in6_addr : Z := 16.
Definition off_ip6f_offlg : Z := 2.
Definition off_ip6f_ident : Z := 4.
Definition sizeof_ip6_frag : Z := 8.

Definition IPV6_RTHDR_TYPE_0 : Z := 0.
Definition IPV6_RTHDR_TYPE_2 : Z := 2.

Section Ip6.
Context `{Libc}.
Variable p : packet.

(** The [trunc:] label. *)
Definition rt6_trunc : M Z := sbuf_printf "TRUNC,[|srcrt]," [];; mret (-1).

(** The [for] loop over the addresses, [n] of them left; false when it jumps to [trunc]. *)
Fixpoint rt6_addrs (n : nat) (i addr ep : Z) : M bool :=
  match n with
  | O => mret true
  | S n =>
      if ep <? addr + sizeof_in6_addr then mret false
      else
        a ← rd_in6_addr p addr;
        sbuf_printf "%d, %s" [AInt i; AStr a];;
        rt6_addrs n (i + 1) (addr + sizeof_in6_addr) ep
  end.

Definition rt6_print (bp datalen : Z) : M Z :=
  len ← rd8 p (bp + off_ip6r_len);
  let ep := bp + datalen in
  type ← rd8 p (bp + off_ip6r_type);
  segleft ← rd8 p (bp + off_ip6r_segleft);
  sbuf_printf "%d,%d,%d," [AInt len; AInt type; AInt segleft];;
  if (type =? IPV6_RTHDR_TYPE_0) || (type =? IPV6_RTHDR_TYPE_2) then
    reserved ← EXTRACT_32BITS p (bp + off_ip6r0_reserved);
    sbuf_printf "0x%0x," [AInt reserved];;
    if len mod 2 =? 1 then rt6_trunc
    else
      ok ← rt6_addrs (Z.to_nat (Z.shiftr len 1)) 0 (bp + sizeof_ip6_rthdr0) ep;
      if (ok : bool) then mret (Z.shiftl (len + 1) 3) else rt6_trunc
  else rt6_trunc.

(** The length is computed in [unsigned long] and printed as a [long]. *)
Definition frag6_print (bp bp2 : Z) : M Z :=
  ident ← EXTRACT_32BITS p (bp + off_ip6f_ident);
  offlg ← EXTRACT_16BITS p (bp + off_ip6f_offlg);
  ip6_plen ← EXTRACT_16BITS p (bp2 + off_ip6_plen);
  sbuf_printf "FRAG6, 0x%08x:%d|%ld,"
    [AInt ident; AInt (Z.land offlg IP6F_OFF_MASK);
     AInt (u64 (sizeof_ip6_hdr + ip6_plen - (bp - bp2) - sizeof_ip6_frag))];;
  if c_true (Z.land offlg IP6F_OFF_MASK) then mret (-1)
  else sbuf_printf "," [];; mret sizeof_ip6_frag.

(** What one round of the loop does after its switch: [return], or go on with a new [advance] and
    next header. *)
Inductive ip6_flow : Type := Return | Loop (advance nh : Z).

(** The [switch (nh)].  The case of SCTP leaves the switch with [advance] and [nh] unchanged. *)
Definition ip6_switch (ip6 cp len advance nh : Z) : M ip6_flow :=
  let next m := (advance ← m; nh ← rd8 p cp; mret (Loop advance nh)) in
  if nh =? IPPROTO_HOPOPTS then next (hbhopt_print p cp)
  else if nh =? IPPROTO_DSTOPTS then next (dstopt_print p cp)
  else if nh =? IPPROTO_FRAGMENT then next (frag6_print cp ip6)
  else if (nh =? IPPROTO_MOBILITY_OLD) || (nh =? IPPROTO_MOBILITY) then
    sbuf_printf "MOBILITY," [];;
    mobility_print p cp len;;
    rd8 p cp;;
    mret Return
  else if nh =? IPPROTO_ROUTING then next (rt6_print cp (i32 len))
  else if nh =? IPPROTO_TCP then tcp_print p cp len ip6;; mret Return
  else if nh =? IPPROTO_UDP then udp_print p cp;; mret Return
  else if nh =? IPPROTO_SCTP then sctp_print p cp len;; mret (Loop advance nh)
  else if nh =? IPPROTO_IPV6 then sbuf_printf "IPV6-IN-IPV6," [];; mret Return
  else if nh =? IPPROTO_IPV4 then sbuf_printf "IPV4-IN-IPV6," [];; mret Return
  else mret Return.

(** [while (cp < ipend && advance > 0)]; [len] is an [u_int]. *)
Fixpoint ip6_loop (fuel : nat) (ip6 ipend cp len advance nh : Z) : M unit :=
  if (cp <? ipend) && (0 <? advance) then
    match fuel with
    | O => fail NoFuel
    | S fuel =>
        let cp := cp + advance in
        let len := u32 (len - advance) in
        (if cp =? ip6 + sizeof_ip6_hdr then
           src ← rd_in6_addr p (ip6 + off_ip6_src);
           sbuf_printf "%s," [AStr src];;
           dst ← rd_in6_addr p (ip6 + off_ip6_dst);
           sbuf_printf "%s," [AStr dst]
         else mret tt);;
        r ← ip6_switch ip6 cp len advance nh;
        match r with
        | Return => mret tt
        | Loop advance nh => ip6_loop fuel ip6 ipend cp len advance nh
        end
    end
  else mret tt.

Definition ip6_print (bp length : Z) : M unit :=
  sbuf_printf "6," [];;
  if length <? sizeof_ip6_hdr then sbuf_printf "truncated-ip6=%u," [AInt length]
  else
    payload_len ← EXTRACT_16BITS p (bp + off_ip6_plen);
    let len := payload_len + sizeof_ip6_hdr in
    (if length <? len then
       sbuf_printf "error='truncated-ip6 - %u bytes missing!'," [AInt (u32 (len - length))]
     else mret tt);;
    flow ← EXTRACT_32BITS p bp;
    sbuf_printf "0x%02x," [AInt (Z.shiftr (Z.land flow 0x0ff00000) 20)];;
    sbuf_printf "0x%05x," [AInt (Z.land flow 0x000fffff)];;
    ip6_hlim ← rd8 p (bp + off_ip6_hlim);
    ip6_nxt ← rd8 p (bp + off_ip6_nxt);
    sbuf_printf "%u,%s,%u,%u,"
      [AInt ip6_hlim; AStr (code2str ipproto_values "unknown" ip6_nxt); AInt ip6_nxt;
       AInt payload_len];;
    ip6_loop (Z.to_nat len) bp (bp + len) bp len sizeof_ip6_hdr ip6_nxt.

(** ** Termination: every round moves [cp] on by at least one byte. *)

Lemma rt6_addrs_yields E n : forall i addr ep, (0 <= addr /\ ep <= plen p) \/ (forall o, E (Oob o)) ->
  yields E (rt6_addrs n i addr ep) (fun _ => True).
Proof.
  induction n as [|n IH]; intros i addr ep HE; cbn [rt6_addrs]; [by apply yields_ret|].
  unfold sizeof_in6_addr. yields_steps. apply IH. destruct HE; [left; lia | by right].
Qed.

Lemma rt6_print_yields E bp datalen :
  (0 <= bp /\ bp + 8 <= plen p /\ bp + datalen <= plen p) \/ (forall o, E (Oob o)) ->
  yields E (rt6_print bp datalen) (fun _ => True).
Proof.
  intros HE. unfold rt6_print, off_ip6r_len, off_ip6r_type, off_ip6r_segleft, off_ip6r0_reserved,
    sizeof_ip6_rthdr0, rt6_trunc.
  yields_steps. apply rt6_addrs_yields. destruct HE; [left; lia | by right].
Qed.

Lemma frag6_print_yields E bp bp2 :
  (0 <= bp /\ bp + 8 <= plen p /\ 0 <= bp2 /\ bp2 + 6 <= plen p) \/ (forall o, E (Oob o)) ->
  yields E (frag6_print bp bp2) (fun _ => True).
Proof. intros HE. unfold frag6_print, off_ip6f_ident, off_ip6f_offlg, off_ip6_plen. yields_steps. Qed.

Lemma nofuel_rt6_print bp datalen : nofuel (rt6_print bp datalen).
Proof. eapply yields_nofuel, rt6_print_yields. right. by intros o [=]. Qed.

Lemma nofuel_frag6_print bp bp2 : nofuel (frag6_print bp bp2).
Proof. eapply yields_nofuel, frag6_print_yields. right. by intros o [=]. Qed.

#[local] Hint Resolve nofuel_hbhopt_print nofuel_dstopt_print nofuel_rt6_print nofuel_frag6_print
  nofuel_tcp_print : fuel.

Lemma nofuel_ip6_switch ip6 cp len advance nh : 0 <= cp -> nofuel (ip6_switch ip6 cp len advance nh).
Proof.
  intros Hcp. unfold ip6_switch, udp_print, sctp_print. cbv zeta.
  nofuel_steps.
Qed.

Lemma nofuel_ip6_loop fuel ip6 ipend cp len advance nh :
  0 <= cp -> ipend - cp <= Z.of_nat fuel -> nofuel (ip6_loop fuel ip6 ipend cp len advance nh).
Proof.
  revert cp len advance nh. induction fuel as [|k IH]; intros cp len advance nh Hcp Hf; cbn [ip6_loop].
  - destruct (Z.ltb_spec cp ipend); [lia|]. cbn. eauto with fuel.
  - destruct (Z.ltb_spec cp ipend), (Z.ltb_spec 0 advance); cbn [andb]; eauto with fuel.
    apply nofuel_bind; [nofuel_steps|]. intros _.
    apply nofuel_bind; [apply nofuel_ip6_switch; lia|]. intros [|a n]; [eauto with fuel|].
    apply IH; lia.
Qed.

Lemma nofuel_ip6_print bp length : 0 <= bp -> nofuel (ip6_print bp length).
Proof.
  intros Hbp. unfold ip6_print. nofuel_steps. apply nofuel_ip6_loop; lia.
Qed.
End Ip6.

(** ** The columns of an IPv6 line *)

(** A captured header that covers no more than the packet. *)
Record ip6_valid (p : packet) (bp length : Z) : Prop := {
  i6_bp : 0 <= bp;
  i6_cap : bp + sizeof_ip6_hdr <= plen p;
  i6_len : be16_at p (bp + off_ip6_plen) + sizeof_ip6_hdr <= length
}.

(** Version, traffic class, flow label, hop limit, name and number of the next header, payload
    length, source and destination. *)
Definition ip6_columns `{Libc} (p : packet) (bp : Z) : list string :=
  [ "6"; "0x" +:+ pad0 2 (uhex (be32_at p bp / 2 ^ 20 mod 2 ^ 8));
    "0x" +:+ pad0 5 (uhex (be32_at p bp mod 2 ^ 20)); udec (byte_at p (bp + 7));
    code2str ipproto_values "unknown" (byte_at p (bp + 6)); udec (byte_at p (bp + 6));
    udec (be16_at p (bp + 4)); inet_ntop6 (bytes_at p (bp + 8) 16);
    inet_ntop6 (bytes_at p (bp + 24) 16) ].

Lemma ip6_class flow : Z.shiftr (Z.land flow 0x0ff00000) 20 = flow / 2 ^ 20 mod 2 ^ 8.
Proof.
  rewrite Z.shiftr_land. change (Z.shiftr 0x0ff00000 20) with (2 ^ 8 - 1).
  by rewrite land_pow2_mod, Z.shiftr_div_pow2.
Qed.

(** A valid header prints its nine columns, and the header after it is printed next. *)
Lemma ip6_print_ok `{Libc} p bp length s :
  ip6_valid p bp length ->
  ip6_print p bp length s
  = (r ← ip6_switch p bp (bp + 40) (be16_at p (bp + 4)) 40 (byte_at p (bp + 6));
     match r with
     | Return => mret tt
     | Loop advance nh =>
         ip6_loop p (Z.to_nat (be16_at p (bp + 4) + 39)) bp (bp + (be16_at p (bp + 4) + 40)) (bp + 40)
           (be16_at p (bp + 4)) advance nh
     end) (s +:+ join_with "," (ip6_columns p bp ++ [""])).
Proof.
  intros [Hbp Hc Hl]. pose proof (be16_range p (bp + 4)). pose proof (be32_range p bp).
  unfold ip6_print, sizeof_ip6_hdr, off_ip6_plen, off_ip6_hlim, off_ip6_nxt in *.
  run1. rewrite (proj2 (Z.ltb_ge length 40)) by lia. cbn iota. run1.
  rewrite (proj2 (Z.ltb_ge length _)) by lia. rewrite (bind_ok (mret tt) _ _ tt _ eq_refl). run.
  replace (Z.to_nat (be16_at p (bp + 4) + 40)) with (S (Z.to_nat (be16_at p (bp + 4) + 39))) by lia.
  cbn [ip6_loop]. rewrite (proj2 (Z.ltb_lt bp _)) by lia. cbn [andb Z.ltb Z.compare].
  unfold sizeof_ip6_hdr, off_ip6_src, off_ip6_dst. rewrite Z.eqb_refl.
  repeat first [run1 | rewrite <- bind_assoc].
  rewrite Z.add_simpl_r, (u32_small (be16_at p (bp + 4))) by lia. f_equal.
  change 0x000fffff with (2 ^ 20 - 1). rewrite ip6_class, land_pow2_mod by lia.
  pose proof (Z.mod_pos_bound (be32_at p bp / 2 ^ 20) (2 ^ 8)).
  pose proof (Z.mod_pos_bound (be32_at p bp) (2 ^ 20)).
  autorewrite with narrow. rewrite !u32_small by lia.
  unfold ip6_columns. by str_norm.
Qed.

Section Lines.
Context `{Libc} (p : packet) (bp length : Z).
Hypothesis valid : ip6_valid p bp length.

Lemma ip6_print_udp_ok s :
  byte_at p (bp + 6) = IPPROTO_UDP -> bp + 48 <= plen p ->
  ip6_print p bp length s
  = Ok (tt, s +:+ join_with "," (ip6_columns p bp ++ udp_columns p (bp + 40))).
Proof.
  intros Hp Hc. rewrite ip6_print_ok, Hp by done. destruct valid.
  unfold ip6_switch. cbn [Z.eqb Pos.eqb orb IPPROTO_HOPOPTS IPPROTO_DSTOPTS IPPROTO_FRAGMENT
    IPPROTO_MOBILITY_OLD IPPROTO_MOBILITY IPPROTO_ROUTING IPPROTO_TCP IPPROTO_UDP].
  unfold udp_print, off_uh_sport, off_uh_dport, off_uh_ulen. rewrite Z.add_0_r.
  repeat first [run1 | rewrite <- bind_assoc].
  autorewrite with narrow. rewrite !join_with_app by done. unfold udp_columns, mret, M_ret. by str_norm.
Qed.

Lemma ip6_print_tcp_ok opts pad s :
  byte_at p (bp + 6) = IPPROTO_TCP ->
  tcp_valid p (bp + 40) (be16_at p (bp + 4)) opts pad ->
  ip6_print p bp length s
  = Ok (tt, s +:+ join_with "," (ip6_columns p bp ++
        tcp_columns p (bp + 40)
          (be16_at p (bp + 4) - sizeof_tcphdr - Z.of_nat (List.length (opts_area opts pad))) opts pad)).
Proof.
  intros Hp Ht. rewrite ip6_print_ok, Hp by done. destruct valid. unfold sizeof_ip6_hdr in *.
  unfold ip6_switch. cbn [Z.eqb Pos.eqb orb IPPROTO_HOPOPTS IPPROTO_DSTOPTS IPPROTO_FRAGMENT
    IPPROTO_MOBILITY_OLD IPPROTO_MOBILITY IPPROTO_ROUTING IPPROTO_TCP].
  rewrite <- bind_assoc. erewrite bind_ok; [|apply tcp_print_ok; [done|lia]].
  rewrite !join_with_app by done. unfold mbind, M_bind, mret, M_ret. by str_norm.
Qed.
End Lines.

(** ** Fragments *)

Lemma land_f8ff x : 0 <= x < 65536 -> Z.land x 0xf8ff = 0 <-> x mod 256 = 0 /\ x < 2048.
Proof.
  intros Hx. change 0xf8ff with (Z.lor (2 ^ 8 - 1) 0xf800).
  rewrite Z.land_lor_distr_r, Z.lor_eq_0_iff, land_pow2_mod by lia.
  pose proof (land_high x 16 11 ltac:(lia) Hx) as E. change (2 ^ 16 - 2 ^ 11) with 0xf800 in E.
  rewrite E. change (2 ^ 8) with 256. change (2 ^ 11) with 2048.
  clear E. assert (x / 2048 * 2048 = 0 <-> x < 2048) by (Z.to_euclidean_division_equations; lia). tauto.
Qed.

Lemma land_fff8 x : 0 <= x < 65536 -> Z.land x 0xfff8 = 0 <-> x / 8 = 0.
Proof.
  intros Hx. pose proof (land_high x 16 3 ltac:(lia) Hx) as E. change (2 ^ 16 - 2 ^ 3) with 0xfff8 in E.
  rewrite E. change (2 ^ 3) with 8. lia.
Qed.

(** Where [IP6F_OFF_MASK] is the big-endian constant, [frag6_print] goes on with the upper
    layer header exactly for the fragments at offset 0.  It applies the mask to a value that is
    already in host order, so on a little-endian host (where the constant is byte-swapped) it goes
    on exactly when the low byte of the field is zero and the offset is below 2048: a first
    fragment whose more-fragments bit is set is not decoded, and the last fragment at offset 256,
    512, ... 1792 is. *)
Theorem frag6_first_fragment_test `{Libc} p bp bp2 s :
  0 <= bp -> bp + 8 <= plen p -> 0 <= bp2 -> bp2 + 6 <= plen p ->
  let offlg := be16_at p (bp + off_ip6f_offlg) in
  exists r t, frag6_print p bp bp2 s = Ok (r, s +:+ t) /\
    (IP6F_OFF_MASK = 0xfff8 -> r = sizeof_ip6_frag <-> offlg / 8 = 0) /\
    (IP6F_OFF_MASK = 0xf8ff -> r = sizeof_ip6_frag <-> offlg mod 256 = 0 /\ offlg < 2048).
Proof.
  intros Hbp Hc Hbp2 Hc2 offlg. pose proof (be16_range p (bp + off_ip6f_offlg)) as Ho.
  unfold frag6_print, off_ip6_plen, off_ip6f_offlg, off_ip6f_ident, sizeof_ip6_frag in *. run.
  unfold c_true. destruct (Z.eqb_spec (Z.land (be16_at p (bp + 2)) IP6F_OFF_MASK) 0) as [E|E]; cbn [negb].
  - run. do 2 eexists. split; [unfold mret, M_ret; by rewrite append_assoc|].
    split; intros HM; rewrite HM in E; (split; [intros _|done]).
    + by apply land_fff8.
    + by apply land_f8ff.
  - do 2 eexists. split; [done|].
    split; intros HM; rewrite HM in E; (split; [done|intros Hoff; destruct E]).
    + by apply land_fff8.
    + by apply land_f8ff.
Qed.

(** A first fragment of a UDP datagram: offset 0, more fragments to come. *)
Definition first_fragment : packet :=
  map byte_of_Z ([0x60; 0; 0; 0; 0; 16; 44; 64] ++ replicate 15 0 ++ [1] ++ replicate 15 0 ++ [2]
    ++ [17; 0; 0; 1; 0; 0; 0; 7] ++ [0; 53; 0; 53; 0; 8; 0; 0]).

Lemma frag6_first_fragment_test_witness :
  (40 + 8 <= plen first_fragment /\ be16_at first_fragment (40 + off_ip6f_offlg) / 8 = 0) /\
  exists r t, frag6_print (H := demo_libc) first_fragment 40 0 "" = Ok (r, t) /\ r <> sizeof_ip6_frag.
Proof.
  split; [vm_compute; split; congruence|].
  destruct (frag6_first_fragment_test (H := demo_libc) first_fragment 40 0 "") as (r & t & E & _ & HL);
    [lia | vm_compute; congruence | lia | vm_compute; congruence |].
  exists r, t. split; [exact E|]. intros Hr. apply (HL eq_refl) in Hr as [Hr _]. vm_compute in Hr. congruence.
Defined.

(** ** SCTP *)

Lemma sctp_print_ok p cp len s :
  0 <= cp -> cp + 4 <= plen p ->
  sctp_print p cp len s
  = Ok (tt, s +:+ join_with ","
      [udec (be16_at p cp); udec (be16_at p (cp + 2)); udec (u64 (len - sizeof_sctphdr))]).
Proof.
  intros. unfold sctp_print. run. erewrite bind_printf_ret by (cbn; reflexivity).
  autorewrite with narrow. unfold u64. rewrite ?Z.mod_mod by lia. by str_norm.
Qed.

Lemma ip6_switch_sctp `{Libc} {B} p ip6 cp len advance (k : ip6_flow -> M B) s :
  (ip6_switch p ip6 cp len advance IPPROTO_SCTP ≫= k) s
  = (sctp_print p cp len;; k (Loop advance IPPROTO_SCTP)) s.
Proof.
  unfold ip6_switch. cbn [Z.eqb Pos.eqb orb IPPROTO_HOPOPTS IPPROTO_DSTOPTS IPPROTO_FRAGMENT
    IPPROTO_MOBILITY_OLD IPPROTO_MOBILITY IPPROTO_ROUTING IPPROTO_TCP IPPROTO_UDP IPPROTO_SCTP].
  by rewrite <- bind_assoc.
Qed.

Lemma ip6_loop_end `{Libc} p fuel ip6 ipend cp len advance nh :
  ipend <= cp -> ip6_loop p fuel ip6 ipend cp len advance nh = mret tt.
Proof. intros Hc. destruct fuel; cbn [ip6_loop]; by rewrite (proj2 (Z.ltb_ge cp ipend) Hc). Qed.

Lemma bind_unit (m : M unit) s : (m ≫= fun _ => mret tt) s = m s.
Proof. unfold mbind, M_bind. by destruct (m s) as [[[] s']|]. Qed.

(** SCTP over IPv6 is decoded once more: the switch is left with [break], the loop advances by
    another 40 bytes, and for a payload of 1 to 40 bytes the line gets a second group of port
    columns, run into the first one and read from 40 bytes after the SCTP header (beyond the
    datagram). *)
Theorem ip6_sctp_decoded_twice `{Libc} p bp length s :
  ip6_valid p bp length -> byte_at p (bp + off_ip6_nxt) = IPPROTO_SCTP ->
  0 < be16_at p (bp + off_ip6_plen) <= 40 -> bp + 44 <= plen p ->
  let payload_len := be16_at p (bp + off_ip6_plen) in
  let line := s +:+ join_with "," (ip6_columns p bp ++
    [udec (be16_at p (bp + 40)); udec (be16_at p (bp + 42)); udec (u64 (payload_len - sizeof_sctphdr))]) in
  ip6_print p bp length s = sctp_print p (bp + 80) (u32 (payload_len - 40)) line.
Proof.
  unfold off_ip6_nxt, off_ip6_plen. intros Hv Hp Hl Hc. cbv zeta.
  rewrite ip6_print_ok, Hp, ip6_switch_sctp by done. pose proof Hv as [].
  erewrite bind_ok by (apply sctp_print_ok; lia).
  replace (Z.to_nat (be16_at p (bp + 4) + 39)) with (S (Z.to_nat (be16_at p (bp + 4) + 38))) by lia.
  cbn [ip6_loop]. rewrite (proj2 (Z.ltb_lt (bp + 40) _)) by lia. cbn [andb Z.ltb Z.compare].
  unfold sizeof_ip6_hdr. rewrite (proj2 (Z.eqb_neq (bp + 40 + 40) _)) by lia.
  rewrite (bind_ok (mret tt) _ _ tt _ eq_refl), ip6_switch_sctp.
  rewrite ip6_loop_end by lia.
  replace (bp + 40 + 40) with (bp + 80) by lia. replace (bp + 40 + 2) with (bp + 42) by lia.
  rewrite bind_unit. f_equal. rewrite !join_with_app by done. by str_norm.
Qed.

(** INIT chunk of 4 bytes after the common header, nothing captured after it. *)
Definition sctp6_packet : packet :=
  map byte_of_Z ([0x60; 0; 0; 0; 0; 16; 132; 64] ++ replicate 15 0 ++ [1] ++ replicate 15 0 ++ [2]
    ++ [0x0b; 0x59; 0x0b; 0x5a; 0; 0; 0; 0; 0; 0; 0; 0; 1; 0; 0; 4]).

Lemma ip6_sctp_decoded_twice_witness :
  0 < be16_at sctp6_packet (0 + off_ip6_plen) <= 40 /\
  ip6_print (H := demo_libc) sctp6_packet 0 56 "" = Fail (Oob 80).
Proof.
  split; [vm_compute; split; congruence|].
  rewrite (ip6_sctp_decoded_twice (H := demo_libc) sctp6_packet 0 56 "");
    [reflexivity | constructor; vm_compute; congruence | reflexivity
    | vm_compute; split; congruence | vm_compute; congruence].
Defined.
