(* ===== verification/Filterlog.v ===== *)
(** filterlog, filterlog.c: decoding a captured pflog packet into a log line, the reason filter
    of the -r option, and the main loop over capture sessions. *)
From Stdlib Require Import ZArith Lia Ascii String.
From stdpp Require Import base list strings numbers.
From S2P Require Import Prelude CProg FlCommon FlTcp FlIcmp FlIp FlIp6.
Open Scope string_scope.
Open Scope list_scope.
Open Scope Z_scope.

(** struct pfloghdr (if_pflog.h) *)
Definition off_length : Z := 0.
Definition off_action : Z := 2.
Definition off_reason : Z := 3.
Definition off_ifname : Z := 4.
Definition off_ruleset : Z := 20.
Definition off_rulenr : Z := 36.
Definition off_subrulenr : Z := 40.
Definition off_dir : Z := 60.
Definition off_ridentifier : Z := 64.

Definition MIN_PFLOG_HDRLEN : Z := 45.

(** net/bpf.h, with an 8-byte [long]. *)
Definition BPF_WORDALIGN (x : Z) : Z := Z.land (x + 7) (Z.lnot 7).

(** net/pfvar.h *)
Definition PF_INOUT : Z := 0.
Definition PF_IN : Z := 1.
Definition PF_OUT : Z := 2.
Definition PF_PASS : Z := 0.
Definition PF_DROP : Z := 1.
Definition PF_SCRUB : Z := 2.
Definition PF_NAT : Z := 4.
Definition PF_NONAT : Z := 5.
Definition PF_BINAT : Z := 6.
Definition PF_NOBINAT : Z := 7.
Definition PF_RDR : Z := 8.
Definition PF_NORDR : Z := 9.
Definition PF_SYNPROXY_DROP : Z := 10.

Definition pf_reasons : list tok :=
  [ Tok 0 "match"; Tok 1 "bad-offset"; Tok 2 "fragment"; Tok 3 "short"; Tok 4 "normalize";
    Tok 5 "memory"; Tok 6 "bad-timestamp"; Tok 7 "congestion"; Tok 8 "ip-option";
    Tok 9 "proto-cksum"; Tok 10 "state-mismatch"; Tok 11 "state-insert"; Tok 12 "state-limit";
    Tok 13 "src-limit"; Tok 14 "synproxy"; Tok 15 "map-failed"; Tok 16 "translate" ].

Definition pf_actions : list tok :=
  [ Tok PF_PASS "pass"; Tok PF_DROP "block"; Tok PF_SCRUB "scrub"; Tok PF_NAT "nat";
    Tok PF_NONAT "nat"; Tok PF_BINAT "binat"; Tok PF_NOBINAT "binat"; Tok PF_RDR "rdr";
    Tok PF_NORDR "rdr"; Tok PF_SYNPROXY_DROP "synproxy-drop" ].

Definition pf_directions : list tok := [ Tok PF_INOUT "in/out"; Tok PF_IN "in"; Tok PF_OUT "out" ].

(** The static variables: the filtered reasons ([bool filter_reasons[16]]), the buffer, and the
    lines written so far (by syslog, or on standard output for a capture file). *)
Record flog : Type := {
  filter_reasons : list bool;
  sbuf : sbuf_t;
  lines : list string
}.

Definition nreasons : nat := 16.

Definition flog_init : flog :=
  {| filter_reasons := replicate nreasons false; sbuf := ""; lines := [] |}.

(** [a[i]] of an array of booleans. *)
Definition index (a : list bool) (i : Z) : M bool := fun s =>
  match a !! Z.to_nat i with Some b => Ok (b, s) | None => Fail (ArrayBounds i) end.

Section Decode.
Context `{Libc}.

(** The [switch (IP_V(ip))]. *)
Definition ip_version_print (p : packet) (packet length : Z) : M unit :=
  v ← IP_V p packet;
  if v =? 4 then ip_print p packet length
  else if v =? 6 then ip6_print p packet length
  else
    ip_print p packet length;;
    v ← IP_V p packet;
    sbuf_printf "%d" [AInt v].

(** [decode_packet] up to the label [printsbuf]: false when it returns without a line.  The
    [caplen] bytes that libpcap captured are the packet [p]. *)
Definition decode_body (fr : list bool) (p : packet) (length : Z) : M bool :=
  let caplen := plen p in
  if caplen <? 1 then sbuf_printf "[|pflog]" [];; mret true
  else
    hdr_length ← rd8 p off_length;
    if hdr_length <? MIN_PFLOG_HDRLEN then
      sbuf_printf "[pflog: invalid header length!]" [];; mret true
    else
      let hdrlen := BPF_WORDALIGN hdr_length in
      reason ← rd8 p off_reason;
      filtered ← index fr reason;
      if (filtered : bool) then mret false
      else if caplen <? hdrlen then sbuf_printf "[|pflog]" [];; mret true
      else
        rulenr ← EXTRACT_32BITS p off_rulenr;
        sbuf_printf "%u," [AInt rulenr];;
        subrulenr ← EXTRACT_32BITS p off_subrulenr;
        (if subrulenr =? u32 (-1) then sbuf_printf ",," []
         else
           ruleset ← rd_cstr p off_ruleset (S (List.length p));
           sbuf_printf "%u,%s," [AInt subrulenr; AStr ruleset]);;
        ridentifier ← EXTRACT_32BITS p off_ridentifier;
        ifname ← rd_cstr p off_ifname (S (List.length p));
        sbuf_printf "%u,%s," [AInt ridentifier; AStr ifname];;
        sbuf_printf "%s," [AStr (code2str pf_reasons "unkn(%u)" reason)];;
        act ← rd8 p off_action;
        sbuf_printf "%s," [AStr (code2str pf_actions "unkn(%u)" act)];;
        dir ← rd8 p off_dir;
        sbuf_printf "%s," [AStr (code2str pf_directions "unkn(%u)" dir)];;
        let length := u32 (length - hdrlen) in
        (if length <? 4 then
           v ← IP_V p hdrlen;
           sbuf_printf "%d, IP(truncated-ip %d) " [AInt v; AInt length]
         else ip_version_print p hdrlen length);;
        mret true.

(** Both ways out leave the buffer cleared. *)
Definition decode_packet (st : flog) (length : Z) (p : packet) : outcome flog :=
  match decode_body (filter_reasons st) p length (sbuf st) with
  | Ok (true, line) =>
      Ok {| filter_reasons := filter_reasons st; sbuf := ""; lines := lines st ++ [line] |}
  | Ok (false, _) =>
      Ok {| filter_reasons := filter_reasons st; sbuf := ""; lines := lines st |}
  | Fail f => Fail f
  end.

(** [pcap_loop]: the callback for every packet of a session. *)
Fixpoint decode_packets (st : flog) (l : list (Z * packet)) : outcome flog :=
  match l with
  | [] => Ok st
  | (length, p) :: l =>
      match decode_packet st length p with
      | Ok st => decode_packets st l
      | Fail f => Fail f
      end
  end.
End Decode.

(** ** The reason filter *)

(** [strtoul(s, &p, 10)]: the value and the rest [p] points to, which is [s] itself when there
    are no digits. *)
Definition strtoul (s : string) : Z * string :=
  let '(neg, r) :=
    match skip_space s with
    | String "-" r => (true, r)
    | String "+" r => (false, r)
    | r => (false, r)
    end in
  if starts_with_digit r then
    let '(v, rest) := dec_value 0 r in
    (if ULONG_MAX <? v then ULONG_MAX else if neg then u64 (- v) else v, rest)
  else (0, s).

(** [strchr] and cutting the string there: the part before the first [c] and the part after. *)
Fixpoint cut_at (c : ascii) (s : string) : string * option string :=
  match s with
  | EmptyString => (EmptyString, None)
  | String d r =>
      if Ascii.eqb d c then (EmptyString, Some r)
      else let '(a, b) := cut_at c r in (String d a, b)
  end.

(** The reasons of one token, [None] for [goto err]. *)
Definition parse_range (token : string) : option (Z * Z) :=
  let '(token, lastp) := cut_at "-" token in
  let '(first, p) := strtoul token in
  if negb (String.eqb p "") then None
  else if Z.of_nat nreasons <=? first then None
  else
    match lastp with
    | None => Some (first, first)
    | Some lastp =>
        let '(last, p) := strtoul lastp in
        if negb (String.eqb p "") then None
        else if (Z.of_nat nreasons <=? last) || (last <? first) then None
        else Some (first, last)
    end.

(** [for (reason = first; reason <= last; reason++) filter_reasons[reason] = true], [n] rounds;
    a write outside the array is left to show in the length. *)
Fixpoint set_reasons (n : nat) (reason : Z) (fr : list bool) : option (list bool) :=
  match n with
  | O => Some fr
  | S n =>
      if Z.to_nat reason <? length fr then set_reasons n (reason + 1) (<[Z.to_nat reason := true]> fr)
      else None
  end%nat.

(** How the loop over [strsep(&s, ",")] ends.  At [err] the remaining string [s], a pointer into
    the middle of the copy unless the token was the last one, is given to [free]. *)
Inductive parse_result : Type :=
  | Parsed (fr : list bool)
  | Invalid (fr : list bool) (freed : option string)
  | WriteOutside.

Fixpoint parse_tokens (tokens : list string) (fr : list bool) : parse_result :=
  match tokens with
  | [] => Parsed fr
  | token :: rest =>
      match parse_range token with
      | None => Invalid fr (match rest with [] => None | _ => Some (join_with "," rest) end)
      | Some (first, last) =>
          match set_reasons (Z.to_nat (last - first + 1)) first fr with
          | Some fr => parse_tokens rest fr
          | None => WriteOutside
          end
      end
  end.

Definition parse_filter_reasons (str : string) (fr : list bool) : parse_result :=
  parse_tokens (split_at "," str) fr.

(** ** main *)

Record config : Type := {
  interface : option string;
  pidfile : option string;
  filterlog_pcap_file : option string;
  reasons : list bool
}.

Definition config_init : config :=
  {| interface := None; pidfile := None; filterlog_pcap_file := None;
     reasons := replicate nreasons false |}.

(** The [getopt] loop; [None] where main returns -1.  An option is its character and argument. *)
Fixpoint main_options (opts : list (ascii * string)) (c : config) : option config :=
  match opts with
  | [] => Some c
  | (ch, optarg) :: opts =>
      if Ascii.eqb ch "i" then
        main_options opts {| interface := Some optarg; pidfile := pidfile c;
          filterlog_pcap_file := filterlog_pcap_file c; reasons := reasons c |}
      else if Ascii.eqb ch "p" then
        main_options opts {| interface := interface c; pidfile := Some optarg;
          filterlog_pcap_file := filterlog_pcap_file c; reasons := reasons c |}
      else if Ascii.eqb ch "P" then
        main_options opts {| interface := interface c; pidfile := pidfile c;
          filterlog_pcap_file := Some optarg; reasons := reasons c |}
      else if Ascii.eqb ch "r" then
        match parse_filter_reasons optarg (reasons c) with
        | Parsed fr =>
            main_options opts {| interface := interface c; pidfile := pidfile c;
              filterlog_pcap_file := filterlog_pcap_file c; reasons := fr |}
        | _ => None
        end
      else None
  end.

(** One round of [while (1)]: what libpcap reports for it. *)
Record session : Type := {
  opened : bool;
  datalink_pflog : bool;
  captured_packets : list (Z * packet);
  perr : Z
}.

(** The loop over the sessions, with the exit status; [None] while it is still running.  The
    sessions are given by the environment. *)
Fixpoint main_loop `{Libc} (offline : bool) (ss : list session) (st : flog) : outcome (flog * option Z) :=
  match ss with
  | [] => Ok (st, None)
  | s :: ss =>
      if negb (opened s) then Ok (st, Some (-1))
      else if negb (datalink_pflog s) then Ok (st, Some (-1))
      else
        match decode_packets st (captured_packets s) with
        | Fail f => Fail f
        | Ok st =>
            if perr s =? -2 then Ok (st, Some 0)
            else if offline then Ok (st, Some 0)
            else main_loop offline ss st
        end
  end.

Definition main `{Libc} (opts : list (ascii * string)) (ss : list session) : outcome (flog * option Z) :=
  match main_options opts config_init with
  | None => Ok (flog_init, Some (-1))
  | Some c =>
      match interface c, filterlog_pcap_file c with
      | None, None => Ok (flog_init, Some (-1))
      | _, file =>
          main_loop (bool_decide (is_Some file)) ss
            {| filter_reasons := reasons c; sbuf := ""; lines := [] |}
      end
  end.

(** ** Termination *)

Lemma wordalign_range x : 0 <= x -> x <= BPF_WORDALIGN x < x + 8.
Proof.
  intros Hx. unfold BPF_WORDALIGN. replace (Z.land (x + 7) (Z.lnot 7)) with ((x + 7) / 8 * 8); [Z.to_euclidean_division_equations; lia|].
  rewrite <- Z.ldiff_land. replace (Z.ldiff (x + 7) 7) with (Z.ldiff (x + 7) (Z.ones 3)) by done.
  rewrite Z.ldiff_ones_r, Z.shiftr_div_pow2, Z.shiftl_mul_pow2 by lia. done.
Qed.

Lemma nofuel_index fr i : nofuel (index fr i).
Proof. intros s. unfold index. by destruct (fr !! _). Qed.

Lemma nofuel_cstr p off : 0 <= off -> nofuel (rd_cstr p off (S (length p))).
Proof. intros. apply nofuel_rd_cstr; unfold plen; lia. Qed.

#[local] Hint Resolve nofuel_index nofuel_ip_print nofuel_ip6_print : fuel.

Lemma nofuel_ip_version_print `{Libc} p packet length :
  0 <= packet -> nofuel (ip_version_print p packet length).
Proof. intros. unfold ip_version_print. nofuel_steps. Qed.
#[local] Hint Resolve nofuel_ip_version_print : fuel.

Lemma nofuel_decode_body `{Libc} fr p length : nofuel (decode_body fr p length).
Proof.
  unfold decode_body. cbv zeta. apply nofuel_if; [nofuel_steps|].
  apply nofuel_rd8_bind. intros Hin. pose proof (byte_at_range p off_length).
  pose proof (wordalign_range (byte_at p off_length)).
  assert (0 <= BPF_WORDALIGN (byte_at p off_length)) by lia.
  assert (nofuel (rd_cstr p off_ruleset (S (List.length p)))) by by apply nofuel_cstr.
  assert (nofuel (rd_cstr p off_ifname (S (List.length p)))) by by apply nofuel_cstr.
  nofuel_steps.
Qed.

(** [decode_packet] terminates on every packet: whatever bytes were captured, no option, option
    list, extension header chain or string keeps a loop running; it ends with a line, silently, or
    with one of the memory faults of the model. *)
Theorem decode_packet_terminates `{Libc} st length p : decode_packet st length p <> Fail NoFuel.
Proof.
  unfold decode_packet. pose proof (nofuel_decode_body (filter_reasons st) p length (sbuf st)) as Hn.
  destruct (decode_body _ _ _ _) as [[[] line]|f]; [done..|]. by intros [= ->].
Qed.

(** A packet whose reason is not in [filter_reasons] (16 entries) is looked up outside the
    array; [pf_reasons] knows such a reason, 16, "translate". *)
Theorem reason_outside_array `{Libc} st length p :
  List.length (filter_reasons st) = nreasons -> 4 <= plen p ->
  MIN_PFLOG_HDRLEN <= byte_at p off_length -> Z.of_nat nreasons <= byte_at p off_reason ->
  decode_packet st length p = Fail (ArrayBounds (byte_at p off_reason)).
Proof.
  intros Hl Hc Hh Hr. unfold decode_packet, decode_body, MIN_PFLOG_HDRLEN, off_length, off_reason in *.
  rewrite (proj2 (Z.ltb_ge (plen p) 1)) by lia. rewrite bind_rd8 by lia.
  rewrite (proj2 (Z.ltb_ge _ 45)) by lia. rewrite bind_rd8 by lia.
  unfold index, mbind, M_bind. by rewrite lookup_ge_None_2 by lia.
Qed.

Definition translate_packet : packet :=
  map byte_of_Z ([69; 2; 0; 16] ++ replicate 68 0).

Lemma reason_outside_array_witness :
  code2str pf_reasons "unkn(%u)" 16 = "translate" /\
  decode_packet (H := demo_libc) flog_init 100 translate_packet = Fail (ArrayBounds 16).
Proof.
  split; [reflexivity|].
  apply (reason_outside_array (H := demo_libc) flog_init 100 translate_packet);
    vm_compute; congruence.
Defined.

(** A packet whose reason is filtered writes nothing, and leaves the state with an empty
    buffer; this is decided before anything but the header's first four bytes is looked at. *)
Theorem filtered_reason_silent `{Libc} st length p :
  4 <= plen p -> MIN_PFLOG_HDRLEN <= byte_at p off_length ->
  filter_reasons st !! Z.to_nat (byte_at p off_reason) = Some true ->
  decode_packet st length p
  = Ok {| filter_reasons := filter_reasons st; sbuf := ""; lines := lines st |}.
Proof.
  intros Hc Hh Hr. unfold decode_packet, decode_body, MIN_PFLOG_HDRLEN, off_length, off_reason in *.
  rewrite (proj2 (Z.ltb_ge (plen p) 1)) by lia. rewrite bind_rd8 by lia.
  rewrite (proj2 (Z.ltb_ge _ 45)) by lia. rewrite bind_rd8 by lia.
  unfold index, mbind, M_bind. by rewrite Hr.
Qed.

Lemma filtered_reason_silent_witness :
  let st := {| filter_reasons := <[2%nat := true]> (replicate 16 false); sbuf := ""; lines := ["x"] |} in
  decode_packet (H := demo_libc) st 100 (map byte_of_Z [61; 2; 0; 2]) = Ok st.
Proof.
  apply (filtered_reason_silent (H := demo_libc)
    {| filter_reasons := <[2%nat := true]> (replicate 16 false); sbuf := ""; lines := ["x"] |}
    100 (map byte_of_Z [61; 2; 0; 2])); vm_compute; congruence.
Defined.

(** ** Whole log lines *)

(** A NUL-terminated string in the packet. *)
Definition cstr_at (p : packet) (off : Z) (str : string) : Prop :=
  has_bytes p off (map ascii_val (list_ascii_of_string str) ++ [0]) /\ has_char "000" str = false.

Lemma rd_cstr_ok p str : forall off fuel s,
  cstr_at p off str -> (String.length str < fuel)%nat -> rd_cstr p off fuel s = Ok (str, s).
Proof.
  unfold cstr_at. induction str as [|c str IH]; intros off fuel s [Hb Hc] Hf; (destruct fuel; [lia|]);
    cbn in Hb; apply has_bytes_cons in Hb as (Hin & Hv & Hb); cbn [rd_cstr]; rewrite bind_rd8, Hv by lia.
  - done.
  - cbn in Hc, Hf. apply orb_false_iff in Hc as [Hc0 Hc].
    replace (ascii_val c =? 0) with false.
    + erewrite bind_ok by (apply IH; [done|lia]). unfold mret, M_ret. do 3 f_equal.
      apply ascii_val_inj. rewrite ascii_val_of_Z. unfold u8. apply Z.mod_small, ascii_val_range.
    + symmetry. apply Z.eqb_neq. intros E. apply (ascii_val_inj c "000") in E. by subst c.
Qed.

Lemma cstr_at_fits p off str : cstr_at p off str -> (String.length str < S (length p))%nat.
Proof.
  intros [(Hb & Hc & _) _]. unfold plen in Hc. rewrite length_app, length_map, length_list_ascii in Hc.
  cbn in Hc. lia.
Qed.

Lemma bind_cstr {B} p off str (k : string -> M B) s :
  cstr_at p off str -> (rd_cstr p off (S (length p)) ≫= k) s = k str s.
Proof. intros H. apply bind_ok, rd_cstr_ok; [done|]. by eapply cstr_at_fits. Qed.

(** A pflog header that is captured as a whole, with its two names, and not filtered. *)
Record pflog_valid (fr : list bool) (p : packet) (ifname ruleset : string) : Prop := {
  pv_len : MIN_PFLOG_HDRLEN <= byte_at p off_length;
  pv_fields : off_ridentifier + 4 <= BPF_WORDALIGN (byte_at p off_length);
  pv_cap : BPF_WORDALIGN (byte_at p off_length) <= plen p;
  pv_reason : fr !! Z.to_nat (byte_at p off_reason) = Some false;
  pv_ifname : cstr_at p off_ifname ifname;
  pv_ruleset : cstr_at p off_ruleset ruleset
}.

(** Rule number, sub-rule number and anchor (both empty for a rule outside an anchor), tracker,
    interface, reason, action and direction. *)
Definition pflog_columns (p : packet) (ifname ruleset : string) : list string :=
  [udec (be32_at p off_rulenr)] ++
  (if be32_at p off_subrulenr =? u32 (-1) then [""; ""] else [udec (be32_at p off_subrulenr); ruleset]) ++
  [udec (be32_at p off_ridentifier); ifname;
   code2str pf_reasons "unkn(%u)" (byte_at p off_reason);
   code2str pf_actions "unkn(%u)" (byte_at p off_action);
   code2str pf_directions "unkn(%u)" (byte_at p off_dir)].

Lemma bind_subrule {B} p ruleset (k : unit -> M B) s :
  cstr_at p off_ruleset ruleset ->
  ((if be32_at p off_subrulenr =? u32 (-1) then sbuf_printf ",," []
    else
      ruleset ← rd_cstr p off_ruleset (S (List.length p));
      sbuf_printf "%u,%s," [AInt (be32_at p off_subrulenr); AStr ruleset]) ≫= k) s
  = k tt (s +:+ join_with "," ((if be32_at p off_subrulenr =? u32 (-1) then [""; ""]
            else [udec (be32_at p off_subrulenr); ruleset]) ++ [""])).
Proof.
  intros Hr. destruct (_ =? _).
  - by erewrite bind_printf by (cbn; reflexivity).
  - rewrite <- bind_assoc, (bind_cstr _ _ ruleset) by done. erewrite bind_printf by (cbn; reflexivity).
    autorewrite with narrow. by str_norm.
Qed.

Lemma decode_body_ok `{Libc} fr p length ifname ruleset s :
  pflog_valid fr p ifname ruleset ->
  let hdrlen := BPF_WORDALIGN (byte_at p off_length) in
  4 <= u32 (length - hdrlen) ->
  decode_body fr p length s
  = (ip_version_print p hdrlen (u32 (length - hdrlen));; mret true)
      (s +:+ join_with "," (pflog_columns p ifname ruleset ++ [""])).
Proof.
  intros [] hdrlen Hl.
  unfold decode_body, MIN_PFLOG_HDRLEN, off_length, off_ridentifier, off_action, off_dir, off_rulenr,
    off_reason in *. fold hdrlen in pv_fields0, pv_cap0 |- *.
  rewrite (proj2 (Z.ltb_ge (plen p) 1)) by lia. run1. rewrite (proj2 (Z.ltb_ge _ 45)) by lia. run1.
  rewrite (bind_ok (index fr _) _ s false s) by (unfold index; by rewrite pv_reason0).
  fold hdrlen. rewrite (proj2 (Z.ltb_ge (plen p) hdrlen)) by lia. do 2 run1.
  rewrite bind_extract32 by (unfold off_subrulenr; lia). rewrite (bind_subrule _ ruleset) by done.
  run1. rewrite (bind_cstr _ _ ifname) by done. run.
  rewrite (proj2 (Z.ltb_ge _ 4)) by done. f_equal.
  autorewrite with narrow. unfold pflog_columns.
  destruct (be32_at p off_subrulenr =? u32 (-1)); cbn [app]; by str_norm.
Qed.

(** *** The transport columns of a line, for UDP and TCP *)

Inductive transport (p : packet) (proto tp len : Z) : list string -> Prop :=
  | transport_udp : proto = IPPROTO_UDP -> tp + 8 <= plen p -> transport p proto tp len (udp_columns p tp)
  | transport_tcp opts pad :
      proto = IPPROTO_TCP -> tcp_valid p tp len opts pad ->
      transport p proto tp len
        (tcp_columns p tp (len - sizeof_tcphdr - Z.of_nat (List.length (opts_area opts pad))) opts pad).

Lemma transport_no_comma p proto tp len cols :
  transport p proto tp len cols -> Forall (fun c => has_char "," c = false) cols /\ cols <> [].
Proof.
  intros [_ _|opts pad _ Hv]; (split; [|done]).
  - pose proof (be16_range p tp). pose proof (be16_range p (tp + 2)). pose proof (be16_range p (tp + 4)).
    repeat (constructor; [apply udec_no_char; [done|lia]|]). constructor.
  - apply tcp_columns_no_comma. destruct Hv. lia.
Qed.

Lemma ip_print_transport_ok `{Libc} p bp length cols s :
  ip_valid p bp length -> be16_at p (bp + 6) mod 8192 = 0 ->
  transport p (byte_at p (bp + 9)) (bp + ip_hl_at p bp * 4) (be16_at p (bp + 2) - ip_hl_at p bp * 4) cols ->
  ip_print p bp length s = Ok (tt, s +:+ join_with "," (ip_columns p bp ++ cols)).
Proof.
  intros Hv Hf [Hp Hc|opts pad Hp Ht]; [by apply ip_print_udp_ok | by apply ip_print_tcp_ok].
Qed.

Lemma ip6_print_transport_ok `{Libc} p bp length cols s :
  ip6_valid p bp length ->
  transport p (byte_at p (bp + 6)) (bp + 40) (be16_at p (bp + 4)) cols ->
  ip6_print p bp length s = Ok (tt, s +:+ join_with "," (ip6_columns p bp ++ cols)).
Proof.
  intros Hv [Hp Hc|opts pad Hp Ht]; [apply ip6_print_udp_ok; (done || lia) | by apply ip6_print_tcp_ok].
Qed.

Lemma tok_names_no_comma (l : list tok) unknown z :
  has_char "," unknown = false -> Forall (fun t => has_char "," (descr t) = false) l ->
  has_char "," (code2str l unknown z) = false.
Proof. intros. by apply (code2str_cases _ _ _ (fun t => has_char "," t = false)). Qed.

Lemma pflog_columns_no_comma p ifname ruleset :
  has_char "," ifname = false -> has_char "," ruleset = false ->
  Forall (fun c => has_char "," c = false) (pflog_columns p ifname ruleset)
  /\ List.length (pflog_columns p ifname ruleset) = 8%nat.
Proof.
  intros Hi Hr. pose proof (be32_range p off_rulenr). pose proof (be32_range p off_subrulenr).
  pose proof (be32_range p off_ridentifier).
  assert (Hd : forall z, 0 <= z -> has_char "," (udec z) = false) by (intros; by apply udec_no_char).
  unfold pflog_columns. split; [|by destruct (_ =? _)].
  apply Forall_app. split; [constructor; [apply Hd; lia|constructor]|].
  apply Forall_app. split.
  - destruct (_ =? _); repeat constructor; [apply Hd; lia|done].
  - constructor; [apply Hd; lia|]. constructor; [done|].
    repeat (constructor; [apply tok_names_no_comma; [reflexivity|by repeat constructor]|]). constructor.
Qed.

(** What [decode_packet] does once the printer of the IP version is known. *)
Lemma decode_packet_line `{Libc} st length p ifname ruleset ipcols cols :
  sbuf st = "" -> pflog_valid (filter_reasons st) p ifname ruleset ->
  has_char "," ifname = false -> has_char "," ruleset = false ->
  let hdrlen := BPF_WORDALIGN (byte_at p off_length) in
  4 <= u32 (length - hdrlen) ->
  (forall s, ip_version_print p hdrlen (u32 (length - hdrlen)) s
             = Ok (tt, s +:+ join_with "," (ipcols ++ cols))) ->
  Forall (fun c => has_char "," c = false) ipcols ->
  Forall (fun c => has_char "," c = false) cols -> ipcols ++ cols <> [] ->
  exists line,
    decode_packet st length p
    = Ok {| filter_reasons := filter_reasons st; sbuf := ""; lines := lines st ++ [line] |} /\
    split_at "," line = pflog_columns p ifname ruleset ++ ipcols ++ cols.
Proof.
  intros Hs Hv Hi Hr hdrlen Hl Hip Hc1 Hc2 Hne.
  exists (join_with "," (pflog_columns p ifname ruleset ++ ipcols ++ cols)). split.
  - unfold decode_packet. rewrite Hs, (decode_body_ok _ _ _ ifname ruleset) by done.
    fold hdrlen. erewrite bind_ok by apply Hip. unfold mret, M_ret. do 3 f_equal. f_equal.
    rewrite !(join_with_app _ (pflog_columns p ifname ruleset)) by done. by str_norm.
  - apply split_join; [done|]. destruct (pflog_columns_no_comma p ifname ruleset) as [Hp _]; [done..|].
    by rewrite !Forall_app.
Qed.

(** C1. The IPv4 log line.  For every captured packet with a complete pflog header, an IPv4 header
    of a first (or only) fragment, and UDP or well-formed TCP in it, [decode_packet] writes one
    line, and splitting it at the commas gives the 8 pflog columns, the 12 IPv4 columns and the 3
    UDP or 9 TCP columns, in this order; the filter and the earlier lines are kept and the buffer is
    empty again. *)
Theorem ipv4_log_line `{Libc} st length p ifname ruleset cols :
  sbuf st = "" -> proto_names_ok -> pflog_valid (filter_reasons st) p ifname ruleset ->
  has_char "," ifname = false -> has_char "," ruleset = false ->
  let ip := BPF_WORDALIGN (byte_at p off_length) in
  ip_valid p ip (u32 (length - ip)) -> ip_v_at p ip = 4 ->
  be16_at p (ip + off_ip_off) mod 8192 = 0 ->
  transport p (byte_at p (ip + off_ip_p)) (ip + ip_hl_at p ip * 4)
    (be16_at p (ip + off_ip_len) - ip_hl_at p ip * 4) cols ->
  exists line,
    decode_packet st length p
    = Ok {| filter_reasons := filter_reasons st; sbuf := ""; lines := lines st ++ [line] |} /\
    split_at "," line = pflog_columns p ifname ruleset ++ ip_columns p ip ++ cols.
Proof.
  intros Hs Hn Hv Hi Hr ip Hip Hver Hfrag Ht.
  apply decode_packet_line; try done.
  - destruct Hip as [Hbp _ Hhl Hlen]. fold ip. lia.
  - intros s. unfold ip_version_print. fold ip. rewrite bind_IP_V by (destruct Hip; unfold sizeof_ip in *; lia).
    rewrite Hver. by apply ip_print_transport_ok.
  - by apply ip_columns_no_comma.
  - by eapply transport_no_comma.
Qed.

(** What the protocol database and [inet_ntop] promise for IPv6 lines: no comma in an address. *)
Definition addresses_ok `{Libc} : Prop :=
  forall b, Forall (fun x => 0 <= x) b -> has_char "," (inet_ntop6 b) = false.

Lemma ip6_columns_no_comma `{Libc} p bp :
  addresses_ok -> Forall (fun c => has_char "," c = false) (ip6_columns p bp).
Proof.
  intros Ha. pose proof (be16_range p (bp + 4)). pose proof (byte_at_range p (bp + 6)).
  pose proof (byte_at_range p (bp + 7)).
  pose proof (Z.mod_pos_bound (be32_at p bp / 2 ^ 20) (2 ^ 8) ltac:(lia)).
  pose proof (Z.mod_pos_bound (be32_at p bp) (2 ^ 20) ltac:(lia)).
  assert (Hd : forall z, 0 <= z -> has_char "," (udec z) = false) by (intros; by apply udec_no_char).
  assert (Hx : forall w z, 0 <= z -> has_char "," ("0x" +:+ pad0 w (uhex z)) = false).
  { intros w z Hz. rewrite has_char_app, pad0_no_char; [done..|]. by apply uhex_no_char. }
  unfold ip6_columns. constructor; [done|]. do 2 (constructor; [apply Hx; lia|]).
  constructor; [apply Hd; lia|].
  constructor; [apply tok_names_no_comma; [reflexivity|by repeat constructor]|].
  do 2 (constructor; [apply Hd; lia|]). do 2 (constructor; [apply Ha, bytes_at_nonneg|]). constructor.
Qed.

(** C23. The IPv6 log line, when the transport header follows the IPv6 header: 8 pflog columns, 9
    IPv6 columns and the 3 UDP or 9 TCP columns. *)
Theorem ipv6_log_line `{Libc} st length p ifname ruleset cols :
  sbuf st = "" -> addresses_ok -> pflog_valid (filter_reasons st) p ifname ruleset ->
  has_char "," ifname = false -> has_char "," ruleset = false ->
  let ip6 := BPF_WORDALIGN (byte_at p off_length) in
  ip6_valid p ip6 (u32 (length - ip6)) -> ip_v_at p ip6 = 6 ->
  transport p (byte_at p (ip6 + off_ip6_nxt)) (ip6 + sizeof_ip6_hdr) (be16_at p (ip6 + off_ip6_plen)) cols ->
  exists line,
    decode_packet st length p
    = Ok {| filter_reasons := filter_reasons st; sbuf := ""; lines := lines st ++ [line] |} /\
    split_at "," line = pflog_columns p ifname ruleset ++ ip6_columns p ip6 ++ cols.
Proof.
  intros Hs Hn Hv Hi Hr ip6 Hip Hver Ht. pose proof (be16_range p (ip6 + off_ip6_plen)).
  apply decode_packet_line; try done.
  - destruct Hip as [Hbp _ Hlen]. unfold sizeof_ip6_hdr in *. fold ip6. lia.
  - intros s. unfold ip_version_print. fold ip6.
    rewrite bind_IP_V by (destruct Hip; unfold sizeof_ip6_hdr in *; lia).
    rewrite Hver. by apply ip6_print_transport_ok.
  - by apply ip6_columns_no_comma.
  - by eapply transport_no_comma.
Qed.

(** Examples: UDP port 53 over IPv4, blocked on em0, and a SYN over IPv6. *)
Definition pflog_header : list Z :=
  [69; 2; 1; 0] ++ [101; 109; 48] ++ replicate 13 0 ++ replicate 16 0 ++ [0; 0; 0; 5]
  ++ replicate 4 255 ++ replicate 16 0 ++ [1; 0; 0; 0] ++ [0; 0; 3; 232] ++ [0; 0; 0; 0].

Definition udp4_capture : packet :=
  map byte_of_Z (pflog_header ++
    [0x45; 0; 0; 28; 0; 7; 0x40; 0; 64; 17; 0; 0; 10; 0; 0; 1; 10; 0; 0; 2; 4; 0; 0; 53; 0; 8; 0; 0]).

Lemma demo_proto_names : proto_names_ok (H := demo_libc).
Proof.
  intros n name. unfold getprotobynumber, demo_libc.
  repeat (case_match; [by intros [= <-]|]). done.
Qed.

Lemma cstr_at_compute p off str :
  0 <= off -> off + Z.of_nat (List.length (map ascii_val (list_ascii_of_string str) ++ [0])) <= plen p ->
  bytes_at p off (List.length (map ascii_val (list_ascii_of_string str) ++ [0]))
    = map ascii_val (list_ascii_of_string str) ++ [0] ->
  has_char "000" str = false -> cstr_at p off str.
Proof. intros. repeat split; done. Qed.

Lemma ipv4_log_line_witness :
  exists line,
    decode_packet (H := demo_libc) flog_init 100 udp4_capture
    = Ok {| filter_reasons := replicate nreasons false; sbuf := ""; lines := [line] |} /\
    split_at "," line
    = ["5"; ""; ""; "1000"; "em0"; "match"; "block"; "in";
       "4"; "0x0"; ""; "64"; "7"; "0"; "DF"; "17"; "udp"; "28"; "10.0.0.1"; "10.0.0.2";
       "1024"; "53"; "8"].
Proof.
  destruct (ipv4_log_line (H := demo_libc) flog_init 100 udp4_capture "em0" ""
    (udp_columns udp4_capture 92)) as (line & H1 & H2).
  - reflexivity.
  - apply demo_proto_names.
  - constructor; try (vm_compute; congruence); apply cstr_at_compute; vm_compute; congruence.
  - reflexivity.
  - reflexivity.
  - constructor; try (vm_compute; congruence). vm_compute. split; congruence.
  - reflexivity.
  - reflexivity.
  - apply transport_udp; vm_compute; congruence.
  - exists line. split; [exact H1|]. rewrite H2. vm_compute. reflexivity.
Defined.

Definition tcp6_capture : packet :=
  map byte_of_Z (pflog_header ++
    [0x60; 0; 0; 0; 0; 24; 6; 64] ++ replicate 15 0 ++ [1] ++ replicate 15 0 ++ [2] ++
    [0xc0; 1; 1; 0xbb; 0; 0; 0; 1; 0; 0; 0; 0; 0x60; 2; 255; 255; 0; 0; 0; 0; 2; 4; 5; 180]).

Lemma demo_addresses : addresses_ok (H := demo_libc).
Proof.
  intros b Hb. apply join_with_no_char; [done|]. apply Forall_map.
  eapply Forall_impl; [|exact Hb]. intros x Hx. by apply uhex_no_char.
Qed.

Lemma ipv6_log_line_witness :
  exists line,
    decode_packet (H := demo_libc) flog_init 136 tcp6_capture
    = Ok {| filter_reasons := replicate nreasons false; sbuf := ""; lines := [line] |} /\
    split_at "," line
    = ["5"; ""; ""; "1000"; "em0"; "match"; "block"; "in";
       "6"; "0x00"; "0x00000"; "64"; "TCP"; "6"; "24";
       "0:0:0:0:0:0:0:0:0:0:0:0:0:0:0:1"; "0:0:0:0:0:0:0:0:0:0:0:0:0:0:0:2";
       "49153"; "443"; "0"; "S"; "1"; ""; "65535"; ""; "mss"].
Proof.
  destruct (ipv6_log_line (H := demo_libc) flog_init 136 tcp6_capture "em0" ""
    (tcp_columns tcp6_capture 112 0 [TOpt 2 [5; 180]] [])) as (line & H1 & H2).
  - reflexivity.
  - apply demo_addresses.
  - constructor; try (vm_compute; congruence); apply cstr_at_compute; vm_compute; congruence.
  - reflexivity.
  - reflexivity.
  - constructor; vm_compute; congruence.
  - reflexivity.
  - apply (transport_tcp tcp6_capture _ 112 24 [TOpt 2 [5; 180]] []); [reflexivity|].
    constructor; [lia | vm_compute; congruence | vm_compute; reflexivity | vm_compute; split; congruence | | done | ].
    + repeat constructor; vm_compute; congruence.
    + repeat split; vm_compute; congruence.
  - exists line. split; [exact H1|]. rewrite H2. vm_compute. reflexivity.
Defined.

(** ** Sequences of packets *)

(** The line a packet writes by itself, if it writes one. *)
Definition packet_line `{Libc} (fr : list bool) (lp : Z * packet) : option string :=
  match decode_body fr lp.2 lp.1 "" with
  | Ok (true, line) => Some line
  | _ => None
  end.

(** Packets do not influence each other: from an empty buffer, a capture session that does not
    fault writes for each packet, in order, exactly the line that packet writes alone (none for
    filtered ones), and ends with the buffer empty and the filter unchanged. *)
Theorem decode_packets_independent `{Libc} l : forall st st',
  sbuf st = "" -> decode_packets st l = Ok st' ->
  sbuf st' = "" /\ filter_reasons st' = filter_reasons st /\
  lines st' = lines st ++ omap (packet_line (filter_reasons st)) l.
Proof.
  induction l as [|[length p] l IH]; intros st st' Hs; cbn [decode_packets omap list_omap].
  - intros [= <-]. by rewrite app_nil_r.
  - unfold decode_packet, packet_line at 1. rewrite Hs. cbn [fst snd].
    destruct (decode_body _ _ _ _) as [[[] line]|f]; [| |done]; intros Hd;
      pose proof (IH {| filter_reasons := _; sbuf := _; lines := _ |} _ eq_refl Hd) as (H1 & H2 & H3);
      cbn [filter_reasons lines] in *; (split; [done|]); (split; [done|]); [|done].
    rewrite H3. by rewrite <- (assoc_L (++)).
Qed.

Lemma decode_packets_independent_witness :
  exists st, decode_packets (H := demo_libc) flog_init [(136, tcp6_capture); (3, []); (100, udp4_capture)] = Ok st
    /\ List.length (lines st) = 3%nat
    /\ lines st = omap (packet_line (H := demo_libc) (replicate nreasons false))
                    [(136, tcp6_capture); (3, []); (100, udp4_capture)].
Proof.
  eexists. split; [vm_compute; reflexivity|]. split; [reflexivity|].
  refine (proj2 (proj2 (decode_packets_independent (H := demo_libc)
    [(136, tcp6_capture); (3, []); (100, udp4_capture)] flog_init _ eq_refl _))).
  vm_compute. reflexivity.
Defined.

(** ** The reason filter, as a function of the ranges in the option *)

Lemma set_reasons_ok n : forall reason fr,
  0 <= reason -> reason + Z.of_nat n <= Z.of_nat (length fr) ->
  exists fr', set_reasons n reason fr = Some fr' /\ length fr' = length fr /\
    forall i, fr' !! i = (fun b => b || ((reason <=? Z.of_nat i) && (Z.of_nat i <? reason + Z.of_nat n))) <$> fr !! i.
Proof.
  induction n as [|n IH]; intros reason fr Hr Hn; cbn [set_reasons].
  - exists fr. split; [done|]. split; [done|]. intros i. destruct (fr !! i) as [b|]; [|done]. cbn. f_equal.
    replace (_ && _) with false; [by rewrite orb_false_r|]. symmetry. apply andb_false_iff.
    rewrite Z.leb_gt, Z.ltb_ge. lia.
  - rewrite (proj2 (Nat.ltb_lt _ _)) by lia.
    destruct (IH (reason + 1) (<[Z.to_nat reason := true]> fr)) as (fr' & H1 & H2 & H3);
      [lia | rewrite length_insert; lia |].
    exists fr'. split; [done|]. split; [by rewrite H2, length_insert|]. intros i. rewrite H3.
    destruct (decide (i = Z.to_nat reason)) as [->|Hi].
    + rewrite list_lookup_insert_eq by lia. destruct (lookup_lt_is_Some_2 fr (Z.to_nat reason)) as [b ->]; [lia|].
      cbn. f_equal. symmetry. apply orb_true_intro. right.
      rewrite andb_true_iff, Z.leb_le, Z.ltb_lt. lia.
    + rewrite list_lookup_insert_ne by done. destruct (fr !! i) as [b|]; [|done]. cbn. do 2 f_equal.
      apply eq_true_iff_eq. rewrite !andb_true_iff, !Z.leb_le, !Z.ltb_lt. lia.
Qed.

Lemma dec_value_nonneg s : forall acc, 0 <= acc -> 0 <= (dec_value acc s).1.
Proof.
  induction s as [|c s IH]; intros acc Ha; cbn [dec_value]; [done|].
  destruct (is_digit c) eqn:Hc; [|done]. apply IH. unfold is_digit in Hc. unfold digit_val.
  apply andb_true_iff in Hc as [Hc%Z.leb_le _]. lia.
Qed.

Lemma parse_range_bounds token first last :
  parse_range token = Some (first, last) -> 0 <= first <= last /\ last < Z.of_nat nreasons.
Proof.
  assert (Hpos : forall s, 0 <= (strtoul s).1).
  { intros s. unfold strtoul. destruct (match skip_space s with String "-" r => _ | _ => _ end) as [neg r].
    case_match; [|done]. pose proof (dec_value_nonneg r 0 ltac:(lia)).
    destruct (dec_value 0 r) as [v rest]; cbn in *. unfold ULONG_MAX. case_match; [lia|].
    destruct neg; [apply u64_range|done]. }
  unfold parse_range. destruct (cut_at "-" token) as [t lastp].
  pose proof (Hpos t). destruct (strtoul t) as [f p]. cbn in H. repeat case_match; try done.
  - intros [= -> ->]. lia.
  - intros [= -> ->]. lia.
Qed.

(** One valid token on a filter of 16 reasons. *)
Lemma set_range fr first last :
  length fr = nreasons -> 0 <= first <= last /\ last < Z.of_nat nreasons ->
  exists fr', set_reasons (Z.to_nat (last - first + 1)) first fr = Some fr' /\ length fr' = nreasons /\
    forall i, fr' !! i = (fun b => b || ((first <=? Z.of_nat i) && (Z.of_nat i <=? last))) <$> fr !! i.
Proof.
  intros Hl [Hr Hn]. destruct (set_reasons_ok (Z.to_nat (last - first + 1)) first fr) as (fr' & H1 & H2 & H3);
    [lia..|]. exists fr'. split; [done|]. split; [congruence|]. intros i. rewrite H3.
  destruct (fr !! i) as [b|]; [|done]. cbn. do 3 f_equal.
  apply eq_true_iff_eq. rewrite Z.leb_le, Z.ltb_lt. lia.
Qed.

(** Whatever the argument of -r is, [parse_filter_reasons] writes only inside the array of 16
    reasons: it accepts or rejects, and the array keeps its 16 entries. *)
Theorem parse_filter_reasons_in_bounds str fr :
  length fr = nreasons ->
  match parse_filter_reasons str fr with
  | Parsed fr' | Invalid fr' _ => length fr' = nreasons
  | WriteOutside => False
  end.
Proof.
  unfold parse_filter_reasons. revert fr. induction (split_at "," str) as [|t l IH]; intros fr Hl; [done|].
  cbn [parse_tokens]. destruct (parse_range t) as [[first last]|] eqn:Ht; [|done].
  destruct (set_range fr first last) as (fr' & -> & Hl' & _); [done|by eapply parse_range_bounds|].
  by apply IH.
Qed.

Lemma parse_filter_reasons_in_bounds_witness :
  parse_filter_reasons "1,4-20" (replicate nreasons false)
    = Invalid (<[1%nat := true]> (replicate nreasons false)) None /\
  match parse_filter_reasons "1,4-20" (replicate nreasons false) with
  | Parsed fr' | Invalid fr' _ => length fr' = nreasons
  | WriteOutside => False
  end.
Proof.
  split; [reflexivity|].
  exact (parse_filter_reasons_in_bounds "1,4-20" (replicate nreasons false) eq_refl).
Defined.

(** A range as the option spells it. *)
Definition range_str (r : Z * Z) : string :=
  if r.1 =? r.2 then udec r.1 else udec r.1 +:+ "-" +:+ udec r.2.

Definition range_ok (r : Z * Z) : Prop := 0 <= r.1 <= r.2 /\ r.2 < Z.of_nat nreasons.


(** All ranges of reasons are read back (there are 136 of them). *)
Lemma parse_range_str r : range_ok r -> parse_range (range_str r) = Some r.
Proof.
  assert (Hall : forallb (fun a => forallb (fun b => bool_decide
     (a <= b -> parse_range (range_str (Z.of_nat a, Z.of_nat b)) = Some (Z.of_nat a, Z.of_nat b))%nat)
     (seq 0 nreasons)) (seq 0 nreasons) = true) by (vm_compute; reflexivity).
  destruct r as [x y]. unfold range_ok. cbn [fst snd]. intros [Hx Hy].
  rewrite forallb_forall in Hall. specialize (Hall (Z.to_nat x)). rewrite forallb_forall in Hall.
  specialize (Hall ltac:(apply in_seq; lia) (Z.to_nat y) ltac:(apply in_seq; lia)).
  apply bool_decide_eq_true_1 in Hall. rewrite !Z2Nat.id in Hall by lia. apply Hall. lia.
Qed.

Lemma range_str_no_comma r : range_ok r -> has_char "," (range_str r) = false.
Proof.
  intros Hr. unfold range_ok, range_str in *. case_match; rewrite ?has_char_app, ?udec_no_char by (done || lia); done.
Qed.

Definition in_ranges (rs : list (Z * Z)) (i : nat) : bool :=
  existsb (fun r => (r.1 <=? Z.of_nat i) && (Z.of_nat i <=? r.2)) rs.

(** [parse_filter_reasons] reads what the option means: for every non-empty list of ranges of
    reasons 0 to 15, written as [first-last] or as one number, comma separated, it accepts, and
    afterwards a reason is filtered exactly when it was before or lies in one of the ranges. *)
Theorem parse_filter_reasons_ranges rs fr :
  rs <> [] -> Forall range_ok rs -> length fr = nreasons ->
  exists fr', parse_filter_reasons (join_with "," (map range_str rs)) fr = Parsed fr' /\
    forall i, fr' !! i = (fun b => b || in_ranges rs i) <$> fr !! i.
Proof.
  intros Hne Hrs Hl. unfold parse_filter_reasons. rewrite split_join.
  2:{ by destruct rs. }
  2:{ apply Forall_map. eapply Forall_impl; [|exact Hrs]. apply range_str_no_comma. }
  clear Hne. revert fr Hl. induction Hrs as [|r rs Hr Hrs IH]; intros fr Hl.
  - exists fr. split; [done|]. intros i. destruct (fr !! i); cbn; by rewrite ?orb_false_r.
  - cbn [map parse_tokens]. rewrite parse_range_str by done. destruct r as [first last].
    destruct (set_range fr first last Hl Hr) as (fr1 & -> & Hl1 & H1).
    destruct (IH fr1 Hl1) as (fr2 & -> & H2). exists fr2. split; [done|]. intros i. rewrite H2, H1.
    destruct (fr !! i) as [b|]; [|done]. cbn. by rewrite orb_assoc.
Qed.

Lemma parse_filter_reasons_ranges_witness :
  join_with "," (map range_str [(0, 0); (2, 5); (15, 15)]) = "0,2-5,15" /\
  exists fr', parse_filter_reasons "0,2-5,15" (replicate nreasons false) = Parsed fr' /\
    fr' !! 4%nat = Some true /\ fr' !! 6%nat = Some false.
Proof.
  split; [reflexivity|].
  destruct (parse_filter_reasons_ranges [(0, 0); (2, 5); (15, 15)] (replicate nreasons false))
    as (fr' & H1 & H2); [done| |done|].
  - repeat constructor; cbn; lia.
  - exists fr'. split; [exact H1|]. rewrite !H2. split; reflexivity.
Defined.
