(* ===== verification/Voucher.v ===== *)
(** voucher, voucher.c: vouchers for the captive portal.  Printing packs roll, ticket, checksum and
    magic number into a code, signs it with RSA and writes it in the configured character set;
    checking goes the other way.  The RSA operations and the files are the environment's. *)
From Stdlib Require Import ZArith Lia Ascii String.
From stdpp Require Import base list strings numbers.
From S2P Require Import Prelude.
Open Scope string_scope.
Open Scope list_scope.
Open Scope Z_scope.

Definition MAX_RSA_KEY_LEN : Z := 8.
Definition MAX_CHARSET_LEN : nat := 255.
Definition MAX_VOUCHER_LEN : nat := 64.

(** ** Numbers and buffers *)

(** [for (i = len-1; i >= 0; i--) { buf[i] = ll & 0xff; ll >>= 8; }] *)
Fixpoint ll2buf (ll : Z) (len : nat) : list Z :=
  match len with
  | O => []
  | S len => ll2buf (Z.shiftr ll 8) len ++ [Z.land ll 0xff]
  end.

(** [*ll <<= 8; *ll += buf[i];] for the bytes after the first. *)
Definition buf2ll_step (ll b : Z) : Z := u64 (u64 (Z.shiftl ll 8) + b).

(** [None] when the buffer holds fewer than [len] bytes, or none. *)
Definition buf2ll (buf : list Z) (len : nat) : option Z :=
  if (length buf <? len)%nat then None
  else match buf with
       | [] => None
       | b :: r => Some (fold_left buf2ll_step (take (len - 1) r) b)
       end.

(** ** Shifts: undefined for negative amounts and amounts not below the width *)

Definition shl_int (x n : Z) : option Z := if (0 <=? n) && (n <? 32) then Some (i32 (Z.shiftl x n)) else None.
Definition shl_ll (x n : Z) : option Z := if (0 <=? n) && (n <? 64) then Some (i64 (Z.shiftl x n)) else None.
Definition shl_u64 (x n : Z) : option Z := if (0 <=? n) && (n <? 64) then Some (u64 (Z.shiftl x n)) else None.
Definition shr_u64 (x n : Z) : option Z := if (0 <=? n) && (n <? 64) then Some (Z.shiftr x n) else None.

(** ** The environment: keys and files *)

(** The result of creating a context, initialising it, setting [RSA_NO_PADDING] and running the
    operation. *)
Inductive evp : Type :=
  | CtxFailed
  | InitFailed
  | PaddingFailed
  | OpFailed
  | Done (out : list Z).

Record key : Type := {
  get_bits : Z;                         (* EVP_PKEY_get_bits *)
  pkey_sign : list Z -> evp;            (* EVP_PKEY_sign *)
  pkey_verify_recover : list Z -> evp   (* EVP_PKEY_verify_recover *)
}.

Class Env : Type := {
  read_file : string -> option string;                 (* fopen and the content *)
  PEM_read_PrivateKey : string -> option key;
  PEM_read_PUBKEY : string -> option key
}.

(** How the program ends: exit status and the lines on standard output, or an undefined
    operation. *)
Inductive ending : Type :=
  | Exit (status : Z) (out : list string)
  | Undefined.

Definition with_out (out : list string) (e : ending) : ending :=
  match e with Exit n o => Exit n (out ++ o) | Undefined => Undefined end.

(** An undefined intermediate value ends the program. *)
Definition defined {A} (o : option A) (k : A -> ending) : ending :=
  match o with Some a => k a | None => Undefined end.

(** ** The configuration file *)

Record cfg : Type := {
  roll_bits : Z; ticket_bits : Z; checksum_bits : Z; magic : Z; charset : list ascii
}.

Definition scan_lu (s : string) : option (Z * string) :=
  match scan_number s with
  | Some (neg, v, rest) => Some (if ULONG_MAX <? v then ULONG_MAX else if neg then u64 (- v) else v, rest)
  | None => None
  end.

Definition scan_comma (s : string) : option string :=
  match s with String "," r => Some r | _ => None end.

(** [%255s]: at most [n] characters up to the next white space. *)
Fixpoint scan_word (n : nat) (s : string) : list ascii :=
  match n, s with
  | S n, String c r => if isspace c then [] else c :: scan_word n r
  | _, _ => []
  end.

(** [fscanf(fcfg, "%d,%d,%d,%lu,%255s", ...)], [None] unless all five are converted. *)
Definition scan_cfg (s : string) : option cfg :=
  '(r, s) ← scan_d s; s ← scan_comma s;
  '(t, s) ← scan_d s; s ← scan_comma s;
  '(c, s) ← scan_d s; s ← scan_comma s;
  '(m, s) ← scan_lu s; s ← scan_comma s;
  match scan_word MAX_CHARSET_LEN (skip_space s) with
  | [] => None
  | w => Some {| roll_bits := r; ticket_bits := t; checksum_bits := c; magic := m; charset := w |}
  end.

(** ** The character set *)

(** [strchr(charset, c)], as an index. *)
Fixpoint index_of (c : ascii) (l : list ascii) : option nat :=
  match l with
  | [] => None
  | d :: l => if Ascii.eqb c d then Some O else S <$> index_of c l
  end.

(** The loop over the characters of a voucher from the last to the first, up to a space; [inr] is
    the illegal character. *)
Fixpoint decode_code (charset chars : list ascii) (cryptcode : Z) : Z + ascii :=
  match chars with
  | [] => inl cryptcode
  | c :: chars =>
      if Ascii.eqb c " " then inl cryptcode
      else match index_of c charset with
           | None => inr c
           | Some q => decode_code charset chars (u64 (u64 (cryptcode * Z.of_nat (length charset)) + Z.of_nat q))
           end
  end.

(** [while (cryptcode && --num)]: the characters, and what is left of the number. *)
Fixpoint encode_code (charset : list ascii) (num : nat) (cryptcode : Z) : list ascii * Z :=
  if cryptcode =? 0 then ([], cryptcode)
  else
    match num with
    | S (S _ as num) =>
        let base := Z.of_nat (length charset) in
        let '(code, rest) := encode_code charset num (cryptcode / base) in
        (default "000"%char (charset !! Z.to_nat (cryptcode mod base)) :: code, rest)
    | _ => ([], cryptcode)
    end.

(** ** Sizes, from the key and the configuration *)

Definition voucher_bits (c : cfg) : Z := roll_bits c + ticket_bits c + checksum_bits c.

(** With the magic number reduced to the bits that are left. *)
Record sizes : Type := { crypt_len : nat; magic_bits : Z; magic_used : Z }.

Definition get_sizes (k : key) (c : cfg) : option (option sizes) :=
  let voucher_len := 1 + Z.shiftr (i32 (voucher_bits c)) 3 in
  let avail_len := Z.min (get_bits k / 8) 8 in
  if avail_len <? voucher_len then Some None
  else
    let magic_bits := i32 (avail_len * 8 - (voucher_bits c + 1)) in
    if 0 <? magic_bits then
      m ← shl_ll 1 magic_bits;
      Some (Some {| crypt_len := Z.to_nat (get_bits k / 8); magic_bits := magic_bits;
                    magic_used := Z.land (magic c) (u64 (i64 (m - 1))) |})
    else Some (Some {| crypt_len := Z.to_nat (get_bits k / 8); magic_bits := 0; magic_used := 0 |}).

(** ** Checking *)

Definition check_code (c : cfg) (z : sizes) (arg : string) (clearcode : Z) : option ending :=
  roll_mask ← shl_int 1 (roll_bits c);
  ticket_mask ← shl_int 1 (ticket_bits c);
  checksum_mask ← shl_int 1 (checksum_bits c);
  let rollid := u32 (Z.land clearcode (u64 (i32 (roll_mask - 1)))) in
  t ← shr_u64 clearcode (roll_bits c);
  let ticketid := u32 (Z.land t (u64 (i32 (ticket_mask - 1)))) in
  s ← shr_u64 clearcode (ticket_bits c + roll_bits c);
  let checksum := Z.land (u32 s) (u32 (i32 (checksum_mask - 1))) in
  m ← shr_u64 clearcode (voucher_bits c);
  if negb (magic_used z =? m) then Some (Exit 1 ["TYPO Invalid magic <" +:+ arg +:+ ">"])
  else
    d ← shl_ll 1 (checksum_bits c);
    if negb (u32 (ticketid + rollid) mod d =? checksum) then
      Some (Exit 1 ["TYPO Invalid checksum <" +:+ arg +:+ ">"])
    else Some (Exit 0 ["OK " +:+ sdec (i32 rollid) +:+ " " +:+ sdec (i32 ticketid)]).

Definition check_voucher (k : key) (c : cfg) (z : sizes) (arg : string) : ending :=
  match decode_code (charset c) (reverse (list_ascii_of_string arg)) 0 with
  | inr p => Exit 1 ["TYPO illegal character (" +:+ String p ") found in " +:+ arg]
  | inl cryptcode =>
      match pkey_verify_recover k (ll2buf cryptcode (crypt_len z)) with
      | CtxFailed => Exit 1 ["TYPOFailed to create context"]
      | InitFailed => Exit 1 ["TYPOFailed to init verify context"]
      | PaddingFailed => Exit 4 ["Failed to set padding option"]
      | OpFailed => Exit 1 ["TYPO Invalid code <" +:+ arg +:+ ">"]
      | Done clearbuf =>
          default Undefined (clearcode ← buf2ll clearbuf (crypt_len z); check_code c z arg clearcode)
      end
  end.

(** [while (argc)]: the first voucher that is not accepted ends the program. *)
Fixpoint check_loop (k : key) (c : cfg) (z : sizes) (args : list string) : ending :=
  match args with
  | [] => Exit 0 []
  | arg :: args =>
      match check_voucher k c z arg with
      | Exit 0 out => with_out out (check_loop k c z args)
      | e => e
      end
  end.

(** ** Printing *)

Definition clear_code (c : cfg) (z : sizes) (rollid ticketid : Z) : option Z :=
  m ← shl_u64 (magic_used z) (checksum_bits c);
  d ← shl_int 1 (checksum_bits c);
  let checksum := u32 (ticketid + rollid) mod u32 d in
  x ← shl_u64 (u64 (m + checksum)) (ticket_bits c);
  y ← shl_u64 (u64 (x + ticketid)) (roll_bits c);
  msb ← shr_u64 ULONG_MAX (65 - 8 * Z.of_nat (crypt_len z));
  Some (Z.land (u64 (y + rollid)) msb).

Definition print_voucher (k : key) (c : cfg) (z : sizes) (clearcode : Z) : ending :=
  match pkey_sign k (ll2buf clearcode (crypt_len z)) with
  | CtxFailed => Exit 4 ["Failed to allocate context"]
  | InitFailed => Exit 4 ["Failed to initialise signing context"]
  | PaddingFailed => Exit 4 ["Failed to set padding option"]
  | OpFailed => Exit 4 ["Failed to sign"]
  | Done cryptbuf =>
      match buf2ll cryptbuf (crypt_len z) with
      | None => Undefined
      | Some cryptcode =>
          let '(code, rest) := encode_code (charset c) (S MAX_VOUCHER_LEN) cryptcode in
          if c_true rest then Exit 1 ["CFG voucher gets too long. Charset too small?"]
          else Exit 0 [String (ascii_of_Z 34) (" " +:+ string_of_list_ascii code +:+ String (ascii_of_Z 34) "")]
      end
  end.

(** [for (ticketid = 1; ticketid <= ticketcount; ticketid++)], [n] rounds left. *)
Fixpoint print_loop (k : key) (c : cfg) (z : sizes) (n : nat) (rollid ticketid : Z) : ending :=
  match n with
  | O => Exit 0 []
  | S n =>
      match clear_code c z rollid ticketid with
      | None => Undefined
      | Some clearcode =>
          match print_voucher k c z clearcode with
          | Exit 0 out => with_out out (print_loop k c z n rollid (ticketid + 1))
          | e => e
          end
      end
  end.

Definition print_header (c : cfg) (z : sizes) (rollid ticketcount : Z) : list string :=
  [ "# Voucher Tickets 1.." +:+ sdec (i32 ticketcount) +:+ " for Roll " +:+ sdec (i32 rollid);
    "# Nr of Roll Bits     " +:+ sdec (roll_bits c);
    "# Nr of Ticket Bits   " +:+ sdec (ticket_bits c);
    "# Nr of Checksum Bits " +:+ sdec (checksum_bits c);
    "# magic initializer   " +:+ udec (magic_used z) +:+ " (" +:+ sdec (magic_bits z) +:+ " Bits used)";
    "# Character Set used  " +:+ string_of_list_ascii (charset c);
    "#" ].

Definition print_vouchers (k : key) (c : cfg) (z : sizes) (rollid ticketcount : Z) : ending :=
  defined (shl_ll 1 (ticket_bits c)) (fun tmax =>
  if (tmax <=? ticketcount) || (ticketcount <? 1) then
    Exit 1 ["Error: Number of Ticket must be 1.." +:+ udec (u64 (tmax - 1))]
  else
    defined (shl_ll 1 (roll_bits c)) (fun rmax =>
    if rmax <=? rollid then Exit 1 ["Error: Roll# must be 0.." +:+ udec (u64 (rmax - 1))]
    else with_out (print_header c z rollid ticketcount)
           (print_loop k c z (Z.to_nat ticketcount) rollid 1))).

(** ** main *)

Inductive action : Type := UNDEFINED | PRINT | CHECK.

Record options : Type := {
  act : action; keyFile : option string; cfgFile : string; report_keysize : bool
}.

Definition options_init : options :=
  {| act := UNDEFINED; keyFile := None; cfgFile := "./voucher.cfg"; report_keysize := false |}.

(** The [getopt] loop, over option characters with their arguments; [None] for [usage()]. *)
Fixpoint get_options (opts : list (ascii * string)) (o : options) : option options :=
  match opts with
  | [] => Some o
  | (ch, optarg) :: opts =>
      if Ascii.eqb ch "s" then
        get_options opts {| act := act o; keyFile := keyFile o; cfgFile := cfgFile o; report_keysize := true |}
      else if Ascii.eqb ch "k" then
        get_options opts {| act := CHECK; keyFile := Some optarg; cfgFile := cfgFile o;
                            report_keysize := report_keysize o |}
      else if Ascii.eqb ch "p" then
        get_options opts {| act := PRINT; keyFile := Some optarg; cfgFile := cfgFile o;
                            report_keysize := report_keysize o |}
      else if Ascii.eqb ch "c" then
        get_options opts {| act := act o; keyFile := keyFile o; cfgFile := optarg;
                            report_keysize := report_keysize o |}
      else None
  end.

(** The argument counts each action accepts. *)
Definition args_ok (o : options) (args : list string) : bool :=
  match act o with
  | PRINT => (length args =? 2)%nat || report_keysize o
  | CHECK => negb (length args =? 0)%nat || report_keysize o
  | UNDEFINED => false
  end.

(** Loading the configuration and running the action. *)
Definition run_action (k : key) (o : options) (content : string) (args : list string) : ending :=
  match scan_cfg content with
  | None => Exit 1 ["CFG bad content in cfg file " +:+ cfgFile o]
  | Some c =>
      if (length (charset c) <? 2)%nat then
        Exit 1 ["CFG charset too short '" +:+ string_of_list_ascii (charset c) +:+ "'"]
      else if (31 <? roll_bits c) || (31 <? ticket_bits c) || (31 <? checksum_bits c) then
        Exit 1 ["CFGbits must be between 1..31"]
      else
        match get_sizes k c with
        | None => Undefined
        | Some None => Exit 1 ["CFG roll+voucher+checksum bits too large for given key"]
        | Some (Some z) =>
            match act o with
            | CHECK => check_loop k c z args
            | PRINT =>
                match args with
                | [roll; count] => print_vouchers k c z (u32 (atoi roll)) (u32 (atoi count))
                | _ => print_vouchers k c z 0 0
                end
            | UNDEFINED => Exit 0 []
            end
        end
  end.

Definition main `{Env} (opts : list (ascii * string)) (args : list string) : ending :=
  match get_options opts options_init with
  | None => Exit 1 []
  | Some o =>
      if negb (args_ok o args) then Exit 1 []
      else
        match keyFile o with
        | None => Exit 1 []
        | Some kf =>
            match read_file kf with
            | None => Exit 1 []
            | Some _ =>
                match (match act o with
                       | PRINT => PEM_read_PrivateKey kf
                       | CHECK => PEM_read_PUBKEY kf
                       | UNDEFINED => None
                       end) with
                | None => Exit 1 ["CRYPT key error. Wrong public/private?"]
                | Some k =>
                    if MAX_RSA_KEY_LEN <? get_bits k / 8 then
                      Exit 1 ["CRYPT RSA Key size (" +:+ sdec (i32 (get_bits k * 8)) +:+ ") too large. Max "
                              +:+ sdec (MAX_RSA_KEY_LEN * 8) +:+ " Bits"]
                    else if report_keysize o then Exit 0 [sdec (i32 (get_bits k)) +:+ " BITS"]
                    else
                      match read_file (cfgFile o) with
                      | None => Exit 1 []
                      | Some content => run_action k o content args
                      end
                end
            end
        end
  end.

(** ** Arithmetic of the code *)

Lemma i32_sub_idemp a b : i32 (i32 a - b) = i32 (a - b).
Proof.
  unfold i32. f_equal. replace ((a + 2 ^ 31) mod 2 ^ 32 - 2 ^ 31 - b + 2 ^ 31) with ((a + 2 ^ 31) mod 2 ^ 32 - b) by lia.
  rewrite Zminus_mod_idemp_l. f_equal. lia.
Qed.

Lemma i64_sub_idemp a b : i64 (i64 a - b) = i64 (a - b).
Proof.
  unfold i64. f_equal. replace ((a + 2 ^ 63) mod 2 ^ 64 - 2 ^ 63 - b + 2 ^ 63) with ((a + 2 ^ 63) mod 2 ^ 64 - b) by lia.
  rewrite Zminus_mod_idemp_l. f_equal. lia.
Qed.

Lemma u32_i32 x : u32 (i32 x) = u32 x.
Proof.
  unfold u32, i32. rewrite Zminus_mod_idemp_l. f_equal. lia.
Qed.

Lemma pow2_le31 n : 0 <= n <= 31 -> 1 <= 2 ^ n <= 2147483648.
Proof. intros. pose proof (pow2_le 0 n). pose proof (pow2_le n 31). lia. Qed.

Lemma shl_int_1 n : 0 <= n <= 31 -> shl_int 1 n = Some (i32 (2 ^ n)).
Proof.
  intros. unfold shl_int. rewrite (proj2 (Z.leb_le 0 n)), (proj2 (Z.ltb_lt n 32)) by lia. cbn [andb].
  by rewrite Z.shiftl_1_l.
Qed.

Lemma shl_ll_1 n : 0 <= n <= 63 -> shl_ll 1 n = Some (i64 (2 ^ n)).
Proof.
  intros. unfold shl_ll. rewrite (proj2 (Z.leb_le 0 n)), (proj2 (Z.ltb_lt n 64)) by lia. cbn [andb].
  by rewrite Z.shiftl_1_l.
Qed.

Lemma shl_ll_1_small n : 0 <= n <= 31 -> shl_ll 1 n = Some (2 ^ n).
Proof. intros. pose proof (pow2_le31 n). rewrite shl_ll_1, i64_small by lia. done. Qed.

Lemma shr_u64_ok x n : 0 <= n < 64 -> shr_u64 x n = Some (x / 2 ^ n).
Proof.
  intros. unfold shr_u64. rewrite (proj2 (Z.leb_le 0 n)), (proj2 (Z.ltb_lt n 64)) by lia. cbn [andb].
  by rewrite Z.shiftr_div_pow2 by lia.
Qed.

Lemma shl_u64_ok x n : 0 <= n < 64 -> 0 <= x * 2 ^ n < 2 ^ 64 -> shl_u64 x n = Some (x * 2 ^ n).
Proof.
  intros. unfold shl_u64. rewrite (proj2 (Z.leb_le 0 n)), (proj2 (Z.ltb_lt n 64)) by lia. cbn [andb].
  by rewrite Z.shiftl_mul_pow2, u64_small by lia.
Qed.

(** The masks of the three fields. *)
Lemma mask_int x n : 0 <= n <= 31 -> Z.land x (u64 (i32 (i32 (2 ^ n) - 1))) = x mod 2 ^ n.
Proof.
  intros Hn. pose proof (pow2_le31 n Hn). rewrite i32_sub_idemp, i32_small, u64_small by lia.
  apply land_pow2_mod. lia.
Qed.

Lemma mask_u32 x n : 0 <= n <= 31 -> Z.land (u32 x) (u32 (i32 (i32 (2 ^ n) - 1))) = x mod 2 ^ n.
Proof.
  intros Hn. pose proof (pow2_le31 n Hn). rewrite i32_sub_idemp, i32_small, (u32_small (_ - _)) by lia.
  rewrite land_pow2_mod by lia. unfold u32. apply Z.mod_mod_divide.
  exists (2 ^ (32 - n)). rewrite <- Z.pow_add_r by lia. f_equal. lia.
Qed.

Lemma mod_pow2_range x n : 0 <= n -> 0 <= x mod 2 ^ n < 2 ^ n.
Proof. intros. apply Z.mod_pos_bound, pow2_pos. done. Qed.

(** [a] above [b] in a field of [j] bits. *)
Lemma pack_bound a b i j :
  0 <= i -> 0 <= j -> 0 <= a < 2 ^ i -> 0 <= b < 2 ^ j -> 0 <= a * 2 ^ j + b < 2 ^ (i + j).
Proof. intros. rewrite Z.pow_add_r by lia. pose proof (pow2_pos j). nia. Qed.

Lemma pack_div a b j : 0 <= j -> 0 <= b < 2 ^ j -> (a * 2 ^ j + b) / 2 ^ j = a.
Proof. intros. rewrite Z.div_add_l by lia. rewrite Z.div_small by lia. lia. Qed.

Lemma pack_mod a b j : 0 <= j -> 0 <= b < 2 ^ j -> (a * 2 ^ j + b) mod 2 ^ j = b.
Proof. intros. rewrite Z.add_comm, Z.mod_add by lia. apply Z.mod_small. lia. Qed.

(** ** Sizes *)

(** A usable configuration: the bit counts within the documented bounds (0 bits included), a key of
    whole bytes up to 8, and the character set as documented: without space, no character twice. *)
Record cfg_ok (k : key) (c : cfg) : Prop := {
  ok_roll : 0 <= roll_bits c <= 31;
  ok_ticket : 0 <= ticket_bits c <= 31;
  ok_checksum : 0 <= checksum_bits c <= 31;
  ok_magic : 0 <= magic c < 2 ^ 64;
  ok_bits : exists n, get_bits k = 8 * n /\ 1 <= n <= 8;
  ok_fits : voucher_bits c < get_bits k;
  ok_charset : (2 <= length (charset c) <= MAX_CHARSET_LEN)%nat;
  ok_nodup : NoDup (charset c);
  ok_nospace : " "%char ∉ charset c
}.

(** What [get_sizes] computes for it. *)
Definition the_sizes (k : key) (c : cfg) : sizes :=
  {| crypt_len := Z.to_nat (get_bits k / 8);
     magic_bits := get_bits k - 1 - voucher_bits c;
     magic_used := magic c mod 2 ^ (get_bits k - 1 - voucher_bits c) |}.

Lemma get_sizes_ok k c : cfg_ok k c -> get_sizes k c = Some (Some (the_sizes k c)).
Proof.
  intros [Hr Ht Hc Hm (n & Hn & Hn8) Hf _ _ _]. unfold get_sizes, the_sizes. rewrite Hn in *.
  replace (8 * n / 8) with n by (rewrite Z.mul_comm, Z.div_mul; lia).
  unfold voucher_bits in *. rewrite !i32_small by lia. rewrite Z.min_l by lia.
  rewrite (proj2 (Z.ltb_ge n _)).
  2:{ rewrite Z.shiftr_div_pow2 by lia. change (2 ^ 3) with 8. Z.to_euclidean_division_equations. lia. }
  replace (n * 8 - (roll_bits c + ticket_bits c + checksum_bits c + 1))
    with (8 * n - 1 - (roll_bits c + ticket_bits c + checksum_bits c)) by lia.
  set (mb := 8 * n - 1 - _). destruct (Z.ltb_spec 0 mb).
  - rewrite shl_ll_1 by lia. cbn. rewrite i64_sub_idemp, i64_small, u64_small.
    + do 3 f_equal. by rewrite land_pow2_mod by lia.
    + pose proof (pow2_le 0 mb). pose proof (pow2_le mb 63). lia.
    + pose proof (pow2_le 0 mb). pose proof (pow2_le mb 63). lia.
  - replace mb with 0 by lia. do 3 f_equal. by rewrite Z.mod_1_r.
Qed.

(** ** The code of a ticket *)

Definition ticket_checksum (c : cfg) (rollid ticketid : Z) : Z := (ticketid + rollid) mod 2 ^ checksum_bits c.

(** magic | checksum | ticketid | rollid, as the comment of voucher.c draws it. *)
Definition ticket_code (k : key) (c : cfg) (rollid ticketid : Z) : Z :=
  ((magic_used (the_sizes k c) * 2 ^ checksum_bits c + ticket_checksum c rollid ticketid) * 2 ^ ticket_bits c
   + ticketid) * 2 ^ roll_bits c + rollid.

Section Code.
Context (k : key) (c : cfg).
Hypothesis ok : cfg_ok k c.

Lemma magic_range : 0 <= magic_used (the_sizes k c) < 2 ^ (get_bits k - 1 - voucher_bits c).
Proof. destruct ok. apply mod_pow2_range. lia. Qed.

Lemma key_len : Z.of_nat (crypt_len (the_sizes k c)) * 8 = get_bits k /\
  (1 <= crypt_len (the_sizes k c) <= 8)%nat.
Proof.
  destruct ok as [_ _ _ _ (n & Hn & Hn8) _ _ _ _]. cbn. rewrite Hn.
  replace (8 * n / 8) with n by (rewrite Z.mul_comm, Z.div_mul; lia). lia.
Qed.

Lemma key_bits : 8 <= get_bits k <= 64.
Proof. destruct ok as [_ _ _ _ (n & Hn & Hn8) _ _ _ _]. lia. Qed.

Section Ticket.
Context (rollid ticketid : Z).
Hypothesis roll_range : 0 <= rollid < 2 ^ roll_bits c.
Hypothesis ticket_range : 0 <= ticketid < 2 ^ ticket_bits c.

Lemma ticket_code_range :
  0 <= magic_used (the_sizes k c) * 2 ^ checksum_bits c + ticket_checksum c rollid ticketid
    < 2 ^ (get_bits k - 1 - roll_bits c - ticket_bits c) /\
  0 <= (magic_used (the_sizes k c) * 2 ^ checksum_bits c + ticket_checksum c rollid ticketid) * 2 ^ ticket_bits c
       + ticketid < 2 ^ (get_bits k - 1 - roll_bits c) /\
  0 <= ticket_code k c rollid ticketid < 2 ^ (get_bits k - 1).
Proof.
  pose proof magic_range. destruct ok. unfold ticket_code, voucher_bits in *.
  set (mb := get_bits k - 1 - _) in *.
  assert (HA : 0 <= magic_used (the_sizes k c) * 2 ^ checksum_bits c + ticket_checksum c rollid ticketid
          < 2 ^ (mb + checksum_bits c)) by (apply pack_bound; try lia; apply mod_pow2_range; lia).
  pose proof (pack_bound _ _ (mb + checksum_bits c) (ticket_bits c) ltac:(lia) ltac:(lia) HA ticket_range) as HB.
  pose proof (pack_bound _ _ (mb + checksum_bits c + ticket_bits c) (roll_bits c) ltac:(lia) ltac:(lia) HB roll_range) as HC.
  replace (get_bits k - 1 - roll_bits c - ticket_bits c) with (mb + checksum_bits c) by lia.
  replace (get_bits k - 1 - roll_bits c) with (mb + checksum_bits c + ticket_bits c) by lia.
  replace (get_bits k - 1) with (mb + checksum_bits c + ticket_bits c + roll_bits c) by lia.
  done.
Qed.

Lemma clear_code_ok : clear_code c (the_sizes k c) rollid ticketid = Some (ticket_code k c rollid ticketid).
Proof.
  pose proof ticket_code_range as (HA & HB & HC). pose proof magic_range. pose proof key_bits.
  pose proof key_len as [Hlen _]. destruct ok.
  pose proof (pow2_le31 (roll_bits c)). pose proof (pow2_le31 (ticket_bits c)).
  pose proof (pow2_le31 (checksum_bits c)).
  assert (Hs : u32 (ticketid + rollid) mod u32 (i32 (2 ^ checksum_bits c)) = ticket_checksum c rollid ticketid).
  { rewrite u32_i32, !u32_small by lia. done. }
  pose proof (mod_pow2_range (ticketid + rollid) (checksum_bits c) ltac:(lia)) as Hcs.
  fold (ticket_checksum c rollid ticketid) in Hcs.
  pose proof (pow2_le (get_bits k - 1) 63). pose proof (pow2_le (get_bits k - 1 - roll_bits c) 63).
  unfold voucher_bits in *.
  pose proof (pow2_le (get_bits k - 1 - roll_bits c - ticket_bits c) 63).
  unfold clear_code. unfold ticket_code in *.
  rewrite shl_u64_ok by lia. cbn [mbind option_bind]. rewrite shl_int_1 by lia. cbn [mbind option_bind].
  rewrite Hs, (u64_small (_ + ticket_checksum _ _ _)) by lia.
  rewrite shl_u64_ok by nia. cbn [mbind option_bind]. rewrite (u64_small (_ + ticketid)) by lia.
  rewrite shl_u64_ok by nia. cbn [mbind option_bind].
  rewrite shr_u64_ok by lia. cbn [mbind option_bind]. rewrite (u64_small (_ + rollid)) by lia. f_equal.
  replace (ULONG_MAX / 2 ^ (65 - 8 * Z.of_nat (crypt_len (the_sizes k c)))) with (2 ^ (get_bits k - 1) - 1).
  - rewrite land_pow2_mod by lia. apply Z.mod_small. lia.
  - unfold ULONG_MAX. rewrite (Z.mul_comm 8), Hlen. apply Z.div_unique with (2 ^ (65 - get_bits k) - 1).
    + left. pose proof (pow2_pos (65 - get_bits k)). lia.
    + rewrite Z.mul_sub_distr_l, <- Z.pow_add_r by lia.
      replace (65 - get_bits k + (get_bits k - 1)) with 64 by lia. lia.
Qed.
End Ticket.
End Code.

(** ** Buffers *)

(** The number a buffer holds, most significant byte first. *)
Definition buf_value (l : list Z) : Z := fold_left (fun a b => a * 256 + b) l 0.

Definition is_byte (b : Z) : Prop := 0 <= b < 256.

Lemma buf_value_app l b : buf_value (l ++ [b]) = buf_value l * 256 + b.
Proof. unfold buf_value. by rewrite fold_left_app. Qed.

Lemma buf_value_range l : Forall is_byte l -> 0 <= buf_value l < 256 ^ Z.of_nat (length l).
Proof.
  induction l as [|b l IH] using rev_ind; [done|]. intros [Hl Hb]%Forall_app. apply Forall_cons_1 in Hb as [Hb _].
  rewrite buf_value_app, length_app, Nat2Z.inj_add. cbn [length]. rewrite Z.pow_add_r by lia.
  specialize (IH Hl). unfold is_byte in Hb. change (256 ^ Z.of_nat 1) with 256. lia.
Qed.

Lemma ll2buf_length ll n : length (ll2buf ll n) = n.
Proof. revert ll. induction n as [|n IH]; intros ll; [done|]. cbn. rewrite length_app, IH. cbn. lia. Qed.

Lemma ll2buf_bytes ll n : Forall is_byte (ll2buf ll n).
Proof.
  revert ll. induction n as [|n IH]; intros ll; [constructor|]. cbn. apply Forall_app. split; [apply IH|].
  constructor; [|constructor]. change 255 with (2 ^ 8 - 1). rewrite land_pow2_mod by lia.
  apply (mod_pow2_range ll 8). lia.
Qed.

Lemma ll2buf_value ll n : 0 <= ll < 256 ^ Z.of_nat n -> buf_value (ll2buf ll n) = ll.
Proof.
  revert ll. induction n as [|n IH]; intros ll Hl; [cbn in Hl; unfold buf_value; cbn; lia|].
  cbn [ll2buf]. rewrite buf_value_app, IH.
  - change 255 with (2 ^ 8 - 1). rewrite land_pow2_mod, Z.shiftr_div_pow2 by lia.
    change (2 ^ 8) with 256. pose proof (Z.div_mod ll 256). lia.
  - rewrite Z.shiftr_div_pow2 by lia. change (2 ^ 8) with 256. rewrite Nat2Z.inj_succ, Z.pow_succ_r in Hl by lia.
    split; [apply Z.div_pos; lia | apply Z.div_lt_upper_bound; lia].
Qed.

Lemma buf_value_inj l1 : forall l2, Forall is_byte l1 -> Forall is_byte l2 -> length l1 = length l2 ->
  buf_value l1 = buf_value l2 -> l1 = l2.
Proof.
  induction l1 as [|b1 l1 IH] using rev_ind; intros l2 H1 H2 Hl Hv.
  - by destruct l2.
  - destruct l2 as [|b2 l2 _] using rev_ind; [rewrite length_app in Hl; cbn in Hl; lia|].
    rewrite !length_app in Hl. cbn in Hl. rewrite !buf_value_app in Hv.
    apply Forall_app in H1 as [H1 [B1 _]%Forall_cons_1]. apply Forall_app in H2 as [H2 [B2 _]%Forall_cons_1].
    unfold is_byte in *. f_equal; [apply IH; auto; lia | f_equal; lia].
Qed.

(** Eight bytes never overflow the 64 bits. *)
Lemma buf2ll_ok l n :
  Forall is_byte l -> length l = n -> (1 <= n <= 8)%nat -> buf2ll l n = Some (buf_value l).
Proof.
  intros Hl Hn H8. unfold buf2ll. rewrite (proj2 (Nat.ltb_ge _ _)) by lia.
  destruct l as [|b l]; [cbn in Hn; lia|]. cbn in Hn. rewrite take_ge by lia. f_equal.
  replace (buf_value (b :: l)) with (buf_value ([b] ++ l)) by done.
  assert (Hb : forall a, Forall is_byte a -> (length a + length l <= 8)%nat ->
    fold_left buf2ll_step l (buf_value a) = buf_value (a ++ l)).
  { apply Forall_cons_1 in Hl as [_ Hl]. clear Hn H8 n b. induction Hl as [|b l Hb Hl IH]; intros a Ha Hlen.
    - cbn. by rewrite app_nil_r.
    - cbn [fold_left]. replace (a ++ b :: l) with ((a ++ [b]) ++ l) by (by rewrite <- (assoc_L (++))).
      rewrite <- IH; [|by apply Forall_app; split; [|constructor]|rewrite length_app; cbn in Hlen |- *; lia].
      f_equal. rewrite buf_value_app. unfold buf2ll_step. pose proof (buf_value_range a Ha) as Hr.
      assert (256 ^ Z.of_nat (length a) <= 256 ^ 7) by (apply Z.pow_le_mono_r; cbn in Hlen; lia).
      unfold is_byte in Hb. rewrite Z.shiftl_mul_pow2 by lia. change (2 ^ 8) with 256.
      rewrite (u64_small (buf_value a * 256)), u64_small by lia. done. }
  rewrite <- (Hb [b]); [done| |cbn; lia]. apply Forall_cons_1 in Hl as [Hbb _]. by constructor.
Qed.

(** ** The character set as digits *)

Lemma index_of_lookup l i ch : NoDup l -> l !! i = Some ch -> index_of ch l = Some i.
Proof.
  intros Hn. revert i. induction Hn as [|d l Hd Hn IH]; intros i Hi; [done|]. cbn.
  destruct i as [|i]; cbn in Hi.
  - simplify_eq. by rewrite Ascii.eqb_refl.
  - assert (ch <> d) by (intros ->; apply Hd; by eapply list_elem_of_lookup_2).
    rewrite (proj2 (Ascii.eqb_neq ch d)) by done. by rewrite (IH i).
Qed.

Lemma index_of_Some l i ch : index_of ch l = Some i -> l !! i = Some ch.
Proof.
  revert i. induction l as [|d l IH]; intros i; cbn; [done|].
  destruct (Ascii.eqb_spec ch d) as [->|Hne]; [by intros [= <-]|].
  destruct (index_of ch l) as [j|]; [|done]. intros [= <-]. by apply IH.
Qed.

Section Digits.
Context (cs : list ascii).
Hypothesis cs_len : (2 <= length cs)%nat.
Hypothesis cs_nodup : NoDup cs.
Hypothesis cs_space : " "%char ∉ cs.
Let base := Z.of_nat (length cs).

Lemma decode_code_app l1 l2 a : Forall (fun ch => ch ∈ cs) l1 ->
  decode_code cs (l1 ++ l2) a
  = match decode_code cs l1 a with inl v => decode_code cs l2 v | inr ch => inr ch end.
Proof.
  intros Hl. revert a. induction Hl as [|ch l1 Hch Hl IH]; intros a; [done|]. cbn.
  destruct (Ascii.eqb_spec ch " ") as [->|_]; [done|].
  apply list_elem_of_lookup_1 in Hch as [i Hi]. by rewrite (index_of_lookup _ i).
Qed.

(** Every 64-bit number is written in at most 64 characters of the set, completely, and read
    back. *)
Lemma encode_decode num x : 0 <= x < 2 ^ 64 -> x < 2 ^ (Z.of_nat num - 1) -> (1 <= num)%nat ->
  let '(code, rest) := encode_code cs num x in
  rest = 0 /\ Forall (fun ch => ch ∈ cs) code /\ (length code < num)%nat /\ decode_code cs (reverse code) 0 = inl x.
Proof.
  revert x. induction num as [|num IH]; intros x Hx Hn Hnum; [lia|].
  cbn [encode_code]. destruct (Z.eqb_spec x 0) as [->|Hx0].
  { repeat split; [constructor|cbn; lia]. }
  destruct num as [|num].
  { change (Z.of_nat 1 - 1) with 0 in Hn. cbn in Hn. lia. }
  fold base. assert (Hb : 2 <= base) by (unfold base; lia).
  assert (Hdiv : 0 <= x / base <= x / 2).
  { split; [apply Z.div_pos; lia|]. apply Z.div_le_compat_l; lia. }
  assert (Hhalf : x / 2 < 2 ^ (Z.of_nat (S num) - 1)).
  { apply Z.div_lt_upper_bound; [lia|]. rewrite <- Z.pow_succ_r by lia.
    replace (Z.succ (Z.of_nat (S num) - 1)) with (Z.of_nat (S (S num)) - 1) by lia. lia. }
  pose proof (Z.div_le_upper_bound x 2 x).
  specialize (IH (x / base) ltac:(lia) ltac:(lia) ltac:(lia)).
  destruct (encode_code cs (S num) (x / base)) as [code rest]. destruct IH as (-> & Hc & Hl & Hd).
  pose proof (Z.mod_pos_bound x base ltac:(lia)) as Hm.
  destruct (lookup_lt_is_Some_2 cs (Z.to_nat (x mod base))) as [ch Hch]; [unfold base in *; lia|].
  rewrite Hch. cbn [default]. split; [done|]. split; [constructor; [by eapply list_elem_of_lookup_2|done]|].
  split; [cbn; lia|]. rewrite reverse_cons, decode_code_app, Hd by (by apply Forall_reverse). cbn.
  destruct (Ascii.eqb_spec ch " ") as [->|_]; [by apply list_elem_of_lookup_2 in Hch|].
  rewrite (index_of_lookup _ _ _ cs_nodup Hch). fold base. f_equal.
  pose proof (Z.div_mod x base ltac:(lia)) as Hdm.
  rewrite Z2Nat.id by lia. rewrite (u64_small (_ * base)) by nia. rewrite u64_small by lia. lia.
Qed.
End Digits.

(** ** Checking a clear code *)

Definition ok_line (rollid ticketid : Z) : string := "OK " +:+ udec rollid +:+ " " +:+ udec ticketid.

Section Check.
Context (k : key) (c : cfg).
Hypothesis ok : cfg_ok k c.

Lemma sdec_i32 x n : 0 <= n <= 31 -> sdec (i32 (x mod 2 ^ n)) = udec (x mod 2 ^ n).
Proof.
  intros Hn. pose proof (mod_pow2_range x n ltac:(lia)). pose proof (pow2_le31 n Hn).
  rewrite i32_small by lia. unfold sdec. by rewrite (proj2 (Z.ltb_ge _ 0)) by lia.
Qed.

Lemma check_code_spec arg v :
  let rollid := v mod 2 ^ roll_bits c in
  let ticketid := v / 2 ^ roll_bits c mod 2 ^ ticket_bits c in
  check_code c (the_sizes k c) arg v
  = Some (if negb (magic_used (the_sizes k c) =? v / 2 ^ voucher_bits c) then
            Exit 1 ["TYPO Invalid magic <" +:+ arg +:+ ">"]
          else if negb (ticket_checksum c rollid ticketid
                        =? v / 2 ^ (ticket_bits c + roll_bits c) mod 2 ^ checksum_bits c) then
            Exit 1 ["TYPO Invalid checksum <" +:+ arg +:+ ">"]
          else Exit 0 [ok_line rollid ticketid]).
Proof.
  cbv zeta. pose proof (key_bits k c ok). destruct ok. unfold check_code, voucher_bits in *.
  assert (Hf : forall x n, 0 <= n <= 31 -> u32 (x mod 2 ^ n) = x mod 2 ^ n).
  { intros x n Hn. pose proof (mod_pow2_range x n ltac:(lia)). pose proof (pow2_le31 n Hn).
    apply u32_small. lia. }
  rewrite !shl_int_1 by lia. cbn [mbind option_bind]. rewrite !shr_u64_ok by lia. cbn [mbind option_bind].
  rewrite !mask_int, !mask_u32, !Hf by lia.
  destruct (negb _); [done|]. rewrite shl_ll_1_small by lia. cbn [mbind option_bind].
  rewrite !sdec_i32 by lia. unfold ticket_checksum, ok_line.
  set (r := v mod 2 ^ roll_bits c). set (t := v / 2 ^ roll_bits c mod 2 ^ ticket_bits c). rewrite (u32_small (t + r)).
  - by destruct (negb _).
  - pose proof (mod_pow2_range v (roll_bits c) ltac:(lia)).
    pose proof (mod_pow2_range (v / 2 ^ roll_bits c) (ticket_bits c) ltac:(lia)).
    pose proof (pow2_le31 (roll_bits c)). pose proof (pow2_le31 (ticket_bits c)). lia.
Qed.

(** The code of a ticket is accepted as that ticket, and nothing else is. *)
Lemma check_code_complete arg r t :
  0 <= r < 2 ^ roll_bits c -> 0 <= t < 2 ^ ticket_bits c ->
  check_code c (the_sizes k c) arg (ticket_code k c r t) = Some (Exit 0 [ok_line r t]).
Proof.
  intros Hr Ht. rewrite check_code_spec. cbv zeta. destruct ok. unfold ticket_code, voucher_bits in *.
  rewrite pack_mod, pack_div, pack_mod by lia.
  replace (roll_bits c + ticket_bits c + checksum_bits c)
    with (roll_bits c + (ticket_bits c + checksum_bits c)) by lia.
  rewrite (Z.add_comm (ticket_bits c) (roll_bits c)), !Z.pow_add_r, <- !Z.div_div, !pack_div, pack_mod
    by (try apply pow2_pos; try apply Z.pow_nonzero; try (apply mod_pow2_range); lia).
  by rewrite !Z.eqb_refl.
Qed.

Lemma check_code_sound arg v out :
  0 <= v -> check_code c (the_sizes k c) arg v = Some (Exit 0 out) ->
  exists r t, 0 <= r < 2 ^ roll_bits c /\ 0 <= t < 2 ^ ticket_bits c /\ v = ticket_code k c r t /\
    out = [ok_line r t].
Proof.
  intros Hv. rewrite check_code_spec. cbv zeta. destruct ok. unfold voucher_bits.
  destruct (Z.eqb_spec (magic_used (the_sizes k c)) (v / 2 ^ (roll_bits c + ticket_bits c + checksum_bits c)))
    as [Hm|]; [|done]. cbn [negb].
  case_match eqn:Hs; [done|]. intros [= <-]. apply negb_false_iff, Z.eqb_eq in Hs.
  exists (v mod 2 ^ roll_bits c), (v / 2 ^ roll_bits c mod 2 ^ ticket_bits c).
  split; [apply mod_pow2_range; lia|]. split; [apply mod_pow2_range; lia|]. split; [|done].
  unfold ticket_code. rewrite Hs, Hm. clear Hs Hm.
  rewrite (Z.add_comm (ticket_bits c) (roll_bits c)).
  replace (roll_bits c + ticket_bits c + checksum_bits c)
    with (roll_bits c + (ticket_bits c + checksum_bits c)) by lia.
  rewrite !Z.pow_add_r, <- !Z.div_div by (try apply pow2_pos; try apply Z.pow_nonzero; lia).
  assert (Hdm : forall x n, 0 <= n -> x / 2 ^ n * 2 ^ n + x mod 2 ^ n = x).
  { intros x n Hn. pose proof (Z.div_mod x (2 ^ n) ltac:(pose proof (pow2_pos n Hn); lia)). lia. }
  by rewrite !Hdm by lia.
Qed.
End Check.

(** ** What RSA without padding promises

    [RsaPair priv pub n]: the private and the public key of one pair with modulus [n], which has
    exactly [get_bits] bits; signing is defined for every number below the modulus, and verifying
    recovers what was signed, from nothing but its signature. *)
Class RsaPair (priv pub : key) (n : Z) : Prop := {
  rsa_bits : get_bits pub = get_bits priv;
  rsa_modulus : 2 ^ (get_bits priv - 1) <= n;
  rsa_sign buf :
    Forall is_byte buf -> Z.of_nat (length buf) * 8 = get_bits priv -> buf_value buf < n ->
    exists sig, pkey_sign priv buf = Done sig /\ Forall is_byte sig /\ length sig = length buf /\
      pkey_verify_recover pub sig = Done buf;
  rsa_recover sig buf :
    Forall is_byte sig -> Z.of_nat (length sig) * 8 = get_bits priv ->
    pkey_verify_recover pub sig = Done buf ->
    Forall is_byte buf /\ length buf = length sig /\ pkey_sign priv buf = Done sig
}.

Section Vouchers.
Context (priv pub : key) (n : Z) `{!RsaPair priv pub n} (c : cfg).
Hypothesis ok : cfg_ok priv c.

Lemma cfg_ok_pub : cfg_ok pub c.
Proof. destruct ok. constructor; try rewrite rsa_bits; done. Qed.

Lemma sizes_pub : the_sizes pub c = the_sizes priv c.
Proof. unfold the_sizes. by rewrite rsa_bits. Qed.

Lemma ticket_code_pub r t : ticket_code pub c r t = ticket_code priv c r t.
Proof. unfold ticket_code. by rewrite sizes_pub. Qed.

Let len := crypt_len (the_sizes priv c).

Lemma key_pow : 256 ^ Z.of_nat len = 2 ^ get_bits priv.
Proof.
  destruct (key_len priv c ok) as [Hlen _]. fold len in Hlen. rewrite <- Hlen. change 256 with (2 ^ 8).
  by rewrite <- Z.pow_mul_r, Z.mul_comm by lia.
Qed.

Section Ticket.
Context (r t : Z).
Hypothesis roll_range : 0 <= r < 2 ^ roll_bits c.
Hypothesis ticket_range : 0 <= t < 2 ^ ticket_bits c.

Let code := ticket_code priv c r t.
Let buf := ll2buf code len.

Lemma ticket_code_fits : 0 <= code < 2 ^ (get_bits priv - 1) /\ buf_value buf = code.
Proof.
  destruct (ticket_code_range priv c ok r t roll_range ticket_range) as (_ & _ & HC).
  pose proof (key_bits priv c ok). split; [done|]. apply ll2buf_value. rewrite key_pow.
  pose proof (pow2_le (get_bits priv - 1) (get_bits priv)). unfold code. lia.
Qed.

(** Signing a ticket never fails with "data too large for modulus". *)
Lemma sign_ticket : exists sig,
  pkey_sign priv buf = Done sig /\ Forall is_byte sig /\ length sig = len /\
  pkey_verify_recover pub sig = Done buf.
Proof.
  destruct (key_len priv c ok) as [Hlen _]. fold len in Hlen. destruct ticket_code_fits as [HC Hv].
  destruct (rsa_sign buf) as (sig & Hs & Hsb & Hsl & Hr).
  - apply ll2buf_bytes.
  - unfold buf. by rewrite ll2buf_length.
  - rewrite Hv. pose proof rsa_modulus. lia.
  - unfold buf in Hsl. rewrite ll2buf_length in Hsl. by exists sig.
Qed.

Lemma ll2buf_of_value sig : Forall is_byte sig -> length sig = len -> ll2buf (buf_value sig) len = sig.
Proof.
  intros Hb Hl. pose proof (buf_value_range sig Hb) as Hr. rewrite Hl in Hr.
  apply buf_value_inj; [apply ll2buf_bytes|done|by rewrite ll2buf_length|]. by apply ll2buf_value.
Qed.

(** A string that denotes the signature of the ticket is accepted. *)
Lemma check_signature arg sig :
  Forall is_byte sig -> length sig = len -> pkey_verify_recover pub sig = Done buf ->
  decode_code (charset c) (reverse (list_ascii_of_string arg)) 0 = inl (buf_value sig) ->
  check_voucher pub c (the_sizes priv c) arg = Exit 0 [ok_line r t].
Proof.
  intros Hb Hl Hv Hd. unfold check_voucher. rewrite Hd. fold len. rewrite ll2buf_of_value, Hv by done.
  destruct (key_len priv c ok) as [_ H8]. rewrite buf2ll_ok; [|apply ll2buf_bytes|apply ll2buf_length|done].
  destruct ticket_code_fits as [_ ->]. unfold code. cbn [mbind option_bind].
  rewrite <- sizes_pub, <- ticket_code_pub. by rewrite check_code_complete by (done || apply cfg_ok_pub).
Qed.

(** The voucher printed for a ticket, and that it checks. *)
Lemma print_voucher_ok :
  exists v,
    print_voucher priv c (the_sizes priv c) code
      = Exit 0 [String (ascii_of_Z 34) (" " +:+ v +:+ String (ascii_of_Z 34) "")] /\
    (String.length v <= MAX_VOUCHER_LEN)%nat /\
    check_voucher pub c (the_sizes priv c) v = Exit 0 [ok_line r t] /\
    check_voucher pub c (the_sizes priv c) (" " +:+ v) = Exit 0 [ok_line r t].
Proof.
  destruct (key_len priv c ok) as [_ H8]. pose proof (key_bits priv c ok).
  destruct sign_ticket as (sig & Hs & Hsb & Hsl & Hv).
  pose proof (buf_value_range sig Hsb) as Hsr. rewrite Hsl, key_pow in Hsr.
  pose proof (pow2_le (get_bits priv) 64). pose proof (ok_charset _ _ ok).
  pose proof (ok_nodup _ _ ok) as Hnd. pose proof (ok_nospace _ _ ok) as Hsp.
  pose proof (encode_decode (charset c) ltac:(lia) Hnd Hsp (S MAX_VOUCHER_LEN) (buf_value sig)) as Henc.
  change (Z.of_nat (S MAX_VOUCHER_LEN) - 1) with 64 in Henc.
  specialize (Henc ltac:(lia) ltac:(lia) ltac:(unfold MAX_VOUCHER_LEN; lia)).
  unfold print_voucher. fold len buf. rewrite Hs, buf2ll_ok by done.
  destruct (encode_code _ _ _) as [chars rest]. destruct Henc as (-> & Hin & Hcl & Hdec).
  exists (string_of_list_ascii chars). split; [done|]. split.
  { rewrite <- length_list_ascii, list_ascii_of_string_of_list_ascii. lia. }
  split; apply check_signature with sig; try done.
  - by rewrite list_ascii_of_string_of_list_ascii.
  - cbn [String.append list_ascii_of_string]. rewrite list_ascii_of_string_of_list_ascii, reverse_cons.
    rewrite decode_code_app, Hdec by (done || by apply Forall_reverse). done.
Qed.
End Ticket.

(** The line printed for a voucher. *)
Definition voucher_line (v : string) : string :=
  String (ascii_of_Z 34) (" " +:+ v +:+ String (ascii_of_Z 34) "").

(** Accepted by the check, as printed (with the space) or without it. *)
Definition accepted (r : Z) (v : string) (t : Z) : Prop :=
  (String.length v <= MAX_VOUCHER_LEN)%nat /\
  check_voucher pub c (the_sizes priv c) v = Exit 0 [ok_line r t] /\
  check_voucher pub c (the_sizes priv c) (" " +:+ v) = Exit 0 [ok_line r t].

Lemma print_loop_ok r m : forall t,
  0 <= r < 2 ^ roll_bits c -> 0 <= t -> t + Z.of_nat m <= 2 ^ ticket_bits c ->
  exists vs, print_loop priv c (the_sizes priv c) m r t = Exit 0 (map voucher_line vs) /\
    length vs = m /\ forall i v, vs !! i = Some v -> accepted r v (t + Z.of_nat i).
Proof.
  induction m as [|m IH]; intros t Hr Ht Hm; cbn [print_loop].
  - by exists [].
  - rewrite (clear_code_ok priv c ok) by lia.
    destruct (print_voucher_ok r t Hr ltac:(lia)) as (v & -> & Hv).
    destruct (IH (t + 1) Hr ltac:(lia) ltac:(lia)) as (vs & -> & Hl & Hvs).
    exists (v :: vs). split; [done|]. split; [cbn; lia|]. intros [|i] w; cbn.
    + intros [= <-]. rewrite Z.add_0_r. exact Hv.
    + intros Hw. replace (t + Z.of_nat (S i)) with (t + 1 + Z.of_nat i) by lia. by apply Hvs.
Qed.
End Vouchers.

(** C5. Printing and checking agree.  With a matching RSA key pair and a usable configuration, the
    program run with -p for a roll and a number of tickets in range succeeds and prints its header
    and one voucher per ticket, of at most 64 characters, and the program run with -k on the i-th
    voucher, with or without the space it is printed with, answers "OK", the roll and ticket i.
    In particular the errors "Failed to sign" and "voucher gets too long" do not occur. *)
Theorem print_check_roundtrip priv pub n c rollid ticketcount :
  RsaPair priv pub n -> cfg_ok priv c ->
  0 <= rollid < 2 ^ roll_bits c -> 1 <= ticketcount < 2 ^ ticket_bits c ->
  exists z vs,
    get_sizes priv c = Some (Some z) /\ get_sizes pub c = Some (Some z) /\
    print_vouchers priv c z rollid ticketcount
      = Exit 0 (print_header c z rollid ticketcount ++ map voucher_line vs) /\
    Z.of_nat (length vs) = ticketcount /\
    forall i v, vs !! i = Some v ->
      (String.length v <= MAX_VOUCHER_LEN)%nat /\
      check_voucher pub c z v = Exit 0 [ok_line rollid (1 + Z.of_nat i)] /\
      check_voucher pub c z (" " +:+ v) = Exit 0 [ok_line rollid (1 + Z.of_nat i)].
Proof.
  intros Hrsa ok Hr Ht. exists (the_sizes priv c).
  destruct (print_loop_ok priv pub n c ok rollid (Z.to_nat ticketcount) 1) as (vs & Hp & Hl & Hvs); [done|lia|lia|].
  exists vs. split; [by apply get_sizes_ok|].
  split; [rewrite get_sizes_ok by (by eapply cfg_ok_pub); by rewrite (sizes_pub priv pub n)|].
  split; [|split; [lia|done]].
  pose proof (ok_roll _ _ ok). pose proof (ok_ticket _ _ ok).
  unfold print_vouchers, defined. rewrite !shl_ll_1_small by lia.
  rewrite (proj2 (Z.leb_gt (2 ^ ticket_bits c) ticketcount)), (proj2 (Z.ltb_ge ticketcount 1)) by lia. cbn [orb].
  rewrite (proj2 (Z.leb_gt (2 ^ roll_bits c) rollid)) by lia. by rewrite Hp.
Qed.

(** C11. Checking is sound: whenever the program accepts a voucher, as roll [r] and ticket [t], the
    string denotes (in the character set, modulo the key length) the very number that signing the
    code of roll [r] and ticket [t] with the private key gives.  A voucher that is accepted was
    made with the private key, for this magic number, and for exactly this roll and ticket. *)
Theorem check_voucher_sound priv pub n c arg out :
  RsaPair priv pub n -> cfg_ok priv c ->
  check_voucher pub c (the_sizes priv c) arg = Exit 0 out ->
  exists r t x,
    0 <= r < 2 ^ roll_bits c /\ 0 <= t < 2 ^ ticket_bits c /\ out = [ok_line r t] /\
    decode_code (charset c) (reverse (list_ascii_of_string arg)) 0 = inl x /\
    pkey_sign priv (ll2buf (ticket_code priv c r t) (crypt_len (the_sizes priv c)))
      = Done (ll2buf x (crypt_len (the_sizes priv c))).
Proof.
  intros Hrsa ok. unfold check_voucher. destruct (key_len priv c ok) as [Hlen H8].
  set (len := crypt_len _) in *.
  destruct (decode_code _ _ _) as [x|ch]; [|done].
  destruct (pkey_verify_recover pub (ll2buf x len)) as [| | | |buf] eqn:Hv; try done.
  destruct (rsa_recover (ll2buf x len) buf) as (Hb & Hbl & Hs); [apply ll2buf_bytes| |done|].
  { by rewrite ll2buf_length. }
  rewrite ll2buf_length in Hbl. rewrite buf2ll_ok by done. cbn [mbind option_bind].
  destruct (check_code _ _ _ _) as [e|] eqn:Hc; [|done]. cbn [default from_option id]. intros ->.
  rewrite <- (sizes_pub priv pub n) in Hc.
  apply (check_code_sound pub c) in Hc as (r & t & Hr & Ht & Hcode & ->);
    [|by eapply cfg_ok_pub|by apply buf_value_range].
  exists r, t, x. repeat split; try tauto. rewrite (ticket_code_pub priv pub n) in Hcode.
  rewrite <- Hcode, <- Hs. f_equal. apply buf_value_inj; [apply ll2buf_bytes|done|by rewrite ll2buf_length|].
  pose proof (buf_value_range buf Hb) as Hbr. rewrite Hbl in Hbr. by apply ll2buf_value.
Qed.

(** ** Examples: an 8-bit key pair, n = 11 * 17 *)

Definition toy_rsa (e : Z) (buf : list Z) : evp :=
  match buf with
  | [m] => if m <? 187 then Done [m ^ e mod 187] else OpFailed
  | _ => OpFailed
  end.

Definition toy_priv : key :=
  {| get_bits := 8; pkey_sign := toy_rsa 23; pkey_verify_recover := toy_rsa 7 |}.
Definition toy_pub : key :=
  {| get_bits := 8; pkey_sign := fun _ => OpFailed; pkey_verify_recover := toy_rsa 7 |}.

Lemma toy_inverse m : 0 <= m < 187 -> (m ^ 23 mod 187) ^ 7 mod 187 = m /\ (m ^ 7 mod 187) ^ 23 mod 187 = m.
Proof.
  assert (Hall : forallb (fun i => let m := Z.of_nat i in
    ((m ^ 23 mod 187) ^ 7 mod 187 =? m) && ((m ^ 7 mod 187) ^ 23 mod 187 =? m)) (seq 0 187) = true)
    by (vm_compute; reflexivity).
  intros Hm. rewrite forallb_forall in Hall. specialize (Hall (Z.to_nat m) ltac:(apply in_seq; lia)).
  rewrite Z2Nat.id in Hall by lia. by apply andb_true_iff in Hall as [H1%Z.eqb_eq H2%Z.eqb_eq].
Qed.

Lemma single_byte (buf : list Z) : Z.of_nat (length buf) * 8 = 8 -> exists m, buf = [m].
Proof. destruct buf as [|m [|]]; cbn; intros; try lia. by exists m. Qed.

#[export] Instance toy_pair : RsaPair toy_priv toy_pub 187.
Proof.
  assert (Hm : forall m e, 0 <= m ^ e mod 187 < 187) by (intros; apply Z.mod_pos_bound; lia).
  split.
  - done.
  - cbn. lia.
  - intros buf Hb Hl Hv. destruct (single_byte buf Hl) as [m ->]. apply Forall_cons_1 in Hb as [Hb _].
    unfold is_byte, buf_value in *. cbn [fold_left] in Hv. pose proof (Hm m 23).
    exists [m ^ 23 mod 187]. unfold toy_priv, toy_pub, toy_rsa; cbn [pkey_sign pkey_verify_recover].
    rewrite !(proj2 (Z.ltb_lt _ 187)) by lia. destruct (toy_inverse m ltac:(lia)) as [-> _].
    repeat split. constructor; [unfold is_byte; lia|constructor].
  - intros sig buf Hb Hl. destruct (single_byte sig Hl) as [s ->]. apply Forall_cons_1 in Hb as [Hb _].
    unfold is_byte in Hb. unfold toy_priv, toy_pub, toy_rsa; cbn [pkey_sign pkey_verify_recover].
    destruct (Z.ltb_spec s 187); [|done]. intros [= <-]. pose proof (Hm s 7).
    rewrite (proj2 (Z.ltb_lt _ 187)) by lia. destruct (toy_inverse s ltac:(lia)) as [_ ->].
    repeat split. constructor; [unfold is_byte; lia|constructor].
Qed.

Definition toy_cfg : cfg :=
  {| roll_bits := 2; ticket_bits := 2; checksum_bits := 2; magic := 1174491274;
     charset := list_ascii_of_string "abcdef" |}.

Lemma toy_cfg_ok : cfg_ok toy_priv toy_cfg.
Proof.
  constructor; try (cbn; lia).
  - exists 1. cbn. lia.
  - done.
  - split; apply (bool_decide_unpack _); vm_compute; exact I.
  - apply (bool_decide_unpack _). vm_compute. exact I.
  - apply (bool_decide_unpack _). vm_compute. exact I.
Qed.

Lemma print_check_roundtrip_witness :
  exists z vs,
    get_sizes toy_priv toy_cfg = Some (Some z) /\
    print_vouchers toy_priv toy_cfg z 2 3 = Exit 0 (print_header toy_cfg z 2 3 ++ map voucher_line vs) /\
    Z.of_nat (length vs) = 3 /\
    forall v, vs !! 2%nat = Some v -> check_voucher toy_pub toy_cfg z v = Exit 0 ["OK 2 3"].
Proof.
  destruct (print_check_roundtrip toy_priv toy_pub 187 toy_cfg 2 3 toy_pair toy_cfg_ok)
    as (z & vs & H1 & H2 & H3 & H4 & H5); [cbn; lia | cbn; lia|].
  exists z, vs. split; [exact H1|]. split; [exact H3|]. split; [exact H4|].
  intros v Hv. exact (proj1 (proj2 (H5 2%nat v Hv))).
Defined.

Lemma check_voucher_sound_witness :
  exists r t x,
    0 <= r < 2 ^ roll_bits toy_cfg /\ 0 <= t < 2 ^ ticket_bits toy_cfg /\ ["OK 2 3"] = [ok_line r t] /\
    decode_code (charset toy_cfg) (reverse (list_ascii_of_string "aac")) 0 = inl x /\
    pkey_sign toy_priv (ll2buf (ticket_code toy_priv toy_cfg r t) 1) = Done (ll2buf x 1).
Proof.
  apply (check_voucher_sound toy_priv toy_pub 187 toy_cfg "aac" ["OK 2 3"] toy_pair toy_cfg_ok).
  vm_compute. reflexivity.
Defined.

(** The bit counts are only bounded from above: the configuration file with -1 roll bits is
    not rejected by the check that says "bits must be between 1..31", and printing then shifts by a
    negative amount. *)
Theorem negative_bits_not_rejected :
  run_action toy_priv {| act := PRINT; keyFile := Some "k"; cfgFile := "c"; report_keysize := false |}
    "-1,2,2,1174491274,abcdef" ["0"; "3"] = Undefined.
Proof. vm_compute. reflexivity. Qed.

(** ** The configuration file is read back *)

Lemma scan_lu_udec z rest :
  0 <= z < 2 ^ 64 -> starts_with_digit rest = false -> scan_lu (udec z +:+ rest) = Some (z, rest).
Proof.
  intros Hz Hr. unfold scan_lu. pose proof (scan_number_sdec z rest ltac:(lia) Hr) as H.
  unfold sdec in H. rewrite (proj2 (Z.ltb_ge z 0)) in H by lia. rewrite H, Z.abs_eq by lia.
  unfold ULONG_MAX. by rewrite (proj2 (Z.ltb_ge _ z)) by lia.
Qed.

Lemma scan_word_all l : forall n rest,
  Forall (fun ch => isspace ch = false) l -> (length l <= n)%nat ->
  match rest with EmptyString => True | String ch _ => isspace ch = true end ->
  scan_word n (string_of_list_ascii l +:+ rest) = l.
Proof.
  induction l as [|ch l IH]; intros n rest Hl Hn Hr.
  - destruct n, rest as [|d rest]; try done. cbn. by rewrite Hr.
  - apply Forall_cons_1 in Hl as [Hch Hl]. destruct n as [|n]; [cbn in Hn; lia|]. cbn. rewrite Hch.
    f_equal. apply IH; [done|cbn in Hn; lia|done].
Qed.

(** The line of the configuration file: rollbits,ticketbits,checksumbits,magic,charset. *)
Definition cfg_line (c : cfg) : string :=
  sdec (roll_bits c) +:+ "," +:+ sdec (ticket_bits c) +:+ "," +:+ sdec (checksum_bits c) +:+ ","
  +:+ udec (magic c) +:+ "," +:+ string_of_list_ascii (charset c).

(** The configuration file is read as documented: a line with the five values, followed by white
    space or the end of the file, is read back as these values, for all bit counts in the range of
    an [int], all 64-bit magic numbers, and all character sets of 1 to 255 characters that are not
    white space. *)
Theorem scan_cfg_roundtrip c tail :
  - 2 ^ 31 <= roll_bits c < 2 ^ 31 -> - 2 ^ 31 <= ticket_bits c < 2 ^ 31 ->
  - 2 ^ 31 <= checksum_bits c < 2 ^ 31 -> 0 <= magic c < 2 ^ 64 ->
  (1 <= length (charset c) <= MAX_CHARSET_LEN)%nat ->
  Forall (fun ch => isspace ch = false) (charset c) ->
  match tail with EmptyString => True | String ch _ => isspace ch = true end ->
  scan_cfg (cfg_line c +:+ tail) = Some c.
Proof.
  intros Hr Ht Hc Hm Hl Hs Htail. unfold scan_cfg, cfg_line. rewrite !append_assoc.
  rewrite scan_d_sdec by done. cbn [mbind option_bind String.append scan_comma].
  rewrite scan_d_sdec by done. cbn [mbind option_bind String.append scan_comma].
  rewrite scan_d_sdec by done. cbn [mbind option_bind String.append scan_comma].
  rewrite scan_lu_udec by done. cbn [mbind option_bind String.append scan_comma].
  destruct c as [r t k m [|ch l]]; cbn [charset roll_bits ticket_bits checksum_bits magic] in *; [cbn in Hl; lia|].
  pose proof (Forall_cons_1 _ _ _ Hs) as [Hch _].
  assert (Hsk : skip_space (string_of_list_ascii (ch :: l) +:+ tail) = string_of_list_ascii (ch :: l) +:+ tail)
    by (cbn; by rewrite Hch).
  rewrite Hsk, scan_word_all by (done || apply Hl). done.
Qed.

Lemma scan_cfg_roundtrip_witness :
  scan_cfg ("2,2,2,1174491274,abcdef" +:+ String (ascii_of_Z 10) "") = Some toy_cfg.
Proof.
  apply (scan_cfg_roundtrip toy_cfg (String (ascii_of_Z 10) "")); try (vm_compute; split; congruence).
  - split; apply (bool_decide_unpack _); vm_compute; exact I.
  - repeat constructor.
Defined.
