(* ===== verification/Dhcpleases.v ===== *)
(** dhcpleases, dhcpleases.c: reads the lease file of the ISC DHCP server and keeps the names of the
    leases in the hosts file (and in a configuration file of unbound). *)
From Stdlib Require Import ZArith Lia Ascii String.
From stdpp Require Import base list strings numbers.
From S2P Require Import Prelude CProg.
Open Scope string_scope.
Open Scope list_scope.
Open Scope Z_scope.

Definition MAXTOK : nat := 64.

(** arpa/nameser.h *)
Definition MAXDNAME : nat := 1025.
Definition MAXLABEL : nat := 63.

(** [char namebuff[256]] of [load_dhcp]. *)
Definition namebuff_size : nat := 256.

Record isc_lease : Type := { name : string; fqdn : string; expires : Z; addr : list Z }.

(** ** Names *)

Definition legal_char (c : ascii) : bool :=
  let v := ascii_val c in
  ((65 <=? v) && (v <=? 90)) || ((97 <=? v) && (v <=? 122)) || ((48 <=? v) && (v <=? 57))
  || Ascii.eqb c "-" || Ascii.eqb c "/" || Ascii.eqb c "_" || Ascii.eqb c " ".

(** The [while] loop of [canonicalise]; the result is [nowhite], [None] for [return (0)]. *)
Fixpoint canonicalise_loop (s : string) (dotgap : nat) (nowhite : bool) : option bool :=
  match s with
  | EmptyString => Some nowhite
  | String c s =>
      if Ascii.eqb c "." then canonicalise_loop s 0 nowhite
      else if negb (legal_char c) || (MAXLABEL <? S dotgap)%nat then None
      else canonicalise_loop s (S dotgap) (if Ascii.eqb c " " then nowhite else true)
  end.

(** The last character, and the string without it. *)
Fixpoint last_char (s : string) : option ascii :=
  match s with
  | EmptyString => None
  | String c EmptyString => Some c
  | String _ r => last_char r
  end.

Fixpoint drop_last (s : string) : string :=
  match s with
  | EmptyString | String _ EmptyString => EmptyString
  | String c r => String c (drop_last r)
  end.

(** [canonicalise] edits its argument: the name without a trailing dot, [None] when it returns 0. *)
Definition canonicalise (s : string) : option string :=
  let l := String.length s in
  if ((l =? 0) || (MAXDNAME <? l))%nat then None
  else
    let dot := match last_char s with Some c => Ascii.eqb c "." | None => false end in
    if dot && (l =? 1)%nat then None
    else
      let s := if dot then drop_last s else s in
      match canonicalise_loop s 0 false with
      | Some true => Some s
      | _ => None
      end.

Definition lower (c : ascii) : ascii :=
  let v := ascii_val c in if (65 <=? v) && (v <=? 90) then ascii_of_Z (v + 32) else c.

(** The strings end where they end in C, with a NUL character. *)
Fixpoint hostname_isequal (a b : string) : bool :=
  match a, b with
  | EmptyString, EmptyString => true
  | String c1 a, String c2 b =>
      if Ascii.eqb (lower c1) (lower c2) then hostname_isequal a b else false
  | _, _ => false
  end.

Fixpoint fix_hostname_spaces (s : string) : string :=
  match s with
  | EmptyString => EmptyString
  | String c s => String (if Ascii.eqb c " " then "-"%char else c) (fix_hostname_spaces s)
  end.

(** ** Tokens *)

(** The loop of [next_token], on the rest of the file; [comment] while it skips one.  [EOF] inside
    a comment falls through the tests, and is stored like a character. *)
Fixpoint token_loop (buffsize : nat) (fp : string) (comment quotes : bool) (cp : string) : string * string :=
  let count := String.length cp in
  match fp with
  | EmptyString =>
      (if comment && (count <? buffsize - 1)%nat then cp +:+ String (ascii_of_Z 255) "" else cp, EmptyString)
  | String c fp =>
      if (if comment then negb (Ascii.eqb c LF) else Ascii.eqb c "#") then
        token_loop buffsize fp true quotes cp
      else
        let quotes := if Ascii.eqb c QUOTE then negb quotes else quotes in
        if (Ascii.eqb c " " && negb quotes) || Ascii.eqb c TAB || Ascii.eqb c LF
           || (Ascii.eqb c ";" && negb quotes) then
          if (0 <? count)%nat then (cp, fp) else token_loop buffsize fp false quotes cp
        else if negb (Ascii.eqb c QUOTE) && (count <? buffsize - 1)%nat then
          token_loop buffsize fp false quotes (cp +:+ String c "")
        else token_loop buffsize fp false quotes cp
  end.

(** [next_token(token, buffsize, fp)] for a buffer of [size] bytes: the token if there is one, and
    the rest of the file.  A token that does not fit in the buffer is written outside it. *)
Definition next_token (size buffsize : nat) (fp : string) : outcome (option string * string) :=
  let '(cp, fp) := token_loop buffsize fp false false "" in
  let count := String.length cp in
  if (size <=? count)%nat then Fail (ArrayBounds (Z.of_nat count))
  else Ok (if (count =? 0)%nat then None else Some (c_str cp), fp).

(** ** Time *)

Record tm : Type := {
  tm_year : Z; tm_mon : Z; tm_mday : Z; tm_hour : Z; tm_min : Z; tm_sec : Z
}.

Definition months : list Z := [31; 59; 90; 120; 151; 181; 212; 243; 273; 304; 334].

(** All of it is computed in [int]; the division rounds towards zero. *)
Definition convert_time (t : tm) : outcome Z :=
  days ← (if 1 <? tm_mon t then
            match months !! Z.to_nat (tm_mon t - 2) with
            | Some d => Ok d
            | None => Fail (ArrayBounds (tm_mon t - 2))
            end
          else Ok 0);
  let leap := if (2 <? tm_mon t) && (Z.land (tm_year t - 1972) 3 =? 0) then 1 else 0 in
  Ok (i32 ((((365 * (tm_year t - 1970) + Z.quot (i32 (tm_year t - 1969)) 4 + days + leap + tm_mday t - 1) * 24
            + tm_hour t) * 60 + tm_min t) * 60 + tm_sec t)).

(** ** The lease file *)

(** [inet_ntoa] *)
Definition inet_ntoa (a : list Z) : string := join_with "." (map udec a).

Definition scan_char (ch : ascii) (s : string) : option string :=
  match s with String c r => if Ascii.eqb c ch then Some r else None | EmptyString => None end.

(** [sscanf(token, "%d/%d/%d", ...) == 3] and [sscanf(token, "%d:%d:%d:", ...) == 3]. *)
Definition scan3 (sep : ascii) (s : string) : option (Z * Z * Z) :=
  '(a, s) ← scan_d s; s ← scan_char sep s;
  '(b, s) ← scan_d s; s ← scan_char sep s;
  '(c, _) ← scan_d s;
  Some (a, b, c).

Definition token (fp : string) : outcome (option string * string) := next_token MAXTOK MAXTOK fp.

(** A date: weekday (skipped), date and time, stopping at the first one that is missing or wrong. *)
Definition read_date (fp : string) : outcome (option tm * string) :=
  '(t, fp) ← token fp;
  match t with
  | None => Ok (None, fp)
  | Some _ =>
      '(t, fp) ← token fp;
      match t ≫= scan3 "/" with
      | None => Ok (None, fp)
      | Some (y, m, d) =>
          '(t, fp) ← token fp;
          match t ≫= scan3 ":" with
          | None => Ok (None, fp)
          | Some (h, mi, s) =>
              Ok (Some {| tm_year := y; tm_mon := m; tm_mday := d; tm_hour := h; tm_min := mi; tm_sec := s |}, fp)
          end
      end
  end.

(** What a lease declares: its name (empty for none), end and start, -1 for none. *)
Record decl : Type := { hostname : string; ttd : Z; tts : Z }.

Definition decl_init : decl := {| hostname := ""; ttd := -1; tts := -1 |}.

(** [client-hostname] or [hostname]. *)
Definition read_hostname (d : decl) (fp : string) : outcome (decl * string) :=
  '(t, fp) ← next_token namebuff_size MAXDNAME fp;
  let h :=
    match t with
    | None => ""
    | Some h =>
        if String.prefix "}" h then ""
        else match canonicalise h with Some h => fix_hostname_spaces h | None => "" end
    end in
  Ok ({| hostname := h; ttd := ttd d; tts := tts d |}, fp).

(** [ends] or [starts]. *)
Definition read_time (is_ends : bool) (d : decl) (fp : string) : outcome (decl * string) :=
  '(t, fp) ← read_date fp;
  match t with
  | None => Ok (d, fp)
  | Some t =>
      time ← convert_time t;
      Ok ({| hostname := hostname d; ttd := if is_ends then time else ttd d;
             tts := if is_ends then tts d else time |}, fp)
  end.

(** [while (next_token(token, MAXTOK, fp) && *token != '}')] *)
Fixpoint lease_body (fuel : nat) (d : decl) (fp : string) : outcome (decl * string) :=
  match fuel with
  | O => Fail NoFuel
  | S fuel =>
      '(t, fp) ← token fp;
      match t with
      | None => Ok (d, fp)
      | Some t =>
          if String.prefix "}" t then Ok (d, fp)
          else if String.eqb t "client-hostname" || String.eqb t "hostname" then
            '(d, fp) ← read_hostname d fp; lease_body fuel d fp
          else if String.eqb t "ends" || String.eqb t "starts" then
            '(d, fp) ← read_time (String.eqb t "ends") d fp; lease_body fuel d fp
          else lease_body fuel d fp
      end
  end.

(** The string up to the first dot, and after it. *)
Fixpoint cut_dot (s : string) : string * option string :=
  match s with
  | EmptyString => (EmptyString, None)
  | String c r =>
      if Ascii.eqb c "." then (EmptyString, Some r)
      else let '(a, b) := cut_dot r in (String c a, b)
  end.

(** The name and the suffix a lease gets.  A host name with the suffix of this domain is cut at
    its first dot; one with another suffix is kept as it is. *)
Definition split_name (domain_suffix h : string) : string * string :=
  match cut_dot h with
  | (host, Some sfx) =>
      if hostname_isequal sfx domain_suffix then (host, sfx) else (h, domain_suffix)
  | (_, None) => (h, domain_suffix)
  end.

(** [LIST_FOREACH] until the name is found; the lease is replaced in place. *)
Fixpoint replace_lease (l : isc_lease) (leases : list isc_lease) : option (list isc_lease) :=
  match leases with
  | [] => None
  | x :: leases =>
      if hostname_isequal (name x) (name l) then Some (l :: leases)
      else (x ::.) <$> replace_lease l leases
  end.

Definition update_leases (l : isc_lease) (leases : list isc_lease) : list isc_lease :=
  match replace_lease l leases with
  | Some leases => leases
  | None => l :: leases
  end.

(** 0 means that the lease does not expire: no end, or an end one second before its start. *)
Definition expiry (d : decl) : Z :=
  let ttd0 := if ttd d =? -1 then 0 else ttd d in
  if negb (tts d =? -1) && (ttd0 =? tts d - 1) then 0 else ttd0.

Definition add_decl (domain_suffix : string) (a : list Z) (d : decl) (leases : list isc_lease) : list isc_lease :=
  if String.eqb (hostname d) "" then leases
  else
    let '(n, suffix) := split_name domain_suffix (hostname d) in
    update_leases {| name := n; fqdn := n +:+ "." +:+ suffix; expires := expiry d; addr := a |} leases.

Fixpoint load_loop (fuel : nat) (domain_suffix fp : string) (leases : list isc_lease) : outcome (list isc_lease) :=
  match fuel with
  | O => Fail NoFuel
  | S fuel =>
      '(t, fp) ← token fp;
      match t with
      | None => Ok leases
      | Some t =>
          if negb (String.eqb t "lease") then load_loop fuel domain_suffix fp leases
          else
            '(t, fp) ← token fp;
            match t ≫= inet_pton with
            | None => load_loop fuel domain_suffix fp leases
            | Some a =>
                '(t, fp) ← token fp;
                '(d, fp) ← (match t with
                            | Some t => if String.prefix "{" t then lease_body fuel decl_init fp else Ok (decl_init, fp)
                            | None => Ok (decl_init, fp)
                            end);
                load_loop fuel domain_suffix fp (add_decl domain_suffix a d leases)
            end
      end
  end.

(** [difftime(now, expires) > 0] *)
Definition expired (now : Z) (l : isc_lease) : bool := negb (expires l =? 0) && (expires l <? now).

Definition prune (now : Z) (leases : list isc_lease) : list isc_lease := filter (fun l => expired now l = false) leases.

Definition load_dhcp (domain_suffix fp : string) (now : Z) (leases : list isc_lease) : outcome (list isc_lease) :=
  leases ← load_loop (S (String.length fp)) domain_suffix fp leases;
  Ok (prune now leases).

(** ** The hosts file and the daemon *)

(** The static variables and the files the daemon writes.  [hostssize] is the length of the part of
    the hosts file that is not its own. *)
Record state : Type := {
  hostssize : Z;
  leases : list isc_lease;
  hosts_file : option string;
  unbound_file : option string;
  hups : list Z                  (* processes that were sent SIGHUP *)
}.

(** Command line: -d, -f, -u, -p; the hosts file is always given. *)
Record conf : Type := {
  domain_suffix : string; foreground : bool; unbound : bool
}.

Definition banner : string := String LF ("# dhcpleases automatically entered" +:+ String LF "").

Definition hosts_line (l : isc_lease) : string :=
  inet_ntoa (addr l) +:+ String TAB (fqdn l +:+ " " +:+ name l +:+ String TAB (String TAB
    ("# dynamic entry from dhcpd.leases" +:+ String LF ""))).

Definition concat_lines (f : isc_lease -> string) (l : list isc_lease) : string :=
  foldr (fun x acc => f x +:+ acc) "" l.

(** Opened with [O_CREAT]: a missing file is empty. *)
Definition open_creat (f : option string) : string := default "" f.

(** The first [n] bytes of a file of at least [n] bytes. *)
Definition ftruncate (f : string) (n : Z) : string := str_take (Z.to_nat n) f.

Definition unbound_lines (l : isc_lease) : string :=
  "local-data: " +:+ String QUOTE (fqdn l +:+ " IN A " +:+ inet_ntoa (addr l) +:+ String QUOTE (String LF "")) +:+
  "local-data-ptr: " +:+ String QUOTE (inet_ntoa (addr l) +:+ " " +:+ fqdn l +:+ String QUOTE (String LF "")).

Definition write_unbound_conf (c : conf) (st : state) : state :=
  {| hostssize := hostssize st; leases := leases st; hosts_file := hosts_file st;
     unbound_file := Some (banner +:+ if foreground c then "" else concat_lines unbound_lines (leases st));
     hups := hups st |}.

Definition write_status (c : conf) (st : state) : state :=
  let f := open_creat (hosts_file st) in
  let size := Z.min (hostssize st) (Z.of_nat (String.length f)) in
  let st := {| hostssize := size; leases := leases st;
     hosts_file := Some (ftruncate f size +:+ banner
                         +:+ if foreground c then "" else concat_lines hosts_line (leases st));
     unbound_file := unbound_file st; hups := hups st |} in
  if unbound c then write_unbound_conf c st else st.

Definition truncate_hosts (st : state) : state :=
  let f := open_creat (hosts_file st) in
  let size := Z.min (hostssize st) (Z.of_nat (String.length f)) in
  {| hostssize := size; leases := leases st; hosts_file := Some (ftruncate f size);
     unbound_file := unbound_file st; hups := hups st |}.

Definition cleanup (st : state) : state :=
  {| hostssize := hostssize st; leases := []; hosts_file := hosts_file st;
     unbound_file := unbound_file st; hups := hups st |}.

(** [pidfile]: the content of the file of the DNS server, [None] when it cannot be read. *)
Definition signal_process (pidfile : option string) (st : state) : state :=
  match pidfile with
  | None => st
  | Some pid =>
      if (16 <? Z.of_nat (String.length pid)) || (String.length pid =? 0)%nat then st
      else
        let pidno := atoi pid in
        if pidno <=? 1 then st
        else {| hostssize := hostssize st; leases := leases st; hosts_file := hosts_file st;
                unbound_file := unbound_file st; hups := hups st ++ [pidno] |}
  end.

(** [load_dhcp], [write_status], [cleanup], [signal_process], as main calls them on start and when the
    lease file changes. *)
Definition update (c : conf) (fp : string) (now : Z) (pidfile : option string) (st : state) : outcome state :=
  l ← load_dhcp (domain_suffix c) fp now (leases st);
  let st := {| hostssize := hostssize st; leases := l; hosts_file := hosts_file st;
               unbound_file := unbound_file st; hups := hups st |} in
  let st := cleanup (write_status c st) in
  Ok (if foreground c then st else signal_process pidfile st).

(** The signal handler: SIGHUP notes that the hosts file got shorter. *)
Definition handle_sighup (st : state) : state :=
  let size := match hosts_file st with Some f => Z.of_nat (String.length f) | None => -1 end in
  {| hostssize := if (0 <? size) && (size <? hostssize st) then size else hostssize st;
     leases := leases st; hosts_file := hosts_file st; unbound_file := unbound_file st; hups := hups st |}.

Definition handle_sigterm (st : state) : state := cleanup (truncate_hosts st).

(** What happens to the running daemon. *)
Inductive event : Type :=
  | LeasesChanged (fp : string) (now : Z) (pidfile : option string)
  | Hup
  | HostsEdited (f : option string).     (* somebody else writes the hosts file *)

Definition step (c : conf) (e : event) (st : state) : outcome state :=
  match e with
  | LeasesChanged fp now pidfile => update c fp now pidfile st
  | Hup => Ok (handle_sighup st)
  | HostsEdited f =>
      Ok {| hostssize := hostssize st; leases := leases st; hosts_file := f;
            unbound_file := unbound_file st; hups := hups st |}
  end.

Fixpoint run (c : conf) (es : list event) (st : state) : outcome state :=
  match es with
  | [] => Ok st
  | e :: es => st ← step c e st; run c es st
  end.

(** main up to the event loop, for a daemon: [hostssize] is the size of the hosts file. *)
Definition start (hosts : string) : state :=
  {| hostssize := Z.of_nat (String.length hosts); leases := []; hosts_file := Some hosts;
     unbound_file := None; hups := [] |}.

(** ** Tokens: bounds and progress *)

Lemma token_loop_spec n fp : forall comment quotes cp,
  let '(t, r) := token_loop n fp comment quotes cp in
  (String.length t <= Nat.max (String.length cp) (n - 1))%nat /\
  (String.length r <= String.length fp)%nat /\
  (fp <> "" -> String.length r < String.length fp)%nat /\
  (t = "" -> r = "").
Proof.
  induction fp as [|c fp IH]; intros comment quotes cp; cbn [token_loop].
  - destruct (comment && _) eqn:E; [|split_and!; (done || lia)].
    apply andb_true_iff in E as [_ E%Nat.ltb_lt]. rewrite append_length. cbn. split_and!; (done || lia).
  - assert (Hrec : forall comment quotes cp', (String.length cp' <= Nat.max (String.length cp) (n - 1))%nat ->
      let '(t, r) := token_loop n fp comment quotes cp' in
      (String.length t <= Nat.max (String.length cp) (n - 1))%nat /\
      (String.length r <= S (String.length fp))%nat /\
      (String c fp <> "" -> String.length r < S (String.length fp))%nat /\ (t = "" -> r = "")).
    { intros co q cp' Hcp. specialize (IH co q cp'). destruct (token_loop n fp co q cp') as [t r].
      destruct IH as (H1 & H2 & H3 & H4). split_and!; (done || lia). }
    cbn [String.length].
    destruct (if comment then _ else _); [apply Hrec; lia|].
    set (q := if Ascii.eqb c QUOTE then negb quotes else quotes).
    destruct (_ || _).
    + destruct (Nat.ltb_spec 0 (String.length cp)); [|apply Hrec; lia].
      split_and!; [lia|lia|lia|]. intros ->. cbn in *. lia.
    + destruct (negb _ && _) eqn:E; apply Hrec; [|lia].
      apply andb_true_iff in E as [_ E%Nat.ltb_lt]. rewrite append_length. cbn. lia.
Qed.

(** [next_token] stays inside a buffer that is as large as the size it is told, for every file:
    the token has at most [buffsize - 1] characters.  It makes progress: it reads at least one
    character unless the file is at its end, and finds no token only there. *)
Theorem next_token_bounds n fp :
  (0 < n)%nat ->
  exists t r, next_token n n fp = Ok (t, r) /\
    (String.length (default "" t) < n)%nat /\
    (fp <> "" -> String.length r < String.length fp)%nat /\ (t = None -> r = "").
Proof.
  intros Hn. unfold next_token. pose proof (token_loop_spec n fp false false "") as H.
  destruct (token_loop n fp false false "") as [cp r]. destruct H as (H1 & H2 & H3 & H4). cbn [String.length] in H1.
  rewrite (proj2 (Nat.leb_gt n (String.length cp))) by lia.
  do 2 eexists. split; [done|]. destruct (Nat.eqb_spec (String.length cp) 0) as [E|E].
  - split_and!; [cbn; lia|done|]. intros _. apply H4. by destruct cp.
  - split_and!; [|done|done]. cbn. pose proof (c_str_length cp). lia.
Qed.

Lemma next_token_bounds_witness :
  exists t r, next_token 4 4 "lease 10.0.0.1" = Ok (t, r) /\ (String.length (default "" t) < 4)%nat.
Proof.
  destruct (next_token_bounds 4 "lease 10.0.0.1") as (t & r & H1 & H2 & _); [lia|].
  exists t, r. split; [exact H1|exact H2].
Defined.

(** ** Termination of the parser

    [ends P o]: [o] did not run out of fuel, and a result satisfies [P]. *)
Definition ends {A} (P : A -> Prop) (o : outcome A) : Prop :=
  match o with Ok a => P a | Fail f => f <> NoFuel end.

Lemma ends_bind {A B} (P : A -> Prop) (Q : B -> Prop) (m : outcome A) (k : A -> outcome B) :
  ends P m -> (forall a, P a -> ends Q (k a)) -> ends Q (m ≫= k).
Proof. destruct m as [a|f]; cbn; auto. Qed.

Lemma ends_mono {A} (P Q : A -> Prop) (m : outcome A) : ends P m -> (forall a, P a -> Q a) -> ends Q m.
Proof. destruct m; cbn; auto. Qed.

(** The rest of the file is not longer, and shorter if there was a token. *)
Definition rest_le {A} (n : nat) (x : A * string) : Prop := (String.length x.2 <= n)%nat.
Definition after_token (n : nat) (x : option string * string) : Prop :=
  rest_le n x /\ (x.1 <> None -> String.length x.2 < n)%nat.

Lemma next_token_ends size buffsize fp : ends (after_token (String.length fp)) (next_token size buffsize fp).
Proof.
  unfold next_token. pose proof (token_loop_spec buffsize fp false false "") as H.
  destruct (token_loop buffsize fp false false "") as [cp r] eqn:E. destruct H as (H1 & H2 & H3 & H4).
  destruct (_ <=? _)%nat; [done|]. split; [done|]. cbn. intros Hc. apply H3. intros ->. cbn in E.
  by injection E as <- <-.
Qed.

Lemma token_ends fp : ends (after_token (String.length fp)) (token fp).
Proof. apply next_token_ends. Qed.

Lemma convert_time_ends t : ends (fun _ => True) (convert_time t).
Proof. unfold convert_time. destruct (1 <? tm_mon t); [destruct (months !! _)|]; done. Qed.

Lemma rest_le_trans {A} n m (x : A * string) : rest_le n x -> (n <= m)%nat -> rest_le m x.
Proof. unfold rest_le. lia. Qed.

Lemma read_date_ends fp : ends (rest_le (String.length fp)) (read_date fp).
Proof.
  unfold read_date. eapply ends_bind; [apply token_ends|]. intros [[t|] r] [H1 _]; [|exact H1].
  unfold rest_le in H1. cbn in H1.
  eapply ends_bind; [apply token_ends|]. intros [t2 r2] [H2 _]. unfold rest_le in H2. cbn in H2.
  destruct (t2 ≫= scan3 "/") as [[[y m] d]|]; [|unfold ends, rest_le; cbn; lia].
  eapply ends_bind; [apply token_ends|]. intros [t3 r3] [H3 _]. unfold rest_le in H3. cbn in H3.
  destruct (t3 ≫= scan3 ":") as [[[h mi] s]|]; unfold ends, rest_le; cbn; lia.
Qed.

Lemma read_time_ends b d fp : ends (rest_le (String.length fp)) (read_time b d fp).
Proof.
  unfold read_time. eapply ends_bind; [apply read_date_ends|]. intros [[t|] r] Hr; [|exact Hr].
  eapply ends_bind; [apply convert_time_ends|]. intros z _. exact Hr.
Qed.

Lemma read_hostname_ends d fp : ends (rest_le (String.length fp)) (read_hostname d fp).
Proof.
  unfold read_hostname. eapply ends_bind; [apply next_token_ends|]. intros [t r] [Hr _]. exact Hr.
Qed.

Lemma lease_body_ends fuel : forall d fp, (String.length fp < fuel)%nat ->
  ends (rest_le (String.length fp)) (lease_body fuel d fp).
Proof.
  induction fuel as [|fuel IH]; intros d fp Hf; [lia|]. cbn [lease_body].
  eapply ends_bind; [apply token_ends|]. intros [[t|] r] [H1 H2]; cbn in H1, H2; [|exact H1].
  specialize (H2 ltac:(done)). unfold rest_le in H1. cbn in H1.
  assert (Hgo : forall (m : outcome (decl * string)), ends (rest_le (String.length r)) m ->
    ends (rest_le (String.length fp)) ('(d, fp) ← m; lease_body fuel d fp)).
  { intros m Hm. eapply ends_bind; [exact Hm|]. intros [d' r'] Hr'. unfold rest_le in Hr'. cbn in Hr'.
    eapply ends_mono; [apply IH; lia|]. intros x Hx. apply (rest_le_trans _ _ _ Hx). lia. }
  destruct (String.prefix "}" t); [unfold ends, rest_le; cbn; lia|].
  destruct (_ || _); [apply Hgo, read_hostname_ends|].
  destruct (_ || _); [apply Hgo, read_time_ends|].
  eapply ends_mono; [apply IH; lia|]. intros x Hx. apply (rest_le_trans _ _ _ Hx). lia.
Qed.

Lemma load_loop_ends fuel : forall sfx fp ls, (String.length fp < fuel)%nat ->
  ends (fun _ => True) (load_loop fuel sfx fp ls).
Proof.
  induction fuel as [|fuel IH]; intros sfx fp ls Hf; [lia|]. cbn [load_loop].
  eapply ends_bind; [apply token_ends|]. intros [[t|] r] [H1 H2]; cbn in H1, H2; [|done].
  specialize (H2 ltac:(done)). destruct (negb _); [apply IH; lia|].
  eapply ends_bind; [apply token_ends|]. intros [t2 r2] [H3 _]. unfold rest_le in H3. cbn in H3.
  destruct (t2 ≫= inet_pton) as [a|]; [|apply IH; lia].
  eapply ends_bind; [apply token_ends|]. intros [t3 r3] [H4 _]. unfold rest_le in H4. cbn in H4.
  eapply ends_bind with (P := rest_le (String.length r3)).
  - destruct t3 as [t3|]; [destruct (String.prefix "{" t3)|]; [apply lease_body_ends; lia| |];
      unfold ends, rest_le; cbn; lia.
  - intros [d r4] H5. unfold rest_le in H5. cbn in H5. apply IH. lia.
Qed.

(** The lease parser terminates on every file. *)
Theorem load_dhcp_terminates sfx fp now ls : load_dhcp sfx fp now ls <> Fail NoFuel.
Proof.
  unfold load_dhcp. pose proof (load_loop_ends (S (String.length fp)) sfx fp ls ltac:(lia)) as H.
  destruct (load_loop _ _ _ _) as [l|f]; cbn in *; congruence.
Qed.

(** ** Names *)

Fixpoint lower_str (s : string) : string :=
  match s with EmptyString => EmptyString | String c s => String (lower c) (lower_str s) end.

Lemma hostname_isequal_spec a b : hostname_isequal a b = true <-> lower_str a = lower_str b.
Proof.
  revert b. induction a as [|c1 a IH]; intros [|c2 b]; cbn; try (split; congruence).
  destruct (Ascii.eqb_spec (lower c1) (lower c2)) as [E|E].
  - rewrite IH, E. split; congruence.
  - split; [done|congruence].
Qed.

(** [hostname_isequal] compares names without regard to the case of the letters A to Z, and
    nothing else: it is the equality of the names in lower case (an equivalence relation). *)
Theorem hostname_isequal_lower a b :
  hostname_isequal a b = bool_decide (lower_str a = lower_str b).
Proof. apply eq_true_iff_eq. rewrite bool_decide_eq_true. apply hostname_isequal_spec. Qed.

(** ** The list of leases *)

Definition keys (l : list isc_lease) : list string := (fun x => lower_str (name x)) <$> l.

Lemma replace_lease_keys l ls ls' : replace_lease l ls = Some ls' -> keys ls' = keys ls.
Proof.
  revert ls'. induction ls as [|x ls IH]; intros ls'; cbn; [done|].
  destruct (hostname_isequal (name x) (name l)) eqn:E.
  - intros [= <-]. cbn. apply hostname_isequal_spec in E. by rewrite E.
  - destruct (replace_lease l ls) as [ls1|]; [|done]. intros [= <-]. cbn. f_equal. by apply IH.
Qed.

Lemma replace_lease_None l ls : replace_lease l ls = None -> lower_str (name l) ∉ keys ls.
Proof.
  induction ls as [|x ls IH]; cbn; [by intros _ ?%not_elem_of_nil|].
  destruct (hostname_isequal (name x) (name l)) eqn:E; [done|].
  destruct (replace_lease l ls); [done|]. intros _ [H|H]%elem_of_cons; [|by apply IH].
  symmetry in H. apply hostname_isequal_spec in H. congruence.
Qed.

Lemma update_leases_unique l ls : NoDup (keys ls) -> NoDup (keys (update_leases l ls)).
Proof.
  intros Hn. unfold update_leases. destruct (replace_lease l ls) as [ls'|] eqn:E.
  - by rewrite (replace_lease_keys _ _ _ E).
  - cbn. constructor; [|done]. by apply replace_lease_None.
Qed.

Lemma add_decl_unique sfx a d ls : NoDup (keys ls) -> NoDup (keys (add_decl sfx a d ls)).
Proof.
  intros. unfold add_decl. destruct (String.eqb _ _); [done|]. destruct (split_name _ _).
  by apply update_leases_unique.
Qed.

Lemma load_loop_unique fuel : forall sfx fp ls ls',
  load_loop fuel sfx fp ls = Ok ls' -> NoDup (keys ls) -> NoDup (keys ls').
Proof.
  induction fuel as [|fuel IH]; intros sfx fp ls ls'; cbn [load_loop]; [done|].
  destruct (token fp) as [[[t|] r]|f]; cbn; [|by intros [= <-]|done].
  destruct (negb _); [apply IH|]. destruct (token r) as [[t2 r2]|f]; cbn; [|done].
  destruct (t2 ≫= inet_pton) as [a|]; [|apply IH]. destruct (token r2) as [[t3 r3]|f]; cbn; [|done].
  destruct (match t3 with Some _ => _ | None => _ end) as [[d r4]|f]; cbn; [|done].
  intros H Hn. apply (IH _ _ _ _ H). by apply add_decl_unique.
Qed.

Lemma prune_unique now ls : NoDup (keys ls) -> NoDup (keys (prune now ls)).
Proof.
  unfold prune. induction ls as [|x ls IH]; [done|]. unfold keys in *. intros H. rewrite fmap_cons in H.
  pose proof (NoDup_cons_1_1 _ _ H) as Hx. apply NoDup_cons_1_2 in H.
  rewrite filter_cons. destruct (decide _); [|by apply IH]. cbn. apply NoDup_cons_2; [|by apply IH].
  intros (y & Hy & [_ Hin]%list_elem_of_filter)%list_elem_of_fmap. apply Hx. rewrite Hy.
  by apply (list_elem_of_fmap_2 (fun x => lower_str (name x))).
Qed.

(** What [load_dhcp] leaves in the list: no two leases whose names differ only in case, and no
    lease that has expired. *)
Theorem load_dhcp_invariant sfx fp now ls ls' :
  NoDup (keys ls) -> load_dhcp sfx fp now ls = Ok ls' ->
  NoDup (keys ls') /\ Forall (fun l => expires l = 0 \/ now <= expires l) ls'.
Proof.
  intros Hn. unfold load_dhcp. destruct (load_loop _ _ _ _) as [l|f] eqn:E; cbn; [|done]. intros [= <-]. split.
  - by eapply prune_unique, load_loop_unique.
  - apply Forall_forall. intros x [Hx _]%list_elem_of_In%list_elem_of_filter. unfold expired in Hx.
    apply andb_false_iff in Hx as [Hx%negb_false_iff%Z.eqb_eq|Hx%Z.ltb_ge]; auto.
Qed.

Definition lease_file : string :=
  "lease 10.0.0.5 { ends 2 2024/01/02 05:04:05; client-hostname My-PC; }" +:+ String LF "" +:+
  "lease 10.0.0.6 { ends 2 2024/01/02 05:04:05; hostname b.LAN; }" +:+ String LF "" +:+
  "lease 10.0.0.7 { ends 2 2024/01/03 05:04:05; hostname MY-pc; }" +:+ String LF "".

Lemma load_dhcp_invariant_witness :
  exists ls, load_dhcp "lan" lease_file 1704200000 [] = Ok ls /\ length ls = 1%nat /\
    NoDup (keys ls) /\ Forall (fun l => expires l = 0 \/ 1704200000 <= expires l) ls.
Proof.
  eexists. split; [vm_compute; reflexivity|]. split; [reflexivity|].
  apply (load_dhcp_invariant "lan" lease_file 1704200000 []); [constructor | vm_compute; reflexivity].
Defined.

(** ** Time *)

(** The calendar: days before a year, before a month, and seconds since 1970. *)
Definition leap_year (y : Z) : bool := (y mod 4 =? 0) && (negb (y mod 100 =? 0) || (y mod 400 =? 0)).

Definition days_before_year (y : Z) : Z :=
  foldr (fun i acc => 365 + (if leap_year (1970 + Z.of_nat i) then 1 else 0) + acc) 0
    (seq 0 (Z.to_nat (y - 1970))).

Definition month_length (y m : Z) : Z :=
  if m =? 2 then if leap_year y then 29 else 28
  else if (m =? 4) || (m =? 6) || (m =? 9) || (m =? 11) then 30 else 31.

Definition days_before_month (y m : Z) : Z :=
  foldr (fun i acc => month_length y (1 + Z.of_nat i) + acc) 0 (seq 0 (Z.to_nat (m - 1))).

Definition seconds_since_epoch (t : tm) : Z :=
  (((days_before_year (tm_year t) + days_before_month (tm_year t) (tm_mon t) + (tm_mday t - 1)) * 24
    + tm_hour t) * 60 + tm_min t) * 60 + tm_sec t.

Definition months_days (y m : Z) : Z :=
  365 * (y - 1970) + Z.quot (i32 (y - 1969)) 4 + (if 1 <? m then default 0 (months !! Z.to_nat (m - 2)) else 0)
  + (if (2 <? m) && (Z.land (y - 1972) 3 =? 0) then 1 else 0).

(** All months from 1970 to 2099. *)
Lemma months_days_ok y m : 1970 <= y <= 2099 -> 1 <= m <= 12 ->
  months_days y m = days_before_year y + days_before_month y m.
Proof.
  assert (Hall : forallb (fun i => forallb (fun j => let y := 1970 + Z.of_nat i in let m := 1 + Z.of_nat j in
     months_days y m =? days_before_year y + days_before_month y m) (seq 0 12)) (seq 0 130) = true)
    by (vm_compute; reflexivity).
  intros Hy Hm. rewrite forallb_forall in Hall. specialize (Hall (Z.to_nat (y - 1970)) ltac:(apply in_seq; lia)).
  rewrite forallb_forall in Hall. specialize (Hall (Z.to_nat (m - 1)) ltac:(apply in_seq; lia)).
  apply Z.eqb_eq in Hall. rewrite !Z2Nat.id in Hall by lia.
  by replace (1970 + (y - 1970)) with y in Hall by lia; replace (1 + (m - 1)) with m in Hall by lia.
Qed.

Lemma convert_time_wraps t : 1970 <= tm_year t <= 2099 -> 1 <= tm_mon t <= 12 ->
  convert_time t = Ok (i32 (seconds_since_epoch t)).
Proof.
  intros Hy Hm. pose proof (months_days_ok _ _ Hy Hm) as Hd. unfold months_days in Hd.
  unfold convert_time, seconds_since_epoch.
  assert (Hi : exists d, (if 1 <? tm_mon t then match months !! Z.to_nat (tm_mon t - 2) with
      | Some d => Ok d | None => Fail (ArrayBounds (tm_mon t - 2)) end else Ok 0) = Ok d /\
      (if 1 <? tm_mon t then default 0 (months !! Z.to_nat (tm_mon t - 2)) else 0) = d).
  { destruct (Z.ltb_spec 1 (tm_mon t)); [|by exists 0].
    destruct (lookup_lt_is_Some_2 months (Z.to_nat (tm_mon t - 2))) as [d Hl]; [unfold months; cbn; lia|].
    exists d. by rewrite Hl. }
  destruct Hi as (d & -> & Hd2). rewrite Hd2 in Hd. cbn [mbind outcome_bind]. do 2 f_equal. lia.
Qed.

(** [convert_time] is the number of seconds since 1970 in the proleptic Gregorian calendar, for
    all dates whose number fits in an [int], that is from 1970 to 2038-01-19 03:14:07. *)
Theorem convert_time_correct t :
  1970 <= tm_year t <= 2099 -> 1 <= tm_mon t <= 12 ->
  0 <= seconds_since_epoch t < 2 ^ 31 ->
  convert_time t = Ok (seconds_since_epoch t).
Proof. intros Hy Hm Hs. rewrite convert_time_wraps, i32_small by (done || lia). done. Qed.

Lemma convert_time_correct_witness :
  convert_time {| tm_year := 2024; tm_mon := 2; tm_mday := 29; tm_hour := 23; tm_min := 59; tm_sec := 59 |}
  = Ok 1709251199.
Proof.
  apply (convert_time_correct
    {| tm_year := 2024; tm_mon := 2; tm_mday := 29; tm_hour := 23; tm_min := 59; tm_sec := 59 |});
    vm_compute; split; congruence.
Defined.

(** A lease that ends after 2038-01-19 03:14:07 (and before 2100) gets a negative end, because
    the number is computed in an [int], and [load_dhcp] prunes it as expired. *)
Theorem convert_time_2038 t now l :
  2038 <= tm_year t <= 2099 -> 1 <= tm_mon t <= 12 -> 2 ^ 31 <= seconds_since_epoch t < 2 ^ 32 ->
  0 <= now -> convert_time t = Ok (expires l) -> expires l < 0 /\ prune now [l] = [].
Proof.
  intros Hy Hm Hs Hnow. rewrite convert_time_wraps by lia. intros [= H].
  assert (Hneg : i32 (seconds_since_epoch t) = seconds_since_epoch t - 2 ^ 32).
  { unfold i32. replace (seconds_since_epoch t + 2 ^ 31) with (seconds_since_epoch t - 2 ^ 31 + 1 * 2 ^ 32) by lia.
    rewrite Z.mod_add, Z.mod_small by lia. lia. }
  split; [lia|]. unfold prune. rewrite filter_cons_False; [done|]. intros He. unfold expired in He.
  rewrite <- H in He. apply andb_false_iff in He as [He%negb_false_iff%Z.eqb_eq|He%Z.ltb_ge]; lia.
Qed.

Lemma convert_time_2038_witness :
  let t := {| tm_year := 2038; tm_mon := 1; tm_mday := 20; tm_hour := 0; tm_min := 0; tm_sec := 0 |} in
  let l := {| name := "a"; fqdn := "a.lan"; expires := -2147408896; addr := [10; 0; 0; 1] |} in
  expires l < 0 /\ prune 1704200000 [l] = [].
Proof.
  apply (convert_time_2038
    {| tm_year := 2038; tm_mon := 1; tm_mday := 20; tm_hour := 0; tm_min := 0; tm_sec := 0 |} 1704200000
    {| name := "a"; fqdn := "a.lan"; expires := -2147408896; addr := [10; 0; 0; 1] |});
    try (vm_compute; congruence); vm_compute; split; congruence.
Defined.

(** ** The hosts file *)

(** The part of the hosts file that was there when the daemon started is kept, and the daemon
    remembers how long it is. *)
Definition keeps (hosts : string) (st : state) : Prop :=
  hostssize st = Z.of_nat (String.length hosts) /\ exists tail, hosts_file st = Some (hosts +:+ tail).

Lemma keeps_truncate hosts st : keeps hosts st ->
  Z.min (hostssize st) (Z.of_nat (String.length (open_creat (hosts_file st)))) = Z.of_nat (String.length hosts) /\
  ftruncate (open_creat (hosts_file st)) (Z.of_nat (String.length hosts)) = hosts.
Proof.
  intros [Hs [tail Hf]]. rewrite Hs, Hf. change (open_creat (Some (hosts +:+ tail))) with (hosts +:+ tail). rewrite append_length. split; [lia|].
  unfold ftruncate. rewrite Nat2Z.id. apply str_take_app.
Qed.

Lemma write_status_hosts c hosts st : keeps hosts st ->
  hosts_file (write_status c st)
  = Some (hosts +:+ banner +:+ if foreground c then "" else concat_lines hosts_line (leases st)) /\
  hostssize (write_status c st) = Z.of_nat (String.length hosts).
Proof.
  intros Hk. destruct (keeps_truncate _ _ Hk) as [Hm Ht]. unfold write_status.
  destruct (unbound c); cbn [hosts_file hostssize write_unbound_conf]; by rewrite Hm, Ht.
Qed.

Lemma update_keeps c hosts fp now pidfile st st' :
  keeps hosts st -> update c fp now pidfile st = Ok st' -> keeps hosts st'.
Proof.
  intros Hk. unfold update. destruct (load_dhcp _ _ _ _) as [l|f]; cbn [mbind outcome_bind]; [|done].
  set (st1 := {| hostssize := _ |}). assert (Hk1 : keeps hosts st1) by exact Hk.
  destruct (write_status_hosts c hosts st1 Hk1) as [Hf Hs].
  intros [= <-]. destruct (foreground c); [by split; [|eexists]|].
  unfold signal_process. destruct pidfile as [pid|]; [|by split; [|eexists]].
  destruct (_ || _); [by split; [|eexists]|]. destruct (_ <=? _); by split; [|eexists].
Qed.

Lemma sighup_keeps hosts st : keeps hosts st -> keeps hosts (handle_sighup st).
Proof.
  intros [Hs [tail Hf]]. split; [|by exists tail]. unfold handle_sighup. cbn [hostssize]. rewrite Hf, Hs, append_length.
  case_match eqn:E; [|done]. apply andb_true_iff in E as [_ E%Z.ltb_lt]. lia.
Qed.

Definition not_edited (e : event) : Prop := match e with HostsEdited _ => False | _ => True end.

Lemma run_keeps c hosts es : forall st st',
  Forall not_edited es -> keeps hosts st -> run c es st = Ok st' -> keeps hosts st'.
Proof.
  induction es as [|e es IH]; intros st st' He Hk; cbn [run]; [by intros [= <-]|].
  apply Forall_cons_1 in He as [He Hes]. destruct (step c e st) as [st1|f] eqn:Hst; cbn; [|done].
  apply IH; [done|]. destruct e as [fp now pidfile| |f]; cbn in Hst; [by eapply update_keeps| |done].
  injection Hst as <-. by apply sighup_keeps.
Qed.

Lemma start_keeps hosts : keeps hosts (start hosts).
Proof. split; [done|]. exists "". by rewrite append_nil_r. Qed.

(** The daemon gives the hosts file back as it found it: whatever lease files it reads and
    however often, and whatever SIGHUPs it gets, as long as nobody else writes the hosts file, after
    SIGTERM the hosts file is what it was at the start, byte for byte, and the lease list is empty. *)
Theorem hosts_file_restored c hosts es st :
  Forall not_edited es -> run c es (start hosts) = Ok st ->
  hosts_file (handle_sigterm st) = Some hosts /\ leases (handle_sigterm st) = [].
Proof.
  intros He Hr. pose proof (run_keeps _ _ _ _ _ He (start_keeps hosts) Hr) as Hk.
  destruct (keeps_truncate _ _ Hk) as [Hm Ht]. unfold handle_sigterm, truncate_hosts, cleanup.
  cbn [hosts_file leases]. by rewrite Hm, Ht.
Qed.

Definition lan : conf := {| domain_suffix := "lan"; foreground := false; unbound := true |}.

Lemma hosts_file_restored_witness :
  exists st, run lan [LeasesChanged lease_file 1704200000 (Some "4711"); Hup] (start "127.0.0.1 localhost") = Ok st
    /\ hups st = [4711] /\ hosts_file (handle_sigterm st) = Some "127.0.0.1 localhost".
Proof.
  eexists. split; [vm_compute; reflexivity|]. split; [reflexivity|].
  apply (hosts_file_restored lan "127.0.0.1 localhost"
    [LeasesChanged lease_file 1704200000 (Some "4711"); Hup]); [repeat constructor | vm_compute; reflexivity].
Defined.

(** C7. An update replaces the daemon's part of the hosts file: after any history without other
    writers, when the lease file is read without a fault, the hosts file is the original followed by
    the banner and one line for each current lease, in the order of the list; entries of earlier
    updates are gone, and the list is emptied for the next update. *)
Theorem update_hosts_content c hosts es st fp now pidfile ls st' :
  Forall not_edited es -> run c es (start hosts) = Ok st -> foreground c = false ->
  load_dhcp (domain_suffix c) fp now (leases st) = Ok ls ->
  update c fp now pidfile st = Ok st' ->
  hosts_file st' = Some (hosts +:+ banner +:+ concat_lines hosts_line ls) /\ leases st' = [].
Proof.
  intros He Hr Hfg Hl. pose proof (run_keeps _ _ _ _ _ He (start_keeps hosts) Hr) as Hk.
  unfold update. rewrite Hl, Hfg. cbn [mbind outcome_bind].
  set (st1 := {| hostssize := _ |}). assert (Hk1 : keeps hosts st1) by exact Hk.
  destruct (write_status_hosts c hosts st1 Hk1) as [Hf Hs]. rewrite Hfg in Hf. intros [= <-].
  unfold signal_process. destruct pidfile as [pid|]; [|done]. destruct (_ || _); [done|]. by destruct (_ <=? _).
Qed.

Lemma update_hosts_content_witness :
  exists st', update lan lease_file 1704200000 None (start "127.0.0.1 localhost") = Ok st' /\
    hosts_file st' = Some ("127.0.0.1 localhost" +:+ banner +:+ "10.0.0.7" +:+ String TAB ("MY-pc.lan MY-pc"
      +:+ String TAB (String TAB ("# dynamic entry from dhcpd.leases" +:+ String LF "")))).
Proof.
  destruct (load_dhcp "lan" lease_file 1704200000 []) as [ls|f] eqn:Hl; [|vm_compute in Hl; discriminate Hl].
  eexists. split; [vm_compute; reflexivity|].
  refine (eq_trans (proj1 (update_hosts_content lan "127.0.0.1 localhost" [] (start "127.0.0.1 localhost")
    lease_file 1704200000 None ls _ (Forall_nil_2 _) eq_refl eq_refl Hl _)) _); [vm_compute; reflexivity|].
  vm_compute in Hl. injection Hl as <-. vm_compute. reflexivity.
Defined.

(** ** Reading words *)

Definition is_sep (c : ascii) : bool :=
  Ascii.eqb c " " || Ascii.eqb c TAB || Ascii.eqb c LF || Ascii.eqb c ";".

(** Characters of a word; inside quotes, also a space or a semicolon. *)
Definition quoted_char (c : ascii) : bool :=
  negb (Ascii.eqb c TAB || Ascii.eqb c LF || Ascii.eqb c QUOTE || Ascii.eqb c "#" || Ascii.eqb c "000").
Definition plain_char (c : ascii) : bool := quoted_char c && negb (Ascii.eqb c " " || Ascii.eqb c ";").

Lemma c_str_id w : all_chars quoted_char w = true -> c_str w = w.
Proof.
  induction w as [|c w IH]; cbn; [done|]. intros [Hc Hw]%andb_true_iff.
  unfold quoted_char in Hc. apply negb_true_iff, orb_false_iff in Hc as [_ ->]. by rewrite IH.
Qed.

Lemma plain_quoted w : all_chars plain_char w = true -> all_chars quoted_char w = true.
Proof.
  induction w as [|c w IH]; cbn; [done|]. intros [Hc Hw]%andb_true_iff.
  unfold plain_char in Hc. apply andb_true_iff in Hc as [-> _]. by apply IH.
Qed.

(** One more character of the token; [q] is whether it is inside quotes. *)
Lemma token_loop_char n c fp q cp :
  quoted_char c = true -> (q = true \/ plain_char c = true) -> (String.length cp < n - 1)%nat ->
  token_loop n (String c fp) false q cp = token_loop n fp false q (cp +:+ String c "").
Proof.
  intros Hc Hq Hn. cbn [token_loop]. unfold quoted_char in Hc. apply negb_true_iff in Hc.
  rewrite !orb_false_iff in Hc. destruct Hc as [[[[Ht Hl] Hqu] Hh] _]. rewrite Hh, Ht, Hl, Hqu.
  rewrite (proj2 (Nat.ltb_lt _ _) Hn), !orb_false_r. destruct Hq as [->|Hp].
  - cbn [negb andb]. by rewrite !andb_false_r.
  - unfold plain_char in Hp. apply andb_true_iff in Hp as [_ Hp]. apply negb_true_iff, orb_false_iff in Hp as [-> ->].
    done.
Qed.

Lemma token_loop_word n w fp q : forall cp,
  all_chars quoted_char w = true -> (q = true \/ all_chars plain_char w = true) ->
  (String.length cp + String.length w <= n - 1)%nat ->
  token_loop n (w +:+ fp) false q cp = token_loop n fp false q (cp +:+ w).
Proof.
  induction w as [|c w IH]; intros cp Hw Hq Hn; cbn [String.append].
  - by rewrite append_nil_r.
  - cbn in Hw, Hn. apply andb_true_iff in Hw as [Hc Hw].
    assert (Hq' : (q = true \/ plain_char c = true) /\ (q = true \/ all_chars plain_char w = true)).
    { destruct Hq as [->|Hq]; [auto|]. cbn in Hq. apply andb_true_iff in Hq as [H1 H2]. auto. }
    rewrite token_loop_char by (tauto || lia). rewrite IH; [|done|tauto|rewrite append_length; cbn; lia].
    by rewrite append_assoc.
Qed.

Lemma token_loop_sep n c fp cp : is_sep c = true ->
  token_loop n (String c fp) false false cp
  = if (0 <? String.length cp)%nat then (cp, fp) else token_loop n fp false false cp.
Proof.
  intros Hs. unfold is_sep in Hs. cbn [token_loop].
  assert (H : c = " "%char \/ c = TAB \/ c = LF \/ c = ";"%char).
  { rewrite !orb_true_iff, !Ascii.eqb_eq in Hs. tauto. }
  by destruct H as [-> | [-> | [-> | ->] ] ].
Qed.

(** The next word of a text: separators, the word, a separator. *)
Lemma token_loop_next n u w s fp :
  all_chars is_sep u = true -> all_chars plain_char w = true -> w <> "" -> is_sep s = true ->
  (String.length w <= n - 1)%nat ->
  token_loop n (u +:+ w +:+ String s fp) false false "" = (w, fp).
Proof.
  intros Hu Hw Hne Hs Hn. induction u as [|c u IH]; cbn [String.append].
  - rewrite token_loop_word by (try apply plain_quoted; auto). rewrite token_loop_sep by done. cbn [String.append].
    destruct w; [done|]. done.
  - cbn in Hu. apply andb_true_iff in Hu as [Hc Hu]. rewrite token_loop_sep by done. cbn. by apply IH.
Qed.

(** The same in quotes. *)
Lemma token_loop_quoted n w s fp :
  all_chars quoted_char w = true -> w <> "" -> is_sep s = true -> (String.length w <= n - 1)%nat ->
  token_loop n (String QUOTE (w +:+ String QUOTE (String s fp))) false false "" = (w, fp).
Proof.
  intros Hw Hne Hs Hn.
  assert (Hq : forall q cp r, token_loop n (String QUOTE r) false q cp = token_loop n r false (negb q) cp).
  { intros q cp r. cbn [token_loop]. by destruct q. }
  rewrite Hq. rewrite token_loop_word by auto. rewrite Hq. cbn [negb String.append].
  rewrite token_loop_sep by done. by destruct w.
Qed.

Lemma next_token_word size n u w s fp :
  all_chars is_sep u = true -> all_chars plain_char w = true -> w <> "" -> is_sep s = true ->
  (String.length w <= n - 1)%nat ->
  next_token size n (u +:+ w +:+ String s fp)
  = if (size <=? String.length w)%nat then Fail (ArrayBounds (Z.of_nat (String.length w))) else Ok (Some w, fp).
Proof.
  intros Hu Hw Hne Hs Hn. unfold next_token. rewrite token_loop_next by done.
  destruct (_ <=? _)%nat; [done|]. rewrite c_str_id by (by apply plain_quoted). by destruct w.
Qed.

Lemma token_word u w s fp :
  all_chars is_sep u = true -> all_chars plain_char w = true -> w <> "" -> is_sep s = true ->
  (String.length w < MAXTOK)%nat -> token (u +:+ w +:+ String s fp) = Ok (Some w, fp).
Proof.
  intros. unfold token. rewrite next_token_word by (done || (unfold MAXTOK in *; lia)).
  by rewrite (proj2 (Nat.leb_gt _ _)) by done.
Qed.

Lemma token_word0 w s fp :
  all_chars plain_char w = true -> w <> "" -> is_sep s = true ->
  (String.length w < MAXTOK)%nat -> token (w +:+ String s fp) = Ok (Some w, fp).
Proof. intros. by apply (token_word ""). Qed.

(** The name buffer of [load_dhcp] has 256 bytes, but [next_token] is told that it has
    [MAXDNAME] (1025): a lease file with a host name of 256 to 1024 ordinary characters writes past
    the end of the buffer. *)
Theorem hostname_overflows_namebuff sfx w now ls :
  all_chars plain_char w = true -> (namebuff_size <= String.length w < MAXDNAME)%nat ->
  load_dhcp sfx ("lease 10.0.0.1 { hostname " +:+ w +:+ "; }") now ls
  = Fail (ArrayBounds (Z.of_nat (String.length w))).
Proof.
  intros Hw Hl. unfold load_dhcp.
  assert (Hlen : exists k, String.length ("lease 10.0.0.1 { hostname " +:+ w +:+ "; }") = S (S k)).
  { eexists. rewrite !append_length. cbn. reflexivity. }
  destruct Hlen as [k ->]. cbn [load_loop].
  change (token ("lease 10.0.0.1 { hostname " +:+ w +:+ "; }"))
    with (token ("" +:+ "lease" +:+ String " " ("10.0.0.1 { hostname " +:+ w +:+ "; }"))).
  rewrite token_word by (done || (vm_compute; lia)). cbn [mbind outcome_bind String.eqb Ascii.eqb Bool.eqb negb].
  change (token ("10.0.0.1 { hostname " +:+ w +:+ "; }"))
    with (token ("" +:+ "10.0.0.1" +:+ String " " ("{ hostname " +:+ w +:+ "; }"))).
  rewrite token_word by (done || (vm_compute; lia)). cbn [mbind outcome_bind option_bind].
  change (inet_pton "10.0.0.1") with (Some [10; 0; 0; 1]). cbn iota.
  change (token ("{ hostname " +:+ w +:+ "; }")) with (token ("" +:+ "{" +:+ String " " ("hostname " +:+ w +:+ "; }"))).
  rewrite token_word by (done || (vm_compute; lia)). cbn [mbind outcome_bind]. change (String.prefix "{" "{") with true.
  cbn [lease_body]. change (token ("hostname " +:+ w +:+ "; }")) with (token ("" +:+ "hostname" +:+ String " " (w +:+ "; }"))).
  rewrite token_word by (done || (vm_compute; lia)). cbn [mbind outcome_bind].
  change (String.prefix "}" "hostname") with false. cbn [String.eqb Ascii.eqb Bool.eqb orb].
  unfold read_hostname. change (w +:+ "; }") with ("" +:+ w +:+ String ";" " }").
  rewrite next_token_word; [|done|done|destruct w; [unfold namebuff_size in Hl; cbn in Hl; lia|done]|done|lia].
  by rewrite (proj2 (Nat.leb_le _ _)) by lia.
Qed.

Lemma hostname_overflows_namebuff_witness :
  load_dhcp "lan" ("lease 10.0.0.1 { hostname " +:+ repeat_char 256 "a" +:+ "; }") 0 [] = Fail (ArrayBounds 256).
Proof.
  apply (hostname_overflows_namebuff "lan" (repeat_char 256 "a") 0 []); [vm_compute; reflexivity|].
  split; apply (bool_decide_unpack _); vm_compute; exact I.
Defined.

(** ** A lease file and what is read from it *)

(** *** The words of a text *)

(** Between the words: separators and comments. *)
Inductive blank : string -> Prop :=
  | blank_nil : blank ""
  | blank_sep c u : is_sep c = true -> blank u -> blank (String c u)
  | blank_comment v u : has_char LF v = false -> blank u -> blank (String "#" (v +:+ String LF u)).

(** The text has these words, each of them plain or in quotes and followed by a separator. *)
Inductive text : list string -> string -> Prop :=
  | text_end u : blank u -> text [] u
  | text_plain u w c ws r :
      blank u -> all_chars plain_char w = true -> w <> "" -> is_sep c = true -> text ws r ->
      text (w :: ws) (u +:+ w +:+ String c r)
  | text_quoted u w c ws r :
      blank u -> all_chars quoted_char w = true -> w <> "" -> is_sep c = true -> text ws r ->
      text (w :: ws) (u +:+ String QUOTE (w +:+ String QUOTE (String c r))).

(** *** Leases as the server writes them *)

(** A statement of a lease: a time of the kind [starts] or [ends], a host name, or a word that is none of these. *)
Inductive stmt : Type :=
  | Stamp (is_ends : bool) (day date time : string) (t : tm)
  | Host (key w h : string)
  | Other (w : string).

Definition stmt_words (s : stmt) : list string :=
  match s with
  | Stamp b day date time _ => [if b then "ends" else "starts"; day; date; time]
  | Host key w _ => [key; w]
  | Other w => [w]
  end.

(** A lease for an address, or a word outside the leases. *)
Inductive item : Type := Word (w : string) | Lease (a : list Z) (stmts : list stmt).

Definition item_words (i : item) : list string :=
  match i with
  | Word w => [w]
  | Lease a stmts => "lease" :: inet_ntoa a :: "{" :: concat (map stmt_words stmts) ++ ["}"]
  end.

Definition file_words (its : list item) : list string := concat (map item_words its).

(** A number in decimal, with any number of zeros before it. *)
Definition numeral (z : Z) (s : string) : Prop := exists w, s = pad0 w (udec z).

Definition three (ch : ascii) (x y z : Z) (s : string) : Prop :=
  exists a b c, numeral x a /\ numeral y b /\ numeral z c /\ s = a +:+ String ch (b +:+ String ch c).

(** A date between 1970 and the end of an [int]. *)
Record date_ok (t : tm) : Prop := {
  dt_year : 1970 <= tm_year t <= 2099;
  dt_mon : 1 <= tm_mon t <= 12;
  dt_rest : 0 <= tm_mday t < 100 /\ 0 <= tm_hour t < 100 /\ 0 <= tm_min t < 100 /\ 0 <= tm_sec t < 100;
  dt_range : 0 <= seconds_since_epoch t < 2 ^ 31
}.

(** The name [h] that a host name [w] stands for: labels of legal characters with dots between them and
    maybe one at the end, not of blanks alone; its blanks become dashes. *)
Definition host_name (w h : string) : Prop :=
  exists labels, let n := join_with "." labels in
    Forall (fun l => all_chars legal_char l = true /\ (String.length l <= 63)%nat) labels /\
    all_chars (fun c => Ascii.eqb c " " || Ascii.eqb c ".") n = false /\ last_char n <> Some "."%char /\
    (w = n \/ w = n +:+ ".") /\ (String.length w < namebuff_size)%nat /\ h = join_with "-" (split_at " " n).

Definition short (w : string) : Prop := (String.length w < MAXTOK)%nat.

Definition stmt_ok (s : stmt) : Prop :=
  match s with
  | Stamp _ day date time t =>
      date_ok t /\ short day /\ short date /\ short time /\
      three "/" (tm_year t) (tm_mon t) (tm_mday t) date /\ three ":" (tm_hour t) (tm_min t) (tm_sec t) time
  | Host key w h => (key = "client-hostname" \/ key = "hostname") /\ host_name w h
  | Other w => short w /\ String.prefix "}" w = false /\ w ∉ ["client-hostname"; "hostname"; "ends"; "starts"]
  end.

Definition item_ok (i : item) : Prop :=
  match i with
  | Word w => short w /\ w <> "lease"
  | Lease a stmts => (length a = 4%nat /\ Forall (fun z => 0 <= z <= 255) a) /\ Forall stmt_ok stmts
  end.

(** *** What a file says *)

Definition host_of (s : stmt) : option string := match s with Host _ _ h => Some h | _ => None end.
Definition end_of (s : stmt) : option Z := match s with Stamp true _ _ _ t => Some (seconds_since_epoch t) | _ => None end.
Definition start_of (s : stmt) : option Z := match s with Stamp false _ _ _ t => Some (seconds_since_epoch t) | _ => None end.

(** No end, or an end one second before the start: the lease does not expire, which is a 0. *)
Definition expires_at (ends starts : option Z) : Z :=
  match ends with None => 0 | Some e => if bool_decide (starts = Some (e + 1)) then 0 else e end.

(** Name and full name: a name in the domain of the daemon is cut at its first dot, any other gets the
    domain appended. *)
Inductive named (dom h : string) : string -> string -> Prop :=
  | named_own host sfx :
      h = host +:+ String "." sfx -> has_char "." host = false -> lower_str sfx = lower_str dom -> named dom h host h
  | named_other :
      (forall host sfx, h = host +:+ String "." sfx -> has_char "." host = false -> lower_str sfx <> lower_str dom) ->
      named dom h h (h +:+ String "." dom).

(** The lease of an item: the last of its names, ends and starts count. *)
Definition lease_of (dom : string) (i : item) (l : isc_lease) : Prop :=
  match i with
  | Word _ => False
  | Lease a stmts =>
      exists h, list.last (omap host_of stmts) = Some h /\ named dom h (name l) (fqdn l) /\
        expires l = expires_at (list.last (omap end_of stmts)) (list.last (omap start_of stmts)) /\ addr l = a
  end.

(** *** Reading the words *)

Lemma text_skip n u r : blank u -> token_loop n (u +:+ r) false false "" = token_loop n r false false "".
Proof.
  induction 1 as [|c u Hc _ IH|v u Hv _ IH]; [done| |].
  - cbn [String.append]. by rewrite token_loop_sep.
  - cbn [String.append token_loop]. change (Ascii.eqb "#" "#") with true. cbv iota. rewrite append_assoc. cbn [String.append].
    induction v as [|c v IHv]; cbn [String.append token_loop].
    + rewrite Ascii.eqb_refl. cbn. exact IH.
    + cbn [has_char] in Hv. apply orb_false_iff in Hv as [Hc Hv]. rewrite Ascii.eqb_sym, Hc. cbn. by apply IHv.
Qed.

Lemma text_next n w ws fp : text (w :: ws) fp -> (String.length w <= n - 1)%nat ->
  exists fp', token_loop n fp false false "" = (w, fp') /\ text ws fp' /\ (String.length fp' < String.length fp)%nat /\
    w <> "" /\ all_chars quoted_char w = true.
Proof.
  intros Ht Hn. inversion Ht as [|u w' c ws' r Hu Hw Hne Hc Hr|u w' c ws' r Hu Hw Hne Hc Hr]; subst; exists r;
    rewrite text_skip by done; rewrite !append_length; cbn [String.length]; rewrite ?append_length; cbn [String.length].
  - split; [by apply (token_loop_next n "")|]. split; [done|]. split; [lia|]. split; [done|]. by apply plain_quoted.
  - split; [by apply token_loop_quoted|]. split; [done|]. split; [lia|]. done.
Qed.

Lemma next_token_text size n w ws fp : text (w :: ws) fp -> (String.length w <= n - 1)%nat -> (String.length w < size)%nat ->
  exists fp', next_token size n fp = Ok (Some w, fp') /\ text ws fp' /\ (String.length fp' < String.length fp)%nat.
Proof.
  intros Ht Hn Hs. destruct (text_next n w ws fp Ht Hn) as (fp' & E & Ht' & Hl & Hne & Hq). exists fp'. split; [|done].
  unfold next_token. rewrite E, (proj2 (Nat.leb_gt _ _)), c_str_id by done. by destruct w.
Qed.

Lemma token_text w ws fp : text (w :: ws) fp -> short w ->
  exists fp', token fp = Ok (Some w, fp') /\ text ws fp' /\ (String.length fp' < String.length fp)%nat.
Proof. unfold short. intros Ht Hs. apply next_token_text; [done | unfold MAXTOK in *; lia | done]. Qed.

Lemma token_end fp : text [] fp -> exists fp', token fp = Ok (None, fp').
Proof.
  inversion 1 as [u Hu| |]; subst. rewrite <- (append_nil_r fp). unfold token, next_token. rewrite text_skip by done.
  by eexists.
Qed.

Lemma octet_udec z : 0 <= z <= 255 -> octet (udec z) = Some z.
Proof.
  assert (Hall : forallb (fun i => bool_decide (octet (udec (Z.of_nat i)) = Some (Z.of_nat i))) (seq 0 256) = true)
    by (vm_compute; reflexivity).
  intros Hz. rewrite forallb_forall in Hall. specialize (Hall (Z.to_nat z) ltac:(apply in_seq; lia)).
  apply bool_decide_eq_true_1 in Hall. by rewrite Z2Nat.id in Hall by lia.
Qed.

Lemma inet_pton_ntoa a b c d :
  Forall (fun z => 0 <= z <= 255) [a; b; c; d] -> inet_pton (inet_ntoa [a; b; c; d]) = Some [a; b; c; d].
Proof.
  intros H. unfold inet_pton, inet_ntoa. rewrite split_join; [|done|].
  - repeat match goal with H : Forall _ (_ :: _) |- _ => apply Forall_cons_1 in H as [? H] end.
    cbn [map]. by rewrite !octet_udec by done.
  - apply Forall_map. eapply Forall_impl; [|exact H]. intros z Hz. cbn in Hz. apply udec_no_char; [done|lia].
Qed.

Lemma udec_plain z : 0 <= z -> all_chars plain_char (udec z) = true.
Proof.
  intros Hz. pose proof (udec_digits z Hz) as Hd. induction (udec z) as [|c s IH]; [done|].
  cbn in *. apply andb_true_iff in Hd as [Hc Hs]. rewrite IH, andb_true_r by done.
  unfold is_digit in Hc. destruct c as [[] [] [] [] [] [] [] []]; done.
Qed.

Lemma udec_nonempty z : 0 <= z -> udec z <> "".
Proof. intros Hz. by destruct (udec_first z Hz) as (c & r & -> & _). Qed.

(** Three numbers with separators are read back. *)
Lemma scan_numeral z s r : numeral z s -> 0 <= z < 10000 -> starts_with_digit r = false -> scan_d (s +:+ r) = Some (z, r).
Proof.
  intros (w & ->) Hz Hr. unfold pad0. rewrite append_assoc. unfold scan_d, scan_number.
  destruct (udec_first z) as (d & u & E & Hd); [lia|].
  assert (Hx : exists c v, is_digit c = true /\ repeat_char (w - String.length (udec z)) "0" +:+ udec z +:+ r = String c v).
  { rewrite E. destruct (w - _)%nat as [|k]; cbn [repeat_char String.append]; [by eauto|]. exists "0"%char. by eexists. }
  pose proof (dec_value_zeros (w - String.length (udec z)) (udec z +:+ r)) as Hv. rewrite dec_value_udec in Hv by (done || lia).
  destruct Hx as (c & v & Hc & Ex). rewrite Ex in *. cbn [skip_space]. rewrite digit_not_space by done.
  assert (c <> "-"%char /\ c <> "+"%char) as [H1 H2] by (split; intros ->; done).
  assert (Hsd : starts_with_digit (String c v) = true) by done.
  assert (Hi : to_int false z = z) by (unfold to_int, LONG_MAX; rewrite i32_small by lia; lia).
  destruct c as [[] [] [] [] [] [] [] []]; try done; by rewrite Hsd, Hv, Hi.
Qed.

Lemma scan3_text ch x y z s : three ch x y z s -> is_digit ch = false -> 0 <= x < 10000 -> 0 <= y < 10000 -> 0 <= z < 10000 ->
  scan3 ch s = Some (x, y, z).
Proof.
  intros (a & b & c & Ha & Hb & Hc & ->) Hch Hx Hy Hz. unfold scan3.
  rewrite (scan_numeral x) by done. cbn [mbind option_bind scan_char]. rewrite Ascii.eqb_refl. cbn [mbind option_bind].
  rewrite (scan_numeral y) by done. cbn [mbind option_bind scan_char]. rewrite Ascii.eqb_refl. cbn [mbind option_bind].
  rewrite <- (append_nil_r c), (scan_numeral z) by done. done.
Qed.

Lemma read_time_text b day date time t d ws fp : stmt_ok (Stamp b day date time t) -> text (day :: date :: time :: ws) fp ->
  exists fp', read_time b d fp = Ok ({| hostname := hostname d; ttd := if b then seconds_since_epoch t else ttd d;
                                        tts := if b then tts d else seconds_since_epoch t |}, fp') /\
    text ws fp' /\ (String.length fp' < String.length fp)%nat.
Proof.
  intros ([Hy Hm (Hd & Hh & Hmi & Hse) Hr] & S1 & S2 & S3 & T1 & T2) Ht. unfold read_time, read_date.
  destruct (token_text _ _ _ Ht S1) as (f1 & -> & Ht1 & L1). cbn [mbind outcome_bind].
  destruct (token_text _ _ _ Ht1 S2) as (f2 & -> & Ht2 & L2). cbn [mbind outcome_bind option_bind].
  rewrite (scan3_text _ _ _ _ _ T1) by (reflexivity || lia).
  destruct (token_text _ _ _ Ht2 S3) as (f3 & -> & Ht3 & L3). cbn [mbind outcome_bind option_bind].
  rewrite (scan3_text _ _ _ _ _ T2) by (reflexivity || lia). exists f3.
  split; [|split; [done | lia]]. cbn [mbind outcome_bind]. destruct t. cbn [tm_year tm_mon tm_mday tm_hour tm_min tm_sec] in *.
  by rewrite convert_time_correct by done.
Qed.

(** *** Names *)

Lemma canonicalise_label l : forall g nw r, all_chars legal_char l = true -> (g + String.length l <= 63)%nat ->
  canonicalise_loop (l +:+ r) g nw
  = canonicalise_loop r (g + String.length l) (nw || negb (all_chars (fun c => Ascii.eqb c " " || Ascii.eqb c ".") l)).
Proof.
  induction l as [|c l IH]; intros g nw r Hl Hg.
  { cbn. by rewrite orb_false_r, Nat.add_0_r. }
  cbn [all_chars] in Hl. apply andb_true_iff in Hl as [Hc Hl]. cbn [String.length] in Hg.
  assert (Hd : Ascii.eqb c "." = false) by (destruct (Ascii.eqb_spec c "."); [by subst|done]).
  cbn [String.append canonicalise_loop]. rewrite Hd, Hc, (proj2 (Nat.ltb_ge _ _)) by (unfold MAXLABEL; lia). cbn [negb orb].
  rewrite IH by (done || lia). cbn [String.length all_chars]. rewrite Hd, Nat.add_succ_comm. f_equal.
  destruct (Ascii.eqb c " "), nw; done.
Qed.

Lemma canonicalise_labels labels : forall nw,
  Forall (fun l => all_chars legal_char l = true /\ (String.length l <= 63)%nat) labels ->
  canonicalise_loop (join_with "." labels) 0 nw
  = Some (nw || negb (all_chars (fun c => Ascii.eqb c " " || Ascii.eqb c ".") (join_with "." labels))).
Proof.
  induction labels as [|l labels IH]; intros nw Hl.
  { cbn. by rewrite orb_false_r. }
  apply Forall_cons_1 in Hl as [[H1 H2] Hl]. destruct labels as [|l2 labels].
  - cbn [join_with]. rewrite <- (append_nil_r l) at 1. by rewrite canonicalise_label by (done || lia).
  - rewrite join_with_cons by done. rewrite canonicalise_label by (done || lia). cbn [canonicalise_loop].
    change (Ascii.eqb "." ".") with true. cbv iota. rewrite IH by done. rewrite all_chars_app. cbn [all_chars].
    change (Ascii.eqb "." " " || Ascii.eqb "." ".") with true. cbn [andb]. rewrite negb_andb. f_equal. by rewrite orb_assoc.
Qed.

Lemma last_char_dot n : last_char (n +:+ ".") = Some "."%char /\ drop_last (n +:+ ".") = n.
Proof.
  induction n as [|c n [IH1 IH2]]; [done|]. cbn [String.append last_char drop_last]. rewrite IH1, IH2.
  by destruct n.
Qed.

Lemma fix_hostname_spaces_split s : fix_hostname_spaces s = join_with "-" (split_at " " s).
Proof.
  induction s as [|c s IH]; [done|]. cbn [fix_hostname_spaces split_at]. rewrite Ascii.eqb_sym.
  pose proof (split_at_nonempty " " s) as Hne. destruct (Ascii.eqb_spec " " c) as [<-|_].
  - rewrite join_with_cons by done. cbn [String.append]. by rewrite IH.
  - rewrite IH. destruct (split_at " " s) as [|q [|q2 l]]; [done|done|]. by rewrite !join_with_cons by done.
Qed.

Lemma canonicalise_name w h : host_name w h -> exists n, canonicalise w = Some n /\ h = fix_hostname_spaces n /\
  n <> "" /\ String.prefix "}" w = false.
Proof.
  intros (labels & Hl & Hb & Hlast & Hw & Hlen & ->). set (n := join_with "." labels) in *. exists n.
  assert (Hne : n <> "") by (by intros E; rewrite E in Hb).
  assert (Hc : canonicalise_loop n 0 false = Some true) by (unfold n; rewrite canonicalise_labels by done; fold n; by rewrite Hb).
  rewrite fix_hostname_spaces_split.
  assert (Hlw : (String.length w =? 0)%nat = false) by (destruct Hw as [-> | ->]; destruct n; done).
  unfold canonicalise. rewrite Hlw, (proj2 (Nat.ltb_ge _ _)) by (unfold MAXDNAME, namebuff_size in *; lia). cbn [orb].
  split; [|split; [done|split; [done|]]].
  - destruct Hw as [-> | ->].
    + replace (match last_char n with Some c => Ascii.eqb c "." | None => false end) with false.
      * by rewrite Hc.
      * destruct (last_char n) as [c|]; [|done]. destruct (Ascii.eqb_spec c "."); [congruence|done].
    + destruct (last_char_dot n) as [-> ->]. cbn [Ascii.eqb Bool.eqb andb]. rewrite (proj2 (Nat.eqb_neq _ 1)), Hc; [done|].
      rewrite append_length. cbn. destruct n; cbn; [done | lia].
  - destruct n as [|c n']; [done|]. assert (Hp : c <> "}"%char).
    { intros ->. cbn in Hc. done. }
    destruct Hw as [-> | ->]; cbn [String.append String.prefix]; by destruct (Ascii.ascii_dec "}" c) as [E|]; [destruct Hp|].
Qed.

Lemma inet_ntoa_word a b c d :
  Forall (fun z => 0 <= z <= 255) [a; b; c; d] ->
  let w := inet_ntoa [a; b; c; d] in
  all_chars plain_char w = true /\ w <> "" /\ (String.length w < MAXTOK)%nat.
Proof.
  intros H. cbv zeta.
  repeat match goal with H : Forall _ (_ :: _) |- _ => apply Forall_cons_1 in H as [? H] end.
  unfold inet_ntoa. cbn [map join_with]. rewrite !all_chars_app, !udec_plain by lia. cbn [all_chars].
  split; [|split].
  - cbn. rewrite !all_chars_app, !udec_plain by lia. cbn. rewrite !all_chars_app, !udec_plain by lia. cbn.
    by rewrite !udec_plain by lia.
  - destruct (udec_first a) as (x & r & -> & _); [lia|done].
  - rewrite !append_length. cbn. rewrite !append_length. cbn. rewrite !append_length. cbn.
    pose proof (udec_length a 3). pose proof (udec_length b 3). pose proof (udec_length c 3).
    pose proof (udec_length d 3). unfold MAXTOK. lia.
Qed.

(** *** A lease *)

(** What a statement does. *)
Definition run_stmt (d : decl) (s : stmt) : decl :=
  match s with
  | Stamp true _ _ _ t => {| hostname := hostname d; ttd := seconds_since_epoch t; tts := tts d |}
  | Stamp false _ _ _ t => {| hostname := hostname d; ttd := ttd d; tts := seconds_since_epoch t |}
  | Host _ _ h => {| hostname := h; ttd := ttd d; tts := tts d |}
  | Other _ => d
  end.

Lemma lease_body_stamp fuel b day date time t d ws fp :
  stmt_ok (Stamp b day date time t) -> text (stmt_words (Stamp b day date time t) ++ ws) fp ->
  exists fp', lease_body (S fuel) d fp = lease_body fuel (run_stmt d (Stamp b day date time t)) fp' /\
    text ws fp' /\ (String.length fp' < String.length fp)%nat.
Proof.
  intros Hok Ht. cbn [stmt_words app] in Ht. assert (Hs : short (if b then "ends" else "starts")) by (unfold short, MAXTOK; destruct b; cbn; lia).
  destruct (token_text _ _ _ Ht Hs) as (f1 & E1 & Ht1 & L1).
  destruct (read_time_text b day date time t d ws f1 Hok Ht1) as (f2 & E2 & Ht2 & L2).
  exists f2. split; [|split; [done|lia]]. cbn [lease_body]. rewrite E1. cbn [mbind outcome_bind].
  destruct b; cbn [String.prefix String.eqb Ascii.eqb Bool.eqb orb]; by rewrite E2.
Qed.

Lemma lease_body_host fuel key w h d ws fp :
  stmt_ok (Host key w h) -> text (key :: w :: ws) fp ->
  exists fp', lease_body (S fuel) d fp = lease_body fuel (run_stmt d (Host key w h)) fp' /\
    text ws fp' /\ (String.length fp' < String.length fp)%nat.
Proof.
  intros (Hk & Hn) Ht. assert (Hs : short key) by (unfold short, MAXTOK; destruct Hk as [-> | ->]; cbn; lia).
  destruct (token_text _ _ _ Ht Hs) as (f1 & E1 & Ht1 & L1).
  assert (Hlen : (String.length w < namebuff_size)%nat) by (by destruct Hn as (? & _ & _ & _ & _ & ? & _)).
  destruct (next_token_text namebuff_size MAXDNAME w ws f1 Ht1) as (f2 & E2 & Ht2 & L2);
    [unfold namebuff_size, MAXDNAME in *; lia | done |].
  destruct (canonicalise_name w h Hn) as (n & Hc & -> & _ & Hp).
  exists f2. split; [|split; [done|lia]]. cbn [lease_body]. rewrite E1. cbn [mbind outcome_bind]. unfold read_hostname.
  destruct Hk as [-> | ->]; cbn [String.prefix String.eqb Ascii.eqb Bool.eqb orb]; rewrite E2; cbn [mbind outcome_bind];
    by rewrite Hp, Hc.
Qed.

Lemma lease_body_other fuel w d ws fp :
  stmt_ok (Other w) -> text (w :: ws) fp ->
  exists fp', lease_body (S fuel) d fp = lease_body fuel d fp' /\ text ws fp' /\ (String.length fp' < String.length fp)%nat.
Proof.
  intros (Hs & Hp & Hno) Ht. destruct (token_text _ _ _ Ht Hs) as (f1 & E1 & Ht1 & L1). exists f1. split; [|done].
  rewrite !not_elem_of_cons in Hno. destruct Hno as (N1 & N2 & N3 & N4 & _).
  cbn [lease_body]. rewrite E1. cbn [mbind outcome_bind].
  by rewrite Hp, (proj2 (String.eqb_neq _ _) N1), (proj2 (String.eqb_neq _ _) N2), (proj2 (String.eqb_neq _ _) N3), (proj2 (String.eqb_neq _ _) N4).
Qed.

Lemma lease_body_stmts stmts : forall fuel d ws fp,
  Forall stmt_ok stmts -> text (concat (map stmt_words stmts) ++ "}" :: ws) fp -> (String.length fp < fuel)%nat ->
  exists fp', lease_body fuel d fp = Ok (fold_left run_stmt stmts d, fp') /\ text ws fp' /\ (String.length fp' < String.length fp)%nat.
Proof.
  induction stmts as [|s stmts IH]; intros fuel d ws fp Hok Ht Hf; (destruct fuel as [|fuel]; [lia|]).
  - cbn [map concat app] in Ht. destruct (token_text _ _ _ Ht ltac:(unfold short, MAXTOK; cbn; lia)) as (f1 & E1 & Ht1 & L1).
    exists f1. split; [|done]. cbn [lease_body]. by rewrite E1.
  - apply Forall_cons_1 in Hok as [Hs Hok]. cbn [map concat] in Ht. rewrite <- app_assoc in Ht.
    assert (Hone : exists f1, lease_body (S fuel) d fp = lease_body fuel (run_stmt d s) f1 /\
      text (concat (map stmt_words stmts) ++ "}" :: ws) f1 /\ (String.length f1 < String.length fp)%nat).
    { destruct s; [by apply lease_body_stamp | by apply lease_body_host | by eapply lease_body_other]. }
    destruct Hone as (f1 & E1 & Ht1 & L1). destruct (IH fuel (run_stmt d s) ws f1 Hok Ht1 ltac:(lia)) as (f2 & E2 & Ht2 & L2).
    exists f2. rewrite E1, E2. split; [done|]. split; [done|lia].
Qed.

(** *** A file *)

Definition enter (dom : string) (ls : list isc_lease) (i : item) : list isc_lease :=
  match i with
  | Word _ => ls
  | Lease a stmts => add_decl dom a (fold_left run_stmt stmts decl_init) ls
  end.

Lemma load_loop_items dom its : forall fuel fp ls,
  Forall item_ok its -> text (file_words its) fp -> (String.length fp < fuel)%nat ->
  load_loop fuel dom fp ls = Ok (fold_left (enter dom) its ls).
Proof.
  induction its as [|i its IH]; intros fuel fp ls Hok Ht Hf; (destruct fuel as [|fuel]; [lia|]); unfold file_words in *; cbn [map concat] in Ht.
  - destruct (token_end fp Ht) as (f1 & E1). cbn [load_loop]. by rewrite E1.
  - apply Forall_cons_1 in Hok as [Hi Hok]. destruct i as [w|a stmts]; cbn [item_words app] in Ht.
    + destruct Hi as [Hs Hne]. destruct (token_text _ _ _ Ht Hs) as (f1 & E1 & Ht1 & L1). cbn [load_loop]. rewrite E1. cbn [mbind outcome_bind].
      rewrite (proj2 (String.eqb_neq _ _) Hne). cbn [negb fold_left enter]. apply IH; [done | done | lia].
    + destruct Hi as [[Hlen Hoct] Hst]. destruct a as [|a1 [|a2 [|a3 [|a4 [|]]]]]; try done.
      destruct (inet_ntoa_word _ _ _ _ Hoct) as (_ & _ & L).
      rewrite <- app_assoc in Ht. cbn [app] in Ht.
      destruct (token_text _ _ _ Ht ltac:(unfold short, MAXTOK; cbn; lia)) as (f1 & E1 & Ht1 & L1).
      destruct (token_text _ _ _ Ht1 L) as (f2 & E2 & Ht2 & L2).
      destruct (token_text _ _ _ Ht2 ltac:(unfold short, MAXTOK; cbn; lia)) as (f3 & E3 & Ht3 & L3).
      destruct (lease_body_stmts stmts fuel decl_init _ f3 Hst Ht3 ltac:(lia)) as (f4 & E4 & Ht4 & L4).
      cbn [load_loop]. rewrite E1. cbn [mbind outcome_bind]. change (String.eqb "lease" "lease") with true. cbn [negb].
      rewrite E2. cbn [mbind outcome_bind option_bind]. rewrite inet_pton_ntoa by done. rewrite E3. cbn [mbind outcome_bind].
      change (String.prefix "{" "{") with true. cbv iota. rewrite E4. cbn [mbind outcome_bind fold_left enter].
      apply IH; [done | done | lia].
Qed.

Lemma run_stmts_last stmts : forall d,
  hostname (fold_left run_stmt stmts d) = default (hostname d) (list.last (omap host_of stmts)) /\
  ttd (fold_left run_stmt stmts d) = default (ttd d) (list.last (omap end_of stmts)) /\
  tts (fold_left run_stmt stmts d) = default (tts d) (list.last (omap start_of stmts)).
Proof.
  assert (Hlast : forall {A} (x y : A) l, default x (list.last (y :: l)) = default y (list.last l)).
  { intros A x y l. rewrite last_cons. by destruct (list.last l). }
  induction stmts as [|s stmts IH]; intros d; [done|]. cbn [fold_left]. destruct (IH (run_stmt d s)) as (-> & -> & ->).
  destruct s as [[] day date time t|key w h|w]; cbn [run_stmt hostname ttd tts omap list_omap host_of end_of start_of];
    rewrite ?Hlast; done.
Qed.

Lemma cut_dot_host host sfx : has_char "." host = false -> cut_dot (host +:+ String "." sfx) = (host, Some sfx).
Proof.
  induction host as [|c host IH]; cbn [has_char String.append cut_dot]; [done|].
  intros [Hc Hh]%orb_false_iff. rewrite Ascii.eqb_sym in Hc. by rewrite Hc, IH.
Qed.

Lemma cut_dot_inv s : match cut_dot s with
  | (host, Some sfx) => s = host +:+ String "." sfx /\ has_char "." host = false
  | (_, None) => has_char "." s = false end.
Proof.
  induction s as [|c s IH]; [done|]. cbn [cut_dot]. destruct (Ascii.eqb_spec c ".") as [->|Hc]; [done|].
  destruct (cut_dot s) as [host [sfx|]]; cbn [has_char String.append].
  - destruct IH as [-> Hh]. split; [done|]. apply orb_false_iff. split; [|done]. apply Ascii.eqb_neq. congruence.
  - apply orb_false_iff. split; [|done]. apply Ascii.eqb_neq. congruence.
Qed.

Lemma split_name_named dom h n f : named dom h n f <-> split_name dom h = (n, (split_name dom h).2) /\ f = n +:+ "." +:+ (split_name dom h).2.
Proof.
  unfold split_name. pose proof (cut_dot_inv h) as Hc. split.
  - intros [host sfx -> Hh Hs|Hno].
    + rewrite cut_dot_host by done. rewrite (proj2 (hostname_isequal_spec _ _) Hs). done.
    + destruct (cut_dot h) as [host [sfx|]]; [|done]. destruct Hc as [E Hh].
      destruct (hostname_isequal sfx dom) eqn:Ei; [|done]. apply hostname_isequal_spec in Ei. by destruct (Hno host sfx E Hh).
  - destruct (cut_dot h) as [host [sfx|]].
    + destruct Hc as [E Hh]. destruct (hostname_isequal sfx dom) eqn:Ei; cbn [snd]; intros [[= <-] ->].
      * apply hostname_isequal_spec in Ei. change (host +:+ "." +:+ sfx) with (host +:+ String "." sfx). rewrite <- E. by apply (named_own _ _ host sfx).
      * apply named_other. intros host' sfx' E' Hh' Hs. rewrite E' in E. pose proof (cut_dot_host host sfx Hh) as C1. rewrite <- E, cut_dot_host in C1 by done.
        injection C1 as _ <-. apply hostname_isequal_spec in Hs. congruence.
    + intros [[= <-] ->]. apply named_other. intros host' sfx -> _ _. rewrite has_char_app in Hc. cbn in Hc. by rewrite orb_true_r in Hc.
Qed.

(** *** The leases that are left *)

(** The lease of an item, computed. *)
Definition item_lease (dom : string) (i : item) : option isc_lease :=
  match i with
  | Word _ => None
  | Lease a stmts =>
      let d := fold_left run_stmt stmts decl_init in
      if String.eqb (hostname d) "" then None
      else let '(n, suffix) := split_name dom (hostname d) in
           Some {| name := n; fqdn := n +:+ "." +:+ suffix; expires := expiry d; addr := a |}
  end.

Lemma enter_lease dom ls i : enter dom ls i = match item_lease dom i with Some l => update_leases l ls | None => ls end.
Proof.
  destruct i as [w|a stmts]; [done|]. cbn [enter item_lease]. unfold add_decl. destruct (String.eqb _ _); [done|]. by destruct (split_name _ _).
Qed.

Lemma host_name_nonempty w h : host_name w h -> h <> "".
Proof. intros Hn. destruct (canonicalise_name w h Hn) as (n & _ & -> & Hne & _). by destruct n. Qed.

Lemma expiry_expires_at stmts : Forall stmt_ok stmts ->
  expiry (fold_left run_stmt stmts decl_init) = expires_at (list.last (omap end_of stmts)) (list.last (omap start_of stmts)).
Proof.
  intros Hok. destruct (run_stmts_last stmts decl_init) as (_ & E1 & E2). unfold expiry. rewrite E1, E2. cbn [decl_init ttd tts].
  assert (Hpos : forall (f : stmt -> option Z) z, (f = end_of \/ f = start_of) -> list.last (omap f stmts) = Some z -> 0 <= z).
  { intros f z Hf Hl. apply last_Some_elem_of in Hl. apply list_elem_of_omap in Hl as (s & Hs & Es).
    rewrite List.Forall_forall in Hok. apply list_elem_of_In, Hok in Hs. destruct Hf as [-> | ->];
      destruct s as [[] ? ? ? t| |]; try done; injection Es as <-; destruct Hs as ([_ _ _ Hr] & _); lia. }
  destruct (list.last (omap end_of stmts)) as [e|] eqn:Ee; cbn [default expires_at]; unfold id.
  - pose proof (Hpos end_of e (or_introl eq_refl) Ee). rewrite (proj2 (Z.eqb_neq e (-1))) by lia.
    destruct (list.last (omap start_of stmts)) as [b|] eqn:Es; cbn [default]; unfold id.
    + pose proof (Hpos start_of b (or_intror eq_refl) Es). rewrite (proj2 (Z.eqb_neq b (-1))) by lia. cbn [negb andb].
      destruct (Z.eqb_spec e (b - 1)); case_bool_decide as Hb; try done; [destruct Hb; f_equal; lia|]. injection Hb as ->. lia.
    + rewrite bool_decide_eq_false_2 by done. done.
  - by destruct (negb _ && _).
Qed.

Lemma lease_of_spec dom i l : item_ok i -> lease_of dom i l <-> item_lease dom i = Some l.
Proof.
  destruct i as [w|a stmts]; [done|]. intros [_ Hok]. cbn [lease_of item_lease].
  rewrite expiry_expires_at by done. destruct (run_stmts_last stmts decl_init) as (-> & _ & _). cbn [decl_init hostname].
  destruct (list.last (omap host_of stmts)) as [h|] eqn:Eh; cbn [default]; unfold id.
  - assert (Hne : h <> "").
    { apply last_Some_elem_of, list_elem_of_omap in Eh as (s & Hs & Es). rewrite List.Forall_forall in Hok. apply list_elem_of_In, Hok in Hs.
      destruct s; try done. injection Es as ->. destruct Hs as [_ Hs]. by eapply host_name_nonempty. }
    rewrite (proj2 (String.eqb_neq _ _) Hne). destruct (split_name dom h) as [n sfx] eqn:Es. split.
    + intros (h' & [= <-] & Hn & He & <-). apply split_name_named in Hn as [E1 E2]. rewrite Es in E1, E2. injection E1 as E1. subst n.
      f_equal. destruct l as [nm fq ex ad]. cbn in *. by rewrite E2, He.
    + intros [= <-]. exists h. split; [done|]. split; [|done]. apply split_name_named. by rewrite Es.
  - split; [by intros (h & Hbad & _)|]. done.
Qed.

Lemma replace_lease_elem l x ls : NoDup (keys ls) -> forall ls', replace_lease l ls = Some ls' ->
  x ∈ ls' <-> x = l \/ (x ∈ ls /\ lower_str (name x) <> lower_str (name l)).
Proof.
  induction ls as [|y ls IH]; intros Hn ls' E; cbn [replace_lease] in E; [done|]. unfold keys in *. rewrite fmap_cons in Hn.
  apply NoDup_cons_1_1 in Hn as Hy. apply NoDup_cons_1_2 in Hn. destruct (hostname_isequal (name y) (name l)) eqn:Ei.
  - injection E as <-. apply hostname_isequal_spec in Ei. rewrite !elem_of_cons. split.
    + intros [->|Hx]; [by left|]. right. split; [by right|]. intros Ex. apply Hy. rewrite Ei, <- Ex.
      by apply (list_elem_of_fmap_2 (fun x => lower_str (name x))).
    + intros [->|[[->|Hx] Hne]]; [by left | done | by right].
  - destruct (replace_lease l ls) as [ls1|]; [|done]. injection E as <-. rewrite !elem_of_cons, (IH Hn ls1 eq_refl).
    assert (Hne : lower_str (name y) <> lower_str (name l)) by (intros Hbad; apply hostname_isequal_spec in Hbad; congruence).
    split; [intros [->|[->|[Hx Hk]]]; auto | intros [->|[[->|Hx] Hk]]; auto].
Qed.

Lemma update_leases_elem l x ls : NoDup (keys ls) ->
  x ∈ update_leases l ls <-> x = l \/ (x ∈ ls /\ lower_str (name x) <> lower_str (name l)).
Proof.
  intros Hn. unfold update_leases. destruct (replace_lease l ls) as [ls'|] eqn:E; [by apply replace_lease_elem|].
  apply replace_lease_None in E. rewrite elem_of_cons. split; [|tauto]. intros [->|Hx]; [by left|]. right. split; [done|].
  intros Ex. apply E. rewrite <- Ex. by apply (list_elem_of_fmap_2 (fun x => lower_str (name x))).
Qed.

(** No lease of these items has this name. *)
Definition not_again (dom : string) (l : isc_lease) (its : list item) : Prop :=
  forall i l', i ∈ its -> lease_of dom i l' -> lower_str (name l') <> lower_str (name l).

Lemma not_again_cons dom l i its : not_again dom l (i :: its) <->
  (forall l', lease_of dom i l' -> lower_str (name l') <> lower_str (name l)) /\ not_again dom l its.
Proof.
  unfold not_again. setoid_rewrite elem_of_cons. split.
  - intros H. split; [intros l'; apply H; by left | intros j l' Hj; apply H; by right].
  - intros [H1 H2] j l' [->|Hj]; [apply H1 | by apply H2].
Qed.

Lemma enter_elem dom l its : forall ls, NoDup (keys ls) -> Forall item_ok its ->
  NoDup (keys (fold_left (enter dom) its ls)) /\
  (l ∈ fold_left (enter dom) its ls <->
   (exists pre i post, its = pre ++ i :: post /\ lease_of dom i l /\ not_again dom l post) \/ (l ∈ ls /\ not_again dom l its)).
Proof.
  induction its as [|i its IH]; intros ls Hn Hok; cbn [fold_left].
  - split; [done|]. split; [intros Hl; right; split; [done|]; intros j ? Hj; by apply elem_of_nil in Hj|].
    intros [(pre & j & post & E & _)|[Hl _]]; [by destruct pre | done].
  - apply Forall_cons_1 in Hok as [Hi Hok]. assert (Hn' : NoDup (keys (enter dom ls i))).
    { rewrite enter_lease. destruct (item_lease dom i); [by apply update_leases_unique | done]. }
    destruct (IH _ Hn' Hok) as [H1 H2]. split; [done|]. rewrite H2, not_again_cons. clear IH H1 H2.
    assert (He : l ∈ enter dom ls i <-> lease_of dom i l \/ (l ∈ ls /\ forall l', lease_of dom i l' -> lower_str (name l') <> lower_str (name l))).
    { rewrite enter_lease. setoid_rewrite (fun l' => lease_of_spec dom i l' Hi). destruct (item_lease dom i) as [x|].
      - rewrite update_leases_elem by done. split.
        + intros [->|[Hl Hk]]; [by left|]. right. split; [done|]. intros l' [= <-]. by apply not_eq_sym.
        + intros [[= ->]|[Hl Hk]]; [by left|]. right. split; [done|]. apply not_eq_sym. by apply Hk.
      - split; [intros Hl; right; split; [done|]; by intros ? | by intros [?|[? _]]]. }
    rewrite He. split.
    + intros [(pre & j & post & -> & Hj)|[[Hl|[Hl Hk]] Hna]].
      * left. by exists (i :: pre), j, post.
      * left. by exists [], i, its.
      * right. auto.
    + intros [([|k pre] & j & post & E & Hl & Hna)|[Hl [Hk Hna]]].
      * injection E as <- <-. right. auto.
      * injection E as <- ->. left. exists pre, j, post. done.
      * right. auto.
Qed.

(** C10. The lease file is read as it is meant.  Take any text with the words of a file: leases with an
    address and statements in any order (times of the kind [starts] and [ends] with any day, the numbers
    of the date with or without zeros before them, host names plain or in quotes, any other words), other
    words between the leases, and blanks, line ends, semicolons and comments between all of them.
    [load_dhcp] succeeds, the names of the leases differ, and the list has exactly the leases of the file
    that are not declared again for the same name (whatever the case of its letters) further below and
    that do not expire before [now].  Of a lease its last name, end and start count; its expiry is the
    number of seconds from 1970 to its end, or 0 if it has none or ends one second before it starts. *)
Theorem load_dhcp_file dom fp now its : Forall item_ok its -> text (file_words its) fp ->
  exists ls, load_dhcp dom fp now [] = Ok ls /\ NoDup (keys ls) /\
  forall l, l ∈ ls <->
    (exists pre i post, its = pre ++ i :: post /\ lease_of dom i l /\ not_again dom l post) /\ (expires l = 0 \/ now <= expires l).
Proof.
  intros Hok Ht. unfold load_dhcp. rewrite (load_loop_items dom its) by (done || lia). cbn [mbind outcome_bind].
  assert (Hn : NoDup (keys [])) by apply NoDup_nil_2.
  eexists. split; [reflexivity|]. split; [apply prune_unique; by apply (enter_elem dom (Build_isc_lease "" "" 0 []))|].
  intros l. unfold prune. rewrite list_elem_of_filter, (proj2 (enter_elem dom l its [] Hn Hok)). unfold expired.
  rewrite andb_false_iff, negb_false_iff, Z.eqb_eq, Z.ltb_ge. split; [intros [He [H|[Hbad%elem_of_nil _]]]; done|]. tauto.
Qed.

(** The file of a server: a comment, a statement outside the leases, and two leases for one name. *)
Definition file_lines : string :=
  foldr (fun l r => l +:+ String LF r) ""
    [ "# The format of this file is documented"; "authoring-byte-order little-endian;"; "";
      "lease 10.0.0.5 {"; "  starts 2 2024/01/02 05:04:05;"; "  ends 3 2024/01/03 05:04:05;"; "  binding state active;";
      "  client-hostname " +:+ String QUOTE ("My PC" +:+ String QUOTE ";"); "}";
      "lease 10.0.0.9 { hostname MY-pc.lan.; ends 4 2024/1/4 5:4:5; }" ].

Definition stamp (b : bool) (day date time : string) (d : Z) : stmt :=
  Stamp b day date time {| tm_year := 2024; tm_mon := 1; tm_mday := d; tm_hour := 5; tm_min := 4; tm_sec := 5 |}.

Definition file_items : list item :=
  [ Word "authoring-byte-order"; Word "little-endian";
    Lease [10; 0; 0; 5] [stamp false "2" "2024/01/02" "05:04:05" 2; stamp true "3" "2024/01/03" "05:04:05" 3;
                         Other "binding"; Other "state"; Other "active"; Host "client-hostname" "My PC" "My-PC"];
    Lease [10; 0; 0; 9] [Host "hostname" "MY-pc.lan." "MY-pc.lan"; stamp true "4" "2024/1/4" "5:4:5" 4] ].

Lemma file_items_ok : Forall item_ok file_items.
Proof.
  assert (Hs : forall w, (String.length w <? MAXTOK)%nat = true -> short w) by (intros w; apply Nat.ltb_lt).
  assert (Hn : forall z s w, s = pad0 w (udec z) -> numeral z s) by (intros z s w ->; by exists w).
  assert (Hst : forall b day date time d, 1 <= d <= 4 -> short day -> short date -> short time ->
    three "/" 2024 1 d date -> three ":" 5 4 5 time -> stmt_ok (stamp b day date time d)).
  { intros b day date time d Hd ? ? ? ? ?. split; [|done]. split; cbn; [lia | lia | lia |]. unfold seconds_since_epoch. cbn [tm_year tm_mon tm_mday tm_hour tm_min tm_sec].
    change (days_before_year 2024) with 19723. change (days_before_month 2024 1) with 0. lia. }
  repeat apply Forall_cons_2; try apply Forall_nil_2; cbn [item_ok].
  - split; [by apply Hs | done].
  - split; [by apply Hs | done].
  - split; [split; [done|]; repeat constructor; lia|]. repeat apply Forall_cons_2; try apply Forall_nil_2.
    + apply Hst; [lia | by apply Hs.. | |].
      * exists "2024", "01", "02". repeat split; [by apply (Hn _ _ 4%nat) | by apply (Hn _ _ 2%nat) | by apply (Hn _ _ 2%nat)].
      * exists "05", "04", "05". repeat split; by apply (Hn _ _ 2%nat).
    + apply Hst; [lia | by apply Hs.. | |].
      * exists "2024", "01", "03". repeat split; [by apply (Hn _ _ 4%nat) | by apply (Hn _ _ 2%nat) | by apply (Hn _ _ 2%nat)].
      * exists "05", "04", "05". repeat split; by apply (Hn _ _ 2%nat).
    + split; [by apply Hs|]. split; [done|]. apply (bool_decide_unpack _). vm_compute. exact I.
    + split; [by apply Hs|]. split; [done|]. apply (bool_decide_unpack _). vm_compute. exact I.
    + split; [by apply Hs|]. split; [done|]. apply (bool_decide_unpack _). vm_compute. exact I.
    + split; [by left|]. exists ["My PC"]. cbv zeta. split; [repeat constructor; cbn; lia|]. split; [done|]. split; [done|].
      split; [by left|]. split; [apply (bool_decide_unpack _); vm_compute; exact I | done].
  - split; [split; [done|]; repeat constructor; lia|]. repeat apply Forall_cons_2; try apply Forall_nil_2.
    + split; [by right|]. exists ["MY-pc"; "lan"]. cbv zeta. split; [repeat constructor; cbn; lia|]. split; [done|]. split; [done|].
      split; [by right|]. split; [apply (bool_decide_unpack _); vm_compute; exact I | done].
    + apply Hst; [lia | by apply Hs.. | |].
      * exists "2024", "1", "4". repeat split; [by apply (Hn _ _ 4%nat) | by apply (Hn _ _ 1%nat) | by apply (Hn _ _ 1%nat)].
      * exists "5", "4", "5". repeat split; by apply (Hn _ _ 1%nat).
Qed.

Lemma text_sep c ws s : is_sep c = true -> text ws s -> text ws (String c s).
Proof.
  intros Hc. destruct 1 as [u Hu|u w d ws r Hu|u w d ws r Hu].
  - apply text_end. by apply blank_sep.
  - apply (text_plain (String c u)); try done. by apply blank_sep.
  - apply (text_quoted (String c u)); try done. by apply blank_sep.
Qed.

Lemma file_lines_text : text (file_words file_items) file_lines.
Proof.
  assert (Hc : forall v ws s, has_char LF v = false -> text ws s -> text ws (String "#" (v +:+ String LF s))).
  { intros v ws s Hv. destruct 1 as [u Hu|u w d ws r Hu|u w d ws r Hu].
    - apply text_end. by apply blank_comment.
    - change (String LF (u +:+ w +:+ String d r)) with (String LF u +:+ w +:+ String d r). rewrite <- append_assoc.
      apply (text_plain (String "#" (v +:+ String LF u))); try done. by apply blank_comment.
    - change (String LF (u +:+ String QUOTE (w +:+ String QUOTE (String d r)))) with (String LF u +:+ String QUOTE (w +:+ String QUOTE (String d r))).
      rewrite <- append_assoc. apply (text_quoted (String "#" (v +:+ String LF u))); try done. by apply blank_comment. }
  change file_lines with (String "#" (" The format of this file is documented" +:+ String LF
    (foldr (fun l r => l +:+ String LF r) "" (drop 1 [ "# The format of this file is documented"; "authoring-byte-order little-endian;"; "";
      "lease 10.0.0.5 {"; "  starts 2 2024/01/02 05:04:05;"; "  ends 3 2024/01/03 05:04:05;"; "  binding state active;";
      "  client-hostname " +:+ String QUOTE ("My PC" +:+ String QUOTE ";"); "}";
      "lease 10.0.0.9 { hostname MY-pc.lan.; ends 4 2024/1/4 5:4:5; }" ])))).
  apply Hc; [reflexivity|].
  let ws := eval vm_compute in (file_words file_items) in change (file_words file_items) with ws.
  match goal with |- text ?ws ?s => let s' := eval vm_compute in s in change s with s' end.
  repeat first
    [ apply text_sep; [reflexivity|]
    | lazymatch goal with |- text (?w :: _) _ => eapply (text_plain "" w); [apply blank_nil | reflexivity | discriminate | reflexivity |] end
    | lazymatch goal with |- text (?w :: _) _ => eapply (text_quoted "" w); [apply blank_nil | reflexivity | discriminate | reflexivity |] end
    | apply text_end, blank_nil ].
Qed.

Lemma load_dhcp_file_witness : exists ls, load_dhcp "lan" file_lines 1704200000 [] = Ok ls /\
  {| name := "MY-pc"; fqdn := "MY-pc.lan"; expires := 1704344645; addr := [10; 0; 0; 9] |} ∈ ls.
Proof.
  destruct (load_dhcp_file "lan" file_lines 1704200000 file_items file_items_ok file_lines_text) as (ls & E & _ & Hin).
  exists ls. split; [exact E|]. apply Hin. split; [|right; vm_compute; congruence].
  eexists [_; _; _], _, []. split; [reflexivity|]. split; [|intros i l' Hi; by apply elem_of_nil in Hi].
  exists "MY-pc.lan". split; [reflexivity|]. split; [|split; [vm_compute; reflexivity | reflexivity]].
  by apply (named_own _ _ "MY-pc" "lan").
Defined.

(** The test of the suffix is inverted: a host name in another domain is not cut (nor reported
    as having another suffix) but gets the daemon's suffix appended to it, so that the entry is
    [host.other.domain]; a name in the daemon's own domain is the one that is cut and reported. *)
Theorem foreign_suffix_kept dom a host sfx :
  host <> "" -> has_char "." host = false ->
  let d := {| hostname := host +:+ "." +:+ sfx; ttd := -1; tts := -1 |} in
  add_decl dom a d []
  = [if hostname_isequal sfx dom
     then {| name := host; fqdn := host +:+ "." +:+ sfx; expires := 0; addr := a |}
     else {| name := host +:+ "." +:+ sfx; fqdn := (host +:+ "." +:+ sfx) +:+ "." +:+ dom; expires := 0; addr := a |}].
Proof.
  intros Hne Hdot. cbv zeta. unfold add_decl. cbn [hostname].
  destruct (String.eqb_spec (host +:+ "." +:+ sfx) "") as [E|_]; [by destruct host|].
  unfold split_name. cbn [String.append]. rewrite cut_dot_host by done. by destruct (hostname_isequal sfx dom).
Qed.

Lemma foreign_suffix_kept_witness :
  add_decl "lan" [10; 0; 0; 7] {| hostname := "c.other"; ttd := -1; tts := -1 |} []
  = [{| name := "c.other"; fqdn := "c.other.lan"; expires := 0; addr := [10; 0; 0; 7] |}].
Proof. exact (foreign_suffix_kept "lan" [10; 0; 0; 7] "c" "other" ltac:(discriminate) eq_refl). Defined.

(** [ends never;] is read as a date: the word after the weekday that is not there is taken for
    the date.  When that word is the closing brace of the lease, the lease goes on, and swallows the
    next one: of two leases, only the second name is left, with the address of the first. *)
Theorem ends_never_swallows_brace :
  load_dhcp "lan"
    ("lease 10.0.0.5 { hostname a; ends never; } lease 10.0.0.6 { hostname b; ends 2 2024/01/02 05:04:05; }") 0 []
  = Ok [{| name := "b"; fqdn := "b.lan"; expires := 1704171845; addr := [10; 0; 0; 5] |}].
Proof. vm_compute. reflexivity. Qed.
