(* ===== verification/Dhcpleases6.v ===== *)
(** dhcpleases6, dhcpleases6.c: the older copy of dhcpleases that runs a command whenever the lease file
    changes, and without a command was to keep the names of the leases in the hosts file.  What its
    text shares with dhcpleases.c is taken from [Dhcpleases]. *)
From Stdlib Require Import ZArith Lia Ascii String.
From stdpp Require Import base list strings numbers.
From S2P Require Import Prelude CProg Dhcpleases.
Open Scope string_scope.
Open Scope list_scope.
Open Scope Z_scope.

(** The same text as in dhcpleases.c. *)
Definition legal_char6 : ascii -> bool := legal_char.
Definition canonicalise6 : string -> option string := canonicalise.
Definition hostname_isequal6 : string -> string -> bool := hostname_isequal.
Definition convert_time6 : tm -> outcome Z := convert_time.

(** ** Tokens *)

(** The loop of [next_token], which does not know quoted strings. *)
Fixpoint token_loop6 (buffsize : nat) (fp : string) (comment : bool) (cp : string) : string * string :=
  let count := String.length cp in
  match fp with
  | EmptyString =>
      (if comment && (count <? buffsize - 1)%nat then cp +:+ String (ascii_of_Z 255) "" else cp, EmptyString)
  | String c fp =>
      if (if comment then negb (Ascii.eqb c LF) else Ascii.eqb c "#") then token_loop6 buffsize fp true cp
      else if Ascii.eqb c " " || Ascii.eqb c TAB || Ascii.eqb c LF || Ascii.eqb c ";" then
        if (0 <? count)%nat then (cp, fp) else token_loop6 buffsize fp false cp
      else if negb (Ascii.eqb c QUOTE) && (count <? buffsize - 1)%nat then
        token_loop6 buffsize fp false (cp +:+ String c "")
      else token_loop6 buffsize fp false cp
  end.

(** [next_token(token, buffsize, fp)] for a buffer of [size] bytes. *)
Definition next_token6 (size buffsize : nat) (fp : string) : outcome (option string * string) :=
  let '(cp, fp) := token_loop6 buffsize fp false "" in
  let count := String.length cp in
  if (size <=? count)%nat then Fail (ArrayBounds (Z.of_nat count))
  else Ok (if (count =? 0)%nat then None else Some (c_str cp), fp).

Definition token6 (fp : string) : outcome (option string * string) := next_token6 MAXTOK MAXTOK fp.

(** ** The lease file *)

Definition read_date6 (fp : string) : outcome (option tm * string) :=
  '(t, fp) ← token6 fp;
  match t with
  | None => Ok (None, fp)
  | Some _ =>
      '(t, fp) ← token6 fp;
      match t ≫= scan3 "/" with
      | None => Ok (None, fp)
      | Some (y, m, d) =>
          '(t, fp) ← token6 fp;
          match t ≫= scan3 ":" with
          | None => Ok (None, fp)
          | Some (h, mi, s) =>
              Ok (Some {| tm_year := y; tm_mon := m; tm_mday := d; tm_hour := h; tm_min := mi; tm_sec := s |}, fp)
          end
      end
  end.

(** A name that is no host name is no name; at the end of the file the buffer is empty. *)
Definition read_hostname6 (d : decl) (fp : string) : outcome (decl * string) :=
  '(t, fp) ← next_token6 namebuff_size MAXDNAME fp;
  let h := match t with None => "" | Some h => default "" (canonicalise6 h) end in
  Ok ({| hostname := h; ttd := ttd d; tts := tts d |}, fp).

Definition read_time6 (is_ends : bool) (d : decl) (fp : string) : outcome (decl * string) :=
  '(t, fp) ← read_date6 fp;
  match t with
  | None => Ok (d, fp)
  | Some t =>
      time ← convert_time6 t;
      Ok ({| hostname := hostname d; ttd := if is_ends then time else ttd d;
             tts := if is_ends then tts d else time |}, fp)
  end.

(** [while (next_token(token, MAXTOK, fp) && *token != '}')] *)
Fixpoint lease_body6 (fuel : nat) (d : decl) (fp : string) : outcome (decl * string) :=
  match fuel with
  | O => Fail NoFuel
  | S fuel =>
      '(t, fp) ← token6 fp;
      match t with
      | None => Ok (d, fp)
      | Some t =>
          if String.prefix "}" t then Ok (d, fp)
          else if String.eqb t "client-hostname" || String.eqb t "hostname" then
            '(d, fp) ← read_hostname6 d fp; lease_body6 fuel d fp
          else if String.eqb t "ends" || String.eqb t "starts" then
            '(d, fp) ← read_time6 (String.eqb t "ends") d fp; lease_body6 fuel d fp
          else lease_body6 fuel d fp
      end
  end.

(** The end of a lease, 0 for an infinite one; [None] when it has none or has passed. *)
Definition expiry6 (now : Z) (d : decl) : option Z :=
  if ttd d =? -1 then None
  else if negb (tts d =? -1) && (ttd d =? tts d - 1) then Some 0
  else if ttd d <? now then None
  else Some (ttd d).

(** The name; [None] for a lease that is ignored because of its domain. *)
Definition name6 (domain_suffix : option string) (h : string) : option string :=
  match cut_dot h with
  | (host, Some sfx) =>
      match domain_suffix with
      | None => None
      | Some d => if hostname_isequal6 sfx d then None else Some host
      end
  | (host, None) => Some host
  end.

(** From "missing info?" to the end of the loop.  [strlen(domain_suffix)] of a null pointer is
    undefined. *)
Definition add_decl6 (domain_suffix : option string) (now : Z) (a : list Z) (d : decl) (leases : list isc_lease)
    : outcome (list isc_lease) :=
  if String.eqb (hostname d) "" then Ok leases
  else
    match expiry6 now d, name6 domain_suffix (hostname d) with
    | Some e, Some n =>
        match domain_suffix with
        | None => Fail (Oob 0)
        | Some sfx => Ok (update_leases {| name := n; fqdn := n +:+ "." +:+ sfx; expires := e; addr := a |} leases)
        end
    | _, _ => Ok leases
    end.

Fixpoint load_loop6 (fuel : nat) (domain_suffix : option string) (now : Z) (fp : string) (leases : list isc_lease)
    : outcome (list isc_lease) :=
  match fuel with
  | O => Fail NoFuel
  | S fuel =>
      '(t, fp) ← token6 fp;
      match t with
      | None => Ok leases
      | Some t =>
          if negb (String.eqb t "lease") then load_loop6 fuel domain_suffix now fp leases
          else
            '(t, fp) ← token6 fp;
            match t ≫= inet_pton with
            | None => load_loop6 fuel domain_suffix now fp leases
            | Some a =>
                '(t, fp) ← token6 fp;
                if match t with Some t => String.prefix "{" t | None => false end then
                  '(d, fp) ← lease_body6 fuel decl_init fp;
                  leases ← add_decl6 domain_suffix now a d leases;
                  load_loop6 fuel domain_suffix now fp leases
                else load_loop6 fuel domain_suffix now fp leases
            end
      end
  end.

(** The leases of the last run are dropped first. *)
Definition load_dhcp6 (domain_suffix : option string) (fp : string) (now : Z) : outcome (list isc_lease) :=
  leases ← load_loop6 (S (String.length fp)) domain_suffix now fp [];
  Ok (prune now leases).

(** ** The daemon *)

(** The static variables and the hosts file.  No option sets [domain_suffix] and [HOSTS]; [HOSTS] is
    here whether a path is set. *)
Record state6 : Type := {
  suffix6 : option string;
  HOSTS6 : bool;
  hostssize6 : Z;
  leases6 : list isc_lease;
  hosts_file6 : option string;
  commands : nat                 (* how often the command was run *)
}.

Definition set6 (size : Z) (l : list isc_lease) (f : option string) (n : nat) (st : state6) : state6 :=
  {| suffix6 := suffix6 st; HOSTS6 := HOSTS6 st; hostssize6 := size; leases6 := l; hosts_file6 := f; commands := n |}.

(** [open] of a null pointer fails.  [tmpsize < hostssize] compares as unsigned. *)
Definition write_status6 (st : state6) : state6 :=
  if negb (HOSTS6 st) then st
  else
    let f := open_creat (hosts_file6 st) in
    let tmpsize := Z.of_nat (String.length f) in
    let size := if tmpsize <? u64 (hostssize6 st) then tmpsize else hostssize6 st in
    set6 size (leases6 st) (Some (ftruncate f size +:+ banner +:+ concat_lines hosts_line (leases6 st))) (commands st) st.

Definition cleanup6 (st : state6) : state6 := set6 (hostssize6 st) [] (hosts_file6 st) (commands st) st.

(** What main does on start and when the lease file has changed, was deleted or renamed. *)
Definition update6 (command : option string) (fp : string) (now : Z) (st : state6) : outcome state6 :=
  match command with
  | Some _ => Ok (set6 (hostssize6 st) (leases6 st) (hosts_file6 st) (S (commands st)) st)
  | None =>
      l ← load_dhcp6 (suffix6 st) fp now;
      Ok (cleanup6 (write_status6 (set6 (hostssize6 st) l (hosts_file6 st) (commands st) st)))
  end.

(** SIGHUP; [hostssize] is tested instead of [size]. *)
Definition handle_sighup6 (st : state6) : state6 :=
  let size := if HOSTS6 st then match hosts_file6 st with Some f => Z.of_nat (String.length f) | None => -1 end else -1 in
  set6 (if hostssize6 st <? 0 then hostssize6 st else size) (leases6 st) (hosts_file6 st) (commands st) st.

Inductive event6 : Type := LeasesChanged6 (fp : string) (now : Z) | Hup6.

Definition step6 (command : option string) (e : event6) (st : state6) : outcome state6 :=
  match e with
  | LeasesChanged6 fp now => update6 command fp now st
  | Hup6 => Ok (handle_sighup6 st)
  end.

Fixpoint run6 (command : option string) (es : list event6) (st : state6) : outcome state6 :=
  match es with
  | [] => Ok st
  | e :: es => st ← step6 command e st; run6 command es st
  end.

(** The options -c and -l are all that is read. *)
Definition start6 (hosts : option string) : state6 :=
  {| suffix6 := None; HOSTS6 := false; hostssize6 := 0; leases6 := []; hosts_file6 := hosts; commands := 0 |}.

(** ** The parser ends *)

Lemma token_loop6_rest n fp : forall comment cp,
  (String.length (token_loop6 n fp comment cp).2 <= String.length fp)%nat /\
  (fp <> "" -> String.length (token_loop6 n fp comment cp).2 < String.length fp)%nat.
Proof.
  induction fp as [|c fp IH]; intros comment cp; cbn [token_loop6]; [done|].
  assert (Hrec : forall co cp', (String.length (token_loop6 n fp co cp').2 <= String.length (String c fp))%nat /\
    (String c fp <> "" -> String.length (token_loop6 n fp co cp').2 < String.length (String c fp))%nat).
  { intros co cp'. destruct (IH co cp') as [H _]. cbn [String.length]. lia. }
  destruct (if comment then _ else _); [apply Hrec|].
  destruct (_ || _); [destruct (_ <? _)%nat; [cbn [snd String.length]; lia | apply Hrec]|].
  destruct (_ && _); apply Hrec.
Qed.

Lemma next_token6_ends size buffsize fp : ends (after_token (String.length fp)) (next_token6 size buffsize fp).
Proof.
  unfold next_token6. pose proof (token_loop6_rest buffsize fp false "") as H.
  destruct (token_loop6 buffsize fp false "") as [cp r] eqn:E. cbn [snd] in H. destruct H as [H2 H3].
  destruct (_ <=? _)%nat; [done|]. split; [done|]. cbn. intros Hc. apply H3. intros ->. cbn in E.
  by injection E as <- <-.
Qed.

Lemma token6_ends fp : ends (after_token (String.length fp)) (token6 fp).
Proof. apply next_token6_ends. Qed.

Lemma read_date6_ends fp : ends (rest_le (String.length fp)) (read_date6 fp).
Proof.
  unfold read_date6. eapply ends_bind; [apply token6_ends|]. intros [[t|] r] [H1 _]; [|exact H1].
  unfold rest_le in H1. cbn in H1.
  eapply ends_bind; [apply token6_ends|]. intros [t2 r2] [H2 _]. unfold rest_le in H2. cbn in H2.
  destruct (t2 ≫= scan3 "/") as [[[y m] d]|]; [|unfold ends, rest_le; cbn; lia].
  eapply ends_bind; [apply token6_ends|]. intros [t3 r3] [H3 _]. unfold rest_le in H3. cbn in H3.
  destruct (t3 ≫= scan3 ":") as [[[h mi] s]|]; unfold ends, rest_le; cbn; lia.
Qed.

Lemma read_time6_ends b d fp : ends (rest_le (String.length fp)) (read_time6 b d fp).
Proof.
  unfold read_time6. eapply ends_bind; [apply read_date6_ends|]. intros [[t|] r] Hr; [|exact Hr].
  eapply ends_bind; [apply convert_time_ends|]. intros z _. exact Hr.
Qed.

Lemma read_hostname6_ends d fp : ends (rest_le (String.length fp)) (read_hostname6 d fp).
Proof. unfold read_hostname6. eapply ends_bind; [apply next_token6_ends|]. intros [t r] [Hr _]. exact Hr. Qed.

Lemma lease_body6_ends fuel : forall d fp, (String.length fp < fuel)%nat ->
  ends (rest_le (String.length fp)) (lease_body6 fuel d fp).
Proof.
  induction fuel as [|fuel IH]; intros d fp Hf; [lia|]. cbn [lease_body6].
  eapply ends_bind; [apply token6_ends|]. intros [[t|] r] [H1 H2]; cbn in H1, H2; [|exact H1].
  specialize (H2 ltac:(done)). unfold rest_le in H1. cbn in H1.
  assert (Hgo : forall (m : outcome (decl * string)), ends (rest_le (String.length r)) m ->
    ends (rest_le (String.length fp)) ('(d, fp) ← m; lease_body6 fuel d fp)).
  { intros m Hm. eapply ends_bind; [exact Hm|]. intros [d' r'] Hr'. unfold rest_le in Hr'. cbn in Hr'.
    eapply ends_mono; [apply IH; lia|]. intros x Hx. apply (rest_le_trans _ _ _ Hx). lia. }
  destruct (String.prefix "}" t); [unfold ends, rest_le; cbn; lia|].
  destruct (_ || _); [apply Hgo, read_hostname6_ends|].
  destruct (_ || _); [apply Hgo, read_time6_ends|].
  eapply ends_mono; [apply IH; lia|]. intros x Hx. apply (rest_le_trans _ _ _ Hx). lia.
Qed.

Lemma add_decl6_none now a d leases : ends (fun l => l = leases) (add_decl6 None now a d leases).
Proof.
  unfold add_decl6. destruct (String.eqb _ _); [done|]. by destruct (expiry6 now d), (name6 None (hostname d)).
Qed.

(** Without a suffix no lease is ever added. *)
Lemma load_loop6_none fuel : forall now fp ls, (String.length fp < fuel)%nat ->
  ends (fun l => l = ls) (load_loop6 fuel None now fp ls).
Proof.
  induction fuel as [|fuel IH]; intros now fp ls Hf; [lia|]. cbn [load_loop6].
  eapply ends_bind; [apply token6_ends|]. intros [[t|] r] [H1 H2]; cbn in H1, H2; [|done].
  specialize (H2 ltac:(done)). destruct (negb _); [apply IH; lia|].
  eapply ends_bind; [apply token6_ends|]. intros [t2 r2] [H3 _]. unfold rest_le in H3. cbn in H3.
  destruct (t2 ≫= inet_pton) as [a|]; [|apply IH; lia].
  eapply ends_bind; [apply token6_ends|]. intros [t3 r3] [H4 _]. unfold rest_le in H4. cbn in H4.
  destruct (match t3 with Some _ => _ | None => _ end); [|apply IH; lia].
  eapply ends_bind; [apply lease_body6_ends; lia|]. intros [d r4] H5. unfold rest_le in H5. cbn in H5.
  eapply ends_bind; [apply add_decl6_none|]. intros l ->. apply IH. lia.
Qed.

Lemma load_dhcp6_none fp now : ends (fun l => l = []) (load_dhcp6 None fp now).
Proof.
  unfold load_dhcp6. eapply ends_bind; [apply load_loop6_none; lia|]. intros l ->. done.
Qed.

(** ** What the daemon does *)

Definition changes (es : list event6) : nat :=
  length (List.filter (fun e => match e with LeasesChanged6 _ _ => true | Hup6 => false end) es).

(** A state in which the program has set neither a suffix nor the hosts file. *)
Definition bare (hosts : option string) (st : state6) : Prop :=
  suffix6 st = None /\ HOSTS6 st = false /\ leases6 st = [] /\ hosts_file6 st = hosts.

Lemma step6_bare command hosts e st : bare hosts st ->
  ends (bare hosts) (step6 command e st).
Proof.
  intros (H1 & H2 & H3 & H4). destruct e as [fp now|]; cbn [step6]; [|done].
  unfold update6. destruct command as [cmd|]; [done|]. rewrite H1.
  eapply ends_bind; [apply load_dhcp6_none|]. intros l ->. unfold write_status6. cbn. by rewrite H2.
Qed.

Lemma run6_bare command hosts es : forall st, bare hosts st -> ends (bare hosts) (run6 command es st).
Proof.
  induction es as [|e es IH]; intros st Hst; cbn [run6]; [done|].
  eapply ends_bind; [by apply step6_bare|]. done.
Qed.

Lemma run6_command cmd es : forall st, exists st', run6 (Some cmd) es st = Ok st' /\
  commands st' = (commands st + changes es)%nat.
Proof.
  induction es as [|[fp now|] es IH]; intros st; cbn [run6 step6 update6 mbind outcome_bind].
  - exists st. unfold changes. cbn. split; [done | lia].
  - destruct (IH (set6 (hostssize6 st) (leases6 st) (hosts_file6 st) (S (commands st)) st)) as (st' & -> & E).
    exists st'. split; [done|]. rewrite E. unfold changes. cbn. lia.
  - destruct (IH (handle_sighup6 st)) as (st' & -> & E). exists st'. split; [done|]. by rewrite E.
Qed.

Definition one_lease : string :=
  "lease 10.0.0.7 { starts 1 2024/01/01 10:00:00; ends 1 2034/01/02 10:00:00; client-hostname laptop; }".

(** With a command the daemon runs it once for every change of the lease file, whatever the file
    contains.  Without one it publishes nothing: it ends every run without a lease and with the hosts
    file as it was, or it reads through the null pointer [domain_suffix], as it does for the first
    valid lease. *)
Theorem dhcpleases6_needs_command hosts es :
  (forall cmd, exists st, run6 (Some cmd) es (start6 hosts) = Ok st /\ commands st = changes es /\ hosts_file6 st = hosts) /\
  (forall st, run6 None es (start6 hosts) = Ok st -> leases6 st = [] /\ hosts_file6 st = hosts) /\
  run6 None es (start6 hosts) <> Fail NoFuel /\
  run6 None [LeasesChanged6 one_lease 1704200000] (start6 hosts) = Fail (Oob 0).
Proof.
  assert (Hb : bare hosts (start6 hosts)) by done. split; [|split; [|split]].
  - intros cmd. destruct (run6_command cmd es (start6 hosts)) as (st & E & Hc). exists st.
    pose proof (run6_bare (Some cmd) hosts es _ Hb) as Hr. rewrite E in Hr. destruct Hr as (_ & _ & _ & Hr). auto.
  - intros st E. pose proof (run6_bare None hosts es _ Hb) as Hr. rewrite E in Hr. by destruct Hr as (_ & _ & ? & ?).
  - pose proof (run6_bare None hosts es _ Hb) as Hr. destruct (run6 _ _ _); cbn in Hr; congruence.
  - vm_compute. reflexivity.
Qed.
