(* ===== verification/DlMain.v ===== *)
(** dhcpleases and dhcpleases6, their main programs: the options, the checks with their exit statuses, the
    lease file that is opened again after it was replaced, the command of -c, and the signals; and that the
    daemon is the one whose updates [Dhcpleases] describes. *)
From Stdlib Require Import ZArith Lia Ascii String.
From stdpp Require Import base list strings numbers.
From S2P Require Import Prelude CProg Dhcpleases Dhcpleases6.
Open Scope string_scope.
Open Scope list_scope.
Open Scope Z_scope.

(** ** Options *)

(** The variables that the options of dhcpleases set. *)
Record args : Type := {
  command : option string;
  suffix : option string;
  fore : bool;
  pidfile : option string;
  HOSTS : option string;
  leasefile : option string;
  unbound_conf : option string
}.

Definition no_args : args :=
  {| command := None; suffix := None; fore := false; pidfile := None; HOSTS := None; leasefile := None; unbound_conf := None |}.

(** One option; [None] is the default case. *)
Definition main_option (ch : ascii) (optarg : string) (a : args) : option args :=
  let set := fun c d f p h l u =>
    Some {| command := c; suffix := d; fore := f; pidfile := p; HOSTS := h; leasefile := l; unbound_conf := u |} in
  if Ascii.eqb ch "c" then set (Some optarg) (suffix a) (fore a) (pidfile a) (HOSTS a) (leasefile a) (unbound_conf a)
  else if Ascii.eqb ch "d" then set (command a) (Some optarg) (fore a) (pidfile a) (HOSTS a) (leasefile a) (unbound_conf a)
  else if Ascii.eqb ch "f" then set (command a) (suffix a) true (pidfile a) (HOSTS a) (leasefile a) (unbound_conf a)
  else if Ascii.eqb ch "p" then set (command a) (suffix a) (fore a) (Some optarg) (HOSTS a) (leasefile a) (unbound_conf a)
  else if Ascii.eqb ch "h" then set (command a) (suffix a) (fore a) (pidfile a) (Some optarg) (leasefile a) (unbound_conf a)
  else if Ascii.eqb ch "l" then set (command a) (suffix a) (fore a) (pidfile a) (HOSTS a) (Some optarg) (unbound_conf a)
  else if Ascii.eqb ch "u" then set (command a) (suffix a) (fore a) (pidfile a) (HOSTS a) (leasefile a) (Some optarg)
  else None.

(** The [getopt] loop, over option characters with their arguments; [inr] is the exit status. *)
Fixpoint main_options (opts : list (ascii * string)) (a : args) : args + Z :=
  match opts with
  | [] => inl a
  | (ch, optarg) :: opts => match main_option ch optarg a with Some a => main_options opts a | None => inr 2 end
  end.

(** ** Starting *)

(** What the system answers: whether the lease file is a regular file, the hosts file if it is one, and
    whether [daemon], the [open] of the pid file, the two [sigaction]s and [kqueue] succeed. *)
Record env : Type := {
  lease_exists : bool;
  hosts_text : option string;
  daemon_ok : bool;
  pid_ok : bool;
  hup_ok : bool;
  term_ok : bool;
  kqueue_ok : bool
}.

(** The size is returned as an [int]. *)
Definition fsize (f : option string) : Z := match f with Some s => i32 (Z.of_nat (String.length s)) | None => -1 end.

Definition the_conf (a : args) : conf :=
  {| domain_suffix := default "local" (suffix a); foreground := fore a; unbound := bool_decide (is_Some (unbound_conf a)) |}.

(** main up to [LIST_INIT]; [inr] is the exit status. *)
Definition main_setup (a : args) (e : env) : state + Z :=
  let st size := {| hostssize := size; leases := []; hosts_file := hosts_text e; unbound_file := None; hups := [] |} in
  if bool_decide (leasefile a = None) then inr 1
  else if negb (lease_exists e) then inr 1
  else if bool_decide (pidfile a = None) && negb (fore a) then inr 1
  else if fore a then inl (st 0)
  else if bool_decide (HOSTS a = None) then inr 8
  else if bool_decide (hosts_text e = None) then inr 8
  else if fsize (hosts_text e) <? 0 then inr 6
  else if negb (daemon_ok e) then inr 4
  else if negb (pid_ok e) then inr 1
  else if negb (hup_ok e) then inr 9
  else if negb (term_ok e) then inr 10
  else if negb (kqueue_ok e) then inr 1
  else inl (st (fsize (hosts_text e))).

(** ** Running *)

(** The process: its state and how often the command was run. *)
Inductive status : Type :=
  | Running (st : state) (ran : nat)
  | Exited (code : Z) (st : state) (ran : nat).

(** What an [open] of the lease file finds: its text, the time, and the content of the pid file. *)
Record found : Type := { f_text : string; f_now : Z; f_pid : option string }.

(** Without a path [write_status] cannot open the hosts file; this happens only in the foreground. *)
Definition main_update (a : args) (f : found) (st : state) : outcome state :=
  match HOSTS a with
  | Some _ => update (the_conf a) (f_text f) (f_now f) (f_pid f) st
  | None =>
      l ← load_dhcp (domain_suffix (the_conf a)) (f_text f) (f_now f) (leases st);
      Ok (cleanup {| hostssize := hostssize st; leases := l; hosts_file := hosts_file st;
                     unbound_file := unbound_file st; hups := hups st |})
  end.

(** From the label [reopen] to the loop; in the foreground main returns. *)
Definition reopen (a : args) (f : option found) (st : state) (ran : nat) : outcome status :=
  match f with
  | None => Ok (Exited 6 st ran)
  | Some f =>
      st ← (match command a with None => main_update a f st | Some _ => Ok st end);
      Ok (if fore a then Exited 0 st ran else Running st ran)
  end.

(** What can happen in the loop: [kevent] is interrupted, fails or reports an error; the lease file was
    deleted or renamed (with what is there when it is opened again); it was changed; a signal; somebody else
    writes the hosts file. *)
Inductive devent : Type :=
  | KInterrupted
  | KFailed (f : option found)
  | KError (f : option found)
  | KGone (f : option found)
  | KChanged (f : found)
  | SigHup
  | SigTerm
  | Edited (h : option string).

Definition main_step (a : args) (e : devent) (st : state) (ran : nat) : outcome status :=
  match e with
  | KInterrupted => Ok (Running st ran)
  | KFailed f | KError f | KGone f => reopen a f st ran
  | KChanged f =>
      match command a with
      | Some _ => Ok (Running st (S ran))
      | None => st ← main_update a f st; Ok (Running st ran)
      end
  | SigHup => Ok (Running (handle_sighup st) ran)
  | SigTerm => Ok (Exited 0 (handle_sigterm st) ran)
  | Edited h =>
      Ok (Running {| hostssize := hostssize st; leases := leases st; hosts_file := h; unbound_file := unbound_file st;
                     hups := hups st |} ran)
  end.

Fixpoint main_loop (a : args) (es : list devent) (s : status) : outcome status :=
  match s, es with
  | Running st ran, e :: es => s ← main_step a e st ran; main_loop a es s
  | _, _ => Ok s
  end.

(** The whole program; [inr] is an exit before the lease file is opened. *)
Definition dhcpleases_main (opts : list (ascii * string)) (e : env) (first : option found) (es : list devent)
    : outcome (status + Z) :=
  match main_options opts no_args with
  | inr code => Ok (inr code)
  | inl a =>
      match main_setup a e with
      | inr code => Ok (inr code)
      | inl st => s ← reopen a first st 0; s ← main_loop a es s; Ok (inl s)
      end
  end.

(** ** The daemon is the one of [Dhcpleases] *)

(** What an event is for the updates. *)
Definition lowered (e : devent) : list event :=
  match e with
  | KFailed (Some f) | KError (Some f) | KGone (Some f) | KChanged f => [LeasesChanged (f_text f) (f_now f) (f_pid f)]
  | SigHup => [Hup]
  | Edited h => [HostsEdited h]
  | _ => []
  end.

(** Events that leave the daemon running: no SIGTERM, and a replaced lease file can be opened. *)
Definition quiet (e : devent) : bool :=
  match e with SigTerm | KFailed None | KError None | KGone None => false | _ => true end.

(** A daemon (not in the foreground) that updates the hosts file itself. *)
Definition updates_hosts (a : args) : Prop := command a = None /\ fore a = false /\ is_Some (HOSTS a).

Lemma main_update_eq a f st : is_Some (HOSTS a) -> main_update a f st = update (the_conf a) (f_text f) (f_now f) (f_pid f) st.
Proof. unfold main_update. by intros [h ->]. Qed.

Lemma reopen_eq a f st n : updates_hosts a ->
  reopen a (Some f) st n = (st ← update (the_conf a) (f_text f) (f_now f) (f_pid f) st; Ok (Running st n)).
Proof. intros (Hc & Hf & Hh). unfold reopen. by rewrite Hc, Hf, main_update_eq. Qed.

Lemma main_step_eq a e st n : updates_hosts a -> quiet e = true ->
  main_step a e st n = (st ← run (the_conf a) (lowered e) st; Ok (Running st n)).
Proof.
  intros Ha. pose proof Ha as (Hc & Hf & Hh).
  assert (Hu : forall f, (st ← update (the_conf a) (f_text f) (f_now f) (f_pid f) st; Ok (Running st n)) =
    (st ← run (the_conf a) [LeasesChanged (f_text f) (f_now f) (f_pid f)] st; Ok (Running st n))).
  { intros f. cbn [run step mbind outcome_bind]. by destruct (update _ _ _ _ _). }
  destruct e as [|[f|]|[f|]|[f|]|f| | |h]; intros Hq; try discriminate Hq; try done;
    cbn [main_step lowered]; rewrite ?reopen_eq by done; [apply Hu..|].
  rewrite Hc, main_update_eq by done. apply Hu.
Qed.

Lemma run_app c es fs : forall st, run c (es ++ fs) st = (st ← run c es st; run c fs st).
Proof. induction es as [|e es IH]; intros st; cbn [app run]; [done|]. destruct (step c e st); [apply IH | done]. Qed.

Lemma main_loop_runs a es : updates_hosts a -> forall st n, Forall (fun e => quiet e = true) es -> forall rest,
  main_loop a (es ++ rest) (Running st n) =
  (st ← run (the_conf a) (concat (map lowered es)) st; main_loop a rest (Running st n)).
Proof.
  intros Ha. induction es as [|e es IH]; intros st n Hq rest; [done|]. apply Forall_cons_1 in Hq as [He Hq].
  cbn [app main_loop map concat]. rewrite main_step_eq, run_app by done.
  destruct (run _ (lowered e) st) as [st1|]; [|done]. cbn [mbind outcome_bind]. by apply IH.
Qed.

Lemma main_setup_start a e st hosts : updates_hosts a -> hosts_text e = Some hosts -> Z.of_nat (String.length hosts) < 2 ^ 31 ->
  main_setup a e = inl st -> st = start hosts.
Proof.
  intros (_ & Hf & _) Hh Hl. unfold main_setup. rewrite Hf, Hh. intros Hs.
  repeat match type of Hs with (if ?b then _ else _) = _ => destruct b; try discriminate Hs end.
  injection Hs as <-. unfold start, fsize. by rewrite i32_small by lia.
Qed.

Definition unedited (e : devent) : bool := match e with Edited _ => false | _ => true end.

Lemma unedited_lowered es : Forall (fun e => unedited e = true) es -> Forall not_edited (concat (map lowered es)).
Proof.
  induction 1 as [|e es He _ IH]; [constructor|]. cbn [map concat]. apply Forall_app_2; [|done].
  destruct e as [|[f|]|[f|]|[f|]|f| | |h]; try discriminate He; repeat constructor.
Qed.

(** The updates of a started daemon, up to the rest of its events. *)
Lemma dhcpleases_main_runs opts a e hosts f es rest :
  main_options opts no_args = inl a -> updates_hosts a -> hosts_text e = Some hosts ->
  Z.of_nat (String.length hosts) < 2 ^ 31 -> Forall (fun e => quiet e = true) es ->
  dhcpleases_main opts e (Some f) (es ++ rest) =
  match main_setup a e with
  | inr code => Ok (inr code)
  | inl _ =>
      st ← run (the_conf a) (LeasesChanged (f_text f) (f_now f) (f_pid f) :: concat (map lowered es)) (start hosts);
      s ← main_loop a rest (Running st 0); Ok (inl s)
  end.
Proof.
  intros Ho Ha Hh Hl Hq. unfold dhcpleases_main. rewrite Ho. destruct (main_setup a e) as [st|code] eqn:Es; [|done].
  rewrite (main_setup_start _ _ _ _ Ha Hh Hl Es), reopen_eq by done. cbn [run step].
  destruct (update _ _ _ _ (start hosts)) as [st1|]; [|done]. cbn [mbind outcome_bind].
  rewrite main_loop_runs by done. by destruct (run _ (concat (map lowered es)) st1).
Qed.

(** C22. The whole daemon gives the hosts file back: started with any options that make it update the hosts
    file, through changes and replacements of the lease file, failures and interruptions of [kevent] and
    SIGHUPs, as long as nobody else writes the hosts file and the lease file can be opened again, SIGTERM ends
    it with status 0 and the hosts file as it was at the start. *)
Theorem dhcpleases_restores_hosts opts a e hosts f es s :
  main_options opts no_args = inl a -> updates_hosts a -> hosts_text e = Some hosts ->
  Z.of_nat (String.length hosts) < 2 ^ 31 -> Forall (fun e => quiet e = true /\ unedited e = true) es ->
  dhcpleases_main opts e (Some f) (es ++ [SigTerm]) = Ok (inl s) ->
  exists st, s = Exited 0 st 0 /\ hosts_file st = Some hosts /\ leases st = [].
Proof.
  intros Ho Ha Hh Hl Hes. assert (Hq : Forall (fun e => quiet e = true) es) by (eapply Forall_impl; [|exact Hes]; by intros ? []).
  rewrite (dhcpleases_main_runs opts a e hosts f es [SigTerm] Ho Ha Hh Hl Hq). destruct (main_setup a e); [|done].
  destruct (run _ _ (start hosts)) as [st|] eqn:Er; [|done]. intros [= <-]. exists (handle_sigterm st).
  split; [done|].
  assert (Hn : Forall not_edited (LeasesChanged (f_text f) (f_now f) (f_pid f) :: concat (map lowered es))).
  { constructor; [done|]. apply unedited_lowered. eapply Forall_impl; [|exact Hes]; by intros ? []. }
  destruct (keeps_truncate _ _ (run_keeps _ _ _ _ _ Hn (start_keeps hosts) Er)) as [Hm Ht].
  unfold handle_sigterm, truncate_hosts, cleanup. cbn [hosts_file leases]. by rewrite Hm, Ht.
Qed.

(** When the lease file is gone at the moment it is opened again, the daemon exits with status 6 and
    leaves the hosts file with the entries of its last update. *)
Theorem lost_lease_file_leaves_entries opts a e hosts f es s gone :
  main_options opts no_args = inl a -> updates_hosts a -> hosts_text e = Some hosts ->
  Z.of_nat (String.length hosts) < 2 ^ 31 -> Forall (fun e => quiet e = true) es ->
  gone ∈ [KFailed None; KError None; KGone None] ->
  dhcpleases_main opts e (Some f) (es ++ [gone]) = Ok (inl s) ->
  exists st, run (the_conf a) (LeasesChanged (f_text f) (f_now f) (f_pid f) :: concat (map lowered es)) (start hosts) = Ok st
    /\ s = Exited 6 st 0.
Proof.
  intros Ho Ha Hh Hl Hq Hg. rewrite (dhcpleases_main_runs opts a e hosts f es [gone] Ho Ha Hh Hl Hq).
  destruct (main_setup a e); [|done]. destruct (run _ _ (start hosts)) as [st|] eqn:Er; [|done].
  intros Hs. exists st. split; [done|]. revert Hs.
  repeat (apply elem_of_cons in Hg as [-> |Hg]; [intros [= <-]; done|]). by apply elem_of_nil in Hg.
Qed.

(** ** With a command *)

Definition changed (e : devent) : bool := match e with KChanged _ => true | _ => false end.

(** With -c the command is run once for every change of the lease file, but neither at the start nor when
    the file was replaced, and the hosts file is not written. *)
Theorem dhcpleases_command opts a cmd e f es s :
  main_options opts no_args = inl a -> command a = Some cmd -> fore a = false ->
  Forall (fun e => quiet e = true /\ unedited e = true) es ->
  dhcpleases_main opts e (Some f) es = Ok (inl s) ->
  exists st, s = Running st (length (List.filter changed es)) /\ hosts_file st = hosts_text e.
Proof.
  intros Ho Hc Hf Hes. unfold dhcpleases_main. rewrite Ho. destruct (main_setup a e) as [st|] eqn:Es; [|done].
  assert (Hh : hosts_file st = hosts_text e).
  { unfold main_setup in Es. repeat match type of Es with (if ?b then _ else _) = _ => destruct b; try discriminate Es end;
      by injection Es as <-. }
  unfold reopen at 1. rewrite Hc, Hf. cbn [mbind outcome_bind]. clear Es. rewrite <- Hh. clear Hh.
  assert (Hl : forall es st n, Forall (fun e => quiet e = true /\ unedited e = true) es -> exists st',
    main_loop a es (Running st n) = Ok (Running st' (n + length (List.filter changed es))) /\ hosts_file st' = hosts_file st).
  { clear -Hc Hf. induction es as [|e es IH]; intros st n Hes; [exists st; cbn; by rewrite Nat.add_0_r|].
    apply Forall_cons_1 in Hes as [[Hq Hu] Hes].
    assert (Hs : exists st1, main_step a e st n = Ok (Running st1 (n + if changed e then 1 else 0)) /\ hosts_file st1 = hosts_file st).
    { destruct e as [|[g|]|[g|]|[g|]|g| | |h]; try discriminate Hq; try discriminate Hu;
        cbn [main_step changed]; unfold reopen; rewrite ?Hc, ?Hf, ?Nat.add_0_r, ?Nat.add_1_r; by eexists. }
    destruct Hs as (st1 & E & Hh). cbn [main_loop]. rewrite E. cbn [mbind outcome_bind].
    destruct (IH st1 (n + if changed e then 1 else 0)%nat Hes) as (st' & -> & Hh'). exists st'. split; [|congruence].
    cbn [List.filter]. destruct (changed e); cbn [length]; do 2 f_equal; lia. }
  destruct (Hl es st O Hes) as (st' & -> & Hh'). intros [= <-]. by exists st'.
Qed.

(** ** dhcpleases6 *)

(** The variables that the options -c and -l set. *)
Fixpoint main_options6 (opts : list (ascii * string)) (cmd lease : option string) : (option string * option string) + Z :=
  match opts with
  | [] => inl (cmd, lease)
  | (ch, optarg) :: opts =>
      if Ascii.eqb ch "c" then main_options6 opts (Some optarg) lease
      else if Ascii.eqb ch "l" then main_options6 opts cmd (Some optarg)
      else inr 2
  end.

Inductive status6 : Type :=
  | Running6 (st : state6)
  | Exited6 (code : Z) (st : state6).

(** From the label [reopen] to the loop.  The pid file may fail; the handlers are set and the queue is made
    again each time. *)
Definition reopen6 (cmd : option string) (e : env) (f : option (string * Z)) (st : state6) : outcome status6 :=
  match f with
  | None => Ok (Exited6 6 st)
  | Some (text, now) =>
      if negb (hup_ok e) then Ok (Exited6 9 st)
      else if negb (term_ok e) then Ok (Exited6 10 st)
      else if negb (kqueue_ok e) then Ok (Exited6 1 st)
      else st ← update6 cmd text now st; Ok (Running6 st)
  end.

(** A failing [kevent] is only reported; an error in its answer ends the loop. *)
Inductive devent6 : Type :=
  | KFailed6
  | KError6
  | KGone6 (f : option (string * Z))
  | KChanged6 (text : string) (now : Z)
  | SigHup6
  | SigTerm6.

Definition main_step6 (cmd : option string) (e : env) (ev : devent6) (st : state6) : outcome status6 :=
  match ev with
  | KFailed6 => Ok (Running6 st)
  | KError6 => Ok (Exited6 0 st)
  | KGone6 f => reopen6 cmd e f st
  | KChanged6 text now => st ← update6 cmd text now st; Ok (Running6 st)
  | SigHup6 => Ok (Running6 (handle_sighup6 st))
  | SigTerm6 => Ok (Exited6 0 (cleanup6 st))
  end.

Fixpoint main_loop6 (cmd : option string) (e : env) (es : list devent6) (s : status6) : outcome status6 :=
  match s, es with
  | Running6 st, ev :: es => s ← main_step6 cmd e ev st; main_loop6 cmd e es s
  | _, _ => Ok s
  end.

Definition dhcpleases6_main (opts : list (ascii * string)) (e : env) (first : option (string * Z)) (es : list devent6)
    : outcome (status6 + Z) :=
  match main_options6 opts None None with
  | inr code => Ok (inr code)
  | inl (_, None) => Ok (inr 1)
  | inl (cmd, Some _) =>
      if negb (lease_exists e) then Ok (inr 1)
      else if negb (daemon_ok e) then Ok (inr 4)
      else s ← reopen6 cmd e first (start6 (hosts_text e)); s ← main_loop6 cmd e es s; Ok (inl s)
  end.

(** Events after which the command is run. *)
Definition runs6 (e : devent6) : bool := match e with KChanged6 _ _ | KGone6 _ => true | _ => false end.

Definition quiet6 (e : devent6) : bool := match e with KError6 | SigTerm6 | KGone6 None => false | _ => true end.

Lemma main_step6_command cmd e ev st :
  hup_ok e = true -> term_ok e = true -> kqueue_ok e = true -> quiet6 ev = true ->
  exists st1, main_step6 (Some cmd) e ev st = Ok (Running6 st1) /\ hosts_file6 st1 = hosts_file6 st /\
    commands st1 = (commands st + if runs6 ev then 1 else 0)%nat.
Proof.
  intros H1 H2 H3 Hv. destruct ev as [| |[[t n]|]|t n| |]; try discriminate Hv; cbn [main_step6 runs6]; unfold reopen6;
    rewrite ?H1, ?H2, ?H3; eexists; split_and!; try reflexivity; cbn; lia.
Qed.

Lemma main_loop6_command cmd e es : hup_ok e = true -> term_ok e = true -> kqueue_ok e = true ->
  Forall (fun e => quiet6 e = true) es -> forall st, exists st',
  main_loop6 (Some cmd) e es (Running6 st) = Ok (Running6 st') /\ hosts_file6 st' = hosts_file6 st /\
  commands st' = (commands st + length (List.filter runs6 es))%nat.
Proof.
  intros H1 H2 H3. induction es as [|ev es IH]; intros Hq st; [exists st; cbn; split_and!; (done || lia)|].
  apply Forall_cons_1 in Hq as [Hv Hq]. destruct (main_step6_command cmd e ev st H1 H2 H3 Hv) as (st1 & E & Hh & Hc).
  cbn [main_loop6]. rewrite E. cbn [mbind outcome_bind].
  destruct (IH Hq st1) as (st' & -> & Hh' & Hc'). exists st'. split_and!; [done|congruence|].
  rewrite Hc', Hc. cbn [List.filter]. destruct (runs6 ev); cbn [length]; lia.
Qed.

(** With -c dhcpleases6 runs the command at the start, once for every change of the lease file, and once
    when it was replaced; it never writes the hosts file. *)
Theorem dhcpleases6_command opts cmd lease e f es :
  main_options6 opts None None = inl (Some cmd, Some lease) -> Forall (fun e => quiet6 e = true) es ->
  lease_exists e = true -> daemon_ok e = true -> hup_ok e = true -> term_ok e = true -> kqueue_ok e = true ->
  exists st, dhcpleases6_main opts e (Some f) es = Ok (inl (Running6 st)) /\ hosts_file6 st = hosts_text e /\
    commands st = S (length (List.filter runs6 es)).
Proof.
  intros Ho Hq Hl Hd H1 H2 H3. unfold dhcpleases6_main. rewrite Ho, Hl, Hd. cbn [negb].
  destruct f as [text now].
  assert (E : reopen6 (Some cmd) e (Some (text, now)) (start6 (hosts_text e))
    = Ok (Running6 (set6 0 [] (hosts_text e) 1 (start6 (hosts_text e))))) by (unfold reopen6; by rewrite H1, H2, H3).
  rewrite E. cbn [mbind outcome_bind].
  destruct (main_loop6_command cmd e es H1 H2 H3 Hq (set6 0 [] (hosts_text e) 1 (start6 (hosts_text e)))) as (st' & -> & Hh & Hc).
  by exists st'.
Qed.

(** ** Examples *)

Definition demo_opts : list (ascii * string) :=
  [("l"%char, "/var/dhcpd/var/db/dhcpd.leases"); ("d"%char, "lan"); ("p"%char, "/var/run/unbound.pid"); ("h"%char, "/etc/hosts")].
Definition demo_args : args :=
  {| command := None; suffix := Some "lan"; fore := false; pidfile := Some "/var/run/unbound.pid"; HOSTS := Some "/etc/hosts";
     leasefile := Some "/var/dhcpd/var/db/dhcpd.leases"; unbound_conf := None |}.
Definition demo_env : env :=
  {| lease_exists := true; hosts_text := Some "127.0.0.1 localhost"; daemon_ok := true; pid_ok := true; hup_ok := true;
     term_ok := true; kqueue_ok := true |}.
Definition demo_found : found := {| f_text := lease_file; f_now := 1704200000; f_pid := Some "4711" |}.

Lemma demo_updates : updates_hosts demo_args.
Proof. split_and!; [done|done|by eexists]. Qed.

Lemma dhcpleases_restores_hosts_witness : exists st,
  dhcpleases_main demo_opts demo_env (Some demo_found) [KInterrupted; SigHup; KGone (Some demo_found); SigTerm] = Ok (inl (Exited 0 st 0))
  /\ hosts_file st = Some "127.0.0.1 localhost".
Proof.
  eexists. split; [vm_compute; reflexivity|].
  destruct (dhcpleases_restores_hosts demo_opts demo_args demo_env "127.0.0.1 localhost" demo_found
    [KInterrupted; SigHup; KGone (Some demo_found)] _ eq_refl demo_updates eq_refl eq_refl
    ltac:(repeat constructor) ltac:(vm_compute; reflexivity)) as (st & [= <-] & Hh & _). exact Hh.
Defined.

Lemma lost_lease_file_leaves_entries_witness : exists st,
  dhcpleases_main demo_opts demo_env (Some demo_found) [KGone None] = Ok (inl (Exited 6 st 0)) /\
  run (the_conf demo_args) [LeasesChanged lease_file 1704200000 (Some "4711")] (start "127.0.0.1 localhost") = Ok st.
Proof.
  eexists. split; [vm_compute; reflexivity|].
  destruct (lost_lease_file_leaves_entries demo_opts demo_args demo_env "127.0.0.1 localhost" demo_found [] _ (KGone None)
    eq_refl demo_updates eq_refl eq_refl ltac:(constructor) ltac:(by right; right; left) ltac:(vm_compute; reflexivity))
    as (st & Hr & [= <-]). exact Hr.
Defined.

Lemma dhcpleases_command_witness : exists st,
  dhcpleases_main (("c"%char, "/usr/local/sbin/notify") :: demo_opts) demo_env (Some demo_found)
    [KChanged demo_found; KGone (Some demo_found); KChanged demo_found] = Ok (inl (Running st 2)) /\
  hosts_file st = Some "127.0.0.1 localhost".
Proof.
  eexists. split; [vm_compute; reflexivity|].
  destruct (dhcpleases_command (("c"%char, "/usr/local/sbin/notify") :: demo_opts) _ "/usr/local/sbin/notify" demo_env demo_found
    [KChanged demo_found; KGone (Some demo_found); KChanged demo_found] _ eq_refl eq_refl eq_refl
    ltac:(repeat constructor) ltac:(vm_compute; reflexivity)) as (st & [= <-] & Hh). exact Hh.
Defined.

Lemma dhcpleases6_command_witness : exists st,
  dhcpleases6_main [("c"%char, "/usr/local/sbin/notify"); ("l"%char, "/var/dhcpd6.leases")] demo_env (Some ("", 0))
    [KChanged6 "" 1; KGone6 (Some ("", 2))] = Ok (inl (Running6 st)) /\ hosts_file6 st = Some "127.0.0.1 localhost" /\
  commands st = 3%nat.
Proof.
  exact (dhcpleases6_command [("c"%char, "/usr/local/sbin/notify"); ("l"%char, "/var/dhcpd6.leases")] "/usr/local/sbin/notify"
    "/var/dhcpd6.leases" demo_env ("", 0) [KChanged6 "" 1; KGone6 (Some ("", 2))] eq_refl ltac:(repeat constructor)
    eq_refl eq_refl eq_refl eq_refl eq_refl).
Defined.
