(* ===== verification/CrsFcgi.v ===== *)
(** check_reload_status: the FastCGI requests (fastcgi.h, and prepare_packet, build_nvpair and the
    request that fcgi_send_command builds, of check_reload_status.c), and a decoder of the protocol
    they are checked against. *)
From Stdlib Require Import ZArith Lia Ascii String.
From stdpp Require Import base list strings numbers.
From S2P Require Import Prelude CProg.
Open Scope string_scope.
Open Scope list_scope.
Open Scope Z_scope.

Definition FCGI_VERSION_1 : Z := 1.
Definition FCGI_BEGIN_REQUEST : Z := 1.
Definition FCGI_ABORT_REQUEST : Z := 2.
Definition FCGI_END_REQUEST : Z := 3.
Definition FCGI_PARAMS : Z := 4.
Definition FCGI_STDIN : Z := 5.
Definition FCGI_RESPONDER : Z := 1.
Definition FCGI_KEEP_CONN : Z := 1.
Definition FCGI_NULL_REQUEST_ID : Z := 0.
Definition FCGI_REQUEST_COMPLETE : Z := 0.

Definition sizeof_FCGI_Header : Z := 8.
Definition sizeof_FCGI_BeginRequestBody : Z := 8.
Definition sizeof_FCGI_BeginRequestRecord : Z := 16.
Definition sizeof_FCGI_EndRequestBody : Z := 8.

Definition bytes (s : string) : list Z := map ascii_val (list_ascii_of_string s).

(** [prepare_packet]: the eight bytes of an FCGI_Header in a zeroed buffer. *)
Definition prepare_packet (type lcontent requestId : Z) : list Z :=
  [u8 FCGI_VERSION_1; u8 type; u8 (Z.land (Z.shiftr requestId 8) 0xff); u8 (Z.land requestId 0xff);
   u8 (Z.land (Z.shiftr lcontent 8) 0xff); u8 (Z.land lcontent 0xff); 0; 0].

Definition four_bytes (l : Z) : list Z :=
  [u8 (Z.lor (Z.shiftr l 24) 0x80); u8 (Z.land (Z.shiftr l 16) 0xff);
   u8 (Z.land (Z.shiftr l 8) 0xff); u8 (Z.land l 0xff)].

(** What [build_nvpair] appends to the buffer. *)
Definition build_nvpair (lkey lvalue : Z) (key svalue : string) : list Z :=
  (if lkey <? 128 then [u8 lkey] else four_bytes lkey)
  ++ (if (lvalue <? 128) || (65535 <? lvalue) then [u8 lvalue] else four_bytes lvalue)
  ++ (if 0 <? lkey then bytes key else [])
  ++ (if 0 <? lvalue then bytes svalue else []).

Definition strlen (s : string) : Z := Z.of_nat (String.length s).

Definition nvpair (key svalue : string) : list Z := build_nvpair (strlen key) (strlen svalue) key svalue.

(** [strrchr(s, c)]: the string from the last [c] on. *)
Fixpoint strrchr (c : ascii) (s : string) : option string :=
  match s with
  | EmptyString => None
  | String d r =>
      match strrchr c r with
      | Some t => Some t
      | None => if Ascii.eqb d c then Some s else None
      end
  end.

(** The environment of the request. *)
Definition request_params (command params p : string) : list Z :=
  nvpair "GATEWAY_INTERFACE" "FastCGI/1.0"
  ++ nvpair "REQUEST_METHOD" "GET"
  ++ nvpair "NO_HEADERS" "1"
  ++ nvpair "SCRIPT_FILENAME" command
  ++ nvpair "SCRIPT_NAME" p
  ++ nvpair "DOCUMENT_URI" p
  ++ (if String.eqb params "" then nvpair "REQUEST_URI" p
      else nvpair "QUERY_STRING" params
           ++ build_nvpair (strlen "REQUEST_URI") (strlen p + strlen params + 2) "REQUEST_URI" "/"
           ++ bytes (p +:+ "?" +:+ params)).

Definition BUFSIZE : Z := 4096.

(** The bytes written to the socket: begin record, parameters, end of parameters, end of input.
    A command without a slash makes [p] a null pointer; a request that does not fit in [buf]
    overflows it. *)
Definition fcgi_request (keepalive : bool) (requestId : Z) (command params : string) : outcome (list Z) :=
  match strrchr "/" command with
  | None => Fail (Oob 0)
  | Some p =>
      let sb := request_params command params p in
      let slen := Z.of_nat (length sb) in
      let len := 3 * sizeof_FCGI_Header + sizeof_FCGI_BeginRequestRecord + slen in
      if BUFSIZE <? len then Fail (ArrayBounds len)
      else
        Ok (prepare_packet FCGI_BEGIN_REQUEST sizeof_FCGI_BeginRequestBody requestId
            ++ [0; u8 FCGI_RESPONDER; u8 (if keepalive then FCGI_KEEP_CONN else 0); 0; 0; 0; 0; 0]
            ++ prepare_packet FCGI_PARAMS slen requestId ++ sb
            ++ prepare_packet FCGI_PARAMS 0 requestId
            ++ prepare_packet FCGI_STDIN 0 requestId)
  end.

(** ** The protocol: a decoder for records and name-value pairs *)

Record fcgi_record : Type := { r_type : Z; r_id : Z; r_content : list Z }.

Definition decode_record (l : list Z) : option (fcgi_record * list Z) :=
  match l with
  | 1 :: ty :: i1 :: i0 :: c1 :: c0 :: pad :: _ :: l =>
      let clen := Z.to_nat (c1 * 256 + c0) in
      if (length l <? clen + Z.to_nat pad)%nat then None
      else Some ({| r_type := ty; r_id := i1 * 256 + i0; r_content := take clen l |},
                 drop (clen + Z.to_nat pad) l)
  | _ => None
  end.

Fixpoint decode_records (fuel : nat) (l : list Z) : option (list fcgi_record) :=
  match l, fuel with
  | [], _ => Some []
  | _, O => None
  | _, S fuel =>
      '(r, l) ← decode_record l;
      rs ← decode_records fuel l;
      Some (r :: rs)
  end.

Definition decode_len (l : list Z) : option (Z * list Z) :=
  match l with
  | b :: l =>
      if b <? 128 then Some (b, l)
      else match l with
           | b2 :: b1 :: b0 :: l => Some ((b - 128) * 16777216 + b2 * 65536 + b1 * 256 + b0, l)
           | _ => None
           end
  | [] => None
  end.

Definition decode_pair (l : list Z) : option (list Z * list Z * list Z) :=
  '(lk, l) ← decode_len l;
  '(lv, l) ← decode_len l;
  if Z.of_nat (length l) <? lk + lv then None
  else Some (take (Z.to_nat lk) l, take (Z.to_nat lv) (drop (Z.to_nat lk) l), drop (Z.to_nat (lk + lv)) l).

Fixpoint decode_params (fuel : nat) (l : list Z) : option (list (list Z * list Z)) :=
  match l, fuel with
  | [], _ => Some []
  | _, O => None
  | _, S fuel =>
      '(k, v, l) ← decode_pair l;
      kvs ← decode_params fuel l;
      Some ((k, v) :: kvs)
  end.

(** ** Round trips *)

Lemma bytes_length s : Z.of_nat (length (bytes s)) = strlen s.
Proof. unfold bytes, strlen. by rewrite length_map, length_list_ascii. Qed.

Lemma bytes_app a b : bytes (a +:+ b) = bytes a ++ bytes b.
Proof. unfold bytes. induction a as [|c a IH]; cbn; [done|]. by rewrite IH. Qed.

Lemma land_ff x : Z.land x 0xff = x mod 256.
Proof. apply (land_pow2_mod x 8). lia. Qed.

Lemma u8_mod x : u8 (x mod 256) = x mod 256.
Proof. unfold u8. apply Z.mod_mod. lia. Qed.

Lemma decode_len_one x l : 0 <= x < 128 -> decode_len (u8 x :: l) = Some (x, l).
Proof.
  intros Hx. unfold u8. rewrite Z.mod_small by lia. cbn. by rewrite (proj2 (Z.ltb_lt x 128)) by lia.
Qed.

Lemma decode_len_four x l : 0 <= x < 65536 -> decode_len (four_bytes x ++ l) = Some (x, l).
Proof.
  intros Hx. unfold four_bytes. rewrite !land_ff, !u8_mod, !Z.shiftr_div_pow2 by lia.
  change (2 ^ 24) with 16777216. change (2 ^ 16) with 65536. change (2 ^ 8) with 256.
  rewrite (Z.div_small x 16777216), (Z.div_small x 65536) by lia. cbn [app decode_len].
  change (u8 (Z.lor 0 128)) with 128. cbn [Z.ltb Z.compare Pos.compare Pos.compare_cont].
  rewrite (Z.mod_small (x / 256)) by (split; [apply Z.div_pos; lia | apply Z.div_lt_upper_bound; lia]).
  change (0 mod 256) with 0. pose proof (Z.div_mod x 256). do 2 f_equal. lia.
Qed.

Lemma decode_pair_ok k v l :
  strlen k < 128 -> strlen v <= 65535 -> decode_pair (nvpair k v ++ l) = Some (bytes k, bytes v, l).
Proof.
  intros Hk Hv. unfold nvpair, build_nvpair, decode_pair.
  assert (Hk0 : 0 <= strlen k) by (unfold strlen; lia). assert (Hv0 : 0 <= strlen v) by (unfold strlen; lia).
  rewrite (proj2 (Z.ltb_lt (strlen k) 128)) by lia. rewrite (proj2 (Z.ltb_ge 65535 (strlen v))), orb_false_r by lia.
  rewrite <- !(assoc_L (++)). cbn [app]. rewrite decode_len_one by lia. cbn [mbind option_bind].
  assert (E : forall s, (if 0 <? strlen s then bytes s else []) = bytes s).
  { intros s. destruct (Z.ltb_spec 0 (strlen s)); [done|]. by destruct s. }
  rewrite !E.
  assert (Hl : decode_len ((if strlen v <? 128 then [u8 (strlen v)] else four_bytes (strlen v)) ++ bytes k ++ bytes v ++ l)
    = Some (strlen v, bytes k ++ bytes v ++ l)).
  { destruct (Z.ltb_spec (strlen v) 128); [by apply decode_len_one | apply decode_len_four; lia]. }
  rewrite Hl. cbn [mbind option_bind].
  pose proof (bytes_length k) as Lk. pose proof (bytes_length v) as Lv.
  rewrite (proj2 (Z.ltb_ge _ _)) by (rewrite !length_app; lia).
  replace (Z.to_nat (strlen k)) with (length (bytes k)) by lia.
  replace (Z.to_nat (strlen v)) with (length (bytes v)) by lia.
  replace (Z.to_nat (strlen k + strlen v)) with (length (bytes k) + length (bytes v))%nat by lia.
  rewrite take_app_length, drop_app_length, take_app_length, <- drop_drop, drop_app_length, drop_app_length. done.
Qed.

Definition encode_params (kvs : list (string * string)) : list Z :=
  foldr (fun kv acc => nvpair kv.1 kv.2 ++ acc) [] kvs.

Definition pair_ok (kv : string * string) : Prop := strlen kv.1 < 128 /\ strlen kv.2 <= 65535.

Lemma nvpair_nonempty k v l : exists b r, nvpair k v ++ l = b :: r.
Proof.
  unfold nvpair, build_nvpair, four_bytes. destruct (strlen k <? 128); cbn; by do 2 eexists.
Qed.

Lemma decode_params_ok kvs : forall fuel, Forall pair_ok kvs -> (length kvs <= fuel)%nat ->
  decode_params fuel (encode_params kvs) = Some (map (fun kv => (bytes kv.1, bytes kv.2)) kvs).
Proof.
  induction kvs as [|[k v] kvs IH]; intros fuel Hok Hf; cbn [encode_params foldr map fst snd].
  - by destruct fuel.
  - apply Forall_cons_1 in Hok as [[Hk Hv] Hok]. destruct fuel as [|fuel]; [cbn in Hf; lia|].
    fold (encode_params kvs). destruct (nvpair_nonempty k v (encode_params kvs)) as (b & r & E).
    rewrite E. cbn [decode_params]. rewrite <- E, decode_pair_ok by done. cbn [mbind option_bind].
    rewrite IH by (done || (cbn in Hf; lia)). done.
Qed.

(** The variables of a request. *)
Definition request_kvs (command params p : string) : list (string * string) :=
  [("GATEWAY_INTERFACE", "FastCGI/1.0"); ("REQUEST_METHOD", "GET"); ("NO_HEADERS", "1");
   ("SCRIPT_FILENAME", command); ("SCRIPT_NAME", p); ("DOCUMENT_URI", p)]
  ++ (if String.eqb params "" then [("REQUEST_URI", p)]
      else [("QUERY_STRING", params); ("REQUEST_URI", "/" +:+ p +:+ "?" +:+ params)]).

Lemma strlen_app a b : strlen (a +:+ b) = strlen a + strlen b.
Proof. unfold strlen. rewrite append_length. lia. Qed.

(** The pair that is completed by hand is the pair of the whole value. *)
Lemma request_uri_pair p params :
  build_nvpair (strlen "REQUEST_URI") (strlen p + strlen params + 2) "REQUEST_URI" "/" ++ bytes (p +:+ "?" +:+ params)
  = nvpair "REQUEST_URI" ("/" +:+ p +:+ "?" +:+ params).
Proof.
  unfold nvpair, build_nvpair. rewrite !strlen_app. change (strlen "/") with 1. change (strlen "?") with 1.
  replace (1 + (strlen p + (1 + strlen params))) with (strlen p + strlen params + 2) by lia.
  assert (0 <= strlen p) by (unfold strlen; lia). assert (0 <= strlen params) by (unfold strlen; lia).
  rewrite (proj2 (Z.ltb_lt 0 (strlen p + strlen params + 2))) by lia.
  rewrite <- !(assoc_L (++)). by do 3 f_equal.
Qed.

Lemma request_params_kvs command params p :
  request_params command params p = encode_params (request_kvs command params p).
Proof.
  unfold request_params, request_kvs. destruct (String.eqb params ""); cbn [app encode_params foldr fst snd].
  - by rewrite app_nil_r.
  - by rewrite request_uri_pair, app_nil_r.
Qed.

Lemma nvpair_length k v : Z.of_nat (length (nvpair k v)) <= 8 + strlen k + strlen v.
Proof.
  unfold nvpair, build_nvpair. rewrite !length_app.
  assert (forall s : string, Z.of_nat (length (if 0 <? strlen s then bytes s else [])) <= strlen s).
  { intros s. pose proof (bytes_length s). destruct (0 <? strlen s); cbn; [lia|]. unfold strlen. lia. }
  pose proof (H k). pose proof (H v). destruct (strlen k <? 128), (_ || _); cbn [length four_bytes]; lia.
Qed.

Lemma request_params_length command params p :
  strlen p <= strlen command ->
  Z.of_nat (length (request_params command params p)) <= 240 + 5 * strlen command + 2 * strlen params.
Proof.
  intros Hp. rewrite request_params_kvs. unfold request_kvs.
  assert (0 <= strlen params) by (unfold strlen; lia).
  assert (0 <= strlen command) by (unfold strlen; lia). assert (0 <= strlen p) by (unfold strlen; lia).
  assert (Hlen : forall kvs, Z.of_nat (length (encode_params kvs))
    <= foldr (fun kv acc => 8 + strlen kv.1 + strlen kv.2 + acc) 0 kvs).
  { induction kvs as [|[k v] kvs IH]; [done|]. cbn [encode_params foldr fst snd]. rewrite length_app.
    fold (encode_params kvs). pose proof (nvpair_length k v). lia. }
  etrans; [apply Hlen|]. destruct (String.eqb params ""); cbn [app foldr fst snd]; rewrite ?strlen_app;
    repeat match goal with |- context [strlen (String ?a ?b)] =>
      let v := eval vm_compute in (strlen (String a b)) in change (strlen (String a b)) with v end; lia.
Qed.

Lemma strrchr_length c s t : strrchr c s = Some t -> strlen t <= strlen s.
Proof.
  revert t. induction s as [|d s IH]; intros t; cbn; [done|]. unfold strlen in *. cbn [String.length].
  destruct (strrchr c s) as [u|].
  - intros [= <-]. specialize (IH u eq_refl). lia.
  - destruct (Ascii.eqb d c); [|done]. intros [= <-]. cbn [String.length]. lia.
Qed.

Lemma decode_record_ok ty content id l :
  0 <= ty < 256 -> Z.of_nat (length content) < 65536 ->
  decode_record (prepare_packet ty (Z.of_nat (length content)) id ++ content ++ l)
  = Some ({| r_type := ty; r_id := id mod 65536; r_content := content |}, l).
Proof.
  intros Hty Hc. unfold prepare_packet, decode_record. change (u8 FCGI_VERSION_1) with 1. cbn [app].
  set (n := Z.of_nat (length content)) in *. rewrite !land_ff, !u8_mod, !Z.shiftr_div_pow2 by lia.
  change (2 ^ 8) with 256.
  assert (Hn : n / 256 mod 256 * 256 + n mod 256 = n).
  { rewrite (Z.mod_small (n / 256)) by (split; [apply Z.div_pos; lia | apply Z.div_lt_upper_bound; lia]).
    pose proof (Z.div_mod n 256). lia. }
  assert (Hi : id / 256 mod 256 * 256 + id mod 256 = id mod 65536).
  { change 65536 with (256 * 256). rewrite Z.rem_mul_r by lia. lia. }
  rewrite Hn, Hi. unfold n. rewrite Nat2Z.id. change (Z.to_nat 0) with 0%nat. rewrite Nat.add_0_r.
  rewrite (proj2 (Nat.ltb_ge _ _)) by (rewrite length_app; lia).
  rewrite take_app_length, drop_app_length. unfold u8. by rewrite (Z.mod_small ty) by lia.
Qed.

Lemma decode_records_step ty content id l fuel rs :
  0 <= ty < 256 -> Z.of_nat (length content) < 65536 -> decode_records fuel l = Some rs ->
  decode_records (S fuel) (prepare_packet ty (Z.of_nat (length content)) id ++ content ++ l)
  = Some ({| r_type := ty; r_id := id mod 65536; r_content := content |} :: rs).
Proof.
  intros Hty Hc Hl. pose proof (decode_record_ok ty content id l Hty Hc) as H.
  destruct (prepare_packet ty (Z.of_nat (length content)) id ++ content ++ l) as [|b r] eqn:E; [done|].
  cbn [decode_records]. rewrite H. cbn [mbind option_bind]. by rewrite Hl.
Qed.

(** A request for such a command always fits. *)
Lemma fcgi_request_fits keepalive id command params p :
  strrchr "/" command = Some p -> strlen command <= 600 -> strlen params <= 255 ->
  exists pkt, fcgi_request keepalive id command params = Ok pkt.
Proof.
  intros Hp Hc Hq. pose proof (strrchr_length _ _ _ Hp) as Hpl.
  pose proof (request_params_length command params p Hpl) as Hlen.
  unfold fcgi_request. rewrite Hp. unfold sizeof_FCGI_Header, sizeof_FCGI_BeginRequestRecord, BUFSIZE.
  rewrite (proj2 (Z.ltb_ge 4096 _)) by lia. by eexists.
Qed.

(** What a server reads from a request: a begin record of a responder, the variables, and the ends of the
    variables and of the input, all with the number of the request. *)
Definition request_decodes (keepalive : bool) (id : Z) (kvs : list (string * string)) (content pkt : list Z) : Prop :=
  decode_records 4 pkt = Some
    [ {| r_type := FCGI_BEGIN_REQUEST; r_id := id mod 65536;
         r_content := [0; FCGI_RESPONDER; if keepalive then FCGI_KEEP_CONN else 0; 0; 0; 0; 0; 0] |};
      {| r_type := FCGI_PARAMS; r_id := id mod 65536; r_content := content |};
      {| r_type := FCGI_PARAMS; r_id := id mod 65536; r_content := [] |};
      {| r_type := FCGI_STDIN; r_id := id mod 65536; r_content := [] |} ] /\
  decode_params 8 content = Some (map (fun kv => (bytes kv.1, bytes kv.2)) kvs).

(** The four records of a request, whatever its variables. *)
Lemma request_records (keepalive : bool) id sb : Z.of_nat (length sb) < 65536 ->
  decode_records 4 (prepare_packet FCGI_BEGIN_REQUEST sizeof_FCGI_BeginRequestBody id
    ++ [0; u8 FCGI_RESPONDER; u8 (if keepalive then FCGI_KEEP_CONN else 0); 0; 0; 0; 0; 0]
    ++ prepare_packet FCGI_PARAMS (Z.of_nat (length sb)) id ++ sb ++ prepare_packet FCGI_PARAMS 0 id ++ prepare_packet FCGI_STDIN 0 id)
  = Some [ {| r_type := FCGI_BEGIN_REQUEST; r_id := id mod 65536;
              r_content := [0; FCGI_RESPONDER; if keepalive then FCGI_KEEP_CONN else 0; 0; 0; 0; 0; 0] |};
           {| r_type := FCGI_PARAMS; r_id := id mod 65536; r_content := sb |};
           {| r_type := FCGI_PARAMS; r_id := id mod 65536; r_content := [] |};
           {| r_type := FCGI_STDIN; r_id := id mod 65536; r_content := [] |} ].
Proof.
  intros Hsb.
  assert (Hb : u8 (if keepalive then FCGI_KEEP_CONN else 0) = if keepalive then FCGI_KEEP_CONN else 0)
    by (by destruct keepalive).
  rewrite Hb. change (u8 FCGI_RESPONDER) with FCGI_RESPONDER. set (body := [0; FCGI_RESPONDER; _; _; _; _; _; _]).
  change sizeof_FCGI_BeginRequestBody with (Z.of_nat (length body)).
  unfold FCGI_BEGIN_REQUEST, FCGI_PARAMS, FCGI_STDIN.
  apply (decode_records_step 1 body); [lia|cbn; lia|]. apply (decode_records_step 4 sb); [lia|lia|].
  apply (decode_records_step 4 []); [lia|cbn; lia|].
  apply (decode_records_step 5 [] id [] 0 []); [lia|cbn; lia|done].
Qed.

Lemma fcgi_request_decodes keepalive id command params p :
  strrchr "/" command = Some p -> strlen command <= 600 -> strlen params <= 255 ->
  exists pkt content, fcgi_request keepalive id command params = Ok pkt /\ Z.of_nat (length pkt) <= BUFSIZE /\
    request_decodes keepalive id (request_kvs command params p) content pkt.
Proof.
  intros Hp Hc Hq. pose proof (strrchr_length _ _ _ Hp) as Hpl.
  pose proof (request_params_length command params p Hpl) as Hlen.
  unfold fcgi_request. rewrite Hp. set (sb := request_params command params p) in *.
  unfold sizeof_FCGI_Header, sizeof_FCGI_BeginRequestRecord, BUFSIZE.
  rewrite (proj2 (Z.ltb_ge 4096 _)) by lia. eexists. exists sb. split; [done|].
  split; [rewrite !length_app; cbn [length prepare_packet]; lia|]. split; [apply request_records; lia|].
  unfold sb. rewrite request_params_kvs. apply decode_params_ok; [|unfold request_kvs; destruct (String.eqb params ""); cbn; lia].
  assert (0 <= strlen params) by (unfold strlen; lia).
  unfold request_kvs. apply Forall_app. split.
  - repeat (constructor; [split; [vm_compute; reflexivity|cbn [snd]; (lia || (vm_compute; congruence))]|]). constructor.
  - destruct (String.eqb params ""); repeat (constructor; [split; [vm_compute; reflexivity|]|]); try constructor;
      cbn [snd]; rewrite ?strlen_app; change (strlen "/") with 1; change (strlen "?") with 1; lia.
Qed.

(** C14. The request is a well-formed FastCGI conversation.  For a command with a slash, of at most
    600 characters, and parameters of at most 255 (what [params] can hold), [fcgi_send_command]
    writes at most 4096 bytes, which a FastCGI server reads as four records with the request's
    number: begin of a responder request, parameters, end of parameters, end of input; and the
    parameters decode to exactly the environment variables that were meant, REQUEST_URI with the
    query string included. *)
Theorem fcgi_request_wellformed keepalive id command params p :
  strrchr "/" command = Some p -> strlen command <= 600 -> strlen params <= 255 ->
  exists pkt content,
    fcgi_request keepalive id command params = Ok pkt /\ Z.of_nat (length pkt) <= BUFSIZE /\
    decode_records 4 pkt = Some
      [ {| r_type := FCGI_BEGIN_REQUEST; r_id := id mod 65536;
           r_content := [0; FCGI_RESPONDER; if keepalive then FCGI_KEEP_CONN else 0; 0; 0; 0; 0; 0] |};
        {| r_type := FCGI_PARAMS; r_id := id mod 65536; r_content := content |};
        {| r_type := FCGI_PARAMS; r_id := id mod 65536; r_content := [] |};
        {| r_type := FCGI_STDIN; r_id := id mod 65536; r_content := [] |} ] /\
    decode_params 8 content = Some (map (fun kv => (bytes kv.1, bytes kv.2)) (request_kvs command params p)).
Proof. apply fcgi_request_decodes. Qed.

Lemma fcgi_request_wellformed_witness :
  exists pkt, fcgi_request false 7 "/etc/rc.newwanip" "interface=wan" = Ok pkt /\
    Z.of_nat (length pkt) <= BUFSIZE /\ option_map (@length fcgi_record) (decode_records 4 pkt) = Some 4%nat.
Proof.
  destruct (fcgi_request_wellformed false 7 "/etc/rc.newwanip" "interface=wan" "/rc.newwanip")
    as (pkt & content & H1 & H2 & H3 & _); [reflexivity | vm_compute; congruence | vm_compute; congruence |].
  exists pkt. split; [exact H1|]. split; [exact H2|]. rewrite H3. reflexivity.
Defined.

(** The request number is sent in 16 bits: the 65536th request (and every multiple) carries the
    number 0, which the protocol reserves for management records. *)
Theorem request_id_wraps ty lcontent id :
  id mod 65536 = 0 ->
  exists c1 c0, prepare_packet ty lcontent id = [1; u8 ty; 0; FCGI_NULL_REQUEST_ID; c1; c0; 0; 0].
Proof.
  intros Hi. unfold prepare_packet. rewrite !land_ff, !u8_mod, !Z.shiftr_div_pow2 by lia. change (2 ^ 8) with 256.
  apply Z.mod_divide in Hi as [q ->]; [|lia].
  replace (q * 65536 / 256) with (q * 256) by (replace (q * 65536) with (q * 256 * 256) by lia; by rewrite Z.div_mul).
  replace (q * 65536) with (q * 256 * 256) by lia. rewrite !Z.mod_mul by lia. by do 2 eexists.
Qed.

Lemma request_id_wraps_witness :
  exists c1 c0, prepare_packet FCGI_BEGIN_REQUEST 8 65536 = [1; 1; 0; 0; c1; c0; 0; 0].
Proof. exact (request_id_wraps FCGI_BEGIN_REQUEST 8 65536 eq_refl). Defined.
