(* ===== verification/CrsCommands.v ===== *)
(** check_reload_status: the command tables (server.h), looking up and parsing a command line
    (match_command, parse_command, show_command_list) and the reading of a line from a client
    (the first part of socket_read_command). *)
From Stdlib Require Import ZArith Lia Ascii String.
From stdpp Require Import base list strings numbers.
From S2P Require Import Prelude CProg.
Open Scope string_scope.
Open Scope list_scope.
Open Scope Z_scope.

Inductive actions : Type :=
  | ALL | ALIAS | ALIASES | FILTER | INTERFACE | IPSEC | IPSECDNS | ROUTEDNS | OPENVPN | GATEWAY
  | SERVICE | DNSSERVER | DYNDNS | DYNDNSALL | PACKAGES | SSHD | WEBGUI | NEWIP | NTPD | LINKUP
  | LINKDOWN | RELOAD | RECONFIGURE | RESTART | START | STOP | SYNC | VOUCHERS.

Inductive argtype : Type := NON | COMPOUND | ADDRESS | PREFIX | STRING | INTEGER | IFNAME.

#[export] Instance argtype_eq_dec : EqDecision argtype.
Proof. solve_decision. Defined.

(** [flags] is a set of AGGREGATE and FCGICMD. *)
Record run : Type := Run {
  run_command : string; run_params : option string; run_syslog : string;
  AGGREGATE : bool; FCGICMD : bool
}.

(** The tables end with a NULLOPT entry, which is the end of the list here; [cmd] is [None] for
    NULL_INIT. *)
Inductive command : Type :=
  Command (action : actions) (type : argtype) (keyword : string) (next : option (list command)) (cmd : option run).

Definition c_type (c : command) : argtype := let 'Command _ t _ _ _ := c in t.
Definition c_keyword (c : command) : string := let 'Command _ _ k _ _ := c in k.
Definition c_next (c : command) : option (list command) := let 'Command _ _ _ n _ := c in n.
Definition c_cmd (c : command) : option run := let 'Command _ _ _ _ r := c in r.

Definition c_filter : list command :=
  [ Command RELOAD NON "reload" None
      (Some (Run "/etc/rc.filter_configure_sync" None "Reloading filter" true true));
    Command RECONFIGURE NON "reconfigure" None
      (Some (Run "/etc/rc.filter_configure_sync" None "Reloading filter" true true));
    Command RESTART NON "restart" None
      (Some (Run "/etc/rc.filter_configure_sync" None "Reloading filter" true true));
    Command SYNC NON "sync" None
      (Some (Run "/etc/rc.filter_synchronize" None "Syncing firewall" true true)) ].

Definition c_interface2 : list command :=
  [ Command RELOAD NON "reload" None
      (Some (Run "/etc/rc.reload_interfaces" None "Reloading interfaces" true true));
    Command START IFNAME "start" None
      (Some (Run "/etc/rc.linkup" (Some "action=start&interface=%s") "Linkup starting %s" false true));
    Command STOP IFNAME "stop" None
      (Some (Run "/etc/rc.linkup" (Some "action=stop&interface=%s") "Linkup starting %s" false true)) ].

Definition c_interface : list command :=
  [ Command ALL STRING "all" (Some c_interface2) None;
    Command RELOAD IFNAME "reload" None
      (Some (Run "/etc/rc.interfaces_wan_configure" (Some "interface=%s") "Configuring interface %s" true true));
    Command RECONFIGURE IFNAME "reconfigure" None
      (Some (Run "/etc/rc.interfaces_wan_configure" (Some "interface=%s") "Configuring interface %s" true true));
    Command RESTART IFNAME "restart" None
      (Some (Run "/etc/rc.interfaces_wan_configure" (Some "interface=%s") "Configuring interface %s" true true));
    Command NEWIP STRING "newip" None
      (Some (Run "/etc/rc.newwanip" (Some "interface=%s") "rc.newwanip starting %s" false true));
    Command NEWIP STRING "newipv6" None
      (Some (Run "/etc/rc.newwanipv6" (Some "interface=%s") "rc.newwanipv6 starting %s" false true));
    Command LINKUP STRING "linkup" (Some c_interface2) None;
    Command SYNC NON "sync" None
      (Some (Run "/etc/rc.filter_configure_xmlrpc" None "Reloading filter_configure_xmlrpc" true true));
    Command RECONFIGURE IFNAME "carpmaster" None
      (Some (Run "/etc/rc.carpmaster" (Some "interface=%s") "Carp master event" false true));
    Command RECONFIGURE IFNAME "carpbackup" None
      (Some (Run "/etc/rc.carpbackup" (Some "interface=%s") "Carp backup event" false true)) ].

Definition c_service2 : list command :=
  [ Command ALL NON "all" None (Some (Run "/etc/rc.reload_all" None "Reloading all" true true));
    Command DNSSERVER NON "dns" None
      (Some (Run "/etc/rc.resolv_conf_generate" None "Rewriting resolv.conf" true true));
    Command IPSEC STRING "ipsec" None
      (Some (Run "/etc/rc.ipsec" (Some "interface=%s") "Restarting IPsec tunnels" true true));
    Command IPSECDNS NON "ipsecdns" None
      (Some (Run "/etc/rc.newipsecdns" None "Restarting IPsec tunnels" true true));
    Command ROUTEDNS NON "routedns" None
      (Some (Run "/etc/rc.newroutedns" None "Updating static routes based on hostnames" true true));
    Command OPENVPN STRING "openvpn" None
      (Some (Run "/etc/rc.openvpn" (Some "interface=%s") "Restarting OpenVPN tunnels/interfaces" true true));
    Command DYNDNS STRING "dyndns" None
      (Some (Run "/etc/rc.dyndns.update" (Some "dyndns=%s") "updating dyndns %s" true true));
    Command DYNDNSALL NON "dyndnsall" None
      (Some (Run "/etc/rc.dyndns.update" None "Updating all dyndns" true true));
    Command NTPD NON "ntpd" None
      (Some (Run "/usr/bin/killall ntpd; /bin/sleep 3; /usr/local/sbin/ntpd -s -f /var/etc/ntpd.conf"
               None "Starting nptd" true false));
    Command PACKAGES NON "packages" None
      (Some (Run "/etc/rc.start_packages" None "Starting packages" false true));
    Command SSHD NON "sshd" None (Some (Run "/etc/sshd" None "starting sshd" true true));
    Command WEBGUI NON "webgui" None
      (Some (Run "/etc/rc.restart_webgui" None "webConfigurator restart in progress" true true)) ].

Definition c_service_sync : list command :=
  [ Command VOUCHERS NON "vouchers" None (Some (Run "/etc/rc.savevoucher" None "Synching vouchers" true true));
    Command ALIASES STRING "alias" None
      (Some (Run "/etc/rc.update_urltables" (Some "alias=%s") "Synching URL alias %s" true true));
    Command ALIASES NON "aliases" None
      (Some (Run "/etc/rc.update_urltables" None "Synching URL aliases" true true)) ].

Definition c_service : list command :=
  [ Command RELOAD STRING "reload" (Some c_service2) None;
    Command RECONFIGURE STRING "reconfigure" (Some c_service2) None;
    Command RESTART STRING "restart" (Some c_service2) None;
    Command SYNC STRING "sync" (Some c_service_sync) None ].

Definition first_level : list command :=
  [ Command FILTER COMPOUND "filter" (Some c_filter) None;
    Command INTERFACE COMPOUND "interface" (Some c_interface) None;
    Command SERVICE COMPOUND "service" (Some c_service) None ].

(** ** Looking up and parsing *)

Fixpoint match_command (target : list command) (word : string) : option command :=
  match target with
  | [] => None
  | c :: target => if String.eqb (c_keyword c) word then Some c else match_command target word
  end.

Definition show_command (c : command) : string :=
  String TAB (c_keyword c +:+
    match c_type c with
    | NON => " <cr>" | COMPOUND => "" | ADDRESS => " <address>" | PREFIX => " <address>[/len]"
    | INTEGER => " <number>" | IFNAME => " <interface>" | STRING => " <string>"
    end +:+ String LF "").

Definition show_command_list (list : list command) : string :=
  foldr (fun c acc => show_command c +:+ acc) "" list.

(** The command, or what is written to the client. *)
Definition error3 (msg : string) (start : list command) : command + string :=
  inr ("ERROR:" +:+ String TAB (msg +:+ String LF "") +:+ show_command_list start).

(** [argv] holds the words; the pointer after the last one is NULL. *)
Fixpoint parse_loop (argv : list string) (argc : Z) (start : list command) : command + string :=
  match argv with
  | [] => error3 "No match found." start
  | word :: argv =>
      match match_command start word with
      | None => error3 "No match found." start
      | Some m =>
          let argc := argc - 1 in
          let start' := default start (c_next m) in
          if (0 <? argc) && negb (bool_decide (is_Some (c_next m))) then error3 "extra arguments passed." start
          else if (argc <? 0) && negb (bool_decide (c_type m = NON)) then error3 "incomplete command." start'
          else if (argc =? 0) && bool_decide (argv = []) && negb (bool_decide (c_type m = NON)) then
            error3 "incomplete command." start'
          else
            match c_next m with
            | None => inl m
            | Some n => if argc <? 0 then inl m else parse_loop argv argc n
            end
      end
  end.

Definition parse_command (argc : Z) (argv : list string) : command + string := parse_loop argv argc first_level.

(** ** Reading a line *)

Definition bufsize : Z := 2048.

(** Pieces between spaces and tabs, as [strsep(&p, " \t")] yields them. *)
Fixpoint pieces (s : string) : list string :=
  match s with
  | EmptyString => [EmptyString]
  | String c s =>
      if Ascii.eqb c " " || Ascii.eqb c TAB then EmptyString :: pieces s
      else match pieces s with
           | p :: ps => String c p :: ps
           | [] => [String c EmptyString]
           end
  end.

Definition nonempty (s : string) : bool := negb (String.eqb s "").

(** [isalpha], [isspace], [isdigit] or [ispunct] in the C locale. *)
Definition allowed (c : ascii) : bool :=
  let v := ascii_val c in ((32 <=? v) && (v <=? 126)) || ((9 <=? v) && (v <=? 13)).

(** The line without the newline, and without a carriage return before it; [n] is the number of
    bytes that were read, and is returned as the code has it. *)
Definition strip_newline (buf : string) : string * Z :=
  let n := Z.of_nat (String.length buf) in
  let buf1 := match String.get (Z.to_nat (n - 1)) buf with
              | Some c => if Ascii.eqb c LF then str_take (Z.to_nat (n - 1)) buf else buf
              | None => buf
              end in
  match String.get (Z.to_nat (n - 2)) buf with
  | Some c => if (1 <? n) && Ascii.eqb c CR then (str_take (Z.to_nat (n - 2)) buf, n - 1) else (buf1, n)
  | None => (buf1, n)
  end.

(** What [socket_read_command] makes of the [n >= 1] bytes it read: an answer to the client before
    the connection is closed, an error answer, or a command with its argument.  A buffer that is
    full and has no newline at its end is not terminated. *)
Inductive reading : Type :=
  | NotAllowed
  | BadCommand (answer : string)
  | Execute (c : command) (arg : option string)
  | Unterminated
  | Uninitialised.

(** The words of the line, and the command: [i] counts the pieces, empty ones included, and the
    argument is [argv[i - 1]], which is a word, the NULL after the last one, or was never written. *)
Definition parse_line (line : string) : reading :=
  let ps := pieces line in
  let argv := filter (fun p => nonempty p = true) ps in
  let i := Z.of_nat (length ps) - 1 in
  match parse_command i argv with
  | inr answer => BadCommand answer
  | inl c =>
      match argv !! Z.to_nat i with
      | Some p => Execute c (Some p)
      | None => if (Z.to_nat i =? length argv)%nat then Execute c None else Uninitialised
      end
  end.

Definition read_line (buf : string) : reading :=
  let '(line, n) := strip_newline buf in
  if negb (forallb allowed (list_ascii_of_string (str_take (Z.to_nat (n - 1)) line))) then NotAllowed
  else
    let line := c_str line in
    if bufsize <=? Z.of_nat (String.length line) then Unterminated else parse_line line.

(** ** Safety *)

(** Tables in which a leaf has a command to run and an inner entry takes another word. *)
Inductive table_ok : list command -> Prop :=
  | table_nil : table_ok []
  | table_leaf a t k r l : t <> COMPOUND -> table_ok l -> table_ok (Command a t k None (Some r) :: l)
  | table_inner a t k n r l : t <> NON -> table_ok n -> table_ok l -> table_ok (Command a t k (Some n) r :: l).

Lemma first_level_ok : table_ok first_level.
Proof. repeat first [apply table_nil | apply table_leaf | apply table_inner]; done. Qed.

Lemma match_command_ok start w m : table_ok start -> match_command start w = Some m ->
  c_keyword m = w /\
  match c_next m with
  | None => c_type m <> COMPOUND /\ exists r, c_cmd m = Some r
  | Some n => c_type m <> NON /\ table_ok n
  end.
Proof.
  induction 1 as [|a t k r l Ht Hl IH|a t k n r l Ht Hn IHn Hl IH]; cbn [match_command c_keyword]; [done|..];
    (destruct (String.eqb_spec k w) as [->|]; [intros [= <-]; cbn; eauto|auto]).
Qed.

(** What is known of an accepted command: it is the [j]-th word, and the word the caller takes
    for its argument exists, unless the command takes none. *)
Lemma parse_loop_ok argv : forall argc start m,
  table_ok start -> parse_loop argv argc start = inl m ->
  exists j, argv !! j = Some (c_keyword m) /\ c_type m <> COMPOUND /\ (exists r, c_cmd m = Some r) /\
    argc <= Z.of_nat j + 1 /\
    (c_type m <> NON -> argc = Z.of_nat j + 1 /\ is_Some (argv !! S j)).
Proof.
  induction argv as [|w argv IH]; intros argc start m Hs; cbn [parse_loop]; [done|].
  destruct (match_command start w) as [x|] eqn:Hm; [|done].
  destruct (match_command_ok _ _ _ Hs Hm) as [Hk Hx].
  destruct (c_next x) as [n|] eqn:Hn.
  - destruct Hx as [Ht Hn']. rewrite (bool_decide_eq_true_2 (is_Some (Some n))) by (by eexists). cbn [negb]. rewrite andb_false_r.
    rewrite (bool_decide_eq_false_2 (c_type x = NON)) by done. cbn [negb].
    destruct (Z.ltb_spec (argc - 1) 0) as [|Hge]; cbn [andb]; [done|].
    destruct ((argc - 1 =? 0) && _ && _); [done|]. intros H.
    destruct (IH _ _ _ Hn' H) as (j & H1 & H2 & H3 & H4 & H5). exists (S j).
    split; [done|]. split; [done|]. split; [done|]. split; [lia|]. intros Ht'. destruct (H5 Ht'). split; [lia|done].
  - rewrite (bool_decide_eq_false_2 (is_Some None)) by (by intros []). cbn [negb]. rewrite andb_true_r.
    destruct (Z.ltb_spec 0 (argc - 1)); [done|]. destruct Hx as [Hc [r Hr]].
    destruct (decide (c_type x = NON)) as [Ht|Ht].
    + rewrite (bool_decide_eq_true_2 (c_type x = NON)) by done. cbn [negb]. rewrite !andb_false_r.
      intros [= <-]. exists O. split; [by rewrite Hk|]. split; [done|]. split; [by exists r|]. split; [lia|done].
    + rewrite (bool_decide_eq_false_2 (c_type x = NON)) by done. cbn [negb]. rewrite !andb_true_r.
      destruct (Z.ltb_spec (argc - 1) 0); [done|].
      destruct argv as [|w2 argv]; [rewrite bool_decide_eq_true_2, andb_true_r by done|].
      { destruct (Z.eqb_spec (argc - 1) 0); [done|lia]. }
      rewrite (bool_decide_eq_false_2 (w2 :: argv = [])), andb_false_r by done.
      intros [= <-]. exists O. split; [by rewrite Hk|]. split; [done|]. split; [by exists r|]. split; [lia|].
      intros _. split; [lia|by exists w2].
Qed.

Lemma pieces_nonempty s : pieces s <> [].
Proof. destruct s as [|c s]; [done|]. cbn. destruct (_ || _); [done|]. by destruct (pieces s). Qed.

(** Although the count of the pieces includes empty ones, the pointer that [socket_read_command] passes
    on for an accepted command is never one of the uninitialised entries of [argv]; it is a word of the
    line when the command takes an argument.  The command has something to run (it is no inner entry
    of the tables), so that the "COMPOUND entry" branch of [run_command] is not reached. *)
Lemma parse_line_argument line :
  match parse_line line with
  | Execute c arg => c_type c <> COMPOUND /\ (exists r, c_cmd c = Some r) /\ (c_type c <> NON -> is_Some arg)
  | BadCommand _ => True
  | _ => False
  end.
Proof.
  unfold parse_line, parse_command. cbv zeta.
  set (ps := pieces line). set (argv := filter _ ps).
  destruct (parse_loop argv _ first_level) as [m|] eqn:Hp; [|done].
  destruct (parse_loop_ok _ _ _ _ first_level_ok Hp) as (j & H1 & H2 & H3 & H4 & H5).
  assert (Hps : (0 < length ps)%nat) by (destruct ps eqn:E; [by apply pieces_nonempty in E|cbn; lia]).
  apply lookup_lt_Some in H1 as Hj.
  destruct (argv !! Z.to_nat (Z.of_nat (length ps) - 1)) as [p|] eqn:Hl; [eauto|].
  apply lookup_ge_None_1 in Hl. rewrite (proj2 (Nat.eqb_eq _ _)) by lia.
  split; [done|]. split; [done|]. intros Ht. destruct (H5 Ht) as [He [w Hw]].
  apply lookup_lt_Some in Hw. lia.
Qed.

Lemma strip_newline_length buf : (String.length (strip_newline buf).1 <= String.length buf)%nat.
Proof.
  unfold strip_newline. destruct (String.get (Z.to_nat (Z.of_nat (String.length buf) - 2)) buf) as [c|].
  - destruct (_ && _); cbn [fst]; [apply str_take_le|].
    destruct (String.get _ _) as [d|]; [destruct (Ascii.eqb d LF)|]; try apply str_take_le; lia.
  - cbn [fst]. destruct (String.get _ _) as [d|]; [destruct (Ascii.eqb d LF)|]; try apply str_take_le; lia.
Qed.

(** A line shorter than the buffer is terminated. *)
Lemma read_line_defined buf :
  Z.of_nat (String.length buf) < bufsize ->
  match read_line buf with
  | Execute c arg => c_type c <> COMPOUND /\ (exists r, c_cmd c = Some r)
  | Unterminated | Uninitialised => False
  | _ => True
  end.
Proof.
  intros Hlen. unfold read_line. pose proof (strip_newline_length buf) as Hs.
  destruct (strip_newline buf) as [line n]. cbn [fst] in Hs. destruct (negb _); [done|].
  pose proof (c_str_length line) as Hc. destruct (Z.leb_spec bufsize (Z.of_nat (String.length (c_str line)))); [lia|].
  pose proof (parse_line_argument (c_str line)) as H'. destruct (parse_line (c_str line)); try done. tauto.
Qed.

(** ** Every command of the tables can be given *)

(** [path start ws m]: the words [ws] lead through the tables from [start] to the leaf [m]. *)
Inductive path : list command -> list string -> command -> Prop :=
  | path_leaf start w m : match_command start w = Some m -> c_next m = None -> path start [w] m
  | path_inner start w x n ws m :
      match_command start w = Some x -> c_next x = Some n -> path n ws m -> path start (w :: ws) m.

Lemma parse_loop_path start ws m args argc :
  table_ok start -> path start ws m ->
  (c_type m = NON -> args = []) -> (c_type m <> NON -> exists a, args = [a]) ->
  argc = Z.of_nat (length ws + length args) - 1 ->
  parse_loop (ws ++ args) argc start = inl m.
Proof.
  intros Hs Hp. revert Hs argc. induction Hp as [start w m Hm Hn|start w x n ws m Hm Hn Hp IH];
    intros Hs argc Hnon Harg ->; cbn [app parse_loop length]; rewrite Hm, Hn.
  - rewrite (bool_decide_eq_false_2 (is_Some None)) by (by intros [? ?]). cbn [negb]. rewrite andb_true_r.
    destruct (decide (c_type m = NON)) as [Ht|Ht].
    + rewrite (Hnon Ht), (bool_decide_eq_true_2 (c_type m = NON)) by done. cbn [negb length]. rewrite !andb_false_r.
      done.
    + destruct (Harg Ht) as [a ->]. rewrite (bool_decide_eq_false_2 (c_type m = NON)) by done.
      rewrite (bool_decide_eq_false_2 ([a] = [])) by done. done.
  - destruct (match_command_ok _ _ _ Hs Hm) as [_ Hx]. rewrite Hn in Hx. destruct Hx as [Hxt Hnt].
    rewrite (bool_decide_eq_true_2 (is_Some (Some n))) by (by eexists). cbn [negb]. rewrite andb_false_r.
    rewrite (bool_decide_eq_false_2 (c_type x = NON)) by done. cbn [negb].
    assert (Hws : (0 < length ws)%nat) by (destruct Hp; cbn; lia).
    destruct (Z.ltb_spec (Z.of_nat (S (length ws) + length args) - 1 - 1) 0); [lia|]. cbn [andb].
    rewrite (bool_decide_eq_false_2 (ws ++ args = [])) by (destruct ws; [cbn in Hws; lia|done]). rewrite andb_false_r. cbn [andb].
    apply IH; auto. lia.
Qed.

Definition word_char (c : ascii) : bool := negb (Ascii.eqb c " " || Ascii.eqb c TAB).

Lemma pieces_word w s : all_chars word_char w = true ->
  pieces (w +:+ s) = match pieces s with p :: ps => (w +:+ p) :: ps | [] => [w] end.
Proof.
  induction w as [|c w IH]; cbn [String.append]; intros Hw.
  - by destruct (pieces s) eqn:E; [apply pieces_nonempty in E|].
  - cbn in Hw. apply andb_true_iff in Hw as [Hc Hw]. unfold word_char in Hc. apply negb_true_iff in Hc.
    cbn [pieces]. rewrite Hc, IH by done. by destruct (pieces s).
Qed.

Lemma pieces_join ws : ws <> [] -> Forall (fun w => all_chars word_char w = true) ws ->
  pieces (join_with " " ws) = ws.
Proof.
  intros Hne. induction 1 as [|w ws Hw Hws IH]; [done|]. destruct ws as [|v ws].
  - cbn [join_with]. rewrite <- (append_nil_r w) at 1. rewrite pieces_word by done. cbn. by rewrite append_nil_r.
  - rewrite join_with_cons by done. rewrite pieces_word by done. cbn [pieces Ascii.eqb Bool.eqb orb].
    rewrite IH by done. by rewrite append_nil_r.
Qed.

(** Every command of the tables is understood: the words that lead to a leaf, separated by single
    spaces, followed by one more word exactly when the leaf takes an argument, execute that leaf with
    that word (or the last keyword, which a leaf without parameters ignores). *)
Theorem parse_line_path ws m args :
  path first_level ws m ->
  (c_type m = NON -> args = []) -> (c_type m <> NON -> exists a, args = [a]) ->
  Forall (fun w => all_chars word_char w = true /\ w <> "") (ws ++ args) ->
  exists arg, parse_line (join_with " " (ws ++ args)) = Execute m (Some arg) /\ (ws ++ args) !! pred (length (ws ++ args)) = Some arg.
Proof.
  intros Hp Hnon Harg Hw.
  assert (Hne : ws ++ args <> []) by (by destruct Hp).
  unfold parse_line, parse_command. rewrite pieces_join by (done || (eapply Forall_impl; [|exact Hw]; by intros ? [])).
  assert (Hf : filter (fun p => nonempty p = true) (ws ++ args) = ws ++ args).
  { clear -Hw. induction Hw as [|w l [_ Hw] Hl IH]; [done|]. rewrite filter_cons_True, IH; [done|].
    unfold nonempty. by apply negb_true_iff, String.eqb_neq. }
  rewrite Hf, length_app, (parse_loop_path _ ws m args) by (done || apply first_level_ok || lia).
  destruct (lookup_lt_is_Some_2 (ws ++ args) (Z.to_nat (Z.of_nat (length ws + length args) - 1))) as [p Hl].
  { rewrite length_app. assert (0 < length ws)%nat by (destruct Hp; cbn; lia). lia. }
  rewrite Hl. exists p. split; [done|]. rewrite <- Hl. f_equal. lia.
Qed.

Lemma parse_line_path_witness :
  exists arg, parse_line "interface linkup start wan"
    = Execute (Command START IFNAME "start" None
        (Some (Run "/etc/rc.linkup" (Some "action=start&interface=%s") "Linkup starting %s" false true))) (Some arg)
    /\ Some "wan" = Some arg.
Proof.
  apply (parse_line_path ["interface"; "linkup"; "start"]
    (Command START IFNAME "start" None
        (Some (Run "/etc/rc.linkup" (Some "action=start&interface=%s") "Linkup starting %s" false true))) ["wan"]).
  - eapply path_inner; [reflexivity|reflexivity|]. eapply path_inner; [reflexivity|reflexivity|].
    apply path_leaf; reflexivity.
  - intros Ht. discriminate Ht.
  - intros _. exists "wan". reflexivity.
  - repeat constructor; discriminate.
Defined.
