(* ===== verification/CrsQueue.v ===== *)
(** check_reload_status: the queue of commands (run_command, fcgi_send_command,
    run_command_detailed, socket_read_fcgi of check_reload_status.c) as a state machine, with its
    invariant: how commands are aggregated, and that no event is lost. *)
From Stdlib Require Import ZArith Lia Ascii String.
From stdpp Require Import base list strings numbers relations.
From S2P Require Import Prelude CProg CrsFcgi CrsCommands.
Open Scope string_scope.
Open Scope list_scope.
Open Scope Z_scope.

(** [rq_id] stands for the address of the entry, [timer] for a pending timeout event, [fcgi] for the
    callback that was set ([fcgi_send_command] or [run_command_detailed]). *)
Record runq : Type := {
  rq_id : nat;
  command : string;
  params : string;
  requestId : Z;
  aggregate : Z;
  dontexec : bool;
  socket : Z;
  timer : bool;
  fcgi : bool
}.

(** The queue [cmds], head first, the static request counter, and the requests written so far. *)
Record state : Type := {
  cmds : list runq;
  lastRequest : Z;
  fresh : nat;
  sent : list (list Z)
}.

Definition init : state := {| cmds := []; lastRequest := 0; fresh := 0; sent := [] |}.

Definition set_exec (e : runq) (d : bool) (t : bool) : runq :=
  {| rq_id := rq_id e; command := command e; params := params e; requestId := requestId e;
     aggregate := aggregate e; dontexec := d; socket := socket e; timer := t; fcgi := fcgi e |}.

Definition set_request (e : runq) (r s : Z) (d t : bool) : runq :=
  {| rq_id := rq_id e; command := command e; params := params e; requestId := r;
     aggregate := aggregate e; dontexec := d; socket := s; timer := t; fcgi := fcgi e |}.

(** ** run_command *)

(** The loop over the queue: the sum of the aggregates so far, or the queue with which the function
    returns. *)
Fixpoint scan_queue (r : run) (sum : Z) (l : list runq) : Z + list runq :=
  match l with
  | [] => inl sum
  | tmpcmd :: l =>
      if AGGREGATE r && String.eqb (command tmpcmd) (CrsCommands.run_command r) then
        let sum := sum + aggregate tmpcmd in
        if 1 <? sum then
          inr ((if dontexec tmpcmd && (sum <? 3) then set_exec tmpcmd false true else tmpcmd) :: l)
        else match scan_queue r sum l with inl s => inl s | inr l => inr (tmpcmd :: l) end
      else match scan_queue r sum l with inl s => inl s | inr l => inr (tmpcmd :: l) end
  end.

Definition PARAMS_SIZE : nat := 256.

(** [snprintf(command->params, sizeof(command->params), cmd->cmd.params, argv)] *)
Definition expand_params (r : run) (argv : option string) : string :=
  match run_params r with
  | None => ""
  | Some f => str_take (PARAMS_SIZE - 1) (default "" (format f [AStr (default "(null)" argv)]))
  end.

(** The entry that is allocated ([calloc] is taken to succeed); every command of the tables is shorter
    than the array it is copied to. *)
Definition new_entry (r : run) (argv : option string) (sum : Z) (id : nat) : runq :=
  {| rq_id := id; command := CrsCommands.run_command r; params := expand_params r argv; requestId := 0;
     aggregate := if AGGREGATE r then sum + 1 else 0; dontexec := false; socket := 0; timer := true;
     fcgi := FCGICMD r |}.

Definition run_command (r : run) (type : argtype) (argv : option string) (st : state) : state :=
  match scan_queue r 0 (cmds st) with
  | inr l => {| cmds := l; lastRequest := lastRequest st; fresh := fresh st; sent := sent st |}
  | inl sum =>
      if bool_decide (type = COMPOUND) then st
      else {| cmds := new_entry r argv sum (fresh st) :: cmds st; lastRequest := lastRequest st;
              fresh := S (fresh st); sent := sent st |}
  end.

(** ** The callbacks *)

Fixpoint lookup_id (id : nat) (l : list runq) : option runq :=
  match l with
  | [] => None
  | e :: l => if (rq_id e =? id)%nat then Some e else lookup_id id l
  end.

Definition remove_id (id : nat) (l : list runq) : list runq := filter (fun e => rq_id e <> id) l.

Definition replace_id (e : runq) (l : list runq) : list runq :=
  map (fun x => if (rq_id x =? rq_id e)%nat then e else x) l.

Definition with_cmds (st : state) (l : list runq) : state :=
  {| cmds := l; lastRequest := lastRequest st; fresh := fresh st; sent := sent st |}.

(** [fcgi_send_command]: [fd] is what [fcgi_open_socket] returns if it is called, [result] what [write]
    returns: the number of the bytes it took, which need not be all, or less than 0. *)
Definition fcgi_send_command (keepalive : bool) (e : runq) (fd : Z) (result : Z) (st : state) : outcome state :=
  if dontexec e then Ok (with_cmds st (remove_id (rq_id e) (cmds st)))
  else
    let req := i32 (lastRequest st + 1) in
    match fcgi_request keepalive req (command e) (params e) with
    | Fail f => Fail f
    | Ok buf =>
        let s := if socket e <=? 0 then fd else socket e in
        let st' e' out := {| cmds := replace_id e' (cmds st); lastRequest := req; fresh := fresh st; sent := out |} in
        if s <? 0 then Ok (st' (set_request e req s false true) (sent st))
        else if result <? 0 then Ok (st' (set_request e req (-1) false true) (sent st))
        else Ok (st' (set_request e req s (0 <? aggregate e) (0 <? aggregate e)) (sent st ++ [take (Z.to_nat result) buf]))
    end.

(** [run_command_detailed]: [forked] is false when [vfork] fails. *)
Definition run_command_detailed (e : runq) (forked : bool) (st : state) : state :=
  if dontexec e then with_cmds st (remove_id (rq_id e) (cmds st))
  else if negb forked then with_cmds st (replace_id (set_exec e (dontexec e) false) (cmds st))
  else if 0 <? aggregate e then with_cmds st (replace_id (set_exec e true true) (cmds st))
  else with_cmds st (remove_id (rq_id e) (cmds st)).

(** Why [socket_read_fcgi] is called: a timeout, with what the new [fcgi_open_socket] returns, or data,
    with the results of the two [recv] ([None] when it returns an error, or nothing for the header).
    [recv] of a content longer than [buf] writes past it. *)
Inductive fcgi_event : Type :=
  | EV_TIMEOUT (fd : Z)
  | EV_READ (header : option (list Z)) (content : option (list Z)).

Definition end_request (e : runq) (len : Z) (header buf : list Z) (st : state) : state :=
  if (default 0 (header !! 1%nat) =? FCGI_END_REQUEST) && (sizeof_FCGI_EndRequestBody <=? len) then
    if default 0 (buf !! 4%nat) =? FCGI_REQUEST_COMPLETE
    then with_cmds st (remove_id (rq_id e) (cmds st))
    else with_cmds st (replace_id (set_exec e false (timer e)) (cmds st))
  else st.

Definition socket_read_fcgi (e : runq) (event : fcgi_event) (st : state) : outcome state :=
  match event with
  | EV_TIMEOUT fd =>
      Ok (with_cmds st (replace_id (set_request e (requestId e) fd (dontexec e) true) (cmds st)))
  | EV_READ None _ => Ok st
  | EV_READ (Some header) content =>
      let at_ i := default 0 (header !! i) in
      let len := Z.lor (Z.shiftl (at_ 4%nat) 8) (at_ 5%nat) + at_ 6%nat in
      if 0 <? len then
        if BUFSIZE <? len then Fail (ArrayBounds len)
        else match content with
             | None => Ok st
             | Some buf => Ok (end_request e len header buf st)
             end
      else Ok (end_request e len header [] st)
  end.

(** ** The state machine *)

(** The commands of the tables. *)
Definition table_runs (l : list CrsCommands.command) : list run := omap c_cmd l.
Definition all_runs : list run :=
  table_runs c_filter ++ table_runs c_interface ++ table_runs c_interface2 ++ table_runs c_service2
  ++ table_runs c_service_sync.

(** [socket_read_command]: [None] for [read] is an error other than EWOULDBLOCK and EINTR, or one that
    lasted over the retries; the result has the answer to the client, and whether the connection is
    closed.  A line that fills the buffer has no defined behaviour. *)
Inductive client_event : Type :=
  | CEV_TIMEOUT
  | CEV_READ (buf : option string).

Definition socket_read_command (event : client_event) (st : state) : outcome (state * string * bool) :=
  match event with
  | CEV_TIMEOUT | CEV_READ None => Ok (st, "", true)
  | CEV_READ (Some buf) =>
      if String.eqb buf "" then Ok (st, "", true)
      else
        match read_line buf with
        | NotAllowed => Ok (st, "ERROR:" +:+ String TAB "only alphanumeric chars allowd", true)
        | BadCommand answer => Ok (st, answer, false)
        | Execute c arg =>
            match c_cmd c with
            | Some r => Ok (run_command r (c_type c) arg st, "OK" +:+ String LF "", false)
            | None => Ok (st, "OK" +:+ String LF "", false)
            end
        | Unterminated => Fail (Oob bufsize)
        | Uninitialised => Fail (Oob 0)
        end
  end.

(** A client gives a command; a timeout of an entry fires (the event is no longer pending when its
    callback runs); a response arrives for an entry ([fcgi_open_socket] adds the read event without a
    timeout, so that [EV_TIMEOUT] is not a step). *)
Inductive step (keepalive : bool) : state -> state -> Prop :=
  | step_command r type argv st :
      r ∈ all_runs -> type <> COMPOUND -> step keepalive st (run_command r type argv st)
  | step_send e fd result st st' :
      lookup_id (rq_id e) (cmds st) = Some e -> timer e = true -> fcgi e = true ->
      fcgi_send_command keepalive (set_exec e (dontexec e) false) fd result st = Ok st' ->
      step keepalive st st'
  | step_exec e forked st :
      lookup_id (rq_id e) (cmds st) = Some e -> timer e = true -> fcgi e = false ->
      step keepalive st (run_command_detailed (set_exec e (dontexec e) false) forked st)
  | step_response e header content st st' :
      lookup_id (rq_id e) (cmds st) = Some e -> fcgi e = true ->
      socket_read_fcgi e (EV_READ header content) st = Ok st' -> step keepalive st st'.

Inductive reachable (keepalive : bool) : state -> Prop :=
  | reachable_init : reachable keepalive init
  | reachable_step st st' : reachable keepalive st -> step keepalive st st' -> reachable keepalive st'.

(** ** The invariant *)

Definition same_kind (x y : runq) : Prop :=
  rq_id x = rq_id y /\ command x = command y /\ aggregate x = aggregate y /\ fcgi x = fcgi y /\
  params x = params y.

(** An entry stems from a run of the tables, and its parameters fit in the array. *)
Definition from_run (e : runq) : Prop :=
  exists r, r ∈ all_runs /\ CrsCommands.run_command r = command e /\ FCGICMD r = fcgi e /\
    (if AGGREGATE r then 0 < aggregate e else aggregate e = 0) /\ strlen (params e) <= 255.

(** An entry that will be thrown away is aggregated and has its timeout pending; so has every
    aggregated FastCGI entry. *)
Definition exec_ok (e : runq) : Prop :=
  (dontexec e = true -> timer e = true /\ 0 < aggregate e) /\
  (fcgi e = true -> 0 < aggregate e -> timer e = true).

Definition aggregates (c : string) (l : list runq) : list Z :=
  map aggregate (filter (fun e => command e = c) l).

(** What a command that aggregates may have in the queue. *)
Definition aggregated_shapes : list (list Z) := [[]; [1]; [2]; [2; 1]].

Definition aggregated (c : string) : Prop :=
  exists r, r ∈ all_runs /\ CrsCommands.run_command r = c /\ AGGREGATE r = true.

Record queue_inv (st : state) : Prop := {
  inv_ids : NoDup (map rq_id (cmds st));
  inv_fresh : forall e, e ∈ cmds st -> (rq_id e < fresh st)%nat;
  inv_run : forall e, e ∈ cmds st -> from_run e;
  inv_exec : forall e, e ∈ cmds st -> exec_ok e;
  inv_shape : forall c, aggregated c -> aggregates c (cmds st) ∈ aggregated_shapes
}.

(** The flags are the same in all entries of the tables with the same command. *)
Definition flags_agree : bool :=
  forallb (fun r => forallb (fun r' =>
    negb (String.eqb (CrsCommands.run_command r) (CrsCommands.run_command r'))
    || (Bool.eqb (AGGREGATE r) (AGGREGATE r') && Bool.eqb (FCGICMD r) (FCGICMD r'))) all_runs) all_runs.

Lemma flags_agree_true : flags_agree = true.
Proof. vm_compute. reflexivity. Qed.

Lemma flags_of_command r r' :
  r ∈ all_runs -> r' ∈ all_runs -> CrsCommands.run_command r = CrsCommands.run_command r' ->
  AGGREGATE r = AGGREGATE r' /\ FCGICMD r = FCGICMD r'.
Proof.
  intros Hr Hr' E. pose proof flags_agree_true as H. unfold flags_agree in H.
  rewrite forallb_forall in H. specialize (H r (proj1 (list_elem_of_In _ _) Hr)). cbv beta in H.
  rewrite forallb_forall in H. specialize (H r' (proj1 (list_elem_of_In _ _) Hr')). cbv beta in H.
  rewrite E, String.eqb_refl in H. simpl in H. apply andb_true_iff in H as [H1 H2].
  split; by apply Bool.eqb_prop.
Qed.

(** *** Replacing and removing entries *)

Lemma lookup_id_Some id l e : lookup_id id l = Some e -> e ∈ l /\ rq_id e = id.
Proof.
  induction l as [|x l IH]; simpl; [discriminate|].
  destruct (Nat.eqb_spec (rq_id x) id) as [E|E].
  - intros [= <-]. split; [left | exact E].
  - intros H. destruct (IH H). split; [by right | done].
Qed.

Lemma lookup_id_None id l : (forall e, e ∈ l -> rq_id e <> id) -> lookup_id id l = None.
Proof.
  induction l as [|x l IH]; simpl; intros H; [done|].
  destruct (Nat.eqb_spec (rq_id x) id) as [E|E].
  - exfalso. eapply H; [left | exact E].
  - apply IH. intros e He. apply H. by right.
Qed.

Lemma lookup_id_elem l e : NoDup (map rq_id l) -> e ∈ l -> lookup_id (rq_id e) l = Some e.
Proof.
  induction l as [|x l IH]; simpl; intros Hn He; [by apply elem_of_nil in He|].
  apply elem_of_cons in He as [-> | He]; [by rewrite Nat.eqb_refl|].
  destruct (Nat.eqb_spec (rq_id x) (rq_id e)) as [E|E].
  - exfalso. apply NoDup_cons_1_1 in Hn. apply Hn. rewrite E. by apply list_elem_of_fmap_2.
  - apply IH; [|done]. by apply NoDup_cons_1_2 in Hn.
Qed.

Lemma same_kind_refl x : same_kind x x.
Proof. unfold same_kind. tauto. Qed.

Lemma same_kind_all_refl l : Forall2 same_kind l l.
Proof. induction l; constructor; auto using same_kind_refl. Qed.

Lemma replace_id_same_kind e e' l :
  NoDup (map rq_id l) -> lookup_id (rq_id e) l = Some e -> same_kind e e' ->
  Forall2 same_kind l (replace_id e' l).
Proof.
  intros Hn He Hk. unfold replace_id. rewrite <- (map_id l) at 1.
  apply Forall2_fmap, Forall_Forall2_diag, Forall_forall. intros x Hx.
  destruct (Nat.eqb_spec (rq_id x) (rq_id e')) as [E|E]; [|apply same_kind_refl].
  apply lookup_id_elem in Hx; [|done]. destruct Hk as (K1 & K2).
  rewrite E, <- K1, He in Hx. injection Hx as ->. split; done.
Qed.

Lemma replace_id_elem e' l x : x ∈ replace_id e' l -> x = e' \/ x ∈ l.
Proof.
  unfold replace_id. intros H. apply list_elem_of_fmap_1 in H as (y & -> & Hy).
  destruct (_ =? _)%nat; auto.
Qed.

Lemma replace_id_lookup e' l id :
  lookup_id id (replace_id e' l) =
  match lookup_id id l with
  | Some x => Some (if (id =? rq_id e')%nat then e' else x)
  | None => None
  end.
Proof.
  induction l as [|x l IH]; simpl; [done|].
  destruct (Nat.eqb_spec (rq_id x) (rq_id e')) as [E|E]; rewrite IH;
    repeat case_match; simplify_eq; rewrite ?Nat.eqb_eq, ?Nat.eqb_neq in *; congruence.
Qed.

Lemma remove_id_lookup id' l id :
  lookup_id id (remove_id id' l) = if (id =? id')%nat then None else lookup_id id l.
Proof.
  unfold remove_id. induction l as [|x l IH]; [by destruct (_ =? _)%nat|].
  rewrite filter_cons. case_decide as Hx; simpl; rewrite ?IH;
    destruct (Nat.eqb_spec id id') as [E|E], (Nat.eqb_spec (rq_id x) id) as [E'|E']; subst; try done;
    exfalso; by apply Hx.
Qed.

Lemma remove_id_elem id l x : x ∈ remove_id id l -> x ∈ l.
Proof. unfold remove_id. intros H. by apply list_elem_of_filter in H as [_ H]. Qed.

Lemma aggregates_same_kind c l l' : Forall2 same_kind l l' -> aggregates c l = aggregates c l'.
Proof.
  unfold aggregates. induction 1 as [|x y l l' (_ & Hc & Ha & _ & _) _ IH]; [done|].
  rewrite !filter_cons, Hc. case_decide; simpl; congruence.
Qed.

Lemma ids_same_kind l l' : Forall2 same_kind l l' -> map rq_id l = map rq_id l'.
Proof. induction 1 as [|x y l l' (Hi & _) _ IH]; simpl; congruence. Qed.

Lemma aggregates_sublist c l l' : l `sublist_of` l' -> aggregates c l `sublist_of` aggregates c l'.
Proof.
  unfold aggregates. induction 1 as [|x l l' _ IH|x l l' _ IH]; [done| |].
  - rewrite !filter_cons. case_decide; simpl; [by apply sublist_skip | done].
  - rewrite filter_cons. case_decide; simpl; [by apply sublist_cons | done].
Qed.

Lemma shapes_sublist k k' : k `sublist_of` k' -> k' ∈ aggregated_shapes -> k ∈ aggregated_shapes.
Proof.
  unfold aggregated_shapes. intros Hs H. rewrite !elem_of_cons in *.
  assert (Hk : k' = [] \/ k' = [1] \/ k' = [2] \/ k' = [2; 1]).
  { destruct H as [H|[H|[H|[H|H]]]]; auto. by apply elem_of_nil in H. }
  clear H. destruct Hk as [-> |[-> |[-> | ->]]];
    repeat match goal with
           | H : _ `sublist_of` [] |- _ => apply sublist_nil_r in H; subst
           | H : _ `sublist_of` _ :: _ |- _ => apply sublist_cons_r in H as [H|(? & -> & H)]
           end; auto.
Qed.

(** *** The steps keep the invariant *)

Lemma inv_same_kind st l r :
  queue_inv st -> Forall2 same_kind (cmds st) l -> (forall x, x ∈ l -> exec_ok x) ->
  forall out, queue_inv {| cmds := l; lastRequest := r; fresh := fresh st; sent := out |}.
Proof.
  intros [H1 H2 H3 H4 H5] Hk Hx out. split; simpl.
  - by rewrite <- (ids_same_kind _ _ Hk).
  - intros e He. apply list_elem_of_lookup_1 in He as [i Hi].
    destruct (Forall2_lookup_r _ _ _ _ _ Hk Hi) as (y & Hy & (<- & _)).
    apply H2. by eapply list_elem_of_lookup_2.
  - intros e He. apply list_elem_of_lookup_1 in He as [i Hi].
    destruct (Forall2_lookup_r _ _ _ _ _ Hk Hi) as (y & Hy & (_ & Hc & Ha & Hf & Hq)).
    destruct (H3 y) as (r0 & ?); [by eapply list_elem_of_lookup_2|].
    exists r0. by rewrite <- Hc, <- Ha, <- Hf, <- Hq.
  - done.
  - intros c Hc. rewrite <- (aggregates_same_kind c _ _ Hk). auto.
Qed.

Lemma inv_replace st e e' r out :
  queue_inv st -> lookup_id (rq_id e) (cmds st) = Some e -> same_kind e e' -> exec_ok e' ->
  queue_inv {| cmds := replace_id e' (cmds st); lastRequest := r; fresh := fresh st; sent := out |}.
Proof.
  intros Hinv He Hk Hx. apply inv_same_kind; [done| |].
  - eapply replace_id_same_kind; eauto. apply Hinv.
  - intros x [-> | H]%replace_id_elem; [done|]. by apply Hinv.
Qed.

Lemma inv_remove st id : queue_inv st -> queue_inv (with_cmds st (remove_id id (cmds st))).
Proof.
  intros [H1 H2 H3 H4 H5].
  assert (Hs : remove_id id (cmds st) `sublist_of` cmds st) by apply sublist_filter.
  split; simpl; intros; eauto using remove_id_elem.
  - eapply sublist_NoDup; [exact H1|]. by apply (fmap_sublist rq_id).
  - eapply shapes_sublist; [by apply aggregates_sublist|]. auto.
Qed.

(** *** run_command *)

(** The sums the loop forms over the aggregates of the entries of the command; [None] when it stops. *)
Fixpoint scan_sum (s : Z) (k : list Z) : option Z :=
  match k with
  | [] => Some s
  | a :: k => if 1 <? s + a then None else scan_sum (s + a) k
  end.

Lemma aggregates_cons c x l :
  aggregates c (x :: l) = if String.eqb (command x) c then aggregate x :: aggregates c l else aggregates c l.
Proof.
  unfold aggregates. rewrite filter_cons. case_decide as H; destruct (String.eqb_spec (command x) c); done.
Qed.

Lemma aggregates_app c l l' : aggregates c (l ++ l') = aggregates c l ++ aggregates c l'.
Proof.
  induction l as [|x l IH]; [done|]. rewrite <- app_comm_cons, !aggregates_cons, IH.
  by destruct (String.eqb _ _).
Qed.

Lemma scan_queue_inl r s l s' :
  AGGREGATE r = true -> scan_queue r s l = inl s' ->
  scan_sum s (aggregates (CrsCommands.run_command r) l) = Some s'.
Proof.
  intros Ha. revert s. induction l as [|x l IH]; intros s; simpl; [congruence|].
  rewrite aggregates_cons, Ha. simpl. destruct (String.eqb _ _); simpl.
  - destruct (1 <? _); [discriminate|]. specialize (IH (s + aggregate x)).
    destruct (scan_queue _ _ l); [intros [= ->]; auto | discriminate].
  - specialize (IH s). destruct (scan_queue _ _ l); [intros [= ->]; auto | discriminate].
Qed.

Definition rearm (t : Z) (x : runq) : runq :=
  if dontexec x && (t <? 3) then set_exec x false true else x.

Lemma scan_queue_inr r s l l' :
  scan_queue r s l = inr l' ->
  exists l1 x l2 t, l = l1 ++ x :: l2 /\ command x = CrsCommands.run_command r /\ AGGREGATE r = true /\
    scan_sum s (aggregates (CrsCommands.run_command r) l1) = Some t /\ 1 < t + aggregate x /\
    l' = l1 ++ rearm (t + aggregate x) x :: l2.
Proof.
  revert s l'. induction l as [|x l IH]; intros s l'; simpl; [discriminate|].
  destruct (AGGREGATE r && String.eqb (command x) (CrsCommands.run_command r)) eqn:E; simpl.
  - pose proof E as [Ha Hc]%andb_true_iff. apply String.eqb_eq in Hc.
    destruct (1 <? s + aggregate x) eqn:Hs.
    + intros [= <-]. exists [], x, l, s. apply Z.ltb_lt in Hs. done.
    + destruct (scan_queue r (s + aggregate x) l) eqn:El; [discriminate|]. intros [= <-].
      destruct (IH _ _ El) as (l1 & y & l2 & t & -> & ? & ? & Ht & ? & ->).
      exists (x :: l1), y, l2, t. rewrite aggregates_cons, Hc, String.eqb_refl. simpl. rewrite Hs. done.
  - destruct (scan_queue r s l) eqn:El; [discriminate|]. intros [= <-].
    destruct (IH _ _ El) as (l1 & y & l2 & t & -> & ? & Ha & Ht & ? & ->).
    exists (x :: l1), y, l2, t. rewrite aggregates_cons. rewrite Ha in E. simpl in E. rewrite E. done.
Qed.

Lemma shapes_cases k : k ∈ aggregated_shapes -> k = [] \/ k = [1] \/ k = [2] \/ k = [2; 1].
Proof.
  unfold aggregated_shapes. rewrite !elem_of_cons. intros [H|[H|[H|[H|H]]]]; auto.
  by apply elem_of_nil in H.
Qed.

(** The entry at which the loop stops is the first of its command and has aggregate 2. *)
Lemma scan_stop_shape k1 a k2 t :
  k1 ++ a :: k2 ∈ aggregated_shapes -> scan_sum 0 k1 = Some t -> 1 < t + a -> k1 = [] /\ t = 0 /\ a = 2.
Proof.
  intros Hs Ht Ha. apply shapes_cases in Hs as [H|[H|[H|H]]];
    destruct k1 as [|? [|? [|? k1]]]; simpl in H, Ht; simplify_eq; simpl in *; try discriminate; try lia; auto.
Qed.

Lemma rearm_same_kind t x : same_kind x (rearm t x).
Proof. unfold rearm, same_kind. by destruct (_ && _). Qed.

Lemma rearm_exec_ok t x : exec_ok x -> exec_ok (rearm t x).
Proof. unfold rearm. destruct (_ && _); [|done]. intros _. unfold exec_ok. simpl. split; done. Qed.

Lemma expand_params_length r argv : strlen (expand_params r argv) <= 255.
Proof.
  unfold expand_params, strlen. destruct (run_params r) as [f|]; [|simpl; lia].
  pose proof (str_take_length (PARAMS_SIZE - 1) (default "" (format f [AStr (default "(null)" argv)]))) as H.
  change (PARAMS_SIZE - 1)%nat with 255%nat in *. lia.
Qed.

Lemma new_entry_inv st r argv sum :
  queue_inv st -> r ∈ all_runs -> scan_queue r 0 (cmds st) = inl sum ->
  queue_inv {| cmds := new_entry r argv sum (fresh st) :: cmds st; lastRequest := lastRequest st;
               fresh := S (fresh st); sent := sent st |}.
Proof.
  intros [H1 H2 H3 H4 H5] Hr Hs.
  assert (Hsum : AGGREGATE r = true ->
    aggregates (CrsCommands.run_command r) (cmds st) = [] /\ sum = 0 \/
    aggregates (CrsCommands.run_command r) (cmds st) = [1] /\ sum = 1).
  { intros Ha. pose proof (scan_queue_inl _ _ _ _ Ha Hs) as Hk.
    destruct (shapes_cases _ (H5 (CrsCommands.run_command r) (ex_intro _ r (conj Hr (conj eq_refl Ha)))))
      as [E|[E|[E|E]]]; rewrite E in *; simpl in Hk; simplify_eq; auto. }
  split; simpl.
  - apply NoDup_cons_2; [|done]. intros H. apply list_elem_of_fmap_1 in H as (y & E & Hy).
    apply H2 in Hy. lia.
  - intros e [-> | He]%elem_of_cons; simpl; [lia|]. apply H2 in He. lia.
  - intros e [-> | He]%elem_of_cons; [|auto]. exists r. unfold new_entry. simpl.
    repeat split; auto using expand_params_length. destruct (AGGREGATE r); [|done].
    destruct (Hsum eq_refl) as [[_ ->]|[_ ->]]; lia.
  - intros e [-> | He]%elem_of_cons; [|auto]. unfold exec_ok. done.
  - intros c (r' & Hr' & <- & Ha'). rewrite aggregates_cons. simpl.
    destruct (String.eqb_spec (CrsCommands.run_command r) (CrsCommands.run_command r')) as [E|E].
    + destruct (flags_of_command _ _ Hr Hr' E) as [Ea _]. rewrite Ea, Ha', <- E.
      rewrite Ea in Hsum. destruct (Hsum Ha') as [[-> ->]|[-> ->]]; unfold aggregated_shapes; rewrite !elem_of_cons; simpl; auto 6.
    + apply H5. by exists r'.
Qed.

Lemma run_command_inv st r type argv :
  queue_inv st -> r ∈ all_runs -> queue_inv (run_command r type argv st).
Proof.
  intros Hinv Hr. unfold run_command. destruct (scan_queue r 0 (cmds st)) as [sum|l] eqn:E.
  - case_bool_decide; [done|]. by apply new_entry_inv.
  - destruct (scan_queue_inr _ _ _ _ E) as (l1 & x & l2 & t & El & Hc & Ha & _ & _ & ->).
    apply inv_same_kind; [done| |].
    + rewrite El. apply Forall2_app; [apply same_kind_all_refl|].
      constructor; [apply rearm_same_kind | apply same_kind_all_refl].
    + pose proof (inv_exec _ Hinv) as Hx. rewrite El in Hx. setoid_rewrite elem_of_app in Hx.
      setoid_rewrite elem_of_cons in Hx. intros y. rewrite elem_of_app, elem_of_cons.
      intros [H|[-> |H]]; auto using rearm_exec_ok.
Qed.

(** *** The callbacks *)

Lemma exec_ok_armed e : timer e = true -> (dontexec e = true -> 0 < aggregate e) -> exec_ok e.
Proof. unfold exec_ok. auto. Qed.

Lemma send_inv keepalive st st' e fd result :
  queue_inv st -> lookup_id (rq_id e) (cmds st) = Some e ->
  fcgi_send_command keepalive (set_exec e (dontexec e) false) fd result st = Ok st' -> queue_inv st'.
Proof.
  intros Hinv He. unfold fcgi_send_command. simpl. destruct (dontexec e).
  { intros [= <-]. by apply inv_remove. }
  destruct (fcgi_request _ _ _ _) as [buf|]; [|discriminate].
  destruct (_ <? 0); [|destruct (result <? 0)]; intros [= <-];
    (eapply inv_replace; [exact Hinv | exact He | done | unfold exec_ok; simpl]); [done..|].
  destruct (Z.ltb_spec 0 (aggregate e)); [done|]. split; [done|lia].
Qed.

Lemma exec_inv st e forked :
  queue_inv st -> lookup_id (rq_id e) (cmds st) = Some e -> fcgi e = false ->
  queue_inv (run_command_detailed (set_exec e (dontexec e) false) forked st).
Proof.
  intros Hinv He Hf. unfold run_command_detailed. simpl. destruct (dontexec e); [by apply inv_remove|].
  destruct forked; simpl; [destruct (Z.ltb_spec 0 (aggregate e)); [|by apply inv_remove]|];
    (eapply inv_replace; [exact Hinv | exact He | done | unfold exec_ok; simpl; rewrite ?Hf; done]).
Qed.

Lemma end_request_inv st e len header buf :
  queue_inv st -> lookup_id (rq_id e) (cmds st) = Some e -> queue_inv (end_request e len header buf st).
Proof.
  intros Hinv He. unfold end_request. destruct (_ && _); [|done]. destruct (_ =? _); [by apply inv_remove|].
  eapply inv_replace; [exact Hinv | exact He | done |].
  destruct (inv_exec _ Hinv e) as [_ H2]; [by apply lookup_id_Some in He as []|]. split; simpl; [done | auto].
Qed.

(** What a response can make of the state. *)
Lemma response_cases e header content st st' :
  socket_read_fcgi e (EV_READ header content) st = Ok st' ->
  st' = st \/ exists h len buf, st' = end_request e len h buf st.
Proof.
  simpl. destruct header as [h|]; [|intros [= ->]; auto].
  destruct (0 <? _); [destruct (BUFSIZE <? _); [discriminate|]; destruct content|]; intros [= <-]; eauto 6.
Qed.

Lemma step_inv keepalive st st' : step keepalive st st' -> queue_inv st -> queue_inv st'.
Proof.
  intros Hs Hinv. inversion Hs; subst.
  - by apply run_command_inv.
  - eapply send_inv; eassumption.
  - by apply exec_inv.
  - destruct (response_cases _ _ _ _ _ H1) as [-> |(h & len & buf & ->)]; [done|]. by apply end_request_inv.
Qed.

Lemma reachable_inv keepalive st : reachable keepalive st -> queue_inv st.
Proof.
  induction 1 as [|st st' _ IH Hs]; [|by eapply step_inv].
  split; [by apply NoDup_nil_2 | | | | intros c _; left]; intros e He; inversion He.
Qed.

(** A FastCGI command of the tables always makes a request that fits. *)
Definition fcgi_commands_fit : bool :=
  forallb (fun r => negb (FCGICMD r) ||
    (bool_decide (is_Some (strrchr "/" (CrsCommands.run_command r))) && (strlen (CrsCommands.run_command r) <=? 600)))
    all_runs.

Lemma fcgi_commands_fit_true : fcgi_commands_fit = true.
Proof. vm_compute. reflexivity. Qed.

Lemma fcgi_run_fits r : r ∈ all_runs -> FCGICMD r = true ->
  exists p, strrchr "/" (CrsCommands.run_command r) = Some p /\ strlen (CrsCommands.run_command r) <= 600.
Proof.
  intros Hr Hf. pose proof fcgi_commands_fit_true as H. unfold fcgi_commands_fit in H.
  rewrite forallb_forall in H. specialize (H r (proj1 (list_elem_of_In _ _) Hr)). cbv beta in H.
  rewrite Hf in H. simpl in H. apply andb_true_iff in H as [H1 H2]. apply Z.leb_le in H2.
  apply bool_decide_eq_true_1 in H1 as [p H1]. by exists p.
Qed.

Lemma fcgi_entry_fits keepalive req e :
  from_run e -> fcgi e = true -> exists buf, fcgi_request keepalive req (command e) (params e) = Ok buf.
Proof.
  intros (r & Hr & Hc & Hf & _ & Hp) He. destruct (fcgi_run_fits r Hr) as (p & H1 & H2); [congruence|].
  rewrite Hc in *. by eapply fcgi_request_fits.
Qed.

(** ** The queue and its commands *)

(** After [run_command] there is an entry for the script that is going to be executed, a new one or one that
    was there. *)
Lemma run_command_queued st r type argv :
  queue_inv st -> r ∈ all_runs -> type <> COMPOUND ->
  exists e, e ∈ cmds (run_command r type argv st) /\ command e = CrsCommands.run_command r /\ dontexec e = false.
Proof.
  intros Hst Hr Ht. unfold run_command. destruct (scan_queue r 0 (cmds st)) as [sum|l] eqn:E.
  - rewrite bool_decide_eq_false_2 by done. exists (new_entry r argv sum (fresh st)). split; [left|done].
  - destruct (scan_queue_inr _ _ _ _ E) as (l1 & x & l2 & t & El & Hc & Ha & Hs & H2 & ->). simpl.
    pose proof (inv_shape _ Hst (CrsCommands.run_command r) (ex_intro _ r (conj Hr (conj eq_refl Ha)))) as Hsh.
    rewrite El, aggregates_app, aggregates_cons, Hc, String.eqb_refl in Hsh.
    destruct (scan_stop_shape _ _ _ _ Hsh Hs H2) as (_ & -> & ->).
    exists (rearm 2 x). rewrite elem_of_app, elem_of_cons. unfold rearm.
    destruct (dontexec x) eqn:Hd; simpl; auto.
Qed.

(** It does not touch an entry that is going to be executed. *)
Lemma run_command_keeps st r type argv e :
  e ∈ cmds st -> dontexec e = false -> e ∈ cmds (run_command r type argv st).
Proof.
  intros He Hd. unfold run_command. destruct (scan_queue r 0 (cmds st)) as [sum|l] eqn:E.
  - case_bool_decide; [done|]. by right.
  - destruct (scan_queue_inr _ _ _ _ E) as (l1 & x & l2 & t & El & _ & _ & _ & _ & ->). simpl. rewrite El in He.
    rewrite elem_of_app, elem_of_cons in He |- *. destruct He as [He|[-> |He]]; [by left | | by right; right].
    unfold rearm. rewrite Hd. by right; left.
Qed.

(** C21. However clients, timeouts and responses interleave, the queue holds at most two entries of a
    command that aggregates: an entry being executed, or waiting, with aggregate 1, and one more
    behind it, put before it in the queue with aggregate 2, that will run once the first is done.  In
    every such state entries are distinct, an entry that has been executed (dontexec) has its timeout
    pending, so that it is taken off the queue, and an aggregated FastCGI entry always has. *)
Theorem aggregated_at_most_two keepalive st r :
  reachable keepalive st -> r ∈ all_runs -> AGGREGATE r = true ->
  aggregates (CrsCommands.run_command r) (cmds st) ∈ [[]; [1]; [2]; [2; 1]] /\
  NoDup (map rq_id (cmds st)) /\ (forall e, e ∈ cmds st -> exec_ok e).
Proof.
  intros Hst Hr Ha. apply reachable_inv in Hst as [H1 H2 H3 H4 H5].
  split; [|done]. apply (H5 (CrsCommands.run_command r)). by exists r.
Qed.

(** C6. A command that aggregates is never lost: whatever the state of the queue, after a client gave
    the command there is an entry for it that will be executed (it is not marked dontexec and its
    timeout is pending), and when that timeout fires, the socket can be opened and [write] takes the
    whole request, a request for the command is sent.  The command is the script: the argument of the
    entry may be that of an earlier client.  (This is for the commands that go to the FastCGI server.) *)
Theorem aggregated_command_not_lost keepalive st r type argv :
  reachable keepalive st -> r ∈ all_runs -> AGGREGATE r = true -> FCGICMD r = true -> type <> COMPOUND ->
  let st1 := run_command r type argv st in
  exists e, lookup_id (rq_id e) (cmds st1) = Some e /\ command e = CrsCommands.run_command r /\
    dontexec e = false /\ timer e = true /\
    forall fd, 0 <= fd -> exists st2 buf,
      fcgi_send_command keepalive (set_exec e false false) fd (Z.of_nat (length buf)) st1 = Ok st2 /\
      fcgi_request keepalive (i32 (lastRequest st1 + 1)) (command e) (params e) = Ok buf /\
      sent st2 = sent st1 ++ [buf].
Proof.
  intros Hst Hr Ha Hf Ht st1. apply reachable_inv in Hst.
  pose proof (run_command_inv st r type argv Hst Hr) as Hinv. fold st1 in Hinv.
  destruct (run_command_queued st r type argv Hst Hr Ht) as (e & He & Hc & Hd). fold st1 in He. exists e.
  destruct (inv_run _ Hinv e He) as (r' & Hr' & Hc' & Hf' & Ha' & Hp).
  destruct (flags_of_command r' r Hr' Hr) as [Ea Ef]; [congruence|]. rewrite Ea, Ha in Ha'. rewrite Ef, Hf in Hf'.
  assert (Htm : timer e = true) by (apply (inv_exec _ Hinv e He); done).
  split; [apply lookup_id_elem; [apply Hinv | done]|]. do 3 (split; [done|]).
  intros fd Hfd. destruct (fcgi_entry_fits keepalive (i32 (lastRequest st1 + 1)) e) as [buf Hb];
    [by apply Hinv | done |].
  unfold fcgi_send_command. simpl. rewrite Hb.
  destruct (Z.ltb_spec (if socket e <=? 0 then fd else socket e) 0) as [H|H].
  - destruct (Z.leb_spec (socket e) 0); lia.
  - eexists _, buf. rewrite (proj2 (Z.ltb_ge (Z.of_nat (length buf)) 0)) by lia. split; [reflexivity|]. split; [done|].
    cbn [sent]. by rewrite Nat2Z.id, firstn_all.
Qed.

(** A request that [write] takes in part is taken for sent: the web server gets a beginning of it, the
    entry is marked as if all of it was there, and the rest is not sent. *)
Theorem partial_write_taken_for_sent keepalive st e fd buf n :
  dontexec e = false -> socket e <= 0 -> 0 <= fd -> 0 <= n < Z.of_nat (length buf) ->
  fcgi_request keepalive (i32 (lastRequest st + 1)) (command e) (params e) = Ok buf ->
  exists st1 st2, fcgi_send_command keepalive e fd n st = Ok st1 /\
    fcgi_send_command keepalive e fd (Z.of_nat (length buf)) st = Ok st2 /\ cmds st1 = cmds st2 /\
    sent st1 = sent st ++ [take (Z.to_nat n) buf] /\ sent st2 = sent st ++ [buf].
Proof.
  intros Hd Hs Hfd Hn Hb. unfold fcgi_send_command. rewrite Hd, Hb, (proj2 (Z.leb_le _ _) Hs), (proj2 (Z.ltb_ge _ _) Hfd).
  rewrite !(proj2 (Z.ltb_ge _ 0)) by lia. do 2 eexists. split; [reflexivity|]. split; [reflexivity|]. cbn [cmds sent].
  by rewrite Nat2Z.id, firstn_all.
Qed.

(** The argument of a command can be dropped: as long as a second entry of an aggregated command
    waits (aggregate 2, not yet executed), [run_command] does nothing at all, whatever argument the
    client gave.  The commands [interface reload] and [service reload dyndns] aggregate although they
    carry the interface or host they are for, and that one is then never reloaded. *)
Theorem aggregated_argument_dropped keepalive st r e type argv :
  reachable keepalive st -> r ∈ all_runs -> AGGREGATE r = true ->
  e ∈ cmds st -> command e = CrsCommands.run_command r -> aggregate e = 2 -> dontexec e = false ->
  run_command r type argv st = st.
Proof.
  intros Hst Hr Ha He Hc He2 Hd. apply reachable_inv in Hst.
  pose proof (inv_shape _ Hst (CrsCommands.run_command r) (ex_intro _ r (conj Hr (conj eq_refl Ha)))) as Hsh.
  assert (Hin : forall l, e ∈ l -> 2 ∈ aggregates (CrsCommands.run_command r) l).
  { intros l H. rewrite <- He2. apply list_elem_of_fmap_2. by apply list_elem_of_filter. }
  unfold run_command. destruct (scan_queue r 0 (cmds st)) as [sum|l] eqn:E.
  - pose proof (scan_queue_inl _ _ _ _ Ha E) as Hs. specialize (Hin _ He). exfalso.
    destruct (shapes_cases _ Hsh) as [Ek|[Ek|[Ek|Ek]]]; rewrite Ek in Hin, Hs; simpl in Hs; try discriminate;
      rewrite ?elem_of_cons, elem_of_nil in Hin; lia.
  - destruct (scan_queue_inr _ _ _ _ E) as (l1 & x & l2 & t & El & Hx & _ & Hs & H2 & ->).
    rewrite El in Hsh, He. rewrite aggregates_app, aggregates_cons, Hx, String.eqb_refl in Hsh.
    destruct (scan_stop_shape _ _ _ _ Hsh Hs H2) as (E1 & -> & Ex). rewrite E1, Ex in Hsh. simpl in Hsh.
    assert (e = x) as <-.
    { rewrite elem_of_app, elem_of_cons in He. destruct He as [H|[H|H]]; [| done |]; exfalso; apply Hin in H.
      - rewrite E1 in H. by apply elem_of_nil in H.
      - destruct (shapes_cases _ Hsh) as [Ek|[Ek|[Ek|Ek]]]; try discriminate; injection Ek as Ek; rewrite Ek in H;
          rewrite ?elem_of_cons, elem_of_nil in H; lia. }
    unfold rearm. rewrite Hd. simpl. rewrite <- El. by destruct st.
Qed.

(** *** What a client can do *)

#[export] Instance run_eq_dec : EqDecision run.
Proof. solve_decision. Defined.

(** The runs that a table leads to. *)
Inductive runs_in : list CrsCommands.command -> Prop :=
  | runs_nil : runs_in []
  | runs_leaf a t k r l : r ∈ all_runs -> runs_in l -> runs_in (Command a t k None (Some r) :: l)
  | runs_inner a t k n l : runs_in n -> runs_in l -> runs_in (Command a t k (Some n) None :: l).

Lemma first_level_runs : runs_in first_level.
Proof.
  repeat first [ apply runs_nil | apply runs_leaf; [apply (bool_decide_eq_true_1 _); vm_compute; reflexivity|]
               | apply runs_inner ].
Qed.

Lemma match_command_runs start w m : runs_in start -> match_command start w = Some m ->
  (forall r, c_cmd m = Some r -> r ∈ all_runs) /\ (forall n, c_next m = Some n -> runs_in n).
Proof.
  induction 1 as [|a t k r l Hr Hl IH|a t k n l Hn _ Hl IH]; cbn [match_command c_keyword]; [done|..];
    (destruct (String.eqb k w); [intros [= <-]; cbn; split; intros ? [= <-]; done | auto]).
Qed.

Lemma parse_loop_runs argv : forall argc start m r,
  runs_in start -> parse_loop argv argc start = inl m -> c_cmd m = Some r -> r ∈ all_runs.
Proof.
  induction argv as [|w argv IH]; intros argc start m r Hs; cbn [parse_loop]; [done|].
  destruct (match_command start w) as [x|] eqn:Hm; [|done].
  destruct (match_command_runs _ _ _ Hs Hm) as [Hr Hn]. cbv zeta.
  destruct (_ && _); [done|]. destruct (_ && _); [done|]. destruct (_ && _ && _); [done|].
  destruct (c_next x) as [n|]; [destruct (_ <? 0)|].
  - intros [= <-]. auto.
  - intros H. eapply IH; [|exact H]. auto.
  - intros [= <-]. auto.
Qed.

Lemma read_line_runs buf c arg r : read_line buf = Execute c arg -> c_cmd c = Some r -> r ∈ all_runs.
Proof.
  unfold read_line, parse_line, parse_command. destruct (strip_newline buf) as [line n].
  destruct (negb _); [done|]. destruct (_ <=? _); [done|]. cbv zeta.
  destruct (parse_loop _ _ first_level) as [m|] eqn:Hp; [|done]. intros H Hr.
  assert (m = c) as -> by (destruct (_ !! _); [congruence|]; destruct (_ =? _)%nat; congruence).
  eapply parse_loop_runs; [apply first_level_runs | exact Hp | exact Hr].
Qed.

Lemma socket_read_command_ok keepalive event st :
  (forall buf, event = CEV_READ (Some buf) -> Z.of_nat (String.length buf) < bufsize) ->
  exists st' answer closed, socket_read_command event st = Ok (st', answer, closed) /\ (st' = st \/ step keepalive st st').
Proof.
  intros Hlen. destruct event as [|[buf|]]; simpl; [by eauto 6| |by eauto 6].
  destruct (String.eqb buf ""); [by eauto 6|].
  pose proof (read_line_defined buf (Hlen buf eq_refl)) as Hdef.
  destruct (read_line buf) as [|answer|c arg| |] eqn:Hr; [by eauto 6|by eauto 6| |done|done].
  destruct Hdef as (Hc & [r Hcmd]). rewrite Hcmd.
  do 3 eexists. split; [done|]. right. apply step_command; [by eapply read_line_runs | done].
Qed.

(** Whatever bytes a client sends in one read shorter than the buffer, the handler is defined, and
    it either leaves the queue alone or performs one step of the state machine, so that the invariant
    of the queue also holds after it: clients cannot put anything in the queue that is not in the
    tables. *)
Theorem client_input_safe keepalive event st :
  reachable keepalive st ->
  (forall buf, event = CEV_READ (Some buf) -> Z.of_nat (String.length buf) < bufsize) ->
  exists st' answer closed, socket_read_command event st = Ok (st', answer, closed) /\
    (st' = st \/ step keepalive st st') /\ reachable keepalive st'.
Proof.
  intros Hst Hlen. destruct (socket_read_command_ok keepalive event st Hlen) as (st' & a & c & H & H').
  exists st', a, c. split; [done|]. split; [done|]. destruct H' as [-> |H']; [done|]. by eapply reachable_step.
Qed.

(** *** A request that failed *)

Definition settled (e : runq) (st : state) : Prop :=
  lookup_id (rq_id e) (cmds st) = Some e \/ lookup_id (rq_id e) (cmds st) = None.

Lemma lookup_id_middle id l1 x x' l2 :
  rq_id x <> id -> rq_id x' <> id -> lookup_id id (l1 ++ x :: l2) = lookup_id id (l1 ++ x' :: l2).
Proof.
  intros H H'. induction l1 as [|y l1 IH]; simpl.
  - apply Nat.eqb_neq in H as ->. by apply Nat.eqb_neq in H' as ->.
  - by rewrite IH.
Qed.

Lemma settled_other e e0 e' st l r out :
  settled e st -> rq_id e <> rq_id e0 -> rq_id e' = rq_id e0 ->
  l = replace_id e' (cmds st) \/ l = remove_id (rq_id e0) (cmds st) ->
  settled e {| cmds := l; lastRequest := r; fresh := fresh st; sent := out |}.
Proof.
  unfold settled. intros Hs Hn He' [-> | ->]; simpl.
  - rewrite replace_id_lookup, He'. apply Nat.eqb_neq in Hn as ->. by destruct (lookup_id (rq_id e) (cmds st)).
  - rewrite remove_id_lookup. by apply Nat.eqb_neq in Hn as ->.
Qed.

Lemma settled_run_command e st r type argv :
  queue_inv st -> (rq_id e < fresh st)%nat -> aggregate e = 0 -> r ∈ all_runs ->
  settled e st -> settled e (run_command r type argv st).
Proof.
  intros Hinv Hid He Hr Hs. unfold run_command. destruct (scan_queue r 0 (cmds st)) as [sum|l] eqn:E.
  - case_bool_decide; [done|]. unfold settled in *. simpl. destruct (Nat.eqb_spec (fresh st) (rq_id e)); [lia|done].
  - destruct (scan_queue_inr _ _ _ _ E) as (l1 & x & l2 & t & El & Hx & Ha & Hsum & H2 & ->).
    pose proof (inv_shape _ Hinv (CrsCommands.run_command r) (ex_intro _ r (conj Hr (conj eq_refl Ha)))) as Hsh.
    rewrite El, aggregates_app, aggregates_cons, Hx, String.eqb_refl in Hsh.
    destruct (scan_stop_shape _ _ _ _ Hsh Hsum H2) as (_ & -> & Ex).
    destruct (rearm_same_kind (0 + aggregate x) x) as [Hk _].
    assert (Hne : rq_id x <> rq_id e).
    { intros Heq. assert (Hl : lookup_id (rq_id x) (cmds st) = Some x).
      { apply lookup_id_elem; [apply Hinv|]. rewrite El, elem_of_app, elem_of_cons. auto. }
      unfold settled in Hs. rewrite <- Heq, Hl in Hs. destruct Hs as [[= ->]|]; [lia|done]. }
    unfold settled in *. simpl. rewrite El in Hs. by rewrite (lookup_id_middle _ _ _ x) by congruence.
Qed.

Ltac settle e0 :=
  unfold with_cmds;
  solve [ eapply (settled_other _ e0 e0); [eassumption | assumption | reflexivity | right; reflexivity]
        | eapply (settled_other _ e0); [eassumption | assumption | | left; reflexivity]; reflexivity ].

(** A step does not touch the entry of a request that was sent and will not be repeated, except to
    remove it. *)
Lemma settled_step keepalive e st st' :
  queue_inv st -> (rq_id e < fresh st)%nat -> aggregate e = 0 -> timer e = false -> fcgi e = true ->
  dontexec e = false ->
  settled e st -> step keepalive st st' -> settled e st' /\ (rq_id e < fresh st')%nat.
Proof.
  intros Hinv Hid Ha Ht Hf Hd Hs Hst.
  assert (Hother : forall e0, lookup_id (rq_id e0) (cmds st) = Some e0 -> timer e0 = true -> rq_id e <> rq_id e0).
  { intros e0 H0 Ht0 E. unfold settled in Hs. rewrite E, H0 in Hs. destruct Hs as [[= ->]|]; congruence. }
  inversion Hst as [r ty argv ? Hr _|e0 fd w ? ? He0 Ht0 _ Hsend|e0 fk ? He0 Ht0 _|e0 h c ? ? He0 _ Hresp]; subst.
  - split; [by apply settled_run_command|]. unfold run_command. destruct (scan_queue _ _ _); simpl; [|done].
    case_bool_decide; simpl; lia.
  - specialize (Hother _ He0 Ht0). unfold fcgi_send_command in Hsend. simpl in Hsend.
    destruct (dontexec e0).
    { injection Hsend as <-. split; [|done]. settle e0. }
    destruct (fcgi_request _ _ _ _); [|discriminate].
    destruct (_ <? 0); [|destruct (w <? 0)]; injection Hsend as <-; (split; [|done]); settle e0.
  - specialize (Hother _ He0 Ht0). unfold run_command_detailed. simpl.
    destruct (dontexec e0), fk, (0 <? aggregate e0); simpl; (split; [|done]); settle e0.
  - destruct (response_cases _ _ _ _ _ Hresp) as [-> |(h' & len & buf & ->)]; [done|].
    unfold end_request. destruct (_ && _); [|done]. split; [|by destruct (_ =? _)].
    destruct (decide (rq_id e = rq_id e0)) as [E|E].
    + unfold settled in Hs. rewrite E, He0 in Hs. destruct Hs as [[= ->]|]; [|done]. unfold settled.
      destruct (_ =? _); simpl; [right|left].
      * by rewrite remove_id_lookup, Nat.eqb_refl.
      * rewrite replace_id_lookup, He0. simpl. rewrite Nat.eqb_refl. f_equal. rewrite <- Hd. by destruct e.
    + destruct (_ =? _); settle e0.
Qed.

(** A command that does not aggregate is not repeated when its request fails, although the log says
    "Repeating event": once the request is written no timeout is pending, a response that the server
    is overloaded (or cannot multiplex, or does not know the role) leaves the state as it is, and in
    every later state the entry is there unchanged, without a timeout, or a later response removed
    it; no request for it is sent again. *)
Theorem failed_request_not_repeated keepalive st e :
  reachable keepalive st -> lookup_id (rq_id e) (cmds st) = Some e ->
  fcgi e = true -> aggregate e = 0 -> timer e = false ->
  (forall len header buf, default 0 (buf !! 4%nat) <> FCGI_REQUEST_COMPLETE ->
     cmds (end_request e len header buf st) = cmds st) /\
  forall st', rtc (step keepalive) st st' ->
    lookup_id (rq_id e) (cmds st') = Some e \/ lookup_id (rq_id e) (cmds st') = None.
Proof.
  intros Hst He Hf Ha Ht. apply reachable_inv in Hst as Hinv.
  destruct (lookup_id_Some _ _ _ He) as [Hin _].
  assert (Hd : dontexec e = false).
  { destruct (dontexec e) eqn:E; [|done]. destruct (inv_exec _ Hinv e Hin) as [[_ H]%(fun H => H E) _]. lia. }
  split.
  - intros len header buf Hb. unfold end_request. destruct (_ && _); [|done].
    apply Z.eqb_neq in Hb as ->. simpl. unfold replace_id. rewrite <- (map_id (cmds st)) at 2.
    apply map_ext_in. intros x Hx. simpl. destruct (Nat.eqb_spec (rq_id x) (rq_id e)) as [E|E]; [|done].
    apply list_elem_of_In, lookup_id_elem in Hx; [|apply Hinv]. rewrite E, He in Hx. injection Hx as <-.
    rewrite <- Hd. by destruct e.
  - intros st' Hsteps. pose proof (inv_fresh _ Hinv e Hin) as Hid.
    assert (Hs : settled e st) by (by left). clear Hst He Hin.
    revert Hinv Hid Hs. induction Hsteps as [|st st1 st' H1 _ IH]; [done|]. intros Hinv Hid Hs.
    destruct (settled_step keepalive e st st1) as [Hs1 Hid1]; try done. apply IH; try done. by eapply step_inv.
Qed.

(** ** Witnesses *)

(** The run at a place of the tables; [demo_reload] is the one of [interface reload], [demo_newip]
    the one of [interface newip]. *)
Definition demo_run (i : nat) : run := default (Run "" None "" false false) (all_runs !! i).
Definition demo_reload : run := demo_run 4.
Definition demo_newip : run := demo_run 7.

Definition demo1 : state := run_command demo_reload IFNAME (Some "igb0") init.
Definition demo2 : state := run_command demo_reload IFNAME (Some "igb1") demo1.

Lemma demo_run_elem i : (i < length all_runs)%nat -> demo_run i ∈ all_runs.
Proof.
  intros H. unfold demo_run. destruct (lookup_lt_is_Some_2 _ _ H) as [r Hr]. rewrite Hr. simpl.
  by eapply list_elem_of_lookup_2.
Qed.

Lemma demo_reload_elem : demo_reload ∈ all_runs.
Proof. apply demo_run_elem. vm_compute. lia. Qed.

Lemma demo_newip_elem : demo_newip ∈ all_runs.
Proof. apply demo_run_elem. vm_compute. lia. Qed.

Lemma demo2_reachable : reachable false demo2.
Proof.
  apply (reachable_step false demo1); [apply (reachable_step false init); [apply reachable_init|]|].
  - apply (step_command false demo_reload IFNAME (Some "igb0")); [apply demo_reload_elem | discriminate].
  - apply (step_command false demo_reload IFNAME (Some "igb1")); [apply demo_reload_elem | discriminate].
Qed.

Lemma aggregated_at_most_two_witness :
  aggregates "/etc/rc.interfaces_wan_configure" (cmds demo2) = [2; 1] /\
  aggregates "/etc/rc.interfaces_wan_configure" (cmds demo2) ∈ [[]; [1]; [2]; [2; 1]].
Proof.
  split; [vm_compute; reflexivity|].
  exact (proj1 (aggregated_at_most_two false demo2 demo_reload demo2_reachable demo_reload_elem eq_refl)).
Defined.

Lemma aggregated_command_not_lost_witness :
  exists e, command e = "/etc/rc.interfaces_wan_configure" /\ dontexec e = false /\ timer e = true.
Proof.
  destruct (aggregated_command_not_lost false demo2 demo_reload IFNAME (Some "igb2") demo2_reachable
    demo_reload_elem eq_refl eq_refl) as (e & _ & H1 & H2 & H3 & _); [discriminate|].
  exists e. repeat split; assumption.
Defined.

Lemma aggregated_argument_dropped_witness :
  run_command demo_reload IFNAME (Some "igb2") demo2 = demo2 /\
  map params (cmds demo2) = ["interface=igb1"; "interface=igb0"].
Proof.
  split; [|vm_compute; reflexivity].
  apply (aggregated_argument_dropped false demo2 demo_reload
           (new_entry demo_reload (Some "igb1") 1 1) IFNAME (Some "igb2"));
    [exact demo2_reachable | exact demo_reload_elem | reflexivity | | reflexivity | reflexivity | reflexivity].
  apply (list_elem_of_lookup_2 _ 0). vm_compute. reflexivity.
Defined.

(** After [interface newip] the request was written. *)
Definition demo_sent : runq := set_request (new_entry demo_newip (Some "igb0") 0 0) 1 5 false false.

Definition demo3 : state :=
  match fcgi_send_command false (set_exec (new_entry demo_newip (Some "igb0") 0 0) false false) 5 4096
          (run_command demo_newip STRING (Some "igb0") init) with
  | Ok st => st
  | Fail _ => init
  end.

Lemma demo3_reachable : reachable false demo3.
Proof.
  eapply reachable_step; [eapply reachable_step; [apply reachable_init|]|].
  - apply (step_command false demo_newip STRING (Some "igb0")); [apply demo_newip_elem | discriminate].
  - apply (step_send false (new_entry demo_newip (Some "igb0") 0 0) 5 4096); vm_compute; reflexivity.
Qed.

Lemma failed_request_not_repeated_witness :
  lookup_id 0 (cmds demo3) = Some demo_sent /\
  (forall st', rtc (step false) demo3 st' -> lookup_id 0 (cmds st') = Some demo_sent \/ lookup_id 0 (cmds st') = None).
Proof.
  split; [vm_compute; reflexivity|].
  apply (failed_request_not_repeated false demo3 demo_sent demo3_reachable); vm_compute; reflexivity.
Defined.

Definition demo_buf : list Z :=
  match fcgi_request false 1 "/etc/rc.newwanip" "interface=igb0" with Ok b => b | Fail _ => [] end.

Lemma partial_write_taken_for_sent_witness : exists st1,
  fcgi_send_command false (new_entry demo_newip (Some "igb0") 0 0) 5 8 (run_command demo_newip STRING (Some "igb0") init) = Ok st1 /\
  sent st1 = [take 8 demo_buf] /\ length demo_buf <> 8%nat.
Proof.
  destruct (partial_write_taken_for_sent false (run_command demo_newip STRING (Some "igb0") init) (new_entry demo_newip (Some "igb0") 0 0)
    5 demo_buf 8) as (st1 & st2 & E & _ & _ & Es & _); [reflexivity | vm_compute; congruence | lia | vm_compute; split; congruence | vm_compute; reflexivity|].
  exists st1. split; [exact E|]. split; [exact Es | vm_compute; congruence].
Defined.

Lemma client_input_safe_witness :
  exists st' answer closed,
    socket_read_command (CEV_READ (Some "interface newip igb0")) demo2 = Ok (st', answer, closed) /\
    reachable false st' /\ length (cmds st') = 3%nat.
Proof.
  destruct (client_input_safe false (CEV_READ (Some "interface newip igb0")) demo2 demo2_reachable)
    as (st' & a & c & H & _ & H').
  - intros buf [= <-]. vm_compute. reflexivity.
  - exists st', a, c. split; [exact H|]. split; [exact H'|].
    assert (He : match socket_read_command (CEV_READ (Some "interface newip igb0")) demo2 with
                 | Ok (s, _, _) => length (cmds s) = 3%nat
                 | Fail _ => False
                 end) by (vm_compute; reflexivity).
    rewrite H in He. exact He.
Defined.
