(* ===== verification/CrsClients.v ===== *)
(** check_reload_status: the command-line clients.  fcgicli.c sends one FastCGI request and prints the
    response; pfSctl.c sends commands to the daemon and prints its answers. *)
From Stdlib Require Import ZArith Lia Ascii String.
From stdpp Require Import base list strings numbers.
From S2P Require Import Prelude CProg CrsFcgi.
Open Scope string_scope.
Open Scope list_scope.
Open Scope Z_scope.

(** ** fcgicli: the request *)

Definition FCGI_NV_SLEN : Z := Z.shiftl 1 7.
Definition FCGI_NV_LLEN : Z := Z.shiftl 1 31.
Definition FCGI_STDOUT : Z := 6.
Definition FCGI_STDERR : Z := 7.
Definition FCGI_DATA : Z := 8.
Definition FCGI_CANT_MPX_CONN : Z := 1.
Definition FCGI_OVERLOADED : Z := 2.
Definition FCGI_UNKNOWN_ROLE : Z := 3.

(** [ntmp = htonl(FCGI_NV_LLEN | l)] *)
Definition nv_long (l : Z) : list Z :=
  let n := u32 (Z.lor FCGI_NV_LLEN l) in
  [Z.shiftr n 24; Z.land (Z.shiftr n 16) 0xff; Z.land (Z.shiftr n 8) 0xff; Z.land n 0xff].

(** [build_nvpair]: what is appended to the buffer, [None] for -1. *)
Definition cli_nvpair (key svalue : string) : option (list Z) :=
  let lkey := u32 (strlen key) in
  let lvalue := u32 (strlen svalue) in
  if negb ((lkey <? FCGI_NV_LLEN) && (lvalue <? FCGI_NV_LLEN)) then None
  else
    Some ((if lkey <? FCGI_NV_SLEN then [u8 lkey] else nv_long lkey)
          ++ (if lvalue <? FCGI_NV_SLEN then [u8 lvalue] else nv_long lvalue)
          ++ (if 0 <? lkey then bytes key else [])
          ++ (if 0 <? lvalue then bytes svalue else [])).

(** [prepare_packet], the same text as in check_reload_status.c. *)
Definition cli_prepare_packet (type lcontent requestId : Z) : list Z := prepare_packet type lcontent requestId.

(** [basename(3)]: the part after the last slash, trailing slashes aside. *)
Fixpoint strip_slashes (s : string) : string :=
  match s with
  | "" => ""
  | String c r =>
      match strip_slashes r with
      | "" => if Ascii.eqb c "/" then "" else String c ""
      | t => String c t
      end
  end.

Definition basename (s : string) : string :=
  match s, strip_slashes s with
  | "", _ => "."
  | _, "" => "/"
  | _, t => match strrchr "/" t with Some (String _ b) => b | _ => t end
  end.

(** The variables of the request, in the order in which they are appended. *)
Definition cli_kvs (script : string) (data : option string) : list (string * string) :=
  let uri := "/" +:+ basename script in
  [("GATEWAY_INTERFACE", "FastCGI/1.0"); ("REQUEST_METHOD", "GET"); ("NO_HEADERS", "1");
   ("SCRIPT_FILENAME", script); ("SCRIPT_NAME", uri)]
  ++ match data with
     | None => [("REQUEST_URI", uri); ("DOCUMENT_URI", uri)]
     | Some data => [("DOCUMENT_URI", uri); ("QUERY_STRING", data); ("REQUEST_URI", uri +:+ "?" +:+ data)]
     end.

(** [None] when a value is too large (exit -5). *)
Fixpoint cli_params (kvs : list (string * string)) : option (list Z) :=
  match kvs with
  | [] => Some []
  | (k, v) :: kvs => p ← cli_nvpair k v; r ← cli_params kvs; Some (p ++ r)
  end.

(** The bytes that are written to the socket. *)
Definition cli_request (keepalive : bool) (script : string) (data : option string) : option (list Z) :=
  sb ← cli_params (cli_kvs script data);
  let slen := Z.of_nat (length sb) in
  Some (cli_prepare_packet FCGI_BEGIN_REQUEST sizeof_FCGI_BeginRequestBody 1
        ++ [0; u8 FCGI_RESPONDER; u8 (if keepalive then FCGI_KEEP_CONN else 0); 0; 0; 0; 0; 0]
        ++ cli_prepare_packet FCGI_PARAMS slen 1 ++ sb
        ++ cli_prepare_packet FCGI_PARAMS 0 1
        ++ cli_prepare_packet FCGI_STDIN 0 1).

(** ** fcgicli: the response *)

(** What [recv] gives: bytes, [EINTR], another error; the end of the list is the end of the stream. *)
Inductive recv_event : Type := Data (l : list Z) | Eintr | Broken.

(** The loop that reads [n] more bytes into [buf]; [None] when it fails. *)
Fixpoint recv_loop (n : nat) (buf : list Z) (sock : list recv_event) : option (list Z) * list recv_event :=
  match n, sock with
  | O, _ => (Some buf, sock)
  | S _, [] => (None, [])
  | S _, Eintr :: sock => recv_loop n buf sock
  | S _, Broken :: sock => (None, sock)
  | S _, Data [] :: sock => (None, sock)
  | S _, Data l :: sock =>
      if (length l <=? n)%nat then recv_loop (n - length l) (buf ++ l) sock
      else (Some (buf ++ take n l), Data (drop n l) :: sock)
  end.

(** The loop that reads the header: [header + read] is [read] headers further, so that the rest of a
    header that arrives in pieces is written outside of it. *)
Fixpoint recv_header (read : nat) (buf : list Z) (sock : list recv_event)
    : outcome (option (list Z) * list recv_event) :=
  if (8 <=? read)%nat then Ok (Some buf, sock)
  else
    match sock with
    | [] => Ok (None, [])
    | Eintr :: sock => recv_header read buf sock
    | Broken :: sock | Data [] :: sock => Ok (None, sock)
    | Data l :: sock =>
        if (0 <? read)%nat then Fail (ArrayBounds (8 * Z.of_nat read))
        else if (length l <=? 8)%nat then recv_header (length l) l sock
        else Ok (Some (take 8 l), Data (drop 8 l) :: sock)
    end.

Record header : Type := { h_type : Z; h_req : Z; h_len : Z }.

(** The fields that are used; the length, with the padding, has 16 bits. *)
Definition parse_header (b : list Z) : header :=
  let at_ i := default 0 (b !! i) in
  {| h_type := at_ 1%nat; h_req := at_ 2%nat * 256 + at_ 3%nat;
     h_len := u16 (u16 (at_ 4%nat * 256 + at_ 5%nat) + at_ 6%nat) |}.

(** [read_packet]: the header and the payload (with its padding), [None] for NULL. *)
Definition read_packet (sock : list recv_event) : outcome (option (header * list Z) * list recv_event) :=
  '(b, sock) ← recv_header 0 [] sock;
  match b with
  | None => Ok (None, sock)
  | Some b =>
      let h := parse_header b in
      if negb (h_req h =? 1) then Ok (None, sock)
      else
        match recv_loop (Z.to_nat (h_len h)) [] sock with
        | (Some buf, sock) => Ok (Some (h, buf), sock)
        | (None, sock) => Ok (None, sock)
        end
  end.

(** The payload as a C string: up to its first NUL. *)
Definition payload (buf : list Z) : string := c_str (string_of_list_ascii (map ascii_of_Z buf)).

(** The [strsep] loop over the lines of a packet while [end_header] is 0: what is printed, and
    [end_header]. *)
Fixpoint print_lines (lines : list string) (end_header : bool) : string * bool :=
  match lines with
  | [] => ("", end_header)
  | l :: lines =>
      if negb end_header then print_lines lines (String.length l =? 1)%nat
      else if String.prefix "#!" l then print_lines lines end_header
      else (l +:+ (if bool_decide (lines = []) then "" else String LF ""), end_header)
  end.

Definition print_packet (buf : list Z) (end_header : bool) : string * bool :=
  if end_header then (payload buf, end_header) else print_lines (split_at LF (payload buf)) end_header.

(** [protocolStatus] is the fifth byte of a buffer of [len + 1] bytes. *)
Definition end_request (buf : list Z) : outcome string :=
  if (length buf <? 4)%nat then Fail (Oob 4)
  else
    let status := default 0 (buf !! 4%nat) in
    Ok (if status =? FCGI_CANT_MPX_CONN then "The FCGI server cannot multiplex" +:+ String LF ""
        else if status =? FCGI_OVERLOADED then "The FCGI server is overloaded" +:+ String LF ""
        else if status =? FCGI_UNKNOWN_ROLE then "FCGI role is unknown" +:+ String LF ""
        else "").

(** The loop over packets: the exit status and what is printed.  (The text of a failed [recv] is not
    modelled.) *)
Fixpoint cli_response (fuel : nat) (end_header : bool) (sock : list recv_event) : outcome (Z * string) :=
  match fuel with
  | O => Fail NoFuel
  | S fuel =>
      '(p, sock) ← read_packet sock;
      match p with
      | None => Ok (-1, "")
      | Some (h, buf) =>
          let ty := h_type h in
          if (ty =? FCGI_DATA) || (ty =? FCGI_STDOUT) || (ty =? FCGI_STDERR) then
            let '(out, end_header) := print_packet buf end_header in
            '(st, rest) ← cli_response fuel end_header sock;
            Ok (st, out +:+ rest)
          else if ty =? FCGI_ABORT_REQUEST then Ok (0, "Request aborted" +:+ String LF "")
          else if ty =? FCGI_END_REQUEST then out ← end_request buf; Ok (0, out)
          else Ok (0, "Received unexpected header type " +:+ udec ty +:+ ", exiting")
      end
  end.

(** The bytes that are still to come bound the number of packets. *)
Definition sock_bytes (sock : list recv_event) : nat :=
  foldr (fun e n => match e with Data l => length l + n | _ => n end)%nat 0%nat sock.

Definition cli_run (sock : list recv_event) : outcome (Z * string) := cli_response (S (sock_bytes sock)) false sock.

(** ** fcgicli: the options *)

Inductive cli_opt : Type := Opt_d (s : string) | Opt_f (s : string) | Opt_k | Opt_s (s : string) | Opt_o (s : string) | Opt_unknown.

Record cli_conf : Type := { o_data : option string; o_script : option string; o_keepalive : bool; o_socket : string }.

Definition ascii_lower (c : ascii) : ascii :=
  if (65 <=? ascii_val c) && (ascii_val c <=? 90) then ascii_of_Z (ascii_val c + 32) else c.
Fixpoint str_lower (s : string) : string := match s with "" => "" | String c s => String (ascii_lower c) (str_lower s) end.

(** The [getopt] loop; [inr] is the exit status. *)
Fixpoint cli_getopt (opts : list cli_opt) (c : cli_conf) : cli_conf + Z :=
  match opts with
  | [] => inl c
  | Opt_d s :: opts => cli_getopt opts {| o_data := Some s; o_script := o_script c; o_keepalive := o_keepalive c; o_socket := o_socket c |}
  | Opt_f s :: opts => cli_getopt opts {| o_data := o_data c; o_script := Some s; o_keepalive := o_keepalive c; o_socket := o_socket c |}
  | Opt_k :: opts => cli_getopt opts {| o_data := o_data c; o_script := o_script c; o_keepalive := true; o_socket := o_socket c |}
  | Opt_s s :: opts => cli_getopt opts {| o_data := o_data c; o_script := o_script c; o_keepalive := o_keepalive c; o_socket := s |}
  | Opt_o s :: opts =>
      if String.eqb (str_lower s) "post" then inr (-2)
      else if String.eqb (str_lower s) "get" then cli_getopt opts c
      else inr (-10)
  | Opt_unknown :: opts => cli_getopt opts c
  end.

Inductive cli_target : Type := UnixSocket (path : string) | InetSocket (addr : option (list Z)) (port : Z).

Definition FCGI_SOCK_PATH : string := "/var/run/php-fpm.socket".

(** The socket: a path, cut to the 103 characters of [sun_path], or host:port. *)
Definition cli_socket (s : string) : cli_target + Z :=
  if has_char "/" s then inl (UnixSocket (str_take 103 s))
  else
    match split_at ":" s with
    | host :: (_ :: _) as p => inl (InetSocket (inet_pton host) (u16 (atoi (join_with ":" (tail p)))))
    | _ => inr (-1)
    end.

(** [main] up to the response: the socket and the request, or the exit status. *)
Definition cli_main (opts : list cli_opt) : (cli_target * list Z) + Z :=
  match cli_getopt opts {| o_data := None; o_script := None; o_keepalive := false; o_socket := FCGI_SOCK_PATH |} with
  | inr st => inr st
  | inl c =>
      match o_script c with
      | None => inr (-10)
      | Some script =>
          match cli_socket (o_socket c) with
          | inr st => inr st
          | inl t =>
              match cli_request (o_keepalive c) script (o_data c) with
              | Some req => inl (t, req)
              | None => inr (-5)
              end
          end
      end
  end.

(** The loop that writes the request: what [write] answers, the bytes that were accepted, and how it ended
    ([Writing] when there are no more answers). *)
Inductive write_end : Type := Written | WriteError | Writing.

Fixpoint cli_write (answers : list Z) (w_buf : list Z) : list Z * write_end :=
  match w_buf, answers with
  | [], _ => ([], Written)
  | _, [] => ([], Writing)
  | _, result :: answers =>
      if result <? 0 then ([], WriteError)
      else
        let '(out, e) := cli_write answers (drop (Z.to_nat result) w_buf) in
        (take (Z.to_nat result) w_buf ++ out, e)
  end.

(** The whole of [main]: [conn] is the exit status when the socket cannot be opened or connected; the result
    has the bytes that were written, the exit status and what was printed. *)
Definition fcgicli (opts : list cli_opt) (conn : cli_target -> option Z) (answers : list Z) (sock : list recv_event) :
  outcome (list Z * Z * string) :=
  match cli_getopt opts {| o_data := None; o_script := None; o_keepalive := false; o_socket := FCGI_SOCK_PATH |} with
  | inr st => Ok ([], st, "")
  | inl c =>
      match o_script c, cli_socket (o_socket c) with
      | None, _ => Ok ([], -10, "")
      | Some _, inr st => Ok ([], st, "")
      | Some script, inl t =>
          match conn t, cli_request (o_keepalive c) script (o_data c) with
          | Some st, _ => Ok ([], st, "")
          | None, None => Ok ([], -5, "")
          | None, Some req =>
              match cli_write answers req with
              | (out, Written) => '(st, text) ← cli_run sock; Ok (out, st, text)
              | (out, WriteError) => Ok (out, -2, "Something wrong happened while sending request" +:+ String LF "")
              | (_, Writing) => Fail NoFuel
              end
          end
      end
  end.

(** ** pfSctl *)

Inductive ctl_opt : Type := Ctl_c (s : string) | Ctl_s (s : string) | Ctl_bad.

(** The [getopt] loop: at most six commands and one socket; [inr] is the exit status. *)
Fixpoint ctl_getopt (opts : list ctl_opt) (cmds : list string) (path : option string) : (list string * option string) + Z :=
  match opts with
  | [] => inl (cmds, path)
  | Ctl_c s :: opts => if (5 <? length cmds)%nat then inr (-3) else ctl_getopt opts (cmds ++ [s]) path
  | Ctl_s s :: opts => match path with Some _ => inr (-3) | None => ctl_getopt opts cmds (Some s) end
  | Ctl_bad :: _ => inr (-1)
  end.

Definition ctl_buf : nat := 2048.

(** What [read] gives after a command: bytes (none at the end of the stream), or an error. *)
Inductive ctl_reply : Type := Reply (s : string) | ReadError.

(** [printf("%s", buf)]: a reply that fills the buffer and has no NUL is read beyond it. *)
Definition ctl_print (r : ctl_reply) : outcome string :=
  match r with
  | ReadError => Ok ""
  | Reply s =>
      let s := str_take ctl_buf s in
      if (String.length (c_str s) <? ctl_buf)%nat then Ok (c_str s) else Fail (Oob (Z.of_nat ctl_buf))
  end.

(** The loop over the commands: what was sent and what was printed. *)
Fixpoint ctl_loop (cmds : list string) (replies : list ctl_reply) : outcome (list string * string) :=
  match cmds, replies with
  | [], _ => Ok ([], "")
  | c :: cmds, [] => '(sent, out) ← ctl_loop cmds []; Ok (c :: sent, out)
  | c :: cmds, r :: replies =>
      o ← ctl_print r;
      '(sent, out) ← ctl_loop cmds replies;
      Ok (c :: sent, o +:+ out)
  end.

Definition ctl_main (opts : list ctl_opt) (replies : list ctl_reply) : outcome (Z * list string * string) :=
  match ctl_getopt opts [] None with
  | inr st => Ok (st, [], "")
  | inl (cmds, _) => '(sent, out) ← ctl_loop cmds replies; Ok (0, sent, out)
  end.

(** ** The request is well-formed *)

Lemma nv_long_short l : 0 <= l < 65536 -> nv_long l = four_bytes l.
Proof.
  intros Hl. unfold nv_long, four_bytes, FCGI_NV_LLEN.
  assert (H0 : Z.land (2 ^ 31) l = 0).
  { apply Z.bits_inj'. intros k Hk. rewrite Z.land_spec, Z.bits_0, Z.pow2_bits_eqb by lia.
    destruct (Z.eqb_spec 31 k) as [<- |]; [|done]. rewrite <- (Z.mod_small l (2 ^ 31)) by lia.
    by rewrite Z.mod_pow2_bits_high by lia. }
  assert (Hn : u32 (Z.lor (Z.shiftl 1 31) l) = 2147483648 + l).
  { change (Z.shiftl 1 31) with (2 ^ 31). rewrite <- Z.lxor_lor, <- Z.add_nocarry_lxor by done. apply u32_small. lia. }
  rewrite Hn, !land_ff, !u8_mod, !Z.shiftr_div_pow2 by lia.
  change (2 ^ 24) with 16777216. change (2 ^ 16) with 65536. change (2 ^ 8) with 256.
  replace ((2147483648 + l) / 16777216) with 128 by (apply (Z.div_unique _ _ _ l); lia).
  replace ((2147483648 + l) / 65536) with 32768 by (apply (Z.div_unique _ _ _ l); lia).
  replace (2147483648 + l) with (l + 8388608 * 256) by lia. rewrite Z.div_add, Z.mod_add by lia.
  rewrite (Z.div_small l 16777216), (Z.div_small l 65536) by lia.
  replace (l / 256 + 8388608) with (l / 256 + 32768 * 256) by lia. rewrite Z.mod_add by lia. done.
Qed.

Lemma cli_nvpair_ok k v : strlen k < 128 -> strlen v <= 65535 -> cli_nvpair k v = Some (nvpair k v).
Proof.
  intros Hk Hv. assert (0 <= strlen k) by (unfold strlen; lia). assert (0 <= strlen v) by (unfold strlen; lia).
  unfold cli_nvpair, nvpair, build_nvpair, FCGI_NV_SLEN. rewrite !u32_small by lia.
  change (Z.shiftl 1 7) with 128. change FCGI_NV_LLEN with 2147483648.
  rewrite (proj2 (Z.ltb_lt (strlen k) 2147483648)), (proj2 (Z.ltb_lt (strlen v) 2147483648)) by lia. cbn [negb andb].
  rewrite (proj2 (Z.ltb_lt (strlen k) 128)), (proj2 (Z.ltb_ge 65535 (strlen v))), orb_false_r by lia.
  destruct (strlen v <? 128); [done|]. by rewrite nv_long_short by lia.
Qed.

Lemma cli_params_ok kvs : Forall pair_ok kvs -> cli_params kvs = Some (encode_params kvs).
Proof.
  induction kvs as [|[k v] kvs IH]; intros Hok; [done|]. apply Forall_cons_1 in Hok as [[Hk Hv] Hok].
  cbn [cli_params encode_params foldr fst snd] in *. by rewrite cli_nvpair_ok, IH.
Qed.

Lemma nvpair_value_length k v : strlen v <= Z.of_nat (length (nvpair k v)).
Proof.
  unfold nvpair, build_nvpair. rewrite !length_app. pose proof (bytes_length v).
  destruct (Z.ltb_spec 0 (strlen v)); [|lia]. lia.
Qed.

Lemma encode_params_values kvs : Forall (fun kv => strlen kv.1 < 128) kvs ->
  Z.of_nat (length (encode_params kvs)) <= 65535 -> Forall pair_ok kvs.
Proof.
  induction kvs as [|[k v] kvs IH]; intros Hk Hl; [done|]. apply Forall_cons_1 in Hk as [Hk1 Hk].
  cbn [encode_params foldr fst snd] in *. fold (encode_params kvs) in Hl. rewrite length_app in Hl.
  pose proof (nvpair_value_length k v). constructor; [split; cbn in *; lia | apply IH; [done|lia]].
Qed.

Lemma cli_kvs_keys script data : Forall (fun kv => strlen kv.1 < 128) (cli_kvs script data) /\ (length (cli_kvs script data) <= 8)%nat.
Proof.
  unfold cli_kvs. destruct data; (split; [repeat (constructor; [vm_compute; reflexivity|]); constructor | cbn; lia]).
Qed.

Lemma cli_request_decodes keepalive script data :
  Z.of_nat (length (encode_params (cli_kvs script data))) <= 65535 ->
  exists req content, cli_request keepalive script data = Some req /\
    length req = (length (encode_params (cli_kvs script data)) + 40)%nat /\
    request_decodes keepalive 1 (cli_kvs script data) content req.
Proof.
  intros Hl. destruct (cli_kvs_keys script data) as [Hk Hn]. pose proof (encode_params_values _ Hk Hl) as Hok.
  unfold cli_request. rewrite (cli_params_ok _ Hok). cbn [mbind option_bind]. set (sb := encode_params _) in *.
  eexists. exists sb. split; [reflexivity|]. split; [rewrite !length_app; cbn; lia|].
  split; [apply (request_records keepalive 1); lia | by apply decode_params_ok].
Qed.

(** The request of fcgicli is a well-formed FastCGI conversation: for a script and data whose
    parameters fit in one record, the server reads a responder request with number 1, parameters that
    decode to exactly the variables that were meant, their end, and the end of input. *)
Theorem cli_request_wellformed keepalive script data :
  Z.of_nat (length (encode_params (cli_kvs script data))) <= 65535 ->
  exists req content,
    cli_request keepalive script data = Some req /\
    decode_records 4 req = Some
      [ {| r_type := FCGI_BEGIN_REQUEST; r_id := 1;
           r_content := [0; FCGI_RESPONDER; if keepalive then FCGI_KEEP_CONN else 0; 0; 0; 0; 0; 0] |};
        {| r_type := FCGI_PARAMS; r_id := 1; r_content := content |};
        {| r_type := FCGI_PARAMS; r_id := 1; r_content := [] |};
        {| r_type := FCGI_STDIN; r_id := 1; r_content := [] |} ] /\
    decode_params 8 content = Some (map (fun kv => (bytes kv.1, bytes kv.2)) (cli_kvs script data)).
Proof.
  intros Hl. destruct (cli_request_decodes keepalive script data Hl) as (req & content & H1 & _ & H2 & H3).
  exists req, content. by split_and!.
Qed.

Lemma cli_request_wellformed_witness :
  exists req, cli_request false "/etc/rc.test" (Some "a=1") = Some req /\
    option_map (@length fcgi_record) (decode_records 4 req) = Some 4%nat.
Proof.
  destruct (cli_request_wellformed false "/etc/rc.test" (Some "a=1")) as (req & content & H1 & H2 & _); [vm_compute; congruence|].
  exists req. split; [exact H1|]. rewrite H2. reflexivity.
Defined.

(** ** Packets as they arrive *)

(** A piece of a packet: some interrupted calls, then a few bytes. *)
Record piece : Type := { p_interrupts : nat; p_bytes : list Z }.

Definition piece_events (p : piece) : list recv_event := repeat Eintr (p_interrupts p) ++ [Data (p_bytes p)].
Definition arriving (ps : list piece) : list recv_event := concat (map piece_events ps).
Definition all_bytes (ps : list piece) : list Z := concat (map p_bytes ps).
Definition pieces_ok (ps : list piece) : Prop := Forall (fun p => p_bytes p <> []) ps.

Lemma recv_loop_interrupts k : forall n buf sock, recv_loop n buf (repeat Eintr k ++ sock)
  = match n with O => (Some buf, repeat Eintr k ++ sock) | S _ => recv_loop n buf sock end.
Proof. induction k as [|k IH]; intros [|n] buf sock; cbn; [by destruct sock | done | done|]. by rewrite IH. Qed.

Lemma recv_loop_pieces ps : forall n buf rest, pieces_ok ps -> length (all_bytes ps) = n ->
  recv_loop n buf (arriving ps ++ rest) = (Some (buf ++ all_bytes ps), rest).
Proof.
  induction ps as [|[k l] ps IH]; intros n buf rest Hok Hn.
  - cbn in Hn. subst n. cbn. rewrite app_nil_r. by destruct rest.
  - apply Forall_cons_1 in Hok as [Hl Hok]. cbn in Hl. unfold all_bytes, arriving in *. cbn [map concat p_bytes piece_events p_interrupts] in *.
    rewrite length_app in Hn. unfold piece_events at 1. cbn [p_interrupts p_bytes].
    rewrite <- !app_assoc, recv_loop_interrupts.
    destruct l as [|b l]; [done|]. cbn [length] in Hn. destruct n as [|n]; [lia|]. cbn [app recv_loop].
    rewrite (proj2 (Nat.leb_le _ _)) by (cbn; lia).
    rewrite IH by (done || (cbn; lia)). by rewrite <- app_assoc.
Qed.

Lemma recv_header_whole k h rest : length h = 8%nat ->
  recv_header 0 [] (repeat Eintr k ++ Data h :: rest) = Ok (Some h, rest).
Proof.
  intros Hh. induction k as [|k IH]; [|exact IH]. cbn [repeat app recv_header Nat.leb].
  destruct h as [|b h]; [done|]. cbn [Nat.ltb Nat.leb]. rewrite Hh. cbn [Nat.leb].
  destruct rest as [|[]]; cbn [recv_header Nat.leb]; done.
Qed.

(** A packet that the server sends: type, payload, padding, and how it arrives. *)
Record sent_packet : Type := { s_type : Z; s_interrupts : nat; s_content : list Z; s_padding : nat; s_pieces : list piece }.

Definition packet_header (p : sent_packet) : list Z :=
  [1; s_type p; 0; 1; Z.of_nat (length (s_content p)) / 256; Z.of_nat (length (s_content p)) mod 256; Z.of_nat (s_padding p); 0].
Definition packet_events (p : sent_packet) : list recv_event :=
  repeat Eintr (s_interrupts p) ++ Data (packet_header p) :: arriving (s_pieces p).

(** What the client can read: the eight bytes of the header in one [recv], the payload and the padding in
    any pieces, less than 64 KB together. *)
Definition packet_ok (p : sent_packet) : Prop :=
  pieces_ok (s_pieces p) /\ all_bytes (s_pieces p) = s_content p ++ repeat 0 (s_padding p) /\
  Z.of_nat (length (s_content p) + s_padding p) < 65536.

Lemma read_packet_ok p rest : packet_ok p ->
  exists h, read_packet (packet_events p ++ rest) = Ok (Some (h, s_content p ++ repeat 0 (s_padding p)), rest) /\
    h_type h = s_type p.
Proof.
  intros (Hp & Hb & Hl). unfold read_packet, packet_events.
  rewrite <- app_assoc, <- app_comm_cons, recv_header_whole by done.
  cbn [mbind outcome_bind]. set (n := Z.of_nat (length (s_content p))) in *.
  assert (Hh : parse_header (packet_header p) = {| h_type := s_type p; h_req := 1; h_len := n + Z.of_nat (s_padding p) |}).
  { unfold parse_header, packet_header. fold n. simpl default.
    pose proof (Z.div_mod n 256). f_equal.
    replace (n / 256 * 256 + n mod 256) with n by lia. unfold u16. rewrite (Z.mod_small n), Z.mod_small; lia. }
  rewrite Hh. cbn [h_req Z.eqb negb h_len].
  rewrite recv_loop_pieces; [|done|rewrite Hb, length_app, repeat_length; lia].
  rewrite Hb. eexists. split; [reflexivity | done].
Qed.

(** ** What is printed *)

Definition is_data (ty : Z) : bool := (ty =? FCGI_DATA) || (ty =? FCGI_STDOUT) || (ty =? FCGI_STDERR).

Lemma cli_response_data fuel end_header p rest st out :
  packet_ok p -> is_data (s_type p) = true ->
  let '(o, e) := print_packet (s_content p ++ repeat 0 (s_padding p)) end_header in
  cli_response fuel e rest = Ok (st, out) ->
  cli_response (S fuel) end_header (packet_events p ++ rest) = Ok (st, o +:+ out).
Proof.
  intros Hp Hd. destruct (print_packet _ _) as [o e] eqn:E. intros Hr. cbn [cli_response].
  destruct (read_packet_ok p rest Hp) as (h & -> & Ht). cbn [mbind outcome_bind]. rewrite Ht. unfold is_data in Hd. rewrite Hd, E.
  rewrite Hr. done.
Qed.

(** The packet that ends the request, with status FCGI_REQUEST_COMPLETE. *)
Definition end_packet (p : sent_packet) : Prop :=
  packet_ok p /\ s_type p = FCGI_END_REQUEST /\ s_content p = repeat 0 8.

Lemma cli_response_end fuel end_header p rest : end_packet p ->
  cli_response (S fuel) end_header (packet_events p ++ rest) = Ok (0, "").
Proof.
  intros (Hp & Ht & Hc). cbn [cli_response]. destruct (read_packet_ok p rest Hp) as (h & -> & Ht').
  cbn [mbind outcome_bind]. rewrite Ht', Ht. cbn. rewrite Hc. done.
Qed.

Definition body_text (p : sent_packet) : string := payload (s_content p ++ repeat 0 (s_padding p)).

Lemma cli_response_body ps : forall fuel e rest, end_packet e -> Forall (fun p => packet_ok p /\ is_data (s_type p) = true) ps ->
  (length ps < fuel)%nat ->
  cli_response fuel true (concat (map packet_events ps) ++ packet_events e ++ rest)
  = Ok (0, foldr (fun p acc => body_text p +:+ acc) "" ps).
Proof.
  induction ps as [|p ps IH]; intros fuel e rest He Hps Hf; (destruct fuel as [|fuel]; [lia|]); cbn [map concat foldr].
  - rewrite app_nil_l. by apply cli_response_end.
  - apply Forall_cons_1 in Hps as [[Hp Hd] Hps]. cbn [length] in Hf. rewrite <- app_assoc.
    pose proof (cli_response_data fuel true p (concat (map packet_events ps) ++ packet_events e ++ rest) 0
      (foldr (fun p acc => body_text p +:+ acc) "" ps) Hp Hd) as H.
    cbn [print_packet] in H. apply H. apply IH; [done|done|lia].
Qed.

(** Header lines, the line that ends them. *)
Definition headers_only (p : sent_packet) : Prop :=
  exists hs cr, split_at LF (body_text p) = hs ++ [cr; ""] /\ Forall (fun l => String.length l <> 1%nat) hs /\ String.length cr = 1%nat.

Lemma print_lines_headers hs cr ls : Forall (fun l => String.length l <> 1%nat) hs -> String.length cr = 1%nat ->
  print_lines (hs ++ cr :: ls) false = print_lines ls true.
Proof.
  intros Hh Hc. induction hs as [|l hs IH]; cbn [app print_lines negb]; [by rewrite Hc|].
  apply Forall_cons_1 in Hh as [Hl Hh]. rewrite (proj2 (Nat.eqb_neq _ _)) by done. by apply IH.
Qed.

Lemma packets_bytes ps : Forall (fun p => packet_ok p) ps -> (length ps <= sock_bytes (concat (map packet_events ps)))%nat.
Proof.
  assert (Ha : forall a b, sock_bytes (a ++ b) = (sock_bytes a + sock_bytes b)%nat).
  { unfold sock_bytes. induction a as [|[] a IH]; intros b; cbn [app foldr]; rewrite ?IH; lia. }
  induction ps as [|p ps IH]; intros H; [done|]. apply Forall_cons_1 in H as [_ H]. cbn [map concat length].
  rewrite Ha. unfold packet_events at 1. rewrite Ha.
  change (sock_bytes (Data (packet_header p) :: ?x)) with (8 + sock_bytes x)%nat. specialize (IH H). lia.
Qed.

Lemma cli_run_body p0 ps e :
  packet_ok p0 -> is_data (s_type p0) = true -> headers_only p0 ->
  Forall (fun p => packet_ok p /\ is_data (s_type p) = true) ps -> end_packet e ->
  cli_run (packet_events p0 ++ concat (map packet_events ps) ++ packet_events e)
  = Ok (0, foldr (fun p acc => body_text p +:+ acc) "" ps).
Proof.
  intros H0 Hd (hs & cr & Hsp & Hh & Hc) Hps He. unfold cli_run.
  set (sock := packet_events p0 ++ _). 
  assert (Hf : (S (length ps) <= sock_bytes sock)%nat).
  { pose proof (packets_bytes (p0 :: ps ++ [e])) as Hb. cbn [map concat length] in Hb.
    rewrite map_app, concat_app in Hb. cbn [map concat] in Hb. rewrite app_nil_r, length_app in Hb.
    fold sock in Hb. cbn [length] in Hb. enough (Forall (fun p => packet_ok p) (p0 :: ps ++ [e])) as Hall by (specialize (Hb Hall); lia).
    constructor; [done|]. apply Forall_app. split.
    - eapply Forall_impl; [|exact Hps]. by intros x [].
    - constructor; [apply He | done]. }
  destruct (sock_bytes sock) as [|n]; [lia|]. unfold sock.
  pose proof (cli_response_data (S n) false p0 (concat (map packet_events ps) ++ packet_events e) 0
    (foldr (fun p acc => body_text p +:+ acc) "" ps) H0 Hd) as H.
  unfold print_packet in H. fold (body_text p0) in H. rewrite Hsp, (print_lines_headers hs cr [""] Hh Hc) in H.
  change (print_lines [""] true) with ("", true) in H. cbv beta iota in H. apply H.
  rewrite <- (app_nil_r (packet_events e)). apply cli_response_body; [done|done|lia].
Qed.

(** The response is printed: when the headers are a packet of their own, fcgicli prints the payload of
    every further packet, in order, and ends with status 0 — however the payloads are cut into pieces
    and however often [recv] is interrupted. *)
Theorem cli_prints_body p0 ps e :
  packet_ok p0 -> is_data (s_type p0) = true -> headers_only p0 ->
  Forall (fun p => packet_ok p /\ is_data (s_type p) = true) ps -> end_packet e ->
  cli_run (packet_events p0 ++ concat (map packet_events ps) ++ packet_events e)
  = Ok (0, foldr (fun p acc => body_text p +:+ acc) "" ps).
Proof. apply cli_run_body. Qed.

(** A script that prints two lines, in a packet for each, after one for the headers. *)
Definition str_packet (ty : Z) (s : string) (pad : nat) (ps : list piece) : sent_packet :=
  {| s_type := ty; s_interrupts := 1; s_content := bytes s; s_padding := pad; s_pieces := ps |}.
Definition one_piece (s : string) : list piece := [{| p_interrupts := 2; p_bytes := bytes s |}].

Definition crlf : string := String CR (String LF "").
Definition demo_headers : sent_packet :=
  str_packet FCGI_STDOUT ("Content-type: text/html" +:+ crlf +:+ crlf) 0 (one_piece ("Content-type: text/html" +:+ crlf +:+ crlf)).
Definition demo_body1 : sent_packet := str_packet FCGI_STDOUT "one" 0 [{| p_interrupts := 0; p_bytes := bytes "on" |}; {| p_interrupts := 3; p_bytes := bytes "e" |}].
Definition demo_body2 : sent_packet := str_packet FCGI_STDOUT "two" 5 [{| p_interrupts := 0; p_bytes := bytes "two" ++ repeat 0 5 |}].
Definition demo_end : sent_packet :=
  {| s_type := FCGI_END_REQUEST; s_interrupts := 0; s_content := repeat 0 8; s_padding := 0; s_pieces := [{| p_interrupts := 0; p_bytes := repeat 0 8 |}] |}.

Lemma cli_prints_body_witness :
  cli_run (packet_events demo_headers ++ concat (map packet_events [demo_body1; demo_body2]) ++ packet_events demo_end)
  = Ok (0, "onetwo").
Proof.
  refine (cli_prints_body demo_headers [demo_body1; demo_body2] demo_end _ _ _ _ _);
    unfold packet_ok, pieces_ok, end_packet, headers_only.
  - split; [repeat constructor; discriminate | split; vm_compute; reflexivity].
  - reflexivity.
  - exists ["Content-type: text/html" +:+ String CR ""], (String CR "").
    split; [vm_compute; reflexivity|]. split; [|reflexivity]. constructor; [discriminate | constructor].
  - repeat constructor; try discriminate.
  - split; [|split; reflexivity]. split; [repeat constructor; discriminate | split; vm_compute; reflexivity].
Defined.

(** ** The whole program *)

Lemma cli_write_all w_buf : forall answers, Forall (fun n => 0 < n) answers -> (length w_buf <= length answers)%nat ->
  cli_write answers w_buf = (w_buf, Written).
Proof.
  enough (H : forall n w_buf, (length w_buf <= n)%nat -> forall answers, Forall (fun n => 0 < n) answers ->
    (length w_buf <= length answers)%nat -> cli_write answers w_buf = (w_buf, Written)) by eauto.
  clear w_buf. induction n as [|n IH]; intros w_buf Hn answers Ha Hl; (destruct w_buf as [|b w]; [by destruct answers|]); cbn [length] in *; [lia|].
  destruct answers as [|r answers]; cbn [length] in Hl; [lia|]. apply Forall_cons_1 in Ha as [Hr Ha]. cbn [cli_write].
  destruct (Z.ltb_spec r 0); [lia|]. rewrite IH; [by rewrite take_drop| |done|]; rewrite length_drop; cbn [length]; lia.
Qed.

(** What was written before a failure is a part of the request from its beginning. *)
Lemma cli_write_prefix answers : forall w_buf, (cli_write answers w_buf).1 `prefix_of` w_buf /\
  ((cli_write answers w_buf).2 = Written -> (cli_write answers w_buf).1 = w_buf).
Proof.
  induction answers as [|r answers IH]; intros [|b w]; cbn [cli_write]; try (split; [apply prefix_nil | done]).
  destruct (r <? 0); [split; [apply prefix_nil | done]|]. specialize (IH (drop (Z.to_nat r) (b :: w))).
  destruct (cli_write answers _) as [out e]. cbn [fst snd] in *. rewrite <-(take_drop (Z.to_nat r) (b :: w)) at 2 4. split.
  - apply prefix_app, IH.
  - intros E. f_equal. by apply IH.
Qed.

(** C24. A run of fcgicli from the options to the output: for a script, with or without a query, whose variables
    fit in a record, and a server that can be reached and takes the request in pieces of any size, the bytes
    that are sent are a request that decodes to exactly these variables, and when the server answers with
    headers and then any number of packets, their text is printed and the exit status is 0.  The eight bytes
    of the header of every packet arrive in one [recv], after any number of interruptions; its content and
    padding arrive in any pieces.  (A header in two pieces is not read: [split_header_overflows].) *)
Theorem fcgicli_asks_and_prints script data conn answers p0 ps e :
  Z.of_nat (length (encode_params (cli_kvs script data))) <= 65535 ->
  conn (UnixSocket FCGI_SOCK_PATH) = None ->
  Forall (fun n => 0 < n) answers -> (length (encode_params (cli_kvs script data)) + 40 <= length answers)%nat ->
  packet_ok p0 -> is_data (s_type p0) = true -> headers_only p0 ->
  Forall (fun p => packet_ok p /\ is_data (s_type p) = true) ps -> end_packet e ->
  exists sent content,
    fcgicli (Opt_f script :: match data with Some d => [Opt_d d] | None => [] end) conn answers
      (packet_events p0 ++ concat (map packet_events ps) ++ packet_events e)
    = Ok (sent, 0, foldr (fun p acc => body_text p +:+ acc) "" ps) /\
    request_decodes false 1 (cli_kvs script data) content sent.
Proof.
  intros Hl Hc Ha Hn H0 Hd Hh Hps He. destruct (cli_request_decodes false script data Hl) as (req & content & Er & Hlen & Hr).
  exists req, content. split; [|done].
  unfold fcgicli. assert (Hg : forall c, cli_getopt (Opt_f script :: match data with Some d => [Opt_d d] | None => [] end)
    {| o_data := None; o_script := None; o_keepalive := false; o_socket := c |}
    = inl {| o_data := data; o_script := Some script; o_keepalive := false; o_socket := c |}) by (intros c; by destruct data).
  rewrite Hg. cbn [o_script o_socket o_keepalive o_data]. change (cli_socket FCGI_SOCK_PATH) with (inl Z (UnixSocket FCGI_SOCK_PATH)).
  cbv iota. rewrite Hc, Er, cli_write_all by (done || lia). by rewrite cli_run_body.
Qed.

Lemma fcgicli_asks_and_prints_witness :
  exists sent content,
    fcgicli [Opt_f "/etc/rc.newwanip"; Opt_d "interface=wan"] (fun _ => None) (repeat 7 300)
      (packet_events demo_headers ++ concat (map packet_events [demo_body1; demo_body2]) ++ packet_events demo_end)
    = Ok (sent, 0, "onetwo") /\
    request_decodes false 1 (cli_kvs "/etc/rc.newwanip" (Some "interface=wan")) content sent.
Proof.
  refine (fcgicli_asks_and_prints "/etc/rc.newwanip" (Some "interface=wan") (fun _ => None) (repeat 7 300)
            demo_headers [demo_body1; demo_body2] demo_end _ _ _ _ _ _ _ _ _);
    unfold packet_ok, pieces_ok, end_packet, headers_only.
  - vm_compute. discriminate.
  - reflexivity.
  - apply List.Forall_forall. intros x Hx. apply repeat_spec in Hx. subst x. reflexivity.
  - vm_compute. lia.
  - split; [repeat constructor; discriminate | split; vm_compute; reflexivity].
  - reflexivity.
  - exists ["Content-type: text/html" +:+ String CR ""], (String CR "").
    split; [vm_compute; reflexivity|]. split; [|reflexivity]. constructor; [discriminate | constructor].
  - repeat constructor; try discriminate.
  - split; [|split; reflexivity]. split; [repeat constructor; discriminate | split; vm_compute; reflexivity].
Defined.

(** What follows the headers in their own packet is lost after its first line: [print_lines] leaves
    the packet when it has printed one line, and the next packet is printed from its beginning. *)
Theorem first_packet_cut p hs cr l ls :
  split_at LF (body_text p) = hs ++ cr :: l :: ls -> Forall (fun l => String.length l <> 1%nat) hs ->
  String.length cr = 1%nat -> String.prefix "#!" l = false -> ls <> [] ->
  print_packet (s_content p ++ repeat 0 (s_padding p)) false = (l +:+ String LF "", true).
Proof.
  intros Hs Hh Hc Hp Hl. unfold print_packet. fold (body_text p). rewrite Hs, print_lines_headers by done.
  cbn [print_lines negb]. rewrite Hp. by rewrite bool_decide_eq_false_2.
Qed.

Definition demo_script : sent_packet :=
  let s := "X: y" +:+ crlf +:+ crlf +:+ "one" +:+ String LF "" +:+ "two" +:+ String LF "" in
  str_packet FCGI_STDOUT s 0 (one_piece s).

Lemma first_packet_cut_witness :
  print_packet (s_content demo_script ++ repeat 0 (s_padding demo_script)) false = ("one" +:+ String LF "", true).
Proof.
  apply (first_packet_cut demo_script ["X: y" +:+ String CR ""] (String CR "") "one" ["two"; ""]);
    [vm_compute; reflexivity | constructor; [discriminate | constructor] | reflexivity | reflexivity | discriminate].
Defined.

(** A header that arrives in two pieces is not read: the second piece is written [8 * read] bytes after
    the beginning of the header, outside of it. *)
Theorem split_header_overflows l1 l2 rest :
  (0 < length l1 < 8)%nat -> l2 <> [] ->
  cli_run (Data l1 :: Data l2 :: rest) = Fail (ArrayBounds (8 * Z.of_nat (length l1))).
Proof.
  intros H1 H2. unfold cli_run. cbn [cli_response]. unfold read_packet.
  assert (E : recv_header 0 [] (Data l1 :: Data l2 :: rest) = Fail (ArrayBounds (8 * Z.of_nat (length l1)))).
  { destruct l2 as [|c l2]; [done|].
    destruct l1 as [|? [|? [|? [|? [|? [|? [|? [|? ?]]]]]]]]; cbn [length] in H1; (lia || reflexivity). }
  by rewrite E.
Qed.

Lemma split_header_overflows_witness :
  cli_run [Data [1; 6; 0; 1]; Data [0; 0; 0; 0]] = Fail (ArrayBounds 32).
Proof. apply (split_header_overflows [1; 6; 0; 1] [0; 0; 0; 0] []); [cbn; lia | discriminate]. Defined.

(** ** The client ends *)

Lemma recv_loop_bytes sock : forall n buf, (sock_bytes (recv_loop n buf sock).2 <= sock_bytes sock)%nat.
Proof.
  unfold sock_bytes. induction sock as [|[[|b l]| |] sock IH]; intros [|n] buf; cbn [recv_loop snd foldr length]; try done; try lia; auto.
  destruct (_ <=? _)%nat; cbn [snd]; [etrans; [apply IH|]; lia|]. cbn [foldr]. rewrite length_drop. cbn [length]. lia.
Qed.

Lemma recv_header_bytes sock : forall read buf b sock',
  (read < 8)%nat -> recv_header read buf sock = Ok (Some b, sock') -> (sock_bytes sock' < sock_bytes sock)%nat.
Proof.
  unfold sock_bytes. induction sock as [|[[|x l]| |] sock IH]; intros read buf b sock' Hr E; cbn [recv_header] in E;
    rewrite (proj2 (Nat.leb_gt _ _)) in E by lia; try done; cbn [foldr length].
  - destruct (0 <? read)%nat; [done|]. destruct (_ <=? _)%nat eqn:E8.
    + apply Nat.leb_le in E8. cbn [length] in *. destruct (decide (S (length l) = 8%nat)) as [E7|].
      * rewrite E7 in E. destruct sock; cbn [recv_header Nat.leb] in E; simplify_eq; cbn [foldr]; lia.
      * apply IH in E; lia.
    + simplify_eq. cbn [foldr]. rewrite length_drop. cbn [length]. lia.
  - eapply IH; [|exact E]. lia.
Qed.

Lemma read_packet_bytes sock h buf sock' : read_packet sock = Ok (Some (h, buf), sock') -> (sock_bytes sock' < sock_bytes sock)%nat.
Proof.
  unfold read_packet. intros E. destruct (recv_header 0 [] sock) as [[[b|] s1]|] eqn:E1; try done. cbn [mbind outcome_bind] in E.
  apply recv_header_bytes in E1; [|lia]. destruct (negb _); [done|].
  pose proof (recv_loop_bytes s1 (Z.to_nat (h_len (parse_header b))) []) as Hb.
  destruct (recv_loop _ _ _) as [[l|] s2]; [|done]. simplify_eq. cbn [snd] in Hb. lia.
Qed.

(** fcgicli ends for every response, at the latest when the stream does. *)
Theorem cli_run_terminates sock : cli_run sock <> Fail NoFuel.
Proof.
  unfold cli_run. assert (H : forall fuel e sock, (sock_bytes sock < fuel)%nat -> cli_response fuel e sock <> Fail NoFuel).
  { clear sock. induction fuel as [|fuel IH]; intros e sock Hf; [lia|]. cbn [cli_response].
    destruct (read_packet sock) as [[[[h buf]|] s]|f] eqn:E; cbn [mbind outcome_bind]; [|done|].
    - apply read_packet_bytes in E. destruct (_ || _).
      + destruct (print_packet buf e) as [o e']. specialize (IH e' s ltac:(lia)).
        destruct (cli_response fuel e' s) as [[]|]; cbn; congruence.
      + destruct (_ =? _); [done|]. destruct (_ =? _); [|done]. unfold end_request. by destruct (_ <? _)%nat.
    - intros [= ->]. unfold read_packet in E. revert E.
      assert (Hh : forall s r b, recv_header r b s <> Fail NoFuel).
      { induction s as [|[[|x l]| |] s IHs]; intros r b; cbn [recv_header]; destruct (8 <=? r)%nat; try done; auto.
        destruct (0 <? r)%nat; [done|]. destruct (_ <=? _)%nat; [auto|done]. }
      specialize (Hh sock 0%nat []). destruct (recv_header 0 [] sock) as [[[b|] s1]|f]; cbn; try congruence.
      destruct (negb _); [done|]. by destruct (recv_loop _ _ _) as [[|] ?]. }
  apply H. lia.
Qed.

(** ** pfSctl *)

Lemma ctl_getopt_commands cs : forall acc tail, (length acc + length cs <= 6)%nat ->
  ctl_getopt (map Ctl_c cs ++ tail) acc None = ctl_getopt tail (acc ++ cs) None.
Proof.
  induction cs as [|c cs IH]; intros acc tail Hn; cbn [map app ctl_getopt]; [by rewrite app_nil_r|].
  cbn [length] in Hn. rewrite (proj2 (Nat.ltb_ge _ _)) by lia. rewrite IH by (rewrite length_app; cbn; lia). by rewrite <- app_assoc.
Qed.

Lemma ctl_loop_replies cmds : forall replies,
  length replies = length cmds -> Forall (fun r => String.length r < 2048 /\ has_char "000" r = false)%nat replies ->
  ctl_loop cmds (map Reply replies) = Ok (cmds, foldr String.append "" replies).
Proof.
  induction cmds as [|c cmds IH]; intros [|r replies] Hl Hr; try done.
  apply Forall_cons_1 in Hr as [[Hr1 Hr2] Hr]. cbn [map ctl_loop foldr].
  assert (Hp : ctl_print (Reply r) = Ok r).
  { unfold ctl_print. rewrite str_take_all by (unfold ctl_buf; lia). rewrite c_str_plain by done.
    by rewrite (proj2 (Nat.ltb_lt _ _)) by (unfold ctl_buf; lia). }
  rewrite Hp. cbn [mbind outcome_bind]. rewrite IH by (done || (cbn in Hl; lia)). done.
Qed.

(** pfSctl sends what it is told: with up to six commands, at most one socket and replies shorter than
    its buffer, every command is sent in order and every reply is printed; with a seventh command it
    ends before it sends anything. *)
Theorem pfsctl_sends_all cmds replies more :
  length replies = length cmds -> Forall (fun r => String.length r < 2048 /\ has_char "000" r = false)%nat replies ->
  ((length cmds <= 6)%nat ->
   ctl_main (map Ctl_c cmds) (map Reply replies) = Ok (0, cmds, foldr String.append "" replies)) /\
  ((length cmds = 6)%nat -> ctl_main (map Ctl_c cmds ++ Ctl_c more :: []) (map Reply replies) = Ok (-3, [], "")).
Proof.
  intros Hl Hr. unfold ctl_main. split; intros Hn.
  - rewrite <- (app_nil_r (map Ctl_c cmds)), ctl_getopt_commands by (cbn; lia). cbn [app ctl_getopt].
    by rewrite ctl_loop_replies.
  - rewrite ctl_getopt_commands by (cbn; lia). cbn [app ctl_getopt]. by rewrite (proj2 (Nat.ltb_lt _ _)) by lia.
Qed.

Lemma pfsctl_sends_all_witness :
  ctl_main [Ctl_c "interface reload"; Ctl_c "filter reload"] [Reply "OK"; Reply "OK"] = Ok (0, ["interface reload"; "filter reload"], "OKOK").
Proof.
  refine (proj1 (pfsctl_sends_all ["interface reload"; "filter reload"] ["OK"; "OK"] "" eq_refl _) _); [|cbn; lia].
  repeat constructor; vm_compute; try reflexivity; lia.
Defined.
