(* ===== verification/CrsSession.v ===== *)
(** check_reload_status and pfSctl together: a client gives its commands over the socket, the daemon reads
    them one after the other, answers, and puts them in its queue. *)
From Stdlib Require Import ZArith Lia Ascii String.
From stdpp Require Import base list strings numbers.
From S2P Require Import Prelude CProg CrsFcgi CrsCommands CrsQueue CrsClients.
Open Scope string_scope.
Open Scope list_scope.
Open Scope Z_scope.

(** The daemon's side of a connection: the client writes a command only after the answer to the one before
    it, so that every [read] gets one command.  There are no answers after the connection was closed. *)
Fixpoint serve (cmds : list string) (st : CrsQueue.state) : outcome (CrsQueue.state * list string) :=
  match cmds with
  | [] => Ok (st, [])
  | c :: cmds =>
      '(st, answer, closed) ← socket_read_command (CEV_READ (Some c)) st;
      if closed : bool then Ok (st, [answer])
      else '(st, answers) ← serve cmds st; Ok (st, answer :: answers)
  end.

(** One run of pfSctl against the daemon: its exit status, what it prints, and the daemon afterwards. *)
Definition session (opts : list ctl_opt) (st : CrsQueue.state) : outcome (Z * string * CrsQueue.state) :=
  match ctl_getopt opts [] None with
  | inr code => Ok (code, "", st)
  | inl (cmds, _) =>
      '(st, answers) ← serve cmds st;
      '(_, out) ← ctl_loop cmds (map Reply answers);
      Ok (0, out, st)
  end.

(** ** Commands of the tables *)

(** What a client asks for: the words to a leaf of the tables, the leaf, and its argument if it has one. *)
Record request : Type := { r_words : list string; r_leaf : CrsCommands.command; r_args : list string }.

Definition all_words (q : request) : list string := r_words q ++ r_args q.
Definition request_text (q : request) : string := join_with " " (all_words q).

(** A character of a word: a letter, a digit or a punctuation character. *)
Definition printable (c : ascii) : bool := (33 <=? ascii_val c) && (ascii_val c <=? 126).

Record request_ok (q : request) : Prop := {
  rq_path : path first_level (r_words q) (r_leaf q);
  rq_none : c_type (r_leaf q) = NON -> r_args q = [];
  rq_one : c_type (r_leaf q) <> NON -> exists a, r_args q = [a];
  rq_words : Forall (fun w => all_chars printable w = true /\ w <> "") (all_words q);
  rq_length : Z.of_nat (String.length (request_text q)) < bufsize
}.

(** The daemon's side of a request: the run of the leaf with the last word. *)
Definition effect (q : request) (st : CrsQueue.state) : CrsQueue.state :=
  match c_cmd (r_leaf q) with
  | Some r => CrsQueue.run_command r (c_type (r_leaf q)) (List.last (map Some (all_words q)) None) st
  | None => st
  end.

(** ** Reading a line without control characters *)

Lemma get_all P s k c : all_chars P s = true -> String.get k s = Some c -> P c = true.
Proof.
  revert k. induction s as [|d s IH]; intros [|k]; cbn [all_chars String.get]; try done.
  - intros [H _]%andb_true_iff [= <-]. done.
  - intros [_ H]%andb_true_iff. by apply IH.
Qed.

Lemma all_chars_impl (P Q : ascii -> bool) s : (forall c, P c = true -> Q c = true) -> all_chars P s = true -> all_chars Q s = true.
Proof.
  intros HPQ. induction s as [|c s IH]; [done|]. cbn [all_chars]. intros [H1 H2]%andb_true_iff.
  by rewrite HPQ, IH.
Qed.

Definition line_char (c : ascii) : bool := (32 <=? ascii_val c) && (ascii_val c <=? 126).

Lemma line_char_forallb s : all_chars line_char s = true -> forallb allowed (list_ascii_of_string s) = true.
Proof.
  induction s as [|c s IH]; [done|]. cbn [all_chars list_ascii_of_string forallb]. intros [H1 H2]%andb_true_iff.
  rewrite IH by done. unfold allowed. unfold line_char in H1. by rewrite H1.
Qed.

Lemma strip_newline_plain s : all_chars line_char s = true -> strip_newline s = (s, Z.of_nat (String.length s)).
Proof.
  intros Hs. unfold strip_newline.
  assert (Hc : forall k c, String.get k s = Some c -> Ascii.eqb c LF = false /\ Ascii.eqb c CR = false).
  { intros k c Hg. pose proof (get_all _ _ _ _ Hs Hg) as H. split; apply Ascii.eqb_neq; by intros ->. }
  destruct (String.get (Z.to_nat (Z.of_nat (String.length s) - 1)) s) as [c|] eqn:E1;
    [rewrite (proj1 (Hc _ _ E1))|];
    (destruct (String.get (Z.to_nat (Z.of_nat (String.length s) - 2)) s) as [d|] eqn:E2; [|done]);
    by rewrite (proj2 (Hc _ _ E2)), andb_false_r.
Qed.

Lemma str_take_chars P n s : all_chars P s = true -> all_chars P (str_take n s) = true.
Proof.
  revert s. induction n as [|n IH]; intros [|c s]; cbn [str_take all_chars]; try done.
  intros [H1 H2]%andb_true_iff. by rewrite H1, IH.
Qed.

Lemma read_line_plain s : all_chars line_char s = true -> Z.of_nat (String.length s) < bufsize -> read_line s = parse_line s.
Proof.
  intros Hs Hl. unfold read_line. rewrite strip_newline_plain by done.
  rewrite line_char_forallb by (by apply str_take_chars). cbn [negb].
  rewrite c_str_plain by (by apply (all_chars_no_char line_char)).
  destruct (Z.leb_spec bufsize (Z.of_nat (String.length s))); [lia|done].
Qed.

Lemma join_chars (P : ascii -> bool) (d : ascii) (l : list string) :
  P d = true -> Forall (fun w => all_chars P w = true) l -> all_chars P (join_with d l) = true.
Proof.
  intros Hd. induction 1 as [|w l Hw Hl IH]; [done|]. destruct l as [|v l]; [done|].
  rewrite join_with_cons, all_chars_app, Hw by done. cbn [all_chars andb]. by rewrite Hd, IH.
Qed.

Lemma last_lookup_pred {A} (l : list A) (x : A) : l !! pred (length l) = Some x -> List.last (map Some l) None = Some x.
Proof.
  induction l as [|a [|b l] IH]; [done| |]; intros H; [done|]. cbn [map List.last]. apply IH.
  exact H.
Qed.

(** ** A request is executed *)

Lemma leaf_runs start ws m : table_ok start -> path start ws m -> exists r, c_cmd m = Some r.
Proof.
  intros Ht Hp. revert Ht. induction Hp as [start w m Hm Hn|start w x n ws m Hm Hn Hp IH]; intros Ht.
  - destruct (match_command_ok _ _ _ Ht Hm) as [_ Hx]. rewrite Hn in Hx. tauto.
  - destruct (match_command_ok _ _ _ Ht Hm) as [_ Hx]. rewrite Hn in Hx. tauto.
Qed.

Definition ok_answer : string := "OK" +:+ String LF "".

Lemma read_request q st : request_ok q ->
  socket_read_command (CEV_READ (Some (request_text q))) st = Ok (effect q st, ok_answer, false).
Proof.
  intros [Hp Hnone Hone Hw Hl]. unfold socket_read_command.
  assert (Hne : request_text q <> "").
  { unfold request_text. intros E. destruct (all_words q) as [|w l] eqn:Ew; [by unfold all_words in Ew; destruct Hp|].
    apply Forall_cons_1 in Hw as [[_ Hw] _]. destruct w as [|c w]; [done|]. destruct l; discriminate E. }
  rewrite (proj2 (String.eqb_neq _ _)) by done.
  rewrite read_line_plain; [| |done].
  - destruct (parse_line_path (r_words q) (r_leaf q) (r_args q) Hp Hnone Hone) as (arg & E & Ha).
    { eapply Forall_impl; [|exact Hw]. intros w [H1 H2]. split; [|done]. revert H1. apply all_chars_impl.
      intros c. unfold printable, word_char. intros [H3%Z.leb_le _]%andb_true_iff. apply negb_true_iff, orb_false_iff.
      split; apply Ascii.eqb_neq; intros ->; exact (H3 eq_refl). }
    unfold request_text, all_words. rewrite E. unfold effect. destruct (leaf_runs _ _ _ first_level_ok Hp) as (r & ->).
    unfold all_words. by rewrite (last_lookup_pred _ _ Ha).
  - apply join_chars; [done|]. eapply Forall_impl; [|exact Hw]. intros w [H1 _]. revert H1. apply all_chars_impl.
    intros c. unfold printable, line_char. intros [H3%Z.leb_le H4]%andb_true_iff. rewrite H4, andb_true_r. apply Z.leb_le. lia.
Qed.

Lemma serve_requests qs : forall st, Forall request_ok qs ->
  serve (map request_text qs) st = Ok (fold_left (fun st q => effect q st) qs st, map (fun _ => ok_answer) qs).
Proof.
  induction qs as [|q qs IH]; intros st Hq; [done|]. apply Forall_cons_1 in Hq as [Hq Hqs].
  cbn [map serve]. rewrite read_request by done. cbn [mbind outcome_bind]. by rewrite IH.
Qed.

Lemma session_requests (qs : list request) (st : CrsQueue.state) :
  Forall request_ok qs -> (length qs <= 6)%nat ->
  session (map (fun q => Ctl_c (request_text q)) qs) st
  = Ok (0, foldr String.append "" (map (fun _ => ok_answer) qs), fold_left (fun st q => effect q st) qs st).
Proof.
  intros Hq Hl. unfold session.
  assert (Hg := ctl_getopt_commands (map request_text qs) [] []). rewrite map_map, app_nil_r in Hg.
  rewrite Hg by (rewrite length_map; cbn; lia). cbn [app ctl_getopt]. rewrite serve_requests by done.
  cbn [mbind outcome_bind].
  rewrite (ctl_loop_replies (map request_text qs) (map (fun _ => ok_answer) qs)); [done|by rewrite !length_map|].
  apply List.Forall_map, List.Forall_forall. intros q _. split; [cbn; lia | done].
Qed.

(** ** From the client to the web server *)

Lemma leaf_run_known start ws m r : runs_in start -> path start ws m -> c_cmd m = Some r -> r ∈ all_runs.
Proof.
  intros Hr Hp. revert Hr. induction Hp as [start w m Hm Hn|start w x n ws m Hm Hn Hp IH]; intros Ht;
    destruct (match_command_runs _ _ _ Ht Hm) as [Hx Hy]; auto.
Qed.

Lemma leaf_type start ws m : table_ok start -> path start ws m -> c_type m <> COMPOUND.
Proof.
  intros Ht Hp. revert Ht. induction Hp as [start w m Hm Hn|start w x n ws m Hm Hn Hp IH]; intros Ht;
    destruct (match_command_ok _ _ _ Ht Hm) as [_ Hx]; rewrite Hn in Hx; tauto.
Qed.

(** The entries for the requests, once they were given. *)
Lemma effects_queued keepalive qs : forall st, CrsQueue.reachable keepalive st -> Forall request_ok qs ->
  let st' := fold_left (fun st q => effect q st) qs st in
  CrsQueue.reachable keepalive st' /\ (forall e, e ∈ cmds st -> dontexec e = false -> e ∈ cmds st') /\
  forall q, q ∈ qs -> exists r e, c_cmd (r_leaf q) = Some r /\ e ∈ cmds st' /\
    command e = CrsCommands.run_command r /\ dontexec e = false.
Proof.
  induction qs as [|q qs IH]; intros st Hst Hq; cbn [fold_left]; cbv zeta.
  { split; [done|]. split; [done|]. intros q Hin. by apply elem_of_nil in Hin. }
  apply Forall_cons_1 in Hq as [Hq Hqs]. destruct (leaf_runs _ _ _ first_level_ok (rq_path _ Hq)) as (r & Hr).
  pose proof (leaf_run_known _ _ _ r first_level_runs (rq_path _ Hq) Hr) as Hin.
  pose proof (leaf_type _ _ _ first_level_ok (rq_path _ Hq)) as Hty.
  assert (He : effect q st = CrsQueue.run_command r (c_type (r_leaf q)) (List.last (map Some (all_words q)) None) st)
    by (unfold effect; by rewrite Hr).
  destruct (IH (effect q st)) as (H1 & H2 & H3); [|done|].
  { rewrite He. eapply reachable_step; [exact Hst|]. by apply step_command. }
  split; [done|]. split; [intros e Hie Hd; apply H2; [|done]; rewrite He; by apply run_command_keeps|].
  intros x [-> |Hx]%elem_of_cons; [|by apply H3]. exists r.
  destruct (run_command_queued st r (c_type (r_leaf q)) (List.last (map Some (all_words q)) None) (reachable_inv _ _ Hst) Hin Hty)
    as (e & Hie & Hc & Hd). exists e. rewrite <- He in Hie. auto.
Qed.


Lemma scan_queue_absent r l : forall sum, CrsCommands.run_command r ∉ map command l -> scan_queue r sum l = inl sum.
Proof.
  induction l as [|e l IH]; intros sum Hn; [done|]. cbn [map scan_queue] in *. apply not_elem_of_cons in Hn as [H1 H2].
  rewrite (proj2 (String.eqb_neq _ _)) by congruence. by rewrite andb_false_r, IH.
Qed.

(** The parameters of a request: the format of the leaf with the last word. *)
Definition query (q : request) (r : run) : string := expand_params r (List.last (map Some (all_words q)) None).

Lemma effect_new q r st : request_ok q -> c_cmd (r_leaf q) = Some r -> CrsCommands.run_command r ∉ map command (cmds st) ->
  effect q st = {| cmds := new_entry r (List.last (map Some (all_words q)) None) 0 (fresh st) :: cmds st;
                   lastRequest := lastRequest st; fresh := S (fresh st); sent := sent st |}.
Proof.
  intros Hq Hc Hn. unfold effect. rewrite Hc. unfold CrsQueue.run_command. rewrite scan_queue_absent by done.
  rewrite bool_decide_eq_false_2; [done|]. exact (leaf_type _ _ _ first_level_ok (rq_path _ Hq)).
Qed.

(** C12. A command goes from pfSctl to the web server: when the daemon, in any state it can reach, has no entry
    for the command yet, then a run of pfSctl with a request for it ends with status 0 and puts an entry in
    the queue whose timeout is pending; when that fires, the socket can be opened and [write] takes all of it,
    one request is sent, which a FastCGI server reads as the script of the leaf, with the argument that was given to
    pfSctl in its query string, and the step is one of the machine of the queue. *)
Theorem command_reaches_server keepalive q r st fd :
  CrsQueue.reachable keepalive st -> request_ok q -> c_cmd (r_leaf q) = Some r -> FCGICMD r = true ->
  CrsCommands.run_command r ∉ map command (cmds st) -> 0 <= fd ->
  exists st1 e st2 p content pkt,
    session [Ctl_c (request_text q)] st = Ok (0, ok_answer, st1) /\
    lookup_id (rq_id e) (cmds st1) = Some e /\ timer e = true /\
    fcgi_send_command keepalive (set_exec e (dontexec e) false) fd (Z.of_nat (length pkt)) st1 = Ok st2 /\
    sent st2 = sent st ++ [pkt] /\ Z.of_nat (length pkt) <= BUFSIZE /\
    strrchr "/" (CrsCommands.run_command r) = Some p /\
    request_decodes keepalive (i32 (lastRequest st + 1)) (request_kvs (CrsCommands.run_command r) (query q r) p) content pkt /\
    CrsQueue.reachable keepalive st2.
Proof.
  intros Hst Hq Hc Hf Hn Hfd. set (arg := List.last (map Some (all_words q)) None).
  assert (Hr : r ∈ all_runs) by exact (leaf_run_known _ _ _ r first_level_runs (rq_path _ Hq) Hc).
  destruct (fcgi_run_fits r Hr Hf) as (p & Hp & Hl).
  destruct (fcgi_request_decodes keepalive (i32 (lastRequest st + 1)) (CrsCommands.run_command r) (query q r) p Hp Hl
    (expand_params_length r arg)) as (pkt & content & Hb & Hlen & Hdec).
  pose proof (effect_new q r st Hq Hc Hn) as He. fold arg in He.
  assert (Hs : exists st2, fcgi_send_command keepalive (set_exec (new_entry r arg 0 (fresh st)) false false) fd (Z.of_nat (length pkt)) (effect q st) = Ok st2 /\
    sent st2 = sent st ++ [pkt]).
  { unfold fcgi_send_command. rewrite He. cbn [set_exec new_entry dontexec command params lastRequest socket sent].
    unfold query in Hb. fold arg in Hb. rewrite Hb. destruct (Z.leb_spec 0 0); [|lia]. destruct (Z.ltb_spec fd 0); [lia|].
    rewrite (proj2 (Z.ltb_ge _ 0)), Nat2Z.id, firstn_all by lia. by eexists. }
  destruct Hs as (st2 & Hs & Hsent). exists (effect q st), (new_entry r arg 0 (fresh st)), st2, p, content, pkt.
  assert (Hk : lookup_id (fresh st) (cmds (effect q st)) = Some (new_entry r arg 0 (fresh st))).
  { rewrite He. cbn [cmds lookup_id new_entry rq_id]. by rewrite Nat.eqb_refl. }
  split_and!; try done.
  - exact (session_requests [q] st ltac:(by constructor) ltac:(cbn; lia)).
  - eapply reachable_step; [|eapply (step_send _ (new_entry r arg 0 (fresh st))); [exact Hk | reflexivity | exact Hf | exact Hs]].
    eapply reachable_step; [exact Hst|]. unfold effect. rewrite Hc. apply step_command; [done|].
    exact (leaf_type _ _ _ first_level_ok (rq_path _ Hq)).
Qed.

Definition demo_leaf (start : list CrsCommands.command) (w : string) : CrsCommands.command :=
  default (Command RELOAD NON "" None None) (match_command start w).

Definition demo_newip : request :=
  {| r_words := ["interface"; "newip"]; r_leaf := demo_leaf c_interface "newip"; r_args := ["igb0"] |}.
Definition demo_reload : request :=
  {| r_words := ["filter"; "reload"]; r_leaf := demo_leaf c_filter "reload"; r_args := [] |}.

Lemma demo_requests_ok : Forall request_ok [demo_newip; demo_reload].
Proof.
  constructor; [|constructor; [|constructor]]; split.
  1,6: eapply path_inner; [reflexivity|reflexivity|]; apply path_leaf; reflexivity.
  - intros H. discriminate H.
  - intros _. by exists "igb0".
  - repeat constructor; done.
  - done.
  - done.
  - intros H. by exfalso; apply H.
  - repeat constructor; done.
  - done.
Qed.


Lemma command_reaches_server_witness :
  exists st1 e st2 p content pkt,
    session [Ctl_c "interface newip igb0"] CrsQueue.init = Ok (0, ok_answer, st1) /\
    fcgi_send_command false (set_exec e (dontexec e) false) 5 (Z.of_nat (length pkt)) st1 = Ok st2 /\ sent st2 = [pkt] /\
    request_decodes false 1 (request_kvs "/etc/rc.newwanip" "interface=igb0" p) content pkt.
Proof.
  destruct (command_reaches_server false demo_newip (CrsQueue.demo_newip) CrsQueue.init 5)
    as (st1 & e & st2 & p & content & pkt & H1 & H2 & H3 & H4 & H5 & H6 & H7 & H8 & _).
  - apply reachable_init.
  - exact (Forall_inv demo_requests_ok).
  - vm_compute. reflexivity.
  - vm_compute. reflexivity.
  - apply not_elem_of_nil.
  - lia.
  - exists st1, e, st2, p, content, pkt. split; [exact H1|]. split; [exact H4|]. split; [exact H5|]. exact H8.
Defined.

(** ** Many clients

    The connections of the daemon and its queue.  [accept] gives a descriptor that is not open; while a
    connection is open its client sends, hangs up or is silent for ten seconds; in between the timeouts and
    responses of the queue come in any order. *)
Record daemon : Type := { conns : list Z; queue : CrsQueue.state }.

(** [socket_accept_command]: [None] when [accept] fails; [room] is whether the event can be allocated. *)
Definition socket_accept_command (newfd : option Z) (room : bool) (d : daemon) : daemon :=
  match newfd with
  | Some fd => if room then {| conns := conns d ++ [fd]; queue := queue d |} else d
  | None => d
  end.

(** [socket_close_command] *)
Definition socket_close_command (fd : Z) (l : list Z) : list Z := filter (fun x => x <> fd) l.

(** An event of one connection. *)
Definition client (fd : Z) (event : client_event) (d : daemon) : outcome (daemon * string) :=
  '(q, answer, closed) ← socket_read_command event (queue d);
  Ok ({| conns := if closed : bool then socket_close_command fd (conns d) else conns d; queue := q |}, answer).

(** Reads that are shorter than the buffer. *)
Definition short_read (event : client_event) : Prop :=
  forall buf, event = CEV_READ (Some buf) -> Z.of_nat (String.length buf) < bufsize.

Inductive daemon_step (keepalive : bool) : daemon -> daemon -> Prop :=
  | d_accept fd room d : (forall x, fd = Some x -> x ∉ conns d) -> daemon_step keepalive d (socket_accept_command fd room d)
  | d_client fd event d d' answer :
      fd ∈ conns d -> short_read event -> client fd event d = Ok (d', answer) -> daemon_step keepalive d d'
  | d_queue d q : CrsQueue.step keepalive (queue d) q -> daemon_step keepalive d {| conns := conns d; queue := q |}.

Inductive daemon_reachable (keepalive : bool) : daemon -> Prop :=
  | d_init : daemon_reachable keepalive {| conns := []; queue := CrsQueue.init |}
  | d_step d d' : daemon_reachable keepalive d -> daemon_step keepalive d d' -> daemon_reachable keepalive d'.

(** What the calls of [main] before the event loop answer. *)
Record startup : Type := { daemon_ok : bool; socket_ok : bool; bind_ok : bool; listen_ok : bool }.

(** [main]; [inr] is its return value. *)
Definition crs_main (s : startup) : daemon + Z :=
  if negb (daemon_ok s) then inr 1
  else if negb (socket_ok s) then inr (-1)
  else if negb (bind_ok s) then inr (-2)
  else if negb (listen_ok s) then inr (-1)
  else inl {| conns := []; queue := CrsQueue.init |}.

(** What holds of the daemon at all times. *)
Record daemon_inv (keepalive : bool) (d : daemon) : Prop := {
  d_nodup : NoDup (conns d);
  d_queue_ok : CrsQueue.reachable keepalive (queue d)
}.

Lemma client_ok keepalive fd event d : short_read event -> daemon_inv keepalive d ->
  exists d' answer, client fd event d = Ok (d', answer) /\ daemon_inv keepalive d' /\
    (conns d' = conns d \/ conns d' = socket_close_command fd (conns d)).
Proof.
  intros Hs [Hn Hq]. destruct (socket_read_command_ok keepalive event (queue d) Hs) as (q & a & c & E & Hq').
  unfold client. rewrite E. cbn [mbind outcome_bind]. eexists _, a. split; [reflexivity|].
  assert (Hr : CrsQueue.reachable keepalive q) by (destruct Hq' as [-> |H]; [done | by eapply reachable_step]).
  destruct c; cbn [conns]; (split; [split|]; cbn [conns queue]; [|done|by auto]); [by apply list.NoDup_filter | done].
Qed.

Lemma daemon_step_inv keepalive d d' : daemon_inv keepalive d -> daemon_step keepalive d d' -> daemon_inv keepalive d'.
Proof.
  intros Hi Hs. destruct Hs as [fd room d Hf|fd event d d' a Hin Hs E|d q Hq].
  - destruct Hi as [Hn Hq]. destruct fd as [x|]; [|done]. destruct room; [|done]. split; cbn [conns queue socket_accept_command]; [|done].
    apply list.NoDup_app. split_and!; [done| |apply NoDup_singleton]. intros y Hy ->%list_elem_of_singleton. by apply (Hf x).
  - destruct (client_ok keepalive fd event d Hs Hi) as (d2 & a2 & E2 & Hi2 & _). rewrite E in E2. by injection E2 as -> _.
  - destruct Hi as [Hn Hr]. split; [done|]. by eapply reachable_step.
Qed.

Lemma daemon_reachable_inv keepalive d : daemon_reachable keepalive d -> daemon_inv keepalive d.
Proof.
  induction 1 as [|d d' _ IH Hs]; [|by eapply daemon_step_inv]. split; [constructor | apply reachable_init].
Qed.

(** C13. Clients cannot break the daemon or each other: in every state it can reach by connections, commands,
    hang-ups, timeouts and responses in any order, what the next client sends on an open connection is handled
    without a fault; it closes at most that connection, leaves the others open, and the queue in a state in
    which the invariants of the queue hold. *)
Theorem clients_independent keepalive d fd event :
  daemon_reachable keepalive d -> fd ∈ conns d -> short_read event ->
  exists d' answer, client fd event d = Ok (d', answer) /\ CrsQueue.reachable keepalive (queue d') /\
    (forall x, x <> fd -> (x ∈ conns d' <-> x ∈ conns d)) /\ NoDup (conns d').
Proof.
  intros Hd Hin Hs. destruct (client_ok keepalive fd event d Hs (daemon_reachable_inv _ _ Hd)) as (d' & a & E & [Hn Hq] & Hc).
  exists d', a. split_and!; [done|done| |done]. intros x Hx. destruct Hc as [-> | ->]; [done|].
  unfold socket_close_command. rewrite list_elem_of_filter. tauto.
Qed.

Lemma clients_independent_witness : exists d' answer,
  client 7 (CEV_READ (Some "filter reload")) {| conns := [7; 8]; queue := CrsQueue.init |} = Ok (d', answer) /\
  CrsQueue.reachable false (queue d') /\ (forall x, x <> 7 -> (x ∈ conns d' <-> x ∈ [7; 8])) /\ NoDup (conns d').
Proof.
  apply (clients_independent false {| conns := [7; 8]; queue := CrsQueue.init |} 7).
  - apply (d_step _ {| conns := [7]; queue := CrsQueue.init |}).
    + apply (d_step _ {| conns := []; queue := CrsQueue.init |}); [constructor|].
      apply (d_accept _ (Some 7) true {| conns := []; queue := CrsQueue.init |}). intros x _. apply not_elem_of_nil.
    + apply (d_accept _ (Some 8) true {| conns := [7]; queue := CrsQueue.init |}). intros x [= <-].
      intros H%list_elem_of_singleton. discriminate H.
  - left.
  - intros buf [= <-]. reflexivity.
Defined.
