(* ===== verification/CrsFds.v ===== *)
(** check_reload_status: the descriptors of the daemon (set_blockmode, fcgi_open_socket, and the calls that open
    and close sockets in socket_accept_command, socket_close_command, fcgi_send_command, run_command_detailed and
    socket_read_fcgi), on top of the daemon of CrsSession. *)
From Stdlib Require Import ZArith Lia Ascii String.
From stdpp Require Import base list strings numbers gmap sets fin_sets.
From S2P Require Import Prelude CProg CrsFcgi CrsCommands CrsQueue CrsSession.
Open Scope string_scope.
Open Scope list_scope.
Open Scope Z_scope.

(** ** The kernel's table *)

Definition O_ACCMODE : Z := 3.
Definition O_RDWR : Z := 2.
Definition O_NONBLOCK : Z := 4.
Definition FD_CLOEXEC : Z := 1.
Definition EBADF : Z := 9.

(** An open descriptor: its status flags, and whether [execl] closes it. *)
Record fdinfo : Type := { status_flags : Z; close_on_exec : bool }.
Abbreviation fd_table := (gmap Z fdinfo).

(** What [socket] opens. *)
Definition new_socket : fdinfo := {| status_flags := O_RDWR; close_on_exec := false |}.

(** [fcntl(fd, F_SETFL, arg)]: the bits of the access mode in the argument are ignored, and the descriptor's
    own flag, close-on-exec, is not among those it sets. *)
Definition setfl (arg : Z) (i : fdinfo) : fdinfo :=
  {| status_flags := Z.lor (Z.land (status_flags i) O_ACCMODE) (Z.land arg (Z.lnot O_ACCMODE));
     close_on_exec := close_on_exec i |}.

(** The error numbers of the two calls of [fcntl], if they fail on an open descriptor. *)
Record fcntl_errors : Type := { getfl_err : option Z; setfl_err : option Z }.
Definition no_errors : fcntl_errors := {| getfl_err := None; setfl_err := None |}.

(** [set_blockmode]; [inr] is the exit status of the process ([errx]). *)
Definition set_blockmode (fd cmd : Z) (a : fcntl_errors) (t : fd_table) : fd_table + Z :=
  match t !! fd, getfl_err a with
  | None, _ => inr EBADF
  | Some _, Some e => inr e
  | Some i, None =>
      let flags := Z.lor (status_flags i) cmd in
      match setfl_err a with
      | Some e => inr e
      | None => inl (<[fd := setfl flags i]> t)
      end
  end.

Definition close (fd : Z) (t : fd_table) : fd_table := delete fd t.

(** [if (cmd->socket) close(cmd->socket);] *)
Definition close_socket (e : runq) (t : fd_table) : fd_table := if socket e =? 0 then t else close (socket e) t.

(** What the kernel answers to an attempt to open a connection: the descriptor, whether [connect] succeeds,
    and the errors of [fcntl]. *)
Record connection : Type := { newfd : option Z; connected : bool; fcntl_err : fcntl_errors }.

(** [fcgi_open_socket] *)
Definition fcgi_open_socket (k : connection) (t : fd_table) : (Z * fd_table) + Z :=
  match newfd k with
  | None => inl (-1, t)
  | Some fcgifd =>
      let t := <[fcgifd := new_socket]> t in
      if negb (connected k) then inl (-1, close fcgifd t)
      else match set_blockmode fcgifd (Z.lor O_NONBLOCK FD_CLOEXEC) (fcntl_err k) t with
           | inl t => inl (fcgifd, t)
           | inr code => inr code
           end
  end.

(** ** The daemon with its descriptors *)

(** [listening] is the socket of [main]. *)
Record system : Type := { sys : daemon; listening : Z; fds : fd_table }.

Definition with_queue (s : system) (q : CrsQueue.state) (t : fd_table) : system :=
  {| sys := {| conns := conns (sys s); queue := q |}; listening := listening s; fds := t |}.

(** [main] after [bind]: its socket, made non-blocking. *)
Definition main_socket (fd : Z) (a : fcntl_errors) : system + Z :=
  match set_blockmode fd (Z.lor O_NONBLOCK FD_CLOEXEC) a {[fd := new_socket]} with
  | inl t => inl {| sys := {| conns := []; queue := CrsQueue.init |}; listening := fd; fds := t |}
  | inr code => inr code
  end.

(** [socket_accept_command]: [accept] gives a descriptor with these flags. *)
Definition accept_fds (k : connection) (flags : Z) (room : bool) (s : system) : system + Z :=
  match newfd k with
  | None => inl s
  | Some fd =>
      let t := <[fd := {| status_flags := flags; close_on_exec := false |}]> (fds s) in
      match set_blockmode fd (Z.lor O_NONBLOCK FD_CLOEXEC) (fcntl_err k) t with
      | inr code => inr code
      | inl t =>
          inl {| sys := socket_accept_command (Some fd) room (sys s); listening := listening s;
                 fds := if room then t else close fd t |}
      end
  end.

(** [socket_read_command] of a connection, with the [close] of [socket_close_command]. *)
Definition client_fds (fd : Z) (event : client_event) (s : system) : outcome system :=
  '(q, _, closed) ← socket_read_command event (queue (sys s));
  Ok {| sys := {| conns := if closed : bool then socket_close_command fd (conns (sys s)) else conns (sys s); queue := q |};
        listening := listening s; fds := if closed then close fd (fds s) else fds s |}.

(** [fcgi_send_command] *)
Definition send_fds (keepalive : bool) (e : runq) (k : connection) (result : Z) (s : system) : outcome (system + Z) :=
  if dontexec e then
    q ← fcgi_send_command keepalive e 0 result (queue (sys s));
    Ok (inl (with_queue s q (close_socket e (fds s))))
  else
    match (if socket e <=? 0 then fcgi_open_socket k (fds s) else inl (socket e, fds s)) with
    | inr code => Ok (inr code)
    | inl (fd, t) =>
        q ← fcgi_send_command keepalive e fd result (queue (sys s));
        Ok (inl (with_queue s q (if (fd <? 0) || negb (result <? 0) then t else close fd t)))
    end.

(** [run_command_detailed] *)
Definition exec_fds (e : runq) (forked : bool) (s : system) : system :=
  with_queue s (run_command_detailed e forked (queue (sys s)))
    (if dontexec e || (forked && negb (0 <? aggregate e)) then close_socket e (fds s) else fds s).

(** The descriptors of the shell that it starts. *)
Definition child_fds (s : system) : fd_table := filter (fun x => close_on_exec x.2 = false) (fds s).

(** Whether [socket_read_fcgi] finds the end of the request in what arrived. *)
Definition completed (header content : option (list Z)) : bool :=
  match header with
  | None => false
  | Some h =>
      let at_ i := default 0 (h !! i) in
      let len := Z.lor (Z.shiftl (at_ 4%nat) 8) (at_ 5%nat) + at_ 6%nat in
      match content with
      | None => false
      | Some buf => (at_ 1%nat =? FCGI_END_REQUEST) && (sizeof_FCGI_EndRequestBody <=? len) &&
                    (default 0 (buf !! 4%nat) =? FCGI_REQUEST_COMPLETE)
      end
  end.

(** [socket_read_fcgi] when data arrived. *)
Definition response_fds (e : runq) (header content : option (list Z)) (s : system) : outcome system :=
  q ← socket_read_fcgi e (EV_READ header content) (queue (sys s));
  Ok (with_queue s q (if completed header content then close_socket e (fds s) else fds s)).

(** The kernel gives positive descriptors that are not open. *)
Definition gives_fresh (k : connection) (t : fd_table) : Prop := forall x, newfd k = Some x -> t !! x = None /\ 0 < x.

Inductive sys_step (keepalive : bool) (s : system) : system -> Prop :=
  | sys_accept k flags room s' :
      gives_fresh k (fds s) -> accept_fds k flags room s = inl s' -> sys_step keepalive s s'
  | sys_client fd event s' :
      fd ∈ conns (sys s) -> short_read event -> client_fds fd event s = Ok s' -> sys_step keepalive s s'
  | sys_send e k result s' :
      lookup_id (rq_id e) (cmds (queue (sys s))) = Some e -> timer e = true -> fcgi e = true -> gives_fresh k (fds s) ->
      send_fds keepalive (set_exec e (dontexec e) false) k result s = Ok (inl s') -> sys_step keepalive s s'
  | sys_exec e forked :
      lookup_id (rq_id e) (cmds (queue (sys s))) = Some e -> timer e = true -> fcgi e = false ->
      sys_step keepalive s (exec_fds (set_exec e (dontexec e) false) forked s)
  | sys_response e header content s' :
      lookup_id (rq_id e) (cmds (queue (sys s))) = Some e -> fcgi e = true ->
      response_fds e header content s = Ok s' -> sys_step keepalive s s'.

Inductive sys_reachable (keepalive : bool) : system -> Prop :=
  | sys_init fd a s : 0 < fd -> main_socket fd a = inl s -> sys_reachable keepalive s
  | sys_next s s' : sys_reachable keepalive s -> sys_step keepalive s s' -> sys_reachable keepalive s'.

(** ** Which descriptors are open *)

(** The socket of an entry, and those of the queue. *)
Definition sock (e : runq) : list Z := if 0 <? socket e then [socket e] else [].
Definition socks (l : list runq) : list Z := flat_map sock l.

(** The descriptors that the daemon knows of. *)
Definition known (s : system) : list Z := listening s :: conns (sys s) ++ socks (cmds (queue (sys s))).

(** The open descriptors are these, each of them once. *)
Record accounted (t : fd_table) (l : list Z) : Prop := {
  acc_nodup : NoDup l;
  acc_pos : Forall (fun x => 0 < x) l;
  acc_dom : dom t = list_to_set l :> gset Z
}.

#[export] Instance accounted_proper t : Proper ((≡ₚ) ==> iff) (accounted t).
Proof.
  intros l l' Hp. split; intros [H1 H2 H3]; (split; [by rewrite <-Hp || rewrite Hp | by rewrite <-Hp || rewrite Hp |]);
    rewrite H3; apply leibniz_equiv; by rewrite Hp.
Qed.

Lemma accounted_open t l x : accounted t l -> is_Some (t !! x) <-> x ∈ l.
Proof. intros [_ _ Hd]. rewrite <-elem_of_dom, Hd. apply elem_of_list_to_set. Qed.

Lemma accounted_insert t x i A B : accounted t (A ++ B) -> t !! x = None -> 0 < x -> accounted (<[x := i]> t) (A ++ x :: B).
Proof.
  intros H Hx Hp. rewrite <-Permutation_middle. destruct H as [H1 H2 H3]. split.
  - apply NoDup_cons_2; [|done]. intros Hin. rewrite <-(elem_of_list_to_set (C := gset Z)), <-H3, elem_of_dom, Hx in Hin.
    by destruct Hin.
  - by constructor.
  - rewrite dom_insert_L, H3. done.
Qed.

Lemma accounted_delete t x A B : accounted t (A ++ x :: B) -> accounted (delete x t) (A ++ B).
Proof.
  rewrite <-Permutation_middle. intros [H1 H2 H3]. apply NoDup_cons in H1 as [Hx H1]. apply Forall_cons in H2 as [_ H2].
  split; [done..|]. rewrite dom_delete_L, H3. cbn [list_to_set]. rewrite <-(elem_of_list_to_set (C := gset Z)) in Hx. set_solver.
Qed.

Lemma accounted_close e t A B : accounted t (A ++ sock e ++ B) -> accounted (close_socket e t) (A ++ B).
Proof.
  unfold sock, close_socket, close. intros H. destruct (Z.ltb_spec 0 (socket e)) as [Hs|Hs], (Z.eqb_spec (socket e) 0) as [E|E];
    try lia; [by apply accounted_delete | done |].
  rewrite delete_id; [done|]. apply eq_None_not_Some. rewrite (accounted_open _ _ _ H). intros Hin.
  pose proof (proj1 (List.Forall_forall _ _) (acc_pos _ _ H) _ (proj1 (list_elem_of_In _ _) Hin)). cbv beta in *. lia.
Qed.

Lemma socks_app l1 l2 : socks (l1 ++ l2) = socks l1 ++ socks l2.
Proof. apply flat_map_app. Qed.

Lemma remove_id_absent id l : (forall y, y ∈ l -> rq_id y <> id) -> remove_id id l = l.
Proof.
  unfold remove_id. induction l as [|x l IH]; intros H; [done|].
  rewrite filter_cons_True by (apply H; left). f_equal. apply IH. intros y Hy. apply H. by right.
Qed.

(** An entry of the queue is at one place of it. *)
Lemma lookup_id_split l e : NoDup (map rq_id l) -> lookup_id (rq_id e) l = Some e ->
  exists l1 l2, l = l1 ++ e :: l2 /\ remove_id (rq_id e) l = l1 ++ l2 /\
    forall e', rq_id e' = rq_id e -> replace_id e' l = l1 ++ e' :: l2.
Proof.
  induction l as [|x l IH]; cbn [lookup_id map]; [done|]. intros [Hx Hn]%NoDup_cons.
  assert (Hrest : forall y, y ∈ l -> rq_id y <> rq_id x).
  { intros y Hy E. apply Hx. rewrite <-E. by apply list_elem_of_fmap_2. }
  destruct (Nat.eqb_spec (rq_id x) (rq_id e)) as [E|E].
  - intros [= ->]. exists [], l. split; [done|]. unfold remove_id, replace_id. rewrite filter_cons_False by (intros H; by apply H).
    cbn [app map]. split.
    + by apply remove_id_absent.
    + intros e' He'. rewrite He', Nat.eqb_refl. f_equal. rewrite <-(map_id l) at 2. apply map_ext_in. intros y Hy.
      destruct (Nat.eqb_spec (rq_id y) (rq_id e)) as [E'|_]; [|done]. by destruct (Hrest y (proj2 (list_elem_of_In _ _) Hy)).
  - intros H. destruct (IH Hn H) as (l1 & l2 & -> & H1 & H2). exists (x :: l1), l2. split; [done|].
    unfold remove_id, replace_id in *. rewrite filter_cons_True by done. rewrite H1. split; [done|].
    intros e' He'. cbn [map]. rewrite H2 by done. rewrite He'. by destruct (Nat.eqb_spec (rq_id x) (rq_id e)).
Qed.

(** Only entries for the web server have sockets. *)
Definition no_socket (e : runq) : Prop := fcgi e = false -> socket e = 0.

Lemma run_command_socks r type argv st : Forall no_socket (cmds st) ->
  socks (cmds (run_command r type argv st)) = socks (cmds st) /\ Forall no_socket (cmds (run_command r type argv st)).
Proof.
  intros Hn. unfold run_command. destruct (scan_queue r 0 (cmds st)) as [sum|l] eqn:E.
  - case_bool_decide; [done|]. split; [done|]. by constructor.
  - destruct (scan_queue_inr _ _ _ _ E) as (l1 & x & l2 & t & El & _ & _ & _ & _ & ->). cbn [cmds]. rewrite El in *.
    rewrite !socks_app. unfold rearm. destruct (_ && _); [|done]. split; [done|].
    rewrite !Forall_app, !Forall_cons in *. destruct Hn as (H1 & H2 & H3). split_and!; done.
Qed.

Lemma socket_read_command_socks event st st' a c : Forall no_socket (cmds st) -> socket_read_command event st = Ok (st', a, c) ->
  socks (cmds st') = socks (cmds st) /\ Forall no_socket (cmds st').
Proof.
  intros Hn. unfold socket_read_command. destruct event as [|[buf|]]; [by intros [= <- _ _]| |by intros [= <- _ _]].
  destruct (String.eqb buf ""); [by intros [= <- _ _]|].
  destruct (read_line buf) as [|answer|x arg| |]; [by intros [= <- _ _]..| |done|done].
  destruct (c_cmd x); intros [= <- _ _]; [by apply run_command_socks | done].
Qed.

(** *** Opening *)

(** A socket that [set_blockmode] was called for, whatever its flags were. *)
Definition good (i : fdinfo) : Prop := close_on_exec i = false /\ Z.testbit (status_flags i) 2 = true.

Lemma setfl_good flags i : close_on_exec i = false -> good (setfl (Z.lor flags (Z.lor O_NONBLOCK FD_CLOEXEC)) i).
Proof. intros Hi. split; [done|]. cbn [setfl status_flags]. by rewrite Z.lor_spec, (Z.land_spec _ (Z.lnot _)), !Z.lor_spec, orb_true_r, andb_true_l, orb_true_r. Qed.

Lemma set_blockmode_ok fd a i (t t' : fd_table) : close_on_exec i = false ->
  set_blockmode fd (Z.lor O_NONBLOCK FD_CLOEXEC) a (<[fd := i]> t) = inl t' -> exists i', good i' /\ t' = <[fd := i']> t.
Proof.
  intros Hi. unfold set_blockmode. rewrite lookup_insert_eq. destruct (getfl_err a); [done|]. destruct (setfl_err a); [done|].
  intros [= <-]. eexists. split; [|apply insert_insert_eq]. by apply setfl_good.
Qed.

Lemma fcgi_open_socket_ok k t fd t' : gives_fresh k t -> fcgi_open_socket k t = inl (fd, t') ->
  fd = -1 /\ t' = t \/ 0 < fd /\ t !! fd = None /\ exists i, good i /\ t' = <[fd := i]> t.
Proof.
  intros Hf. unfold fcgi_open_socket. destruct (newfd k) as [x|] eqn:Ek; [|intros [= <- <-]; by left].
  destruct (Hf x Ek) as [Hx Hp]. destruct (connected k); cbn [negb].
  - destruct (set_blockmode _ _ _ _) as [t1|] eqn:Es; [|done]. intros [= <- <-].
    destruct (set_blockmode_ok _ _ new_socket _ _ eq_refl Es) as (i & Hi & ->). right. eauto.
  - intros [= <- <-]. left. split; [done|]. by apply delete_insert_id.
Qed.

(** ** The invariant *)

Record fds_inv (s : system) : Prop := {
  si_fds : accounted (fds s) (known s);
  si_good : map_Forall (fun _ => good) (fds s);
  si_exec : Forall no_socket (cmds (queue (sys s)))
}.

Lemma good_insert x i (t : fd_table) : good i -> map_Forall (fun _ => good) t -> map_Forall (fun _ => good) (<[x := i]> t).
Proof. intros Hi Ht. by apply map_Forall_insert_2. Qed.

Lemma good_close x (t : fd_table) : map_Forall (fun _ => good) t -> map_Forall (fun _ => good) (close x t).
Proof. apply map_Forall_delete. Qed.

Lemma good_close_socket e (t : fd_table) : map_Forall (fun _ => good) t -> map_Forall (fun _ => good) (close_socket e t).
Proof. unfold close_socket. destruct (_ =? _); [done | apply good_close]. Qed.

(** What changes when one entry of the queue does: the descriptors before and behind those of the entry stay. *)
Lemma change_entry s l1 e l2 m q t :
  fds_inv s -> cmds (queue (sys s)) = l1 ++ e :: l2 -> cmds q = l1 ++ m ++ l2 ->
  (forall A B, accounted (fds s) (A ++ sock e ++ B) -> accounted t (A ++ socks m ++ B)) ->
  map_Forall (fun _ => good) t -> Forall no_socket m -> fds_inv (with_queue s q t).
Proof.
  intros [H1 H2 H3] E Eq Ht Hg Hm. unfold known in H1. rewrite E, socks_app in H1. cbn [socks flat_map] in H1. fold (socks l2) in H1.
  rewrite E in H3. apply Forall_app in H3 as [H3 H4]. apply Forall_cons in H4 as [_ H4]. split; cbn [with_queue fds sys queue].
  - unfold known, with_queue. cbn [listening sys conns queue]. rewrite Eq, !socks_app.
    specialize (Ht (listening s :: conns (sys s) ++ socks l1) (socks l2)). cbn [app] in Ht. rewrite <-!(assoc_L (++)) in Ht. by apply Ht.
  - done.
  - rewrite Eq. by rewrite !Forall_app.
Qed.

Lemma accept_inv k flags room s s' : fds_inv s -> gives_fresh k (fds s) -> accept_fds k flags room s = inl s' -> fds_inv s'.
Proof.
  intros Hi Hf. unfold accept_fds. destruct (newfd k) as [x|] eqn:Ek; [|by intros [= <-]]. destruct (Hf x Ek) as [Hx Hp].
  destruct (set_blockmode _ _ _ _) as [t|] eqn:Es; [|done]. intros [= <-].
  destruct (set_blockmode_ok _ _ {| status_flags := flags; close_on_exec := false |} _ _ eq_refl Es) as (i & Hg & ->). destruct Hi as [H1 H2 H3].
  destruct room; split; cbn [fds sys queue socket_accept_command]; try done.
  - unfold known. cbn [listening sys conns queue]. rewrite <-(assoc_L (++)). cbn [app].
    apply (accounted_insert _ _ _ (listening s :: conns (sys s))); done.
  - by apply good_insert.
  - unfold close. by rewrite delete_insert_id.
  - unfold close. by rewrite delete_insert_id.
Qed.

Lemma close_command_perm x (l : list Z) : NoDup l -> x ∈ l -> l ≡ₚ x :: socket_close_command x l.
Proof.
  intros Hn Hx. unfold socket_close_command. apply NoDup_Permutation; [done| |].
  - apply NoDup_cons_2; [|by apply list.NoDup_filter]. rewrite list_elem_of_filter. tauto.
  - intros y. rewrite elem_of_cons, list_elem_of_filter. destruct (decide (y = x)) as [-> |]; tauto.
Qed.

Lemma client_inv fd event s s' : fds_inv s -> fd ∈ conns (sys s) -> client_fds fd event s = Ok s' -> fds_inv s'.
Proof.
  intros [H1 H2 H3] Hin. unfold client_fds. destruct (socket_read_command event (queue (sys s))) as [[[q a] c]|f] eqn:E; [|done].
  cbn [mbind outcome_bind]. intros [= <-]. destruct (socket_read_command_socks _ _ _ _ _ H3 E) as [Hs Hn].
  unfold known in H1. rewrite <-Hs in H1. destruct c; split; cbn [fds sys queue]; try done; unfold known; cbn [listening sys conns queue].
  - unfold close. assert (Hc : NoDup (conns (sys s))).
    { destruct H1 as [[_ Hc]%NoDup_cons _ _]. by apply list.NoDup_app in Hc as (Hc & _). }
    rewrite (close_command_perm fd (conns (sys s)) Hc Hin) in H1. cbn [app] in H1.
    apply (accounted_delete _ fd [listening s]) in H1. exact H1.
  - by apply good_close.
Qed.

(** An entry is taken off the queue and its socket closed. *)
Lemma remove_entry s e q : fds_inv s -> NoDup (map rq_id (cmds (queue (sys s)))) ->
  lookup_id (rq_id e) (cmds (queue (sys s))) = Some e -> cmds q = remove_id (rq_id e) (cmds (queue (sys s))) ->
  fds_inv (with_queue s q (close_socket e (fds s))).
Proof.
  intros Hi Hn He Eq. destruct (lookup_id_split _ _ Hn He) as (l1 & l2 & El & Er & _). rewrite Er in Eq.
  eapply (change_entry s l1 e l2 []); [done | done | exact Eq | | apply good_close_socket, Hi | constructor].
  intros A B. cbn [socks flat_map app]. apply accounted_close.
Qed.

(** An entry is replaced by one with the same socket. *)
Lemma replace_entry s e e' q : fds_inv s -> NoDup (map rq_id (cmds (queue (sys s)))) ->
  lookup_id (rq_id e) (cmds (queue (sys s))) = Some e -> cmds q = replace_id e' (cmds (queue (sys s))) ->
  rq_id e' = rq_id e -> socket e' = socket e -> fcgi e' = fcgi e -> fds_inv (with_queue s q (fds s)).
Proof.
  intros Hi Hn He Eq E1 E2 E3. destruct (lookup_id_split _ _ Hn He) as (l1 & l2 & El & _ & Er). rewrite Er in Eq by done.
  eapply (change_entry s l1 e l2 [e']); [done | done | exact Eq | | apply Hi |].
  - intros A B. cbn [socks flat_map app]. rewrite app_nil_r. unfold sock. by rewrite E2.
  - destruct Hi as [_ _ H3]. rewrite El in H3. apply Forall_app in H3 as [_ [H3 _]%Forall_cons]. constructor; [|constructor].
    unfold no_socket in *. by rewrite E2, E3.
Qed.

(** A queue with the same entries. *)
Lemma same_entries s q : fds_inv s -> cmds q = cmds (queue (sys s)) -> fds_inv (with_queue s q (fds s)).
Proof. intros [H1 H2 H3] E. split; cbn; [|done|by rewrite E]. unfold known in *. cbn. by rewrite E. Qed.

(** What [fcgi_send_command] leaves of an entry that it does not throw away. *)
Lemma send_command_entry keepalive e fd result st q : dontexec e = false ->
  fcgi_send_command keepalive e fd result st = Ok q ->
  exists e', cmds q = replace_id e' (cmds st) /\ rq_id e' = rq_id e /\ fcgi e' = fcgi e /\
    socket e' = (let s := if socket e <=? 0 then fd else socket e in if (s <? 0) || negb (result <? 0) then s else -1).
Proof.
  intros Hd. unfold fcgi_send_command. rewrite Hd. destruct (fcgi_request _ _ _ _); [|done]. cbv zeta.
  destruct (_ <? 0) eqn:Es; cbn [orb]; [|destruct (result <? 0)]; intros [= <-]; cbn [cmds negb]; by eexists.
Qed.

Lemma send_fds_inv keepalive e k result s s' : fds_inv s -> NoDup (map rq_id (cmds (queue (sys s)))) ->
  lookup_id (rq_id e) (cmds (queue (sys s))) = Some e -> fcgi e = true -> gives_fresh k (fds s) ->
  send_fds keepalive (set_exec e (dontexec e) false) k result s = Ok (inl s') -> fds_inv s'.
Proof.
  intros Hi Hn He Hf Hk. unfold send_fds. cbn [set_exec dontexec socket]. destruct (dontexec e) eqn:Hd.
  { unfold fcgi_send_command. cbn [set_exec dontexec rq_id mbind outcome_bind]. intros [= <-]. by apply (remove_entry s e). }
  destruct (if socket e <=? 0 then _ else _) as [[fd t]|code] eqn:Eo; [|done].
  destruct (fcgi_send_command _ _ _ _ _) as [q|] eqn:Eq; [|done]. cbn [mbind outcome_bind]. intros [= <-].
  set (written := negb (result <? 0)) in *.
  destruct (send_command_entry keepalive (set_exec e false false) fd result _ q eq_refl Eq) as (e' & Ec & E1 & E2 & E3).
  cbn [set_exec rq_id fcgi socket] in E1, E2, E3. fold written in E3. destruct (lookup_id_split _ _ Hn He) as (l1 & l2 & El & _ & Er).
  rewrite Er in Ec by done.
  assert (Hno : Forall no_socket [e']) by (constructor; [intros E; congruence | constructor]).
  destruct (Z.leb_spec (socket e) 0) as [Hs|Hs].
  - assert (Hse : sock e = []) by (unfold sock; by destruct (Z.ltb_spec 0 (socket e)); [lia|]).
    destruct (fcgi_open_socket_ok _ _ _ _ Hk Eo) as [[-> ->]|(Hp & Hx & i & Hg & ->)].
    + apply (change_entry s l1 e l2 [e']); try done; [|apply Hi]. rewrite Hse. cbn in E3. unfold socks. cbn [flat_map]. unfold sock. by rewrite E3.
    + destruct (Z.ltb_spec fd 0) as [?|_]; [lia|]. cbn [orb] in *. apply (change_entry s l1 e l2 [e']); try done.
      * intros A B. rewrite Hse. unfold socks. cbn [flat_map app]. unfold sock. rewrite E3, app_nil_r. intros HA. destruct written.
        -- destruct (Z.ltb_spec 0 fd); [|lia]. by apply accounted_insert.
        -- cbn. unfold close. by rewrite delete_insert_id.
      * destruct written; [by apply good_insert; [|apply Hi]|]. unfold close. rewrite delete_insert_id by done. apply Hi.
  - injection Eo as <- <-. destruct (Z.ltb_spec (socket e) 0) as [?|_]; [lia|]. cbn [orb] in *.
    apply (change_entry s l1 e l2 [e']); try done; [|destruct written; [|apply good_close]; apply Hi].
    intros A B. unfold socks. cbn [flat_map app]. unfold sock. rewrite E3, app_nil_r. destruct (Z.ltb_spec 0 (socket e)); [|lia].
    destruct written; [by destruct (Z.ltb_spec 0 (socket e)); [|lia]|]. apply accounted_delete.
Qed.

Lemma exec_fds_inv e forked s : fds_inv s -> NoDup (map rq_id (cmds (queue (sys s)))) ->
  lookup_id (rq_id e) (cmds (queue (sys s))) = Some e -> fds_inv (exec_fds (set_exec e (dontexec e) false) forked s).
Proof.
  intros Hi Hn He. unfold exec_fds, run_command_detailed. cbn [set_exec dontexec aggregate rq_id].
  destruct (dontexec e), forked, (0 <? aggregate e); cbn [orb andb negb];
    first [ by apply (remove_entry s e) | eapply (replace_entry s e); by try done ].
Qed.

Lemma read_fcgi_completed e header content st q : socket_read_fcgi e (EV_READ header content) st = Ok q ->
  if completed header content then q = with_cmds st (remove_id (rq_id e) (cmds st))
  else q = st \/ q = with_cmds st (replace_id (set_exec e false (timer e)) (cmds st)).
Proof.
  unfold socket_read_fcgi, completed. destruct header as [h|]; [|intros [= <-]; by left]. cbv zeta. set (len := _ + _).
  unfold end_request. destruct (Z.ltb_spec 0 len) as [Hl|Hl].
  - destruct (BUFSIZE <? len); [done|]. destruct content as [buf|]; [|intros [= <-]; by left]. intros [= <-].
    destruct ((default 0 (h !! 1%nat) =? _) && _); cbn [andb]; [|by left]. destruct (_ =? _); [done | by right].
  - assert (E : (sizeof_FCGI_EndRequestBody <=? len) = false) by (apply Z.leb_gt; unfold sizeof_FCGI_EndRequestBody; lia).
    rewrite E, andb_false_r. intros [= <-]. destruct content; cbn [andb]; by left.
Qed.

Lemma response_inv e header content s s' : fds_inv s -> NoDup (map rq_id (cmds (queue (sys s)))) ->
  lookup_id (rq_id e) (cmds (queue (sys s))) = Some e -> response_fds e header content s = Ok s' -> fds_inv s'.
Proof.
  intros Hi Hn He. unfold response_fds. destruct (socket_read_fcgi _ _ _) as [q|] eqn:E; [|done]. cbn [mbind outcome_bind].
  intros [= <-]. apply read_fcgi_completed in E. destruct (completed header content); [|destruct E as [-> | ->]].
  - apply (remove_entry s e); try done. by rewrite E.
  - by apply same_entries.
  - by eapply (replace_entry s e).
Qed.

(** Without the descriptors every step is one of the daemon of CrsSession. *)
Lemma sys_step_simulated keepalive s s' : fds_inv s -> sys_step keepalive s s' -> daemon_step keepalive (sys s) (sys s').
Proof.
  intros Hi [k flags room s1 Hk E|fd event s1 Hin Hs E|e k result s1 He Ht Hf Hk E|e forked He Ht Hf|e h c s1 He Hf E].
  - assert (Es : sys s1 = socket_accept_command (newfd k) room (sys s)).
    { revert E. unfold accept_fds. destruct (newfd k); [|by intros [= <-]]. destruct (set_blockmode _ _ _ _); [|done]. by intros [= <-]. }
    rewrite Es. apply d_accept. intros x Hx Hc. destruct (Hk x Hx) as [Hn _]. apply eq_None_not_Some in Hn. apply Hn.
    apply (accounted_open _ _ _ (si_fds _ Hi)). unfold known. apply elem_of_cons. right. apply elem_of_app. by left.
  - unfold client_fds in E. destruct (socket_read_command event (queue (sys s))) as [[[q a] cl]|] eqn:Er; [|done].
    injection E as <-. apply (d_client _ fd event (sys s) _ a); [done..|]. unfold client. rewrite Er. done.
  - unfold send_fds in E. cbn [set_exec dontexec socket] in E. destruct (dontexec e) eqn:Hd.
    + destruct (fcgi_send_command _ _ _ _ _) as [q|] eqn:Eq; [|done]. injection E as <-. apply d_queue.
      eapply (step_send _ e); try done. by rewrite Hd.
    + destruct (if socket e <=? 0 then _ else _) as [[fd t]|]; [|done].
      destruct (fcgi_send_command _ _ _ _ _) as [q|] eqn:Eq; [|done]. injection E as <-. apply d_queue.
      eapply (step_send _ e); try done. by rewrite Hd.
  - apply d_queue. by apply step_exec.
  - unfold response_fds in E. destruct (socket_read_fcgi _ _ _) as [q|] eqn:Eq; [|done]. injection E as <-. apply d_queue.
    by eapply (step_response _ e).
Qed.

Lemma sys_step_inv keepalive s s' : daemon_inv keepalive (sys s) -> fds_inv s -> sys_step keepalive s s' -> fds_inv s'.
Proof.
  intros Hd Hi Hs. pose proof (inv_ids _ (reachable_inv _ _ (d_queue_ok _ _ Hd))) as Hn.
  destruct Hs; eauto using accept_inv, client_inv, send_fds_inv, exec_fds_inv, response_inv.
Qed.

Lemma sys_reachable_inv keepalive s : sys_reachable keepalive s -> daemon_reachable keepalive (sys s) /\ fds_inv s.
Proof.
  induction 1 as [fd a s Hp E|s s' _ [IH1 IH2] Hs].
  - unfold main_socket in E. destruct (set_blockmode _ _ _ _) as [t|] eqn:Es; [|done]. injection E as <-.
    destruct (set_blockmode_ok _ _ new_socket ∅ _ eq_refl Es) as (i & Hg & ->).
    split; [apply d_init|]. split; [|by apply good_insert|constructor].
    apply (accounted_insert ∅ fd i [] []); [|done..]. split; constructor.
  - split; [by eapply d_step; [|by eapply sys_step_simulated]|].
    eapply sys_step_inv; [|done..]. by apply daemon_reachable_inv.
Qed.

(** C38. The daemon loses no descriptor: in every state that it can reach, whatever [socket], [connect], [accept]
    and [write] answer and however clients, timeouts and responses interleave, the open descriptors are exactly
    its listening socket, one for each connection and one for each entry of the queue that has a socket, all
    different and non-blocking; so nothing is left open behind a failed call, closed twice, or shared. *)
Theorem descriptors_accounted keepalive s : sys_reachable keepalive s ->
  daemon_reachable keepalive (sys s) /\ NoDup (known s) /\ (forall x, is_Some (fds s !! x) <-> x ∈ known s) /\
  (forall x i, fds s !! x = Some i -> Z.testbit (status_flags i) 2 = true).
Proof.
  intros Hr. destruct (sys_reachable_inv _ _ Hr) as [Hd [H1 H2 _]]. split_and!; [done | apply H1 | by intros x; apply accounted_open |].
  intros x i Hx. apply (H2 x i Hx).
Qed.

(** No descriptor is closed in the programs that the daemon starts, although [set_blockmode] is given
    FD_CLOEXEC for every one: that is not a flag of F_SETFL.  A command that [run_command_detailed] starts has
    the listening socket, the connections of all clients and those to the web server open. *)
Theorem descriptors_inherited keepalive s : sys_reachable keepalive s -> child_fds s = fds s.
Proof.
  intros Hr. destruct (sys_reachable_inv _ _ Hr) as [_ [_ H2 _]]. unfold child_fds. apply map_filter_id.
  intros x i Hx. apply (H2 x i Hx).
Qed.

(** A client has asked for a new address, and the request was sent. *)
Definition demo_accept (fd : Z) : connection := {| newfd := Some fd; connected := true; fcntl_err := no_errors |}.
Definition demo_start : system := {| sys := {| conns := []; queue := CrsQueue.init |}; listening := 3;
  fds := {[3 := setfl (Z.lor O_RDWR (Z.lor O_NONBLOCK FD_CLOEXEC)) new_socket]} |}.
Definition demo_conn : system := match accept_fds (demo_accept 4) O_RDWR true demo_start with inl s => s | inr _ => demo_start end.
Definition demo_asked : system :=
  match client_fds 4 (CEV_READ (Some "interface newip igb0")) demo_conn with Ok s => s | Fail _ => demo_conn end.
Definition demo_entry : runq := new_entry CrsQueue.demo_newip (Some "igb0"%string) 0 0.
Definition demo_done : system :=
  match send_fds false (set_exec demo_entry false false) (demo_accept 5) 4096 demo_asked with Ok (inl s) => s | _ => demo_asked end.

Lemma demo_done_reachable : sys_reachable false demo_done.
Proof.
  apply (sys_next _ demo_asked); [apply (sys_next _ demo_conn); [apply (sys_next _ demo_start)|]|].
  - apply (sys_init _ 3 no_errors); [lia|]. vm_compute. reflexivity.
  - apply (sys_accept _ _ (demo_accept 4) O_RDWR true); [|vm_compute; reflexivity]. intros x [= <-]. split; [vm_compute; reflexivity | lia].
  - apply (sys_client _ _ 4 (CEV_READ (Some "interface newip igb0"))); [left | intros buf [= <-]; vm_compute; reflexivity|].
    vm_compute. reflexivity.
  - apply (sys_send _ _ demo_entry (demo_accept 5) 4096); [vm_compute; reflexivity..| |vm_compute; reflexivity].
    intros x [= <-]. split; [vm_compute; reflexivity | lia].
Qed.

Lemma descriptors_accounted_witness : known demo_done = [3; 4; 5] /\ NoDup [3; 4; 5] /\ is_Some (fds demo_done !! 5).
Proof.
  destruct (descriptors_accounted false demo_done demo_done_reachable) as (_ & Hn & Hx & _).
  assert (E : known demo_done = [3; 4; 5]) by (vm_compute; reflexivity). rewrite E in *. split; [reflexivity|]. split; [exact Hn|].
  apply Hx. right. right. left.
Defined.

Lemma descriptors_inherited_witness : is_Some (child_fds demo_done !! 3) /\ is_Some (child_fds demo_done !! 4).
Proof.
  rewrite (descriptors_inherited false demo_done demo_done_reachable). split; eexists; vm_compute; reflexivity.
Defined.
