(* ===== verification/FdAddr.v ===== *)
(** filterdns, filterdns.c and filterdns.h: the lists of addresses (struct _addr_entry) that hosts,
    actions and tables keep, how one list is brought up to date with another by marking, adding and
    sweeping, and the finite sets of addresses these lists stand for. *)
From Stdlib Require Import ZArith Lia.
From stdpp Require Import base list gmap sets fin_sets numbers.
From S2P Require Import Prelude.
Open Scope list_scope.
Open Scope Z_scope.

(** The bytes of a [struct sockaddr]: its length, its family, and what follows. *)
Abbreviation sockaddr := (list Z).

Definition sa_len (a : sockaddr) : Z := default 0 (a !! 0%nat).
Definition sa_family (a : sockaddr) : Z := default 0 (a !! 1%nat).

Definition sa_wf (a : sockaddr) : Prop := sa_len a = Z.of_nat (length a).

(** [struct _addr_entry]; [flags] is a set of ADDR_NEW, ADDR_OLD and ADDR_STATIC. *)
Record addr_entry : Type := {
  addr : sockaddr;
  ADDR_NEW : bool;
  ADDR_OLD : bool;
  ADDR_STATIC : bool
}.

Abbreviation addr_list := (list addr_entry).

(** [ent->flags |= ADDR_OLD], [tmp->flags &= ~ADDR_OLD], [ent->flags &= ~ADDR_NEW] *)
Definition set_old (b : bool) (e : addr_entry) : addr_entry :=
  {| addr := addr e; ADDR_NEW := ADDR_NEW e; ADDR_OLD := b; ADDR_STATIC := ADDR_STATIC e |}.
Definition clear_new (e : addr_entry) : addr_entry :=
  {| addr := addr e; ADDR_NEW := false; ADDR_OLD := ADDR_OLD e; ADDR_STATIC := ADDR_STATIC e |}.

(** The comparison of [addr_add]: family, length, and [sa_len] bytes. *)
Definition same_addr (a tmp : sockaddr) : bool :=
  (sa_family tmp =? sa_family a) && (sa_len tmp =? sa_len a)
  && bool_decide (take (Z.to_nat (sa_len a)) a = take (Z.to_nat (sa_len a)) tmp).

(** The search of [addr_add]: the list with the flag ADDR_OLD of the entry cleared. *)
Fixpoint addr_find (head : addr_list) (a : sockaddr) : option addr_list :=
  match head with
  | [] => None
  | tmp :: head =>
      if same_addr a (addr tmp) then Some (set_old false tmp :: head)
      else (tmp ::.) <$> addr_find head a
  end.

Definition addr_add (head : addr_list) (a : sockaddr) (static : bool) : addr_list :=
  match addr_find head a with
  | Some head => head
  | None =>
      {| addr := take (Z.to_nat (sa_len a)) a; ADDR_NEW := true; ADDR_OLD := false; ADDR_STATIC := static |}
      :: head
  end.

(** The loop that marks the entries that are not static. *)
Definition mark_old (head : addr_list) : addr_list :=
  map (fun e => if ADDR_STATIC e then e else set_old true e) head.

(** "Copy...": every address of [src] is added to [head]. *)
Definition copy_addrs (head src : addr_list) : addr_list :=
  fold_left (fun head e => addr_add head (addr e) (ADDR_STATIC e)) src head.

(** The [TAILQ_FOREACH_SAFE] loop: new entries are no longer new, old ones are deleted ([addr_del]);
    [update] counts both. *)
Fixpoint sweep (head : addr_list) (update : Z) : addr_list * Z :=
  match head with
  | [] => ([], update)
  | e :: head =>
      let update := if ADDR_NEW e then update + 1 else update in
      let e := if ADDR_NEW e then clear_new e else e in
      if ADDR_OLD e then sweep head (update + 1)
      else let '(head, update) := sweep head update in (e :: head, update)
  end.

(** Bringing [head] up to date with [src]. *)
Definition refresh (head src : addr_list) : addr_list * Z := sweep (copy_addrs (mark_old head) src) 0.

(** ** The set a list stands for *)

Definition addrs (l : addr_list) : list sockaddr := map addr l.
Definition addr_set (l : addr_list) : gset sockaddr := list_to_set (addrs l).

(** A list between two updates: no address twice, no entry marked. *)
Record settled (l : addr_list) : Prop := {
  settled_nodup : NoDup (addrs l);
  settled_wf : forall e, e ∈ l -> sa_wf (addr e);
  settled_flags : forall e, e ∈ l -> ADDR_NEW e = false /\ ADDR_OLD e = false
}.

Definition static_set (l : addr_list) : gset sockaddr :=
  list_to_set (addrs (filter (fun e => ADDR_STATIC e = true) l)).

Lemma elem_of_addr_set a l : a ∈ addr_set l <-> exists e, e ∈ l /\ addr e = a.
Proof.
  unfold addr_set, addrs. rewrite elem_of_list_to_set. split.
  - intros (e & -> & He)%list_elem_of_fmap_1. eauto.
  - intros (e & He & <-). by apply list_elem_of_fmap_2.
Qed.

Lemma elem_of_static_set a l : a ∈ static_set l <-> exists e, e ∈ l /\ addr e = a /\ ADDR_STATIC e = true.
Proof.
  unfold static_set, addrs. rewrite elem_of_list_to_set. split.
  - intros (e & -> & He)%list_elem_of_fmap_1. apply list_elem_of_filter in He as [? ?]. eauto.
  - intros (e & He & <- & Hs). apply list_elem_of_fmap_2. by apply list_elem_of_filter.
Qed.

Lemma same_addr_spec a b : sa_wf a -> sa_wf b -> same_addr a b = bool_decide (a = b).
Proof.
  unfold sa_wf, same_addr. intros Ha Hb. apply eq_true_iff_eq.
  rewrite !andb_true_iff, !bool_decide_eq_true, !Z.eqb_eq. split.
  - intros [[_ Hl] Ht]. rewrite Ha, Nat2Z.id, firstn_all in Ht. rewrite Ht.
    apply take_ge. lia.
  - intros ->. done.
Qed.

(** *** While a list is brought up to date

    [mid s t a l]: the list stood for [s] when it was marked, with [t] its static addresses, and the
    addresses [a] have been added since. *)
Record mid (s t a : gset sockaddr) (l : addr_list) : Prop := {
  mid_nodup : NoDup (addrs l);
  mid_wf : forall e, e ∈ l -> sa_wf (addr e);
  mid_set : addr_set l = s ∪ a;
  mid_new : forall e, e ∈ l -> ADDR_NEW e = true <-> addr e ∉ s;
  mid_old : forall e, e ∈ l -> ADDR_OLD e = true <-> (addr e ∈ s) /\ (addr e ∉ t) /\ (addr e ∉ a);
  mid_static : forall e, e ∈ l -> addr e ∈ s -> ADDR_STATIC e = true <-> addr e ∈ t
}.

Lemma addrs_map f l : (forall e, addr (f e) = addr e) -> addrs (map f l) = addrs l.
Proof. intros Hf. unfold addrs. rewrite map_map. by apply map_ext. Qed.

Lemma nodup_addr l e e' : NoDup (addrs l) -> e ∈ l -> e' ∈ l -> addr e = addr e' -> e = e'.
Proof.
  unfold addrs. induction l as [|x l IH]; intros Hn He He' E; [by apply elem_of_nil in He|].
  apply NoDup_cons_1_1 in Hn as Hx. apply NoDup_cons_1_2 in Hn.
  apply elem_of_cons in He as [-> |He]; apply elem_of_cons in He' as [-> |He']; auto.
  - exfalso. apply Hx. rewrite E. by apply list_elem_of_fmap_2.
  - exfalso. apply Hx. rewrite <- E. by apply list_elem_of_fmap_2.
Qed.

Lemma mark_old_mid l : settled l -> mid (addr_set l) (static_set l) ∅ (mark_old l).
Proof.
  intros [H1 H2 H3].
  assert (Ha : forall e, addr (if ADDR_STATIC e then e else set_old true e) = addr e)
    by (intros e; by destruct (ADDR_STATIC e)).
  assert (Hin : forall e, e ∈ mark_old l -> exists x, x ∈ l /\ e = if ADDR_STATIC x then x else set_old true x).
  { intros e (x & -> & Hx)%list_elem_of_fmap_1. eauto. }
  assert (Hst : forall x, x ∈ l -> ADDR_STATIC x = true <-> addr x ∈ static_set l).
  { intros x Hx. rewrite elem_of_static_set. split; [eauto|].
    intros (y & Hy & E & Hs). by rewrite (nodup_addr l x y). }
  split.
  - unfold mark_old. by rewrite addrs_map.
  - intros e (x & Hx & ->)%Hin. rewrite Ha. auto.
  - unfold addr_set, mark_old. rewrite addrs_map by done. by rewrite (right_id_L ∅ (∪)).
  - intros e (x & Hx & ->)%Hin. rewrite Ha. destruct (H3 x Hx) as [Hn _].
    assert (addr x ∈ addr_set l) by (apply elem_of_addr_set; eauto).
    destruct (ADDR_STATIC x); simpl; rewrite Hn; split; (done || tauto).
  - intros e (x & Hx & ->)%Hin. rewrite Ha. destruct (H3 x Hx) as [_ Ho].
    assert (addr x ∈ addr_set l) by (apply elem_of_addr_set; eauto).
    specialize (Hst x Hx). destruct (ADDR_STATIC x); simpl; [rewrite Ho|]; split; try done.
    + intros (_ & Ht & _). by destruct Ht; apply Hst.
    + intros _. split; [done|]. split; [|set_solver]. intros Ht. by apply Hst in Ht.
  - intros e (x & Hx & ->)%Hin _. rewrite Ha. rewrite <- (Hst x Hx). destruct (ADDR_STATIC x) eqn:E; simpl; by rewrite E.
Qed.

Lemma addr_find_None head a :
  sa_wf a -> (forall e, e ∈ head -> sa_wf (addr e)) -> a ∉ addr_set head -> addr_find head a = None.
Proof.
  intros Ha. induction head as [|e head IH]; simpl; intros Hw Hn; [done|].
  rewrite same_addr_spec by (done || (apply Hw; left)).
  rewrite bool_decide_eq_false_2 by (intros ->; apply Hn, elem_of_addr_set; exists e; split; [left | done]).
  rewrite IH; [done | intros; apply Hw; by right |].
  intros H. apply Hn. unfold addr_set in *. simpl. clear -H. set_solver.
Qed.

Lemma addr_find_Some head a :
  sa_wf a -> (forall e, e ∈ head -> sa_wf (addr e)) -> a ∈ addr_set head ->
  exists l1 e l2, head = l1 ++ e :: l2 /\ addr e = a /\ addr_find head a = Some (l1 ++ set_old false e :: l2).
Proof.
  intros Ha. induction head as [|e head IH]; intros Hw Hin; [by apply elem_of_addr_set in Hin as (e & He%elem_of_nil & _)|].
  simpl. rewrite same_addr_spec by (done || (apply Hw; left)).
  case_bool_decide as E; [subst; by exists [], e, head|].
  destruct IH as (l1 & x & l2 & -> & Hx & Hf); [intros; apply Hw; by right | |].
  - apply elem_of_addr_set in Hin as (x & [-> |Hx]%elem_of_cons & Hxa); [done|]. apply elem_of_addr_set. eauto.
  - exists (e :: l1), x, l2. by rewrite Hf.
Qed.

Lemma elem_of_middle {A} (x y : A) l1 l2 : x ∈ l1 ++ y :: l2 <-> x = y \/ x ∈ l1 ++ l2.
Proof. rewrite !elem_of_app, elem_of_cons. tauto. Qed.

Lemma addr_set_middle l1 e l2 : addr_set (l1 ++ e :: l2) = {[addr e]} ∪ addr_set (l1 ++ l2).
Proof.
  apply set_eq. intros a. rewrite elem_of_union, elem_of_singleton, !elem_of_addr_set.
  setoid_rewrite elem_of_middle. naive_solver.
Qed.

Lemma addrs_middle_notin l1 e l2 x : NoDup (addrs (l1 ++ e :: l2)) -> x ∈ l1 ++ l2 -> addr x <> addr e.
Proof.
  intros Hn Hx E. unfold addrs in Hn. rewrite map_app in Hn. simpl in Hn. apply list.NoDup_app in Hn as (_ & H1 & H2).
  apply elem_of_app in Hx as [Hx|Hx].
  - apply (H1 (addr x)); [by apply list_elem_of_fmap_2|]. rewrite E. left.
  - apply NoDup_cons_1_1 in H2. apply H2. rewrite <- E. by apply list_elem_of_fmap_2.
Qed.

Lemma addr_add_mid s t a l x static :
  mid s t a l -> sa_wf x -> mid s t ({[x]} ∪ a) (addr_add l x static).
Proof.
  intros [H1 H2 H3 H4 H5 H6] Hx. unfold addr_add. destruct (decide (x ∈ addr_set l)) as [Hin|Hin].
  - destruct (addr_find_Some l x Hx H2 Hin) as (l1 & e & l2 & -> & <- & ->).
    setoid_rewrite elem_of_middle in H2. setoid_rewrite elem_of_middle in H4.
    setoid_rewrite elem_of_middle in H5. setoid_rewrite elem_of_middle in H6.
    split; try setoid_rewrite elem_of_middle.
    + unfold addrs in *. by rewrite map_app in *.
    + intros y [-> |Hy]; simpl; auto.
    + rewrite addr_set_middle in *. simpl. clear -H3. set_solver.
    + intros y [-> |Hy]; simpl; auto.
    + intros y [-> |Hy]; simpl.
      * split; [done|]. clear. set_solver.
      * rewrite H5 by auto. pose proof (addrs_middle_notin _ _ _ _ H1 Hy) as Hne. clear -Hne. set_solver.
    + intros y [-> |Hy]; simpl; auto.
  - rewrite addr_find_None by done. unfold sa_wf in Hx. rewrite Hx, Nat2Z.id, firstn_all.
    split; simpl.
    + apply NoDup_cons_2; [|done]. unfold addr_set in Hin. by rewrite elem_of_list_to_set in Hin.
    + intros e [-> |He]%elem_of_cons; simpl; auto.
    + change (addr_set (_ :: l)) with ({[x]} ∪ addr_set l). rewrite H3. clear. set_solver.
    + intros e [-> |He]%elem_of_cons; simpl; [|auto]. rewrite H3 in Hin. clear -Hin. set_solver.
    + intros e [-> |He]%elem_of_cons; simpl.
      * split; [done|]. clear. set_solver.
      * rewrite H5 by done. assert (Hne : addr e <> x) by (intros <-; apply Hin, elem_of_addr_set; eauto).
        clear -Hne. set_solver.
    + intros e [-> |He]%elem_of_cons Hs; simpl in *; [|auto]. rewrite H3 in Hin. clear -Hin Hs. set_solver.
Qed.

Lemma copy_addrs_mid s t src : forall a l,
  mid s t a l -> (forall e, e ∈ src -> sa_wf (addr e)) -> mid s t (addr_set src ∪ a) (copy_addrs l src).
Proof.
  induction src as [|e src IH]; intros a l Hm Hw; simpl.
  - unfold addr_set. simpl. by rewrite (left_id_L ∅ (∪)).
  - replace (addr_set (e :: src) ∪ a) with (addr_set src ∪ ({[addr e]} ∪ a))
      by (unfold addr_set; simpl; clear; set_solver).
    apply IH; [|intros; apply Hw; by right]. apply addr_add_mid; [done|]. apply Hw. left.
Qed.

(** *** The sweep *)

Lemma sweep_spec l n :
  sweep l n = (map clear_new (filter (fun e => ADDR_OLD e = false) l),
               n + Z.of_nat (length (filter (fun e => ADDR_NEW e = true) l))
                 + Z.of_nat (length (filter (fun e => ADDR_OLD e = true) l))).
Proof.
  revert n. induction l as [|e l IH]; intros n; simpl; [f_equal; lia|].
  rewrite !filter_cons. destruct e as [a nw od st]; simpl.
  destruct nw, od; simpl; rewrite IH; simpl; f_equal; lia.
Qed.

Lemma length_filter_set (P : addr_entry -> Prop) `{!forall e, Decision (P e)} l :
  NoDup (addrs l) -> length (filter P l) = size (addr_set (filter P l)).
Proof.
  intros Hn. unfold addr_set. rewrite size_list_to_set; [unfold addrs; by rewrite length_map|].
  eapply sublist_NoDup; [exact Hn|]. apply (fmap_sublist addr), sublist_filter.
Qed.

Lemma elem_of_addr_filter (P : addr_entry -> Prop) `{!forall e, Decision (P e)} l a :
  a ∈ addr_set (filter P l) <-> exists e, e ∈ l /\ P e /\ addr e = a.
Proof.
  rewrite elem_of_addr_set. setoid_rewrite list_elem_of_filter. split.
  - intros (e & [HP He] & <-). eauto.
  - intros (e & He & HP & <-). eauto.
Qed.

Lemma mid_count_new s t a l :
  mid s t a l -> t ⊆ s -> length (filter (fun e => ADDR_NEW e = true) l) = size ((t ∪ a) ∖ s).
Proof.
  intros [H1 H2 H3 H4 H5 H6] Hts. rewrite length_filter_set by done. f_equal. apply set_eq. intros b.
  rewrite elem_of_addr_filter, elem_of_difference. split.
  - intros (e & He & Hn & <-). apply H4 in Hn; [|done].
    assert (Hs : addr e ∈ s ∪ a) by (rewrite <- H3; apply elem_of_addr_set; eauto). clear -Hn Hs. set_solver.
  - intros [Hb Hs]. assert (Hbl : b ∈ addr_set l) by (rewrite H3; clear -Hb Hts; set_solver).
    apply elem_of_addr_set in Hbl as (e & He & <-). exists e. split; [done|]. split; [|done]. by apply H4.
Qed.

Lemma mid_count_old s t a l :
  mid s t a l -> t ⊆ s -> length (filter (fun e => ADDR_OLD e = true) l) = size (s ∖ (t ∪ a)).
Proof.
  intros [H1 H2 H3 H4 H5 H6] Hts. rewrite length_filter_set by done. f_equal. apply set_eq. intros b.
  rewrite elem_of_addr_filter, elem_of_difference. split.
  - intros (e & He & Ho & <-). apply H5 in Ho; [|done]. clear -Ho. set_solver.
  - intros [Hb Hs]. assert (Hbl : b ∈ addr_set l) by (rewrite H3; clear -Hb; set_solver).
    apply elem_of_addr_set in Hbl as (e & He & <-). exists e. split; [done|]. split; [|done].
    apply H5; [done|]. clear -Hb Hs. set_solver.
Qed.

(** After the sweep the list stands for the static addresses and those that were added, and the
    counter says how many addresses came and went. *)
Lemma sweep_mid s t a l :
  mid s t a l -> t ⊆ s ->
  let '(l', n) := sweep l 0 in
  settled l' /\ addr_set l' = t ∪ a /\ t ⊆ static_set l' /\
  n = Z.of_nat (size ((t ∪ a) ∖ s) + size (s ∖ (t ∪ a))).
Proof.
  intros [H1 H2 H3 H4 H5 H6] Hts. rewrite sweep_spec.
  assert (Hin : forall e, e ∈ map clear_new (filter (fun e => ADDR_OLD e = false) l) ->
    exists x, x ∈ l /\ ADDR_OLD x = false /\ e = clear_new x).
  { intros e (x & -> & Hx)%list_elem_of_fmap_1. apply list_elem_of_filter in Hx as []. eauto. }
  assert (Hold : forall e, e ∈ l -> ADDR_OLD e = false -> addr e ∈ t ∪ a).
  { intros e He Ho. destruct (decide (addr e ∈ t ∪ a)) as [|Hn]; [done|]. exfalso.
    rewrite (proj2 (H5 e He)) in Ho; [done|].
    assert (Hs : addr e ∈ s ∪ a) by (rewrite <- H3; apply elem_of_addr_set; eauto). clear -Hn Hs. set_solver. }
  assert (Hkeep : forall b, b ∈ t ∪ a -> exists e, e ∈ l /\ ADDR_OLD e = false /\ addr e = b).
  { intros b Hb. assert (Hbl : b ∈ addr_set l) by (rewrite H3; clear -Hb Hts; set_solver).
    apply elem_of_addr_set in Hbl as (e & He & <-). exists e. split; [done|]. split; [|done].
    destruct (ADDR_OLD e) eqn:Ho; [|done]. apply H5 in Ho; [|done]. clear -Ho Hb. set_solver. }
  split; [split|split; [|split]].
  - rewrite addrs_map by done. eapply sublist_NoDup; [exact H1|]. apply (fmap_sublist addr), sublist_filter.
  - intros e (x & Hx & _ & ->)%Hin. by apply (H2 x).
  - intros e (x & Hx & Ho & ->)%Hin. done.
  - apply set_eq. intros b. rewrite elem_of_addr_set. split.
    + intros (e & (x & Hx & Ho & ->)%Hin & <-). exact (Hold x Hx Ho).
    + intros (e & He & Ho & <-)%Hkeep. exists (clear_new e). split; [|done].
      apply list_elem_of_fmap_2. by apply list_elem_of_filter.
  - intros b Hb. destruct (Hkeep b) as (e & He & Ho & <-); [by apply elem_of_union_l|].
    apply elem_of_static_set. exists (clear_new e). split; [|split; [done|]].
    + apply list_elem_of_fmap_2. by apply list_elem_of_filter.
    + simpl. apply H6; [done| |done]. by apply Hts.
  - rewrite (mid_count_new s t a), (mid_count_old s t a) by done. rewrite Z.add_0_l, <- Nat2Z.inj_add. done.
Qed.

Lemma static_subset l : static_set l ⊆ addr_set l.
Proof. intros a. rewrite elem_of_static_set, elem_of_addr_set. intros (e & He & Ha & _). eauto. Qed.

(** [refresh] implements the update of a set: the list stands for the static addresses it had and the
    addresses of [src], and the counter is the number of addresses that came or went. *)
Lemma refresh_spec l src :
  settled l -> (forall e, e ∈ src -> sa_wf (addr e)) ->
  let '(l', n) := refresh l src in
  settled l' /\ addr_set l' = static_set l ∪ addr_set src /\ static_set l ⊆ static_set l' /\
  n = Z.of_nat (size (addr_set l' ∖ addr_set l) + size (addr_set l ∖ addr_set l')).
Proof.
  intros Hl Hw. pose proof (copy_addrs_mid _ _ src ∅ _ (mark_old_mid l Hl) Hw) as Hm.
  rewrite (right_id_L ∅ (∪)) in Hm. pose proof (sweep_mid _ _ _ _ Hm (static_subset l)) as Hs.
  unfold refresh. destruct (sweep _ 0) as [l' n]. destruct Hs as (H1 & H2 & H3 & H4).
  rewrite H2. done.
Qed.

(** The counter is 0 exactly when nothing changed. *)
Lemma count_zero (s s' : gset sockaddr) : Z.of_nat (size (s' ∖ s) + size (s ∖ s')) = 0 <-> s = s'.
Proof.
  split.
  - intros H. assert (H1 : size (s' ∖ s) = 0%nat) by lia. assert (H2 : size (s ∖ s') = 0%nat) by lia.
    apply size_empty_inv in H1, H2. apply set_eq. intros x. clear H.
    destruct (decide (x ∈ s)), (decide (x ∈ s')); set_solver.
  - intros ->. rewrite difference_diag_L, size_empty. done.
Qed.

(** *** Static addresses *)

Lemma elem_of_unmarked l e : e ∈ map (set_old false) l <-> exists e', e' ∈ l /\ e = set_old false e'.
Proof.
  split; [intros (x & -> & Hx)%list_elem_of_fmap_1; eauto|]. intros (x & Hx & ->). by apply list_elem_of_fmap_2.
Qed.

(** The sets do not depend on the marks. *)
Lemma sets_unmarked l l' : map (set_old false) l = map (set_old false) l' ->
  addr_set l = addr_set l' /\ static_set l = static_set l'.
Proof.
  intros E. assert (Hin : forall l l', map (set_old false) l = map (set_old false) l' -> forall e, e ∈ l ->
    exists e', e' ∈ l' /\ addr e' = addr e /\ ADDR_STATIC e' = ADDR_STATIC e).
  { clear. intros l l' E e He. assert (He' : set_old false e ∈ map (set_old false) l') by (rewrite <- E; apply elem_of_unmarked; eauto).
    apply elem_of_unmarked in He' as (e' & He' & Ee). exists e'. injection Ee as E1 _ E3. auto. }
  split; apply set_eq; intros a; rewrite ?elem_of_addr_set, ?elem_of_static_set; split.
  - intros (e & He & <-). destruct (Hin _ _ E e He) as (e' & H1 & H2 & _). eauto.
  - intros (e & He & <-). destruct (Hin _ _ (eq_sym E) e He) as (e' & H1 & H2 & _). eauto.
  - intros (e & He & <- & Hs). destruct (Hin _ _ E e He) as (e' & H1 & H2 & H3). exists e'. by rewrite H3.
  - intros (e & He & <- & Hs). destruct (Hin _ _ (eq_sym E) e He) as (e' & H1 & H2 & H3). exists e'. by rewrite H3.
Qed.

Lemma mark_old_unmarked l : map (set_old false) (mark_old l) = map (set_old false) l.
Proof. unfold mark_old. rewrite map_map. apply map_ext. intros e. by destruct (ADDR_STATIC e). Qed.

Lemma addr_find_unmarked x l : forall l', addr_find l x = Some l' -> map (set_old false) l' = map (set_old false) l.
Proof.
  induction l as [|e l IH]; intros l' E; [done|]. simpl in E. destruct (same_addr x (addr e)); [by simplify_eq|].
  destruct (addr_find l x) as [l1|]; [|done]. simplify_eq/=. f_equal. by apply IH.
Qed.

Lemma static_set_cons e l : static_set (e :: l) = (if ADDR_STATIC e then {[addr e]} else ∅) ∪ static_set l.
Proof.
  unfold static_set. rewrite filter_cons. destruct (ADDR_STATIC e) eqn:E.
  - rewrite decide_True by done. done.
  - rewrite decide_False by (intros ?; congruence). by rewrite (left_id_L ∅ (∪)).
Qed.

Lemma static_addr_add l x static : sa_wf x ->
  static_set l ⊆ static_set (addr_add l x static) /\
  static_set (addr_add l x static) ⊆ (if static then {[x]} else ∅) ∪ static_set l.
Proof.
  intros Hx. unfold addr_add. destruct (addr_find l x) as [l'|] eqn:E.
  - apply addr_find_unmarked, sets_unmarked in E as [_ ->]. clear. set_solver.
  - rewrite static_set_cons. simpl. unfold sa_wf in Hx. rewrite Hx, Nat2Z.id, firstn_all. destruct static; clear; set_solver.
Qed.

Lemma static_copy src : forall l, (forall e, e ∈ src -> sa_wf (addr e)) ->
  static_set (copy_addrs l src) ⊆ static_set l ∪ static_set src.
Proof.
  induction src as [|e src IH]; intros l Hw; simpl; [clear; set_solver|].
  rewrite IH, static_set_cons by (intros; apply Hw; by right).
  destruct (static_addr_add l (addr e) (ADDR_STATIC e)) as [_ Hu]; [apply Hw; left|]. clear -Hu. set_solver.
Qed.

Lemma static_sweep l n : static_set (sweep l n).1 ⊆ static_set l.
Proof.
  rewrite sweep_spec. simpl. intros a (e & He & <- & Hs)%elem_of_static_set.
  apply list_elem_of_fmap_1 in He as (x & -> & Hx). apply list_elem_of_filter in Hx as [_ Hx].
  apply elem_of_static_set. eauto.
Qed.

Lemma refresh_static l src : (forall e, e ∈ src -> sa_wf (addr e)) ->
  static_set (refresh l src).1 ⊆ static_set l ∪ static_set src.
Proof.
  intros Hw. unfold refresh. rewrite static_sweep, static_copy by done.
  by destruct (sets_unmarked _ _ (mark_old_unmarked l)) as [_ ->].
Qed.

(** *** Nothing to do *)

Lemma addr_add_old l x static :
  sa_wf x -> (forall e, e ∈ l -> sa_wf (addr e)) -> x ∈ addr_set l ->
  map (set_old false) (addr_add l x static) = map (set_old false) l.
Proof.
  intros Hx Hw Hin. unfold addr_add. destruct (addr_find_Some l x Hx Hw Hin) as (l1 & e & l2 & -> & _ & ->).
  by rewrite !map_app.
Qed.

Lemma addr_add_keeps l x static e : e ∈ addr_add l x static -> sa_wf x -> (forall e, e ∈ l -> sa_wf (addr e)) ->
  x ∈ addr_set l -> sa_wf (addr e).
Proof.
  intros He Hx Hw Hin. apply (list_elem_of_fmap_2 (set_old false)) in He.
  change (set_old false <$> ?l) with (map (set_old false) l) in He. rewrite addr_add_old in He by done.
  apply list_elem_of_fmap_1 in He as (e' & E & He'). apply (f_equal addr) in E. simpl in E. rewrite E. auto.
Qed.

Lemma copy_addrs_old src : forall l,
  (forall e, e ∈ src -> sa_wf (addr e)) -> (forall e, e ∈ l -> sa_wf (addr e)) -> addr_set src ⊆ addr_set l ->
  map (set_old false) (copy_addrs l src) = map (set_old false) l.
Proof.
  induction src as [|x src IH]; intros l Hs Hl Hsub; [done|]. simpl.
  assert (Hx : addr x ∈ addr_set l) by (apply Hsub, elem_of_addr_set; exists x; split; [left | done]).
  assert (Hwx : sa_wf (addr x)) by (apply Hs; left).
  pose proof (addr_add_old l (addr x) (ADDR_STATIC x) Hwx Hl Hx) as E.
  rewrite IH; [done | intros; apply Hs; by right | intros e He; by eapply addr_add_keeps|].
  rewrite (proj1 (sets_unmarked _ _ E)). intros a Ha. apply Hsub. revert Ha. rewrite !elem_of_addr_set.
  intros (e & He & <-). exists e. split; [by right | done].
Qed.

(** Copying the addresses a list has already brings back the list. *)
Lemma copy_settled l src :
  settled l -> (forall e, e ∈ src -> sa_wf (addr e)) -> addr_set src ⊆ addr_set l ->
  addr_set l ⊆ static_set l ∪ addr_set src -> copy_addrs (mark_old l) src = l.
Proof.
  intros Hl Hw Hsub Hall. pose proof (mark_old_mid l Hl) as Hm.
  pose proof (copy_addrs_mid _ _ src ∅ _ Hm Hw) as Hc.
  assert (Hold : forall l, (forall e, e ∈ l -> ADDR_OLD e = false) -> map (set_old false) l = l).
  { clear. induction l as [|e l IH]; intros H; [done|]. simpl. rewrite IH by (intros; apply H; by right).
    specialize (H e (list_elem_of_here _ _)). destruct e. simpl in H. by rewrite H. }
  pose proof (mark_old_unmarked l) as Hmark.
  rewrite <- (Hold (copy_addrs _ _)).
  - rewrite copy_addrs_old, Hmark, Hold; [done | | done | apply Hm |].
    + intros e He. by apply (settled_flags _ Hl).
    + by rewrite (proj1 (sets_unmarked _ _ Hmark)).
  - intros e He. destruct (ADDR_OLD e) eqn:E; [|done]. apply (mid_old _ _ _ _ Hc) in E as (H1 & H2 & H3); [|done].
    exfalso. clear -Hall H1 H2 H3. set_solver.
Qed.
