(* ===== verification/FdTables.v ===== *)
(** filterdns, tables.c: the tables of pf and ipfw that the addresses of an action are entered in.
    The system calls are the operations of a [Kernel]; [PfTables] is what the documentation of pf
    promises of them, and the update of a table is shown to implement the update of a set. *)
From Stdlib Require Import ZArith Lia Ascii String.
From stdpp Require Import base list gmap sets fin_sets strings numbers.
From S2P Require Import Prelude CProg FdAddr.
Open Scope string_scope.
Open Scope list_scope.
Open Scope Z_scope.

(** ** Actions (filterdns.h) *)

Inductive action_type : Type := IPFW_TYPE | PF_TYPE | CMD_TYPE.

#[export] Instance action_type_eq_dec : EqDecision action_type.
Proof. solve_decision. Defined.

(** [state] of a thread. *)
Inductive thr_state : Type := THR_STOPPED | THR_DYING | THR_STARTING | THR_RUNNING.

#[export] Instance thr_state_eq_dec : EqDecision thr_state.
Proof. solve_decision. Defined.

(** [struct action].  [act_id] stands for its address, [host] for the pointer to its host (the [th_id]
    of a [thread_host]), [sem] for the value of the semaphore. *)
Record action : Type := {
  act_id : nat;
  host : option nat;
  tbl_rnh : addr_list;
  act_rnh : addr_list;
  ACT_FORCE : bool;
  type : action_type;
  tablename : option string;
  anchor : option string;
  pipe : Z;
  cmd : option string;
  act_hostname : string;
  act_state : thr_state;
  act_sem : Z
}.

(** The masks of the host of an action, [None] when it has none. *)
Abbreviation masks := (option (Z * Z)).

(** ** The kernel *)

Definition AF_INET : Z := 2.
Definition AF_INET6 : Z := 28.
Definition ENOENT : Z := 2.
Definition ESRCH : Z := 3.
Definition EEXIST : Z := 17.
Definition EINVAL : Z := 22.
Definition IPFW_TABLE_ADDR : Z := 1.

(** net/pfvar.h *)
Definition PF_TABLE_NAME_SIZE : nat := 32.
Definition MAXPATHLEN : nat := 1024.

Record pfr_addr : Type := { pfra_af : Z; pfra_net : Z; pfra_u : list Z }.

#[export] Instance pfr_addr_eq_dec : EqDecision pfr_addr.
Proof. solve_decision. Defined.

(** [ipfw_obj_tentry] *)
Record tentry : Type := { subtype : Z; masklen : Z; key : list Z; value : Z }.

(** The requests of tables.c: [ioctl] on /dev/pf with a table and an address, [getsockopt] and
    [setsockopt] on the socket of ipfw. *)
Inductive request : Type :=
  | DIOCRADDTABLES (name anchor : string)
  | DIOCRADDADDRS (name anchor : string) (a : pfr_addr)
  | DIOCRDELADDRS (name anchor : string) (a : pfr_addr)
  | IP_FW_TABLE_XINFO (name : string)
  | IP_FW_TABLE_XCREATE (name : string) (legacy : bool)
  | IP_FW_TABLE_XADD (name : string) (t : tentry)
  | IP_FW_TABLE_XDEL (name : string) (t : tentry).

(** A reply carries a size and a type (for IP_FW_TABLE_XINFO) or [errno]. *)
Inductive reply : Type :=
  | Done (short : bool) (ty : Z)
  | Error (errno : Z).

(** [open_pf] and [socket_ipfw] give a descriptor or [errno]. *)
Class Kernel : Type := {
  kstate : Type;
  open_pf : kstate -> (Z + Z) * kstate;
  socket_ipfw : kstate -> (Z + Z) * kstate;
  syscall : request -> kstate -> reply * kstate
}.

(** The static descriptors of [pf_tableentry] and [ipfw_tableentry], and the kernel. *)
Record sys `{Kernel} : Type := { dev : Z; sock : Z; kern : kstate }.
Arguments Build_sys {_} dev sock kern.

Section tables.
Context `{Kernel}.

Definition do_call (r : request) (st : sys) : reply * sys :=
  let '(a, k) := syscall r (kern st) in (a, {| dev := dev st; sock := sock st; kern := k |}).

(** ** pf *)

(** [while (b >= 32)]: the words that are filled, as long as there are four. *)
Fixpoint full_words (fuel : nat) (j : nat) (b : Z) (m : list Z) : outcome (nat * Z * list Z) :=
  match fuel with
  | O => Fail NoFuel
  | S fuel =>
      if 32 <=? b then
        if (j <? length m)%nat then full_words fuel (S j) (b - 32) (<[j := 0xffffffff]> m)
        else Fail (ArrayBounds (Z.of_nat j))
      else Ok (j, b, m)
  end.

(** [for (i = 31; i > 31-b; --i) m.addr32[j] |= (1 << i)], [n] rounds. *)
Fixpoint set_bits (n : nat) (i : Z) (w : Z) : Z :=
  match n with
  | O => w
  | S n => set_bits n (i - 1) (Z.lor w (Z.shiftl 1 i))
  end.

(** The bytes of a word after [htonl]. *)
Definition htonl_bytes (w : Z) : list Z :=
  [Z.shiftr w 24; Z.land (Z.shiftr w 16) 255; Z.land (Z.shiftr w 8) 255; Z.land w 255].

(** The bytes of the mask [m]. *)
Definition mask_bytes (b : Z) : outcome (list Z) :=
  '(j, b, m) ← full_words 9 0 b [0; 0; 0; 0];
  if b =? 0 then Ok (flat_map htonl_bytes m)
  else if (j <? length m)%nat then Ok (flat_map htonl_bytes (<[j := set_bits (Z.to_nat b) 31 (default 0 (m !! j))]> m))
  else Fail (ArrayBounds (Z.of_nat j)).

(** The mask is applied to the four words of the address, here byte by byte. *)
Definition set_ipmask (h : list Z) (b : Z) : outcome (list Z) :=
  m ← mask_bytes b; Ok (zip_with Z.land h m).

(** [sin_addr] of a [struct sockaddr_in], [sin6_addr] of a [struct sockaddr_in6]. *)
Definition sin_addr (a : sockaddr) : list Z := take 4 (drop 4 a).
Definition sin6_addr (a : sockaddr) : list Z := take 16 (drop 8 a).

Definition table_mask (dflt mask : Z) : Z := if mask =? -1 then dflt else mask.

(** The [pfr_addr] of an address, [None] for another family; [pfra_net] has 8 bits. *)
Definition pfaddr (hm : masks) (a : sockaddr) : outcome (option pfr_addr) :=
  if sa_family a =? AF_INET then
    let net := match hm with Some (mask, _) => table_mask 32 mask | None => 32 end in
    Ok (Some {| pfra_af := AF_INET; pfra_net := u8 net; pfra_u := sin_addr a |})
  else if sa_family a =? AF_INET6 then
    let net := u8 (match hm with Some (_, mask6) => table_mask 128 mask6 | None => 128 end) in
    h ← set_ipmask (sin6_addr a) net;
    Ok (Some {| pfra_af := AF_INET6; pfra_net := net; pfra_u := h |})
  else Ok None.

Definition too_long (s : option string) (size : nat) : bool :=
  match s with Some s => (size <=? String.length s)%nat | None => false end.

Definition pf_table_create (anchor : option string) (name : string) (st : sys) : Z * sys :=
  if too_long (Some name) PF_TABLE_NAME_SIZE || too_long anchor MAXPATHLEN then (-1, st)
  else
    match do_call (DIOCRADDTABLES name (default "" anchor)) st with
    | (Error _, st) => (-1, st)
    | (Done _ _, st) => (0, st)
    end.

(** The loop of [pf_tableentry]; [add] for TABLE_ADD. *)
Fixpoint pf_retry (retry : nat) (add : bool) (name : string) (anchor : option string) (a : pfr_addr)
    (error : Z) (st : sys) : Z * sys :=
  match retry with
  | O => (error, st)
  | S retry =>
      let '(opened, st) :=
        if dev st =? -1 then
          match open_pf (kern st) with
          | (inl fd, k) => (None, {| dev := fd; sock := sock st; kern := k |})
          | (inr errno, k) => (Some errno, {| dev := -1; sock := sock st; kern := k |})
          end
        else (None, st) in
      match opened with
      | Some errno => pf_retry retry add name anchor a errno st
      | None =>
          let '(error, created, st) :=
            if add then
              let '(error, st) := pf_table_create anchor name st in (error, error =? 0, st)
            else (error, true, st) in
          if negb created then pf_retry retry add name anchor a error st
          else
            match do_call ((if add then DIOCRADDADDRS else DIOCRDELADDRS) name (default "" anchor) a) st with
            | (Error errno, st) => pf_retry retry add name anchor a errno st
            | (Done _ _, st) => (error, st)
            end
      end
  end.

Definition pf_tableentry (act : action) (hm : masks) (a : sockaddr) (add : bool) (st : sys) : outcome (Z * sys) :=
  let name := default "" (tablename act) in
  if too_long (Some name) PF_TABLE_NAME_SIZE || too_long (anchor act) MAXPATHLEN then Ok (-1, st)
  else
    p ← pfaddr hm a;
    match p with
    | None => Ok (-1, st)
    | Some p => Ok (pf_retry 3 add name (anchor act) p 0 st)
    end.

(** ** ipfw *)

Definition table_do_create (name : string) (pipe : Z) (st : sys) : Z * sys :=
  match do_call (IP_FW_TABLE_XCREATE name (pipe =? 0)) st with
  | (Error _, st) => (-1, st)
  | (Done _ _, st) => (0, st)
  end.

(** The type of the table, or the error; a table that does not exist is created. *)
Fixpoint table_info (retry : nat) (name : string) (pipe : Z) (st : sys) : (Z + Z) * sys :=
  match retry with
  | O => (inr (-1), st)
  | S retry =>
      match do_call (IP_FW_TABLE_XINFO name) st with
      | (Done short ty, st) => (if short then inr EINVAL else inl ty, st)
      | (Error errno, st) =>
          if errno =? ESRCH then
            match table_do_create name pipe st with
            | (0, st) => table_info retry name pipe st
            | (_, st) => (inr (-1), st)
            end
          else (inr (-1), st)
      end
  end.

Definition table_get_info (name : string) (pipe : Z) (st : sys) : (Z + Z) * sys := table_info 2 name pipe st.

(** The entry for an address, [None] for another family. *)
Definition ipfw_entry (pipe : Z) (hm : masks) (a : sockaddr) : option tentry :=
  if sa_family a =? AF_INET then
    Some {| subtype := AF_INET; key := sin_addr a; value := pipe;
            masklen := u8 (match hm with Some (mask, _) => table_mask 32 mask | None => 32 end) |}
  else if sa_family a =? AF_INET6 then
    Some {| subtype := AF_INET6; key := sin6_addr a; value := pipe;
            masklen := u8 (match hm with Some (_, mask6) => table_mask 128 mask6 | None => 128 end) |}
  else None.

(** [strlcpy(ntlv->name, act->tablename, sizeof(ntlv->name))], 64 bytes. *)
Definition ipfw_name (act : action) : string := str_take 63 (default "" (tablename act)).

Fixpoint ipfw_retry (retry : nat) (act : action) (hm : masks) (a : sockaddr) (add : bool) (error : Z)
    (st : sys) : Z * sys :=
  match retry with
  | O => (error, st)
  | S retry =>
      let '(opened, st) :=
        if sock st =? -1 then
          match socket_ipfw (kern st) with
          | (inl fd, k) => (None, {| dev := dev st; sock := fd; kern := k |})
          | (inr errno, k) => (Some errno, {| dev := dev st; sock := -1; kern := k |})
          end
        else (None, st) in
      match opened with
      | Some errno => ipfw_retry retry act hm a add errno st
      | None =>
          match table_get_info (ipfw_name act) (pipe act) st with
          | (inr _, st) => (ENOENT, st)
          | (inl ty, st) =>
              if negb (ty =? IPFW_TABLE_ADDR) then (EINVAL, st)
              else
                match ipfw_entry (pipe act) hm a with
                | None => (EINVAL, st)
                | Some t =>
                    match do_call ((if add then IP_FW_TABLE_XADD else IP_FW_TABLE_XDEL) (ipfw_name act) t) st with
                    | (Done _ _, st) => (0, st)
                    | (Error errno, st) =>
                        if add && (errno =? EEXIST) then (EEXIST, st)
                        else ipfw_retry retry act hm a add (-1) st
                    end
                end
          end
      end
  end.

Definition ipfw_tableentry (act : action) (hm : masks) (a : sockaddr) (add : bool) (st : sys) : Z * sys :=
  ipfw_retry 3 act hm a add 0 st.

(** ** Tables *)

Definition table_entry (act : action) (hm : masks) (e : addr_entry) (add : bool) (st : sys) : outcome (Z * sys) :=
  match type act with
  | IPFW_TYPE => Ok (ipfw_tableentry act hm (addr e) add st)
  | PF_TYPE => pf_tableentry act hm (addr e) add st
  | CMD_TYPE => Ok (-1, st)
  end.

Definition table_add (act : action) (hm : masks) (e : addr_entry) (st : sys) := table_entry act hm e true st.
Definition table_del (act : action) (hm : masks) (e : addr_entry) (st : sys) := table_entry act hm e false st.

(** The loop of [table_update] over [tbl_rnh]. *)
Fixpoint table_sweep (act : action) (hm : masks) (head : addr_list) (error : Z) (st : sys)
    : outcome (addr_list * Z * sys) :=
  match head with
  | [] => Ok ([], error, st)
  | e :: head =>
      '(e, error, st) ←
        (if ADDR_NEW e then '(error, st) ← table_add act hm e st; Ok (clear_new e, error, st)
         else Ok (e, error, st));
      if ADDR_OLD e then
        '(error, st) ← table_del act hm e st;
        table_sweep act hm head error st
      else
        '(head, error, st) ← table_sweep act hm head error st;
        Ok (e :: head, error, st)
  end.

Definition with_tbl (act : action) (l : addr_list) : action :=
  {| act_id := act_id act; host := host act; tbl_rnh := l; act_rnh := act_rnh act; ACT_FORCE := ACT_FORCE act;
     type := type act; tablename := tablename act; anchor := anchor act; pipe := pipe act; cmd := cmd act;
     act_hostname := act_hostname act; act_state := act_state act; act_sem := act_sem act |}.

Definition table_update (act : action) (hm : masks) (st : sys) : outcome (action * Z * sys) :=
  '(l, error, st) ← table_sweep act hm (copy_addrs (mark_old (tbl_rnh act)) (act_rnh act)) 0 st;
  Ok (with_tbl act l, error, st).

Fixpoint table_cleanup_loop (act : action) (hm : masks) (head : addr_list) (error : Z) (st : sys)
    : outcome (Z * sys) :=
  match head with
  | [] => Ok (error, st)
  | e :: head => '(error, st) ← table_del act hm e st; table_cleanup_loop act hm head error st
  end.

Definition table_cleanup (act : action) (hm : masks) (st : sys) : outcome (action * Z * sys) :=
  '(error, st) ← table_cleanup_loop act hm (tbl_rnh act) 0 st;
  Ok (with_tbl act [], error, st).

End tables.

(** ** The mask of an IPv6 address *)

Definition mask_byte (b : Z) (i : Z) : Z :=
  if 8 * (i + 1) <=? b then 255 else if b <=? 8 * i then 0 else 256 - 2 ^ (8 * (i + 1) - b).

Definition mask_bytes_ok (b : Z) : bool :=
  match mask_bytes b with
  | Ok m => bool_decide (m = map (fun i => mask_byte b (Z.of_nat i)) (seq 0 16))
  | Fail _ => false
  end.

Lemma mask_bytes_all : forallb (fun b => mask_bytes_ok (Z.of_nat b)) (seq 0 129) = true.
Proof. vm_compute. reflexivity. Qed.

Lemma mask_bytes_spec b : 0 <= b <= 128 -> mask_bytes b = Ok (map (fun i => mask_byte b (Z.of_nat i)) (seq 0 16)).
Proof.
  intros Hb. pose proof mask_bytes_all as H. rewrite forallb_forall in H.
  assert (Hin : In (Z.to_nat b) (seq 0 129)) by (apply in_seq; lia).
  specialize (H _ Hin). cbv beta in H. rewrite Z2Nat.id in H by lia. unfold mask_bytes_ok in H.
  destruct (mask_bytes b); [|discriminate H]. f_equal. by eapply bool_decide_eq_true_1.
Qed.

(** Bit [i] of the mask, counted from the left, is set exactly when [i < b]. *)
Definition mask_bits_ok (b : Z) : bool :=
  forallb (fun i => Bool.eqb (Z.testbit (mask_byte b (Z.of_nat i / 8)) (7 - Z.of_nat i mod 8)) (Z.of_nat i <? b)) (seq 0 128).

Lemma mask_bits_all : forallb (fun b => mask_bits_ok (Z.of_nat b)) (seq 0 129) = true.
Proof. vm_compute. reflexivity. Qed.

Lemma mask_byte_bit b i : 0 <= b <= 128 -> 0 <= i < 128 ->
  Z.testbit (mask_byte b (i / 8)) (7 - i mod 8) = (i <? b).
Proof.
  intros Hb Hi. pose proof mask_bits_all as H. rewrite forallb_forall in H.
  specialize (H (Z.to_nat b)). cbv beta in H. rewrite Z2Nat.id in H by lia.
  unfold mask_bits_ok in H. rewrite forallb_forall in H.
  specialize (H ltac:(apply in_seq; lia) (Z.to_nat i)). rewrite Z2Nat.id in H by lia.
  apply Bool.eqb_prop, H. apply in_seq. lia.
Qed.

Definition mask_long_ok (b : Z) : bool :=
  match mask_bytes b with Fail (ArrayBounds 4) => true | _ => false end.

Lemma mask_long_all : forallb (fun b => mask_long_ok (Z.of_nat b)) (seq 129 127) = true.
Proof. vm_compute. reflexivity. Qed.

Lemma mask_bytes_long b : 128 < b < 256 -> mask_bytes b = Fail (ArrayBounds 4).
Proof.
  intros Hb. pose proof mask_long_all as H. rewrite forallb_forall in H.
  specialize (H (Z.to_nat b) ltac:(apply in_seq; lia)). cbv beta in H. rewrite Z2Nat.id in H by lia.
  unfold mask_long_ok in H. destruct (mask_bytes b) as [|[]]; try discriminate H.
  by repeat match type of H with context [match ?x with _ => _ end] => destruct x; try discriminate H end.
Qed.

(** The mask of an IPv6 address keeps the first [b] bits of the address and clears the others, for
    every length up to 128, and a longer one writes past the four words of the mask. *)
Theorem set_ipmask_prefix h b : length h = 16%nat ->
  (0 <= b <= 128 -> exists r, set_ipmask h b = Ok r /\ length r = 16%nat /\
     forall i, 0 <= i < 128 ->
       Z.testbit (default 0 (r !! Z.to_nat (i / 8))) (7 - i mod 8)
       = (i <? b) && Z.testbit (default 0 (h !! Z.to_nat (i / 8))) (7 - i mod 8)) /\
  (128 < b < 256 -> set_ipmask h b = Fail (ArrayBounds 4)).
Proof.
  intros Hh. unfold set_ipmask. split; intros Hb.
  - rewrite mask_bytes_spec by done. cbn [mbind outcome_bind]. eexists. split; [reflexivity|].
    split; [rewrite length_zip_with, length_map, length_seq; lia|]. intros i Hi.
    assert (Hj : 0 <= i / 8 < 16) by (split; [apply Z.div_pos; lia | apply Z.div_lt_upper_bound; lia]).
    destruct (lookup_lt_is_Some_2 h (Z.to_nat (i / 8))) as [x Hx]; [lia|].
    rewrite lookup_zip_with, list_lookup_fmap, lookup_seq_lt, Hx by lia. cbn -[mask_byte Z.div Z.modulo].
    rewrite Z2Nat.id, Z.land_spec, mask_byte_bit by lia. apply andb_comm.
  - by rewrite mask_bytes_long.
Qed.

(** ** Tables as sets *)

(** What pf(4) promises of its tables, when no call fails: opening the device and adding a table
    change no addresses, adding and deleting an address change exactly this one. *)
Class PfTables `{Kernel} : Type := {
  member : kstate -> string -> string -> pfr_addr -> Prop;
  open_pf_ok k : exists fd k', open_pf k = (inl fd, k') /\ 0 <= fd /\
    forall n an x, member k' n an x <-> member k n an x;
  add_table_ok n0 an0 k : exists b ty k', syscall (DIOCRADDTABLES n0 an0) k = (Done b ty, k') /\
    forall n an x, member k' n an x <-> member k n an x;
  add_addr_ok n0 an0 a k : exists b ty k', syscall (DIOCRADDADDRS n0 an0 a) k = (Done b ty, k') /\
    forall n an x, member k' n an x <-> (n, an, x) = (n0, an0, a) \/ member k n an x;
  del_addr_ok n0 an0 a k : exists b ty k', syscall (DIOCRDELADDRS n0 an0 a) k = (Done b ty, k') /\
    forall n an x, member k' n an x <-> (n, an, x) <> (n0, an0, a) /\ member k n an x
}.

Section refinement.
Context `{PfTables}.

Abbreviation mem st := (member (kern st)).

(** The effect of one request on the tables. *)
Definition changed (add : bool) (n0 an0 : string) (a : pfr_addr) (st st' : sys) : Prop :=
  forall n an x, mem st' n an x <->
    if add then (n, an, x) = (n0, an0, a) \/ mem st n an x else (n, an, x) <> (n0, an0, a) /\ mem st n an x.

Definition names_ok (act : action) : Prop :=
  too_long (Some (default "" (tablename act))) PF_TABLE_NAME_SIZE = false /\ too_long (anchor act) MAXPATHLEN = false.

Lemma open_step st : exists st', (0 <= dev st' \/ st' = st) /\
  (if dev st =? -1 then
     match open_pf (kern st) with
     | (inl fd, k) => (None, {| dev := fd; sock := sock st; kern := k |})
     | (inr errno, k) => (Some errno, {| dev := -1; sock := sock st; kern := k |})
     end
   else (None, st)) = (None, st') /\
  forall n an x, mem st' n an x <-> mem st n an x.
Proof.
  destruct (dev st =? -1); [|exists st; auto; done].
  destruct (open_pf_ok (kern st)) as (fd & k' & -> & Hfd & Hm).
  exists {| dev := fd; sock := sock st; kern := k' |}. auto.
Qed.

(** One entry: the request succeeds at the first try. *)
Lemma pf_retry_ok n add name anchor a st :
  too_long (Some name) PF_TABLE_NAME_SIZE = false -> too_long anchor MAXPATHLEN = false ->
  exists st', pf_retry (S n) add name anchor a 0 st = (0, st') /\ changed add name (default "" anchor) a st st'.
Proof.
  intros Hn Ha. cbn [pf_retry]. destruct (open_step st) as (st1 & _ & -> & Hm1). cbv iota beta.
  assert (Hc : exists st2, (if add then let '(error, st) := pf_table_create anchor name st1 in (error, error =? 0, st)
                            else (0, true, st1)) = (0, true, st2) /\ forall n an x, mem st2 n an x <-> mem st n an x).
  { destruct add; [|exists st1; auto]. unfold pf_table_create, do_call. rewrite Hn, Ha. cbn [orb].
    destruct (add_table_ok name (default "" anchor) (kern st1)) as (b & ty & k' & -> & Hm2).
    eexists. split; [reflexivity|]. intros. rewrite <- Hm1. apply Hm2. }
  destruct Hc as (st2 & -> & Hm2). cbn [negb]. unfold do_call, changed.
  destruct add.
  - destruct (add_addr_ok name (default "" anchor) a (kern st2)) as (b & ty & k' & -> & Hm3).
    eexists. split; [reflexivity|]. intros. cbn [kern]. rewrite Hm3, Hm2. done.
  - destruct (del_addr_ok name (default "" anchor) a (kern st2)) as (b & ty & k' & -> & Hm3).
    eexists. split; [reflexivity|]. intros. cbn [kern]. rewrite Hm3, Hm2. done.
Qed.

Lemma table_entry_ok act hm e add st p :
  type act = PF_TYPE -> names_ok act -> pfaddr hm (addr e) = Ok (Some p) ->
  exists st', table_entry act hm e add st = Ok (0, st') /\
    changed add (default "" (tablename act)) (default "" (anchor act)) p st st'.
Proof.
  intros Ht [Hn Ha] Hp. unfold table_entry, pf_tableentry. rewrite Ht, Hn, Ha. cbn [orb]. rewrite Hp. cbn [mbind outcome_bind].
  destruct (pf_retry_ok 2 add (default "" (tablename act)) (anchor act) p st Hn Ha) as (st' & -> & Hc). eauto.
Qed.

(** The sweep of the table: the new addresses are added, the old ones are deleted, nothing else
    changes.  [f] gives the entry of an address. *)
Definition has_new (f : sockaddr -> pfr_addr) (l : addr_list) (x : pfr_addr) : Prop :=
  Exists (fun e => ADDR_NEW e = true /\ f (addr e) = x) l.
Definition no_old (f : sockaddr -> pfr_addr) (l : addr_list) (x : pfr_addr) : Prop :=
  Forall (fun e => ADDR_OLD e = true -> f (addr e) <> x) l.

Record sweepable (hm : masks) (f : sockaddr -> pfr_addr) (l : addr_list) : Prop := {
  sw_nodup : NoDup (map f (addrs l));
  sw_entry : Forall (fun e => pfaddr hm (addr e) = Ok (Some (f (addr e)))) l;
  sw_flags : Forall (fun e => ADDR_NEW e = true -> ADDR_OLD e = false) l
}.

Lemma sweepable_cons hm f e l : sweepable hm f (e :: l) ->
  sweepable hm f l /\ pfaddr hm (addr e) = Ok (Some (f (addr e))) /\ (ADDR_NEW e = true -> ADDR_OLD e = false) /\
  ~ has_new f l (f (addr e)) /\ no_old f l (f (addr e)).
Proof.
  intros [H1 H2 H3]. apply Forall_cons_1 in H2 as [H2 H2']. apply Forall_cons_1 in H3 as [H3 H3'].
  simpl in H1. apply NoDup_cons_1_1 in H1 as Hn. apply NoDup_cons_1_2 in H1.
  assert (Hne : forall e', e' ∈ l -> f (addr e') <> f (addr e)).
  { intros e' He' E. apply Hn. rewrite <- E. do 2 apply list_elem_of_fmap_2. done. }
  split; [done|]. split; [done|]. split; [done|]. split.
  - intros (e' & He' & _ & E)%Exists_exists. apply list_elem_of_In in He'. by apply (Hne e').
  - apply List.Forall_forall. intros e' He' _. apply Hne. by apply list_elem_of_In.
Qed.

Lemma table_sweep_ok act hm f l : forall error st,
  type act = PF_TYPE -> names_ok act -> sweepable hm f l ->
  exists error' st', table_sweep act hm l error st = Ok ((sweep l 0).1, error', st') /\
    (forall x, mem st' (default "" (tablename act)) (default "" (anchor act)) x <->
       has_new f l x \/ (mem st (default "" (tablename act)) (default "" (anchor act)) x /\ no_old f l x)) /\
    (forall n an x, (n, an) <> (default "" (tablename act), default "" (anchor act)) -> mem st' n an x <-> mem st n an x).
Proof.
  unfold has_new, no_old. induction l as [|e l IH]; intros error st Ht Hn Hs.
  - exists error, st. split; [done|]. split; [|done]. intros x. rewrite Exists_nil. intuition.
  - apply sweepable_cons in Hs as (Hs & Hp & Hfl & Hnn & Hno).
    rewrite sweep_spec in IH |- *. rewrite filter_cons. unfold has_new, no_old in *.
    destruct e as [a nw od stt]; cbn [ADDR_NEW ADDR_OLD addr] in *.
    setoid_rewrite Exists_cons. setoid_rewrite List.Forall_cons_iff. cbn [ADDR_NEW ADDR_OLD addr].
    destruct nw; [rewrite Hfl by done; clear Hfl od | destruct od]; cbn [table_sweep ADDR_NEW ADDR_OLD clear_new].
    + destruct (table_entry_ok act hm (Build_addr_entry a true false stt) true st (f a) Ht Hn Hp) as (st1 & E1 & Hc).
      unfold table_add. rewrite E1. cbn [mbind outcome_bind ADDR_OLD].
      destruct (IH 0 st1 Ht Hn Hs) as (error' & st' & -> & Hm & Ho). exists error', st'. split; [done|]. split.
      * intros x. rewrite Hm, (Hc _ _ x). clear Hm Ho Hc IH.
        assert (Hx : (default "" (tablename act), default "" (anchor act), x)
          = (default "" (tablename act), default "" (anchor act), f a) <-> f a = x) by (split; congruence).
        rewrite Hx. intuition (subst; auto; discriminate).
      * intros n an x Hne. rewrite Ho, (Hc n an x) by done. intuition congruence.
    + destruct (table_entry_ok act hm (Build_addr_entry a false true stt) false st (f a) Ht Hn Hp) as (st1 & E1 & Hc).
      cbn [mbind outcome_bind ADDR_OLD]. unfold table_del. rewrite E1. cbn [mbind outcome_bind].
      destruct (IH 0 st1 Ht Hn Hs) as (error' & st' & -> & Hm & Ho). exists error', st'. split; [done|]. split.
      * intros x. rewrite Hm, (Hc _ _ x). clear Hm Ho Hc IH.
        assert (Hx : (default "" (tablename act), default "" (anchor act), x)
          <> (default "" (tablename act), default "" (anchor act), f a) <-> f a <> x) by (split; congruence).
        rewrite Hx. destruct (decide (f a = x)) as [<- |]; intuition (subst; auto; discriminate).
      * intros n an x Hne. rewrite Ho, (Hc n an x) by done. intuition congruence.
    + destruct (IH error st Ht Hn Hs) as (error' & st' & E & Hm & Ho). cbn [mbind outcome_bind] in *.
      cbn [ADDR_OLD]. rewrite E. exists error', st'. split; [done|]. split; [|done].
      intros x. rewrite Hm. intuition discriminate.
Qed.

Lemma copy_marked l src :
  settled l -> (forall e, e ∈ src -> sa_wf (addr e)) ->
  mid (addr_set l) (static_set l) (addr_set src) (copy_addrs (mark_old l) src).
Proof.
  intros Hl Hw. pose proof (copy_addrs_mid _ _ src ∅ _ (mark_old_mid l Hl) Hw) as Hm.
  by rewrite (right_id_L ∅ (∪)) in Hm.
Qed.

Lemma mid_sweepable hm f s t a l :
  mid s t a l ->
  (forall x, x ∈ s ∪ a -> pfaddr hm x = Ok (Some (f x))) ->
  (forall x y, x ∈ s ∪ a -> y ∈ s ∪ a -> f x = f y -> x = y) ->
  sweepable hm f l.
Proof.
  intros [H1 H2 H3 H4 H5 H6] Hf Hinj.
  assert (Hin : forall e, e ∈ l -> addr e ∈ s ∪ a) by (intros e He; rewrite <- H3; apply elem_of_addr_set; eauto).
  split.
  - clear -H1 Hin Hinj. unfold addrs in *. induction l as [|e l IH]; simpl in *; [by apply NoDup_nil_2|].
    apply NoDup_cons_1_1 in H1 as Hn. apply NoDup_cons_1_2 in H1. apply NoDup_cons_2.
    + intros (x & E & Hx)%list_elem_of_fmap_1. apply list_elem_of_fmap_1 in Hx as (e' & -> & He').
      apply Hinj in E; [|apply Hin; left|apply Hin; by right]. apply Hn. rewrite E. by apply list_elem_of_fmap_2.
    + apply IH; [done|]. intros e' He'. apply Hin. by right.
  - apply List.Forall_forall. intros e He%list_elem_of_In. auto.
  - apply List.Forall_forall. intros e He%list_elem_of_In Hnew. destruct (ADDR_OLD e) eqn:E; [|done].
    apply H4 in Hnew; [|done]. apply H5 in E; [|done]. tauto.
Qed.

Lemma mid_has_new f s t a l e :
  mid s t a l -> t ⊆ s -> has_new f l e <-> exists x, x ∈ (t ∪ a) ∖ s /\ f x = e.
Proof.
  intros [H1 H2 H3 H4 H5 H6] Hts. unfold has_new. rewrite Exists_exists. split.
  - intros (x & Hx%list_elem_of_In & Hnew & <-). apply H4 in Hnew; [|done]. exists (addr x). split; [|done].
    assert (Hin : addr x ∈ s ∪ a) by (rewrite <- H3; apply elem_of_addr_set; eauto). clear -Hin Hnew. set_solver.
  - intros (x & Hx & <-). assert (Hin : x ∈ addr_set l) by (rewrite H3; clear -Hx Hts; set_solver).
    apply elem_of_addr_set in Hin as (y & Hy & <-). exists y. split; [by apply list_elem_of_In|]. split; [|done].
    apply H4; [done|]. clear -Hx. set_solver.
Qed.

Lemma mid_no_old f s t a l e :
  mid s t a l -> no_old f l e <-> ~ exists x, x ∈ s ∖ (t ∪ a) /\ f x = e.
Proof.
  intros [H1 H2 H3 H4 H5 H6]. unfold no_old. rewrite List.Forall_forall. split.
  - intros Hall (x & Hx & <-). assert (Hin : x ∈ addr_set l) by (rewrite H3; clear -Hx; set_solver).
    apply elem_of_addr_set in Hin as (y & Hy & <-). apply (Hall y); [by apply list_elem_of_In| |done].
    apply H5; [done|]. clear -Hx. set_solver.
  - intros Hno x Hx%list_elem_of_In Ho <-. apply H5 in Ho; [|done]. apply Hno. exists (addr x). split; [|done].
    clear -Ho. set_solver.
Qed.

Lemma table_update_set act hm f st :
  type act = PF_TYPE -> names_ok act -> settled (tbl_rnh act) ->
  (forall e, e ∈ act_rnh act -> sa_wf (addr e)) ->
  (forall x, x ∈ addr_set (tbl_rnh act) ∪ addr_set (act_rnh act) -> pfaddr hm x = Ok (Some (f x))) ->
  (forall x y, x ∈ addr_set (tbl_rnh act) ∪ addr_set (act_rnh act) ->
     y ∈ addr_set (tbl_rnh act) ∪ addr_set (act_rnh act) -> f x = f y -> x = y) ->
  (forall x, x ∈ addr_set (tbl_rnh act) -> mem st (default "" (tablename act)) (default "" (anchor act)) (f x)) ->
  exists l error st',
    table_update act hm st = Ok (with_tbl act l, error, st') /\ settled l /\
    addr_set l = static_set (tbl_rnh act) ∪ addr_set (act_rnh act) /\
    (forall e, mem st' (default "" (tablename act)) (default "" (anchor act)) e <->
       (exists x, x ∈ addr_set l /\ f x = e) \/
       (mem st (default "" (tablename act)) (default "" (anchor act)) e /\
        ~ exists x, x ∈ addr_set (tbl_rnh act) /\ f x = e)) /\
    (forall n an e, (n, an) <> (default "" (tablename act), default "" (anchor act)) -> mem st' n an e <-> mem st n an e).
Proof.
  intros Ht Hn Hs Hw Hf Hinj Hown. set (s := addr_set (tbl_rnh act)) in *. set (a := addr_set (act_rnh act)) in *.
  pose proof (copy_marked _ _ Hs Hw) as Hm. fold s a in Hm. set (t := static_set (tbl_rnh act)) in *.
  assert (Hts : t ⊆ s) by apply static_subset.
  set (l0 := copy_addrs (mark_old (tbl_rnh act)) (act_rnh act)) in *.
  destruct (table_sweep_ok act hm f l0 0 st Ht Hn (mid_sweepable hm f s t a l0 Hm Hf Hinj)) as (er & st' & E & H1 & H2).
  pose proof (sweep_mid s t a l0 Hm Hts) as Hsw. destruct (sweep l0 0) as [l n]. cbn [fst] in E.
  destruct Hsw as (Hl & Hset & _). exists l, er, st'. unfold table_update. fold l0. rewrite E.
  split; [done|]. split; [done|]. split; [done|]. split; [|done].
  intros e. rewrite H1, Hset, (mid_has_new f s t a), (mid_no_old f s t a) by done. split.
  - intros [(x & Hx & <-)|[Hx Hno]]; [left; exists x; split; [|done]; clear -Hx; set_solver|].
    destruct (decide (set_Exists (fun x => f x = e) s)) as [(x & Hxs & Hxe)|Hnone]; [|by right].
    left. exists x. split; [|done]. destruct (decide (x ∈ t ∪ a)) as [|Hxn]; [done|]. exfalso. apply Hno.
    exists x. split; [|done]. clear -Hxs Hxn. set_solver.
  - intros [(x & Hx & <-)|[Hx Hno]].
    + destruct (decide (x ∈ s)) as [Hxs|Hxs]; [right|left; exists x; split; [|done]; clear -Hx Hxs; set_solver].
      split; [by apply Hown|]. intros (y & Hy & E'). apply elem_of_difference in Hy as [Hys Hyn].
      apply Hinj in E'; [by subst y | clear -Hys; set_solver | clear -Hxs; set_solver].
    + right. split; [done|]. intros (y & Hy & Hye). apply Hno. exists y. split; [|done]. clear -Hy. set_solver.
Qed.

(** C4. Updating a table implements the update of a set.  With a kernel that does what pf(4) promises
    and does not fail, and entries that differ for different addresses, [table_update] leaves in the
    list of the action its static addresses and those the action has now, and in the pf table
    exactly the entries of this list together with whatever others had put there: entries of
    addresses that are gone are deleted, no other table is touched. *)
Theorem table_update_refines act hm f st :
  type act = PF_TYPE -> names_ok act -> settled (tbl_rnh act) ->
  (forall e, e ∈ act_rnh act -> sa_wf (addr e)) ->
  (forall x, x ∈ addr_set (tbl_rnh act) ∪ addr_set (act_rnh act) -> pfaddr hm x = Ok (Some (f x))) ->
  (forall x y, x ∈ addr_set (tbl_rnh act) ∪ addr_set (act_rnh act) ->
     y ∈ addr_set (tbl_rnh act) ∪ addr_set (act_rnh act) -> f x = f y -> x = y) ->
  (forall x, x ∈ addr_set (tbl_rnh act) -> mem st (default "" (tablename act)) (default "" (anchor act)) (f x)) ->
  exists l error st',
    table_update act hm st = Ok (with_tbl act l, error, st') /\ settled l /\
    addr_set l = static_set (tbl_rnh act) ∪ addr_set (act_rnh act) /\
    (forall e, mem st' (default "" (tablename act)) (default "" (anchor act)) e <->
       (exists x, x ∈ addr_set l /\ f x = e) \/
       (mem st (default "" (tablename act)) (default "" (anchor act)) e /\
        ~ exists x, x ∈ addr_set (tbl_rnh act) /\ f x = e)) /\
    (forall n an e, (n, an) <> (default "" (tablename act), default "" (anchor act)) -> mem st' n an e <-> mem st n an e).
Proof. apply table_update_set. Qed.

(** A table that is up to date is left alone: no request is made, so that an address whose insertion
    failed is not tried again as long as it stays. *)
Lemma table_sweep_idle act hm l st :
  (forall e, e ∈ l -> ADDR_NEW e = false /\ ADDR_OLD e = false) ->
  forall error, table_sweep act hm l error st = Ok (l, error, st).
Proof.
  induction l as [|e l IH]; intros Hl error; [done|]. cbn [table_sweep].
  destruct (Hl e) as [-> Ho]; [left|]. cbn [mbind outcome_bind]. rewrite Ho.
  rewrite IH; [done|]. intros; apply Hl; by right.
Qed.

End refinement.

(** ** A kernel *)

Module Demo.

(** Tables as a list of their members; the other requests do nothing. *)
Definition demo_syscall (r : request) (k : list (string * string * pfr_addr)) : reply * list (string * string * pfr_addr) :=
  match r with
  | DIOCRADDADDRS n an a => (Done false 0, (n, an, a) :: k)
  | DIOCRDELADDRS n an a => (Done false 0, filter (fun x => x <> (n, an, a)) k)
  | _ => (Done false IPFW_TABLE_ADDR, k)
  end.

#[export] Instance demo_kernel : Kernel := {|
  kstate := list (string * string * pfr_addr);
  open_pf k := (inl 3, k);
  socket_ipfw k := (inl 4, k);
  syscall := demo_syscall
|}.

#[export] Instance demo_tables : PfTables.
Proof.
  refine {| member := fun k n an x => (n, an, x) ∈ (k : list (string * string * pfr_addr)) |}.
  - intros k. by exists 3, k.
  - intros n0 an0 k. by exists false, IPFW_TABLE_ADDR, k.
  - intros n0 an0 a k. exists false, 0, ((n0, an0, a) :: k). split; [done|].
    intros n an x. by rewrite elem_of_cons.
  - intros n0 an0 a k. exists false, 0, (filter (fun x => x <> (n0, an0, a)) k). split; [done|].
    intros n an x. by rewrite list_elem_of_filter.
Defined.

Definition sin (a b c d : Z) : sockaddr := [16; AF_INET; 0; 0; a; b; c; d; 0; 0; 0; 0; 0; 0; 0; 0].
Definition entry_of (a : sockaddr) : pfr_addr := {| pfra_af := AF_INET; pfra_net := 32; pfra_u := sin_addr a |}.
Definition plain (a : sockaddr) : addr_entry := {| addr := a; ADDR_NEW := false; ADDR_OLD := false; ADDR_STATIC := false |}.

(** The table holds 10.0.0.1 and 10.0.0.2; the name now resolves to 10.0.0.2 and 10.0.0.3. *)
Definition demo_act : action :=
  {| act_id := 0; host := Some 0%nat; tbl_rnh := [plain (sin 10 0 0 1); plain (sin 10 0 0 2)];
     act_rnh := [plain (sin 10 0 0 2); plain (sin 10 0 0 3)]; ACT_FORCE := false; type := PF_TYPE;
     tablename := Some "hosts"; anchor := None; pipe := 0; cmd := None; act_hostname := "example.org";
     act_state := THR_RUNNING; act_sem := 0 |}.
Definition demo_sys : sys :=
  {| dev := -1; sock := -1;
     kern := [("hosts", "", entry_of (sin 10 0 0 1)); ("hosts", "", entry_of (sin 10 0 0 2));
              ("hosts", "", entry_of (sin 10 0 0 9))] |}.

Lemma demo_settled : settled (tbl_rnh demo_act).
Proof.
  split.
  - vm_compute. apply NoDup_cons_2; [|apply NoDup_singleton]. intros H%list_elem_of_singleton. discriminate H.
  - intros e [-> |[-> |H%elem_of_nil]%elem_of_cons]%elem_of_cons; [reflexivity..|destruct H].
  - intros e [-> |[-> |H%elem_of_nil]%elem_of_cons]%elem_of_cons; [split; reflexivity..|destruct H].
Qed.

Lemma demo_wf e : e ∈ act_rnh demo_act -> sa_wf (addr e).
Proof. intros [-> |[-> |H%elem_of_nil]%elem_of_cons]%elem_of_cons; [reflexivity..|destruct H]. Qed.

End Demo.

Import Demo.

Lemma table_update_refines_witness : exists l error st',
  table_update demo_act None demo_sys = Ok (with_tbl demo_act l, error, st') /\ settled l /\
  addr_set l = static_set (tbl_rnh demo_act) ∪ addr_set (act_rnh demo_act).
Proof.
  edestruct (table_update_refines demo_act None entry_of demo_sys) as (l & er & st' & H1 & H2 & H3 & _).
  - reflexivity.
  - split; reflexivity.
  - exact demo_settled.
  - exact demo_wf.
  - intros x Hx. unfold demo_act, addr_set, addrs, plain in Hx. cbn in Hx.
    rewrite !elem_of_union, !elem_of_singleton, !elem_of_empty in Hx. destruct Hx as [[->|[->|[]]]|[->|[->|[]]]]; reflexivity.
  - intros x y Hx Hy E. unfold demo_act, addr_set, addrs, plain in Hx, Hy. cbn in Hx, Hy.
    rewrite !elem_of_union, !elem_of_singleton, !elem_of_empty in Hx, Hy.
    destruct Hx as [[->|[->|[]]]|[->|[->|[]]]], Hy as [[->|[->|[]]]|[->|[->|[]]]];
      (reflexivity || discriminate E).
  - intros x Hx. unfold demo_act, addr_set, addrs, plain in Hx. cbn in Hx.
    rewrite !elem_of_union, !elem_of_singleton, !elem_of_empty in Hx. cbn.
    destruct Hx as [->|[->|[]]]; [left | right; left].
  - exists l, er, st'. auto.
Defined.


(** ** Requests that fail *)

(** The list after an update does not depend on what the kernel answered. *)
Lemma table_sweep_list `{Kernel} act hm l : forall error st l' error' st',
  table_sweep act hm l error st = Ok (l', error', st') -> l' = (sweep l 0).1.
Proof.
  induction l as [|e l IH]; intros error st l' error' st' E; [by simplify_eq/=|].
  rewrite sweep_spec in IH |- *. rewrite filter_cons. destruct e as [a nw od stt]. cbn [table_sweep ADDR_NEW ADDR_OLD] in *.
  destruct nw; cbn [mbind outcome_bind] in E.
  - destruct (table_add _ _ _ _) as [[er1 st1]|]; [|done]. cbn [mbind outcome_bind ADDR_OLD clear_new ADDR_NEW] in E.
    destruct od; cbn [mbind outcome_bind] in E.
    + destruct (table_del _ _ _ _) as [[er2 st2]|]; [|done]. cbn [mbind outcome_bind] in E. by apply IH in E.
    + destruct (table_sweep _ _ _ _ _) as [[[l1 er2] st2]|] eqn:E2; [|done]. apply IH in E2. by simplify_eq/=.
  - cbn [ADDR_OLD] in E. destruct od; cbn [mbind outcome_bind] in E.
    + destruct (table_del _ _ _ _) as [[er2 st2]|]; [|done]. cbn [mbind outcome_bind] in E. by apply IH in E.
    + destruct (table_sweep _ _ _ _ _) as [[[l1 er2] st2]|] eqn:E2; [|done]. apply IH in E2. by simplify_eq/=.
Qed.

(** An address whose insertion failed is forgotten: whatever the kernel answers, an update that
    finds the same addresses again makes no request at all and reports success. *)
Theorem failed_add_not_retried `{Kernel} act hm st act' error st' :
  settled (tbl_rnh act) -> (forall e, e ∈ act_rnh act -> sa_wf (addr e)) ->
  table_update act hm st = Ok (act', error, st') ->
  table_update act' hm st' = Ok (act', 0, st').
Proof.
  intros Hs Hw E. unfold table_update in E.
  destruct (table_sweep _ _ _ _ _) as [[[l er] s1]|] eqn:E1; [|done]. cbn [mbind outcome_bind] in E. simplify_eq.
  apply table_sweep_list in E1. pose proof (refresh_spec _ _ Hs Hw) as Hr. unfold refresh in Hr.
  destruct (sweep _ 0) as [l' n]. cbn [fst] in E1. subst l'. destruct Hr as (H1 & H2 & H3 & _).
  unfold table_update. cbn [tbl_rnh with_tbl act_rnh].
  rewrite copy_settled; [| done | done | rewrite H2; clear; set_solver | rewrite H2; clear -H3; set_solver].
  rewrite table_sweep_idle by apply H1. done.
Qed.

(** The demonstration kernel, except that it refuses every insertion. *)
Definition full_kernel : Kernel := {|
  kstate := unit;
  open_pf k := (inl 3, k);
  socket_ipfw k := (inl 4, k);
  syscall r k := (match r with DIOCRADDADDRS _ _ _ => Error 12 | _ => Done false 0 end, k)
|}.

Definition full_sys : @sys full_kernel := @Build_sys full_kernel (-1) (-1) tt.

Lemma failed_add_not_retried_witness : exists act' st',
  @table_update full_kernel (with_tbl demo_act []) None full_sys = Ok (act', 12, st') /\
  @table_update full_kernel act' None st' = Ok (act', 0, st').
Proof.
  eexists _, _. split; [vm_compute; reflexivity|].
  refine (@failed_add_not_retried full_kernel (with_tbl demo_act []) None full_sys _ 12 _ _ _ _);
    [| exact demo_wf | vm_compute; reflexivity].
  split; [apply NoDup_nil_2 | intros e H%elem_of_nil; destruct H ..].
Defined.

Lemma set_ipmask_prefix_witness : exists r, set_ipmask (repeat 255 16) 20 = Ok r /\ length r = 16%nat.
Proof.
  destruct (set_ipmask_prefix (repeat 255 16) 20 eq_refl) as [H _].
  destruct H as (r & E & L & _); [lia|]. eauto.
Defined.
