(* ===== verification/Fdns.v ===== *)
(** filterdns, filterdns.c and the rules of parse.y: hosts and actions, reading and merging the
    configuration, and the rounds of the threads that resolve names and update tables. *)
From Stdlib Require Import ZArith Lia Ascii String.
From stdpp Require Import base list gmap sets fin_sets strings numbers.
From S2P Require Import Prelude CProg FdAddr FdTables.
Open Scope string_scope.
Open Scope list_scope.
Open Scope Z_scope.

(** ** Library functions *)

Definition tolower (c : ascii) : ascii :=
  if (65 <=? ascii_val c) && (ascii_val c <=? 90) then ascii_of_Z (ascii_val c + 32) else c.
Fixpoint lower (s : string) : string :=
  match s with "" => "" | String c s => String (tolower c) (lower s) end.

(** [strcasecmp(a, b) == 0] and [strncasecmp(a, b, n) == 0] *)
Definition strcaseeq (a b : string) : bool := String.eqb (lower a) (lower b).
Definition strncaseeq (a b : string) (n : nat) : bool := String.eqb (str_take n (lower a)) (str_take n (lower b)).

(** [strchr], as an offset. *)
Fixpoint strchr (s : string) (c : ascii) : option nat :=
  match s with
  | "" => None
  | String d s => if Ascii.eqb d c then Some O else S <$> strchr s c
  end.

Lemma strchr_app a b c : has_char c a = false -> strchr (a +:+ String c b) c = Some (String.length a).
Proof.
  induction a as [|d a IH]; simpl; intros Hn; [by rewrite Ascii.eqb_refl|].
  apply orb_false_iff in Hn as [Hd Ha]. rewrite IH by done.
  destruct (Ascii.eqb_spec d c) as [-> |]; [by rewrite Ascii.eqb_refl in Hd | done].
Qed.

(** [strrchr]: what is before the last [c] and what is after it. *)
Fixpoint strrchr (s : string) (c : ascii) : option (string * string) :=
  match s with
  | "" => None
  | String d s =>
      match strrchr s c with
      | Some (p, q) => Some (String d p, q)
      | None => if Ascii.eqb d c then Some ("", s) else None
      end
  end.

Lemma strrchr_none s c : has_char c s = false -> strrchr s c = None.
Proof.
  induction s as [|d s IH]; [done|]. cbn [has_char strrchr]. intros [H1 H2]%orb_false_iff. rewrite IH by done.
  destruct (Ascii.eqb_spec d c); [|done]. subst. by rewrite ?Ascii.eqb_refl in H1.
Qed.
Lemma strrchr_app a b c : has_char c b = false -> strrchr (a +:+ String c b) c = Some (a, b).
Proof.
  intros Hb. induction a as [|d a IH]; cbn [strrchr String.append].
  - rewrite strrchr_none by done. by rewrite Ascii.eqb_refl.
  - by rewrite IH.
Qed.

(** The value of a digit, in any base up to 16. *)
Definition xdigit (c : ascii) : option Z :=
  let v := ascii_val (tolower c) in
  if is_digit c then Some (digit_val c)
  else if (97 <=? v) && (v <=? 102) then Some (v - 87)
  else None.

Fixpoint base_value (base acc : Z) (s : string) : Z * string :=
  match s with
  | "" => (acc, "")
  | String c r =>
      match xdigit c with
      | Some d => if d <? base then base_value base (acc * base + d) r else (acc, s)
      | None => (acc, s)
      end
  end.

Definition is_base_digit (base : Z) (s : string) : bool :=
  match s with String c _ => match xdigit c with Some d => d <? base | None => false end | _ => false end.

(** The sign, the digits in the base that their prefix gives, and the rest; [None] when there is no
    digit. *)
Definition scan_base (s : string) : option (bool * Z * string) :=
  let r := skip_space s in
  let '(neg, r) := match r with String "-" r => (true, r) | String "+" r => (false, r) | _ => (false, r) end in
  let '(base, r) :=
    match r with
    | String "0" (String x r') =>
        if (Ascii.eqb x "x" || Ascii.eqb x "X") && is_base_digit 16 r' then (16, r') else (8, r)
    | String "0" _ => (8, r)
    | _ => (10, r)
    end in
  if negb (is_base_digit base r) then None
  else let '(v, q) := base_value base 0 r in Some (neg, v, q).

(** [strtol(s, &q, 0)]: the value, saturated, and the rest at [q]; [None] when no digit was found and
    [q] is [s]. *)
Definition strtol0 (s : string) : option (Z * string) :=
  '(neg, v, q) ← scan_base s;
  Some (if neg : bool then Z.max (- v) (- 2 ^ 63) else Z.min v LONG_MAX, q).

(** ** Hosts and actions *)

(** [struct thread_host].  [th_id] stands for its address, [actions] for the list of its actions, [th_sem]
    for the value of the semaphore.  [refcnt] is not reduced modulo 2^32: it counts structures in
    memory. *)
Record thread_host : Type := {
  th_id : nat;
  rnh : addr_list;
  hostname : string;
  mask : Z;
  mask6 : Z;
  th_sem : Z;
  refcnt : Z;
  th_state : thr_state;
  actions : list nat
}.

Definition action_to_string (ty : action_type) : string :=
  match ty with PF_TYPE => "pf" | IPFW_TYPE => "ipfw" | CMD_TYPE => "cmd" end.

(** Assignments to the members of an action. *)
Definition with_host (h : option nat) (a : action) : action :=
  {| act_id := act_id a; host := h; tbl_rnh := tbl_rnh a; act_rnh := act_rnh a; ACT_FORCE := ACT_FORCE a;
     type := type a; tablename := tablename a; anchor := anchor a; pipe := pipe a; cmd := cmd a;
     act_hostname := act_hostname a; act_state := act_state a; act_sem := act_sem a |}.
Definition with_act_rnh (l : addr_list) (a : action) : action :=
  {| act_id := act_id a; host := host a; tbl_rnh := tbl_rnh a; act_rnh := l; ACT_FORCE := ACT_FORCE a;
     type := type a; tablename := tablename a; anchor := anchor a; pipe := pipe a; cmd := cmd a;
     act_hostname := act_hostname a; act_state := act_state a; act_sem := act_sem a |}.
(** [flags], [state] and [sem]. *)
Definition with_thread (force : bool) (st : thr_state) (sem : Z) (a : action) : action :=
  {| act_id := act_id a; host := host a; tbl_rnh := tbl_rnh a; act_rnh := act_rnh a; ACT_FORCE := force;
     type := type a; tablename := tablename a; anchor := anchor a; pipe := pipe a; cmd := cmd a;
     act_hostname := act_hostname a; act_state := st; act_sem := sem |}.

Definition act_post (a : action) : action := with_thread (ACT_FORCE a) (act_state a) (act_sem a + 1) a.

(** Assignments to the members of a host. *)
Definition with_refs (n : Z) (l : list nat) (t : thread_host) : thread_host :=
  {| th_id := th_id t; rnh := rnh t; hostname := hostname t; mask := mask t; mask6 := mask6 t; th_sem := th_sem t;
     refcnt := n; th_state := th_state t; actions := l |}.
Definition with_rnh (l : addr_list) (t : thread_host) : thread_host :=
  {| th_id := th_id t; rnh := l; hostname := hostname t; mask := mask t; mask6 := mask6 t; th_sem := th_sem t;
     refcnt := refcnt t; th_state := th_state t; actions := actions t |}.
Definition with_run (st : thr_state) (sem : Z) (t : thread_host) : thread_host :=
  {| th_id := th_id t; rnh := rnh t; hostname := hostname t; mask := mask t; mask6 := mask6 t; th_sem := sem;
     refcnt := refcnt t; th_state := st; actions := actions t |}.
Definition with_mask (m : Z) (t : thread_host) : thread_host :=
  {| th_id := th_id t; rnh := rnh t; hostname := hostname t; mask := m; mask6 := mask6 t; th_sem := th_sem t;
     refcnt := refcnt t; th_state := th_state t; actions := actions t |}.

Definition th_post (t : thread_host) : thread_host := with_run (th_state t) (th_sem t + 1) t.

(** *** Adding *)

(** The comparison of [action_add]. *)
Definition same_config (ty : action_type) (hn tn an : option string) (pp : Z) (cm : option string) (s : action) : bool :=
  bool_decide (type s = ty) && (pipe s =? pp) && bool_decide (tablename s = tn) && bool_decide (anchor s = an)
  && bool_decide (cmd s = cm)
  && match hn with
     | None => bool_decide (host s = None)
     | Some hn => negb (bool_decide (host s = None)) && String.eqb (act_hostname s) hn
     end.

Inductive added : Type :=
  | Exists_already (id : nat)
  | No_hostname
  | Added (a : action).

(** [action_add]; the new action is appended to [action_list]. *)
Definition action_add (ty : action_type) (hn tn an : option string) (pp : Z) (cm : option string)
    (fresh : nat) (action_list : list action) : added :=
  match List.find (same_config ty hn tn an pp cm) action_list, hn with
  | Some s, _ => Exists_already (act_id s)
  | None, None => No_hostname
  | None, Some hn =>
      Added {| act_id := fresh; host := None; tbl_rnh := []; act_rnh := []; ACT_FORCE := false; type := ty;
               tablename := tn; anchor := an; pipe := pp; cmd := cm; act_hostname := hn;
               act_state := THR_STOPPED; act_sem := 0 |}
  end.

(** The comparison of [host_add]. *)
Definition same_host (hn : string) (search : thread_host) : bool :=
  match strchr hn "/" with
  | Some (S _ as len) => strncaseeq (hostname search) hn len
  | _ => strcaseeq (hostname search) hn
  end.

(** The name and the mask of a new host, [None] for an invalid mask. *)
Definition split_mask (hn : string) : option (string * Z) :=
  match strrchr hn "/" with
  | None => Some (hn, -1)
  | Some (name, m) =>
      match strtol0 m with
      | Some (v, "") => if 128 <? i32 v then None else Some (name, i32 v)
      | _ => None
      end
  end.

(** The host is the first that compares equal, with the action appended. *)
Fixpoint host_find (id : nat) (hn : string) (threads : list thread_host) : option (nat * list thread_host) :=
  match threads with
  | [] => None
  | t :: threads =>
      if same_host hn t then Some (th_id t, with_refs (refcnt t + 1) (actions t ++ [id]) t :: threads)
      else '(h, threads) ← host_find id hn threads; Some (h, t :: threads)
  end.

Definition host_add (a : action) (fresh : nat) (threads : list thread_host) : option (nat * list thread_host) :=
  match host_find (act_id a) (act_hostname a) threads with
  | Some r => Some r
  | None =>
      '(name, m) ← split_mask (act_hostname a);
      Some (fresh, threads ++ [{| th_id := fresh; rnh := []; hostname := name; mask := m; mask6 := m; th_sem := 0;
                                  refcnt := 1; th_state := THR_STOPPED; actions := [act_id a] |}])
  end.

(** *** Deleting *)

(** [TAILQ_REMOVE(&thr->actions, act, next_actions)] *)
Definition remove_id (id : nat) (l : list nat) : list nat := filter (fun x => x <> id) l.

(** [host_del].  The thread of the action, if there is one, ends between the post and the wait. *)
Definition host_del (a : action) (threads : list thread_host) : list thread_host :=
  map (fun t => if bool_decide (host a = Some (th_id t))
                then th_post (with_refs (refcnt t - 1) (remove_id (act_id a) (actions t)) t) else t) threads.

Section config.
Context `{Kernel}.

(** [action_del], without the removal from the list the action is in.  The table is cleaned when the
    action has no host any more. *)
Definition action_del (a : action) (threads : list thread_host) (st : sys) : outcome (list thread_host * sys) :=
  let threads := host_del a threads in
  '(_, _, st) ← table_cleanup a None st;
  Ok (threads, st).

Fixpoint clear_config (l : list action) (threads : list thread_host) (st : sys) : outcome (list thread_host * sys) :=
  match l with
  | [] => Ok (threads, st)
  | a :: l => '(threads, st) ← action_del a threads st; clear_config l threads st
  end.

(** ** The configuration *)

(** A rule of the file: [ftype STRING STRING anchor pipe command], or [CMD STRING command]. *)
Inductive rule : Type :=
  | TableRule (ty : action_type) (hn tn : string) (an : option string) (pp : Z) (cm : option string)
  | CmdRule (hn : string) (cm : option string).

(** The lists while a configuration is read, and the number of errors. *)
Record lists : Type := { acts : list action; threads : list thread_host; fresh : nat; errors : nat }.

Definition one_error (l : lists) : lists :=
  {| acts := acts l; threads := threads l; fresh := fresh l; errors := S (errors l) |}.

(** What both rules do once they have passed their tests. *)
Definition add_rule (ty : action_type) (hn : string) (tn an : option string) (pp : Z) (cm : option string)
    (l : lists) : lists :=
  match action_add ty (Some hn) tn an pp cm (fresh l) (acts l) with
  | Exists_already _ | No_hostname => one_error l
  | Added a =>
      match host_add a (S (fresh l)) (threads l) with
      | None => one_error {| acts := acts l ++ [a]; threads := threads l; fresh := S (fresh l); errors := errors l |}
      | Some (h, threads) =>
          {| acts := acts l ++ [with_host (Some h) a]; threads := threads; fresh := S (S (fresh l)); errors := errors l |}
      end
  end.

Definition dnsrule (l : lists) (r : rule) : lists :=
  match r with
  | TableRule ty hn tn an pp cm =>
      if bool_decide (ty = CMD_TYPE) then one_error l
      else if negb (bool_decide (ty = PF_TYPE)) && negb (bool_decide (an = None)) then one_error l
      else add_rule ty hn (Some tn) an pp cm l
  | CmdRule hn cm =>
      match cm with
      | None => one_error l
      | Some cm => add_rule CMD_TYPE hn None None 0 (Some cm) l
      end
  end.

Definition parse_config (config : list rule) (l : lists) : lists := fold_left dnsrule config l.

(** ** The state of the daemon *)

Record fdns : Type := {
  action_list : list action;
  thread_list : list thread_host;
  next_id : nat;
  merge_started : bool;    (* whether the thread of [merge_config] runs *)
  merge_state : thr_state;
  merge_sem : Z;
  fsys : sys
}.

(** [action_create]: the thread starts with an empty semaphore. *)
Definition action_create (a : action) : action :=
  match act_state a with THR_STOPPED => with_thread true THR_STARTING 0 a | _ => a end.

Definition check_hostname_create (t : thread_host) : thread_host :=
  match th_state t with THR_STOPPED => with_run THR_STARTING 0 t | _ => t end.

(** What [main] does after its options: [None] when the configuration is refused. *)
Definition fd_init (config : list rule) (st : sys) : option fdns :=
  let l := parse_config config {| acts := []; threads := []; fresh := 0; errors := 0 |} in
  match errors l with
  | O => Some {| action_list := map action_create (acts l); thread_list := map check_hostname_create (threads l);
                 next_id := fresh l; merge_started := false; merge_state := THR_STARTING; merge_sem := 0; fsys := st |}
  | S _ => None
  end.

(** *** Merging a new configuration *)

(** The comparison of [merge_config]. *)
Definition same_merge (a t : action) : bool :=
  bool_decide (type t = type a) && String.eqb (act_hostname t) (act_hostname a)
  && bool_decide (tablename t = tablename a) && bool_decide (anchor t = anchor a).

(** The first action of [tmp_action_list] that compares equal, and the others. *)
Fixpoint take_old (a : action) (tmp : list action) : option (action * list action) :=
  match tmp with
  | [] => None
  | t :: tmp =>
      if same_merge a t then Some (t, tmp)
      else '(x, tmp) ← take_old a tmp; Some (x, t :: tmp)
  end.

(** The loop over [new_action_list]; the result is inserted at the head of [action_list]. *)
Fixpoint merge_loop (new tmp act_list : list action) (threads : list thread_host) (st : sys)
    : outcome (list action * list action * list thread_host * sys) :=
  match new with
  | [] => Ok (tmp, act_list, threads, st)
  | a :: new =>
      match take_old a tmp with
      | Some (old, tmp) =>
          '(threads, st) ← action_del a threads st;
          merge_loop new tmp (old :: act_list) threads st
      | None => merge_loop new tmp (a :: act_list) threads st
      end
  end.

(** "Make check_hostname() run." *)
Definition wake (t : thread_host) : thread_host :=
  match th_state t with THR_RUNNING | THR_STARTING => th_post t | _ => t end.

(** One reload, [None] when the new configuration is refused and the daemon exits. *)
Definition merge_config (config : list rule) (s : fdns) : outcome (option fdns) :=
  let l := parse_config config {| acts := []; threads := thread_list s; fresh := next_id s; errors := 0 |} in
  match errors l with
  | S _ => Ok None
  | O =>
      '(tmp, act_list, threads, st) ← merge_loop (acts l) (action_list s) [] (threads l) (fsys s);
      '(threads, st) ← clear_config tmp threads st;
      Ok (Some {| action_list := map action_create act_list; thread_list := map wake (map check_hostname_create threads);
                  next_id := fresh l; merge_started := merge_started s; merge_state := merge_state s;
                  merge_sem := merge_sem s - 1; fsys := st |})
  end.

(** The beginning of the thread of [merge_config]: whatever a signal has left in [merge_state] is
    overwritten. *)
Definition merge_start (s : fdns) : fdns :=
  {| action_list := action_list s; thread_list := thread_list s; next_id := next_id s; merge_started := true;
     merge_state := THR_RUNNING; merge_sem := merge_sem s; fsys := fsys s |}.

(** The end of [merge_config], after SIGTERM or SIGINT: every action is deleted before [exit(0)]. *)
Definition merge_exit (s : fdns) : outcome fdns :=
  '(threads, st) ← clear_config (action_list s) (thread_list s) (fsys s);
  Ok {| action_list := []; thread_list := threads; next_id := next_id s; merge_started := merge_started s;
        merge_state := merge_state s; merge_sem := merge_sem s - 1; fsys := st |}.

(** ** Rounds *)

(** *** Hosts *)

(** [struct sockaddr_in in] and [struct sockaddr_in6 in6] with the members that are not assigned as
    the stack had them. *)
Definition make_in (junk : list Z) (a : list Z) : sockaddr := [16; AF_INET] ++ take 2 junk ++ a ++ take 8 (drop 2 junk).
Definition make_in6 (junk : list Z) (a : list Z) : sockaddr := [28; AF_INET6] ++ take 6 junk ++ a ++ take 4 (drop 6 junk).

(** The beginning of [check_hostname]; [numeric6] is [is_ipaddrv6]. *)
Definition check_hostname_start (numeric6 : string -> option (list Z)) (junk : list Z) (t : thread_host) : thread_host :=
  let t :=
    match inet_pton (hostname t) with
    | Some a =>
        let t := if mask t =? -1 then with_mask 32 t else t in
        let t := if 32 <? mask t then with_mask 32 t else t in
        with_rnh (addr_add (rnh t) (make_in junk a) true) t
    | None =>
        match numeric6 (hostname t) with
        | Some a => with_rnh (addr_add (rnh t) (make_in6 junk a) true) t
        | None => t
        end
    end in
  with_run THR_RUNNING (th_sem t) t.

(** [host_dns]: the answer of [getaddrinfo] is the list of addresses, [None] for an error. *)
Definition host_dns (answer : option (list (option sockaddr))) (l : addr_list) : addr_list :=
  match answer with
  | None => l
  | Some res => fold_left (fun l a => match a with Some a => addr_add l a false | None => l end) res l
  end.

(** The body of the loop up to the wake-up of the actions. *)
Definition check_hostname_round (answer : option (list (option sockaddr))) (t : thread_host) : thread_host * Z :=
  let l := mark_old (rnh t) in
  let l := if mask t =? -1 then host_dns answer l else l in
  let '(l, update) := sweep l 0 in
  (with_rnh l t, update).

(** [sem_clockwait_np] returns with the semaphore decremented, or after the interval. *)
Definition sem_clockwait (t : thread_host) : thread_host :=
  with_run (th_state t) (if 0 <? th_sem t then th_sem t - 1 else th_sem t) t.

(** The loop over the actions of the host. *)
Definition wake_actions (ids : list nat) (update : Z) (l : list action) : list action :=
  map (fun a => if bool_decide (act_id a ∈ ids)
                then if (update =? 0) && negb (ACT_FORCE a) then a else act_post a
                else a) l.

(** *** Actions *)

Definition host_of (a : action) (threads : list thread_host) : option thread_host :=
  List.find (fun t => bool_decide (host a = Some (th_id t))) threads.

(** The body of the loop of [check_action] for an action whose host is [t]: the command that is run,
    if any. *)
Definition check_action_round (t : thread_host) (a : action) (st : sys) : outcome (action * option string * sys) :=
  let a := with_thread false (act_state a) (act_sem a - 1) a in
  let '(l, update) := refresh (act_rnh a) (rnh t) in
  let a := with_act_rnh l a in
  '(a, st) ←
    (if (0 <? update) && negb (bool_decide (tablename a = None)) then
       '(a, _, st) ← table_update a (Some (mask t, mask6 t)) st; Ok (a, st)
     else Ok (a, st));
  Ok (a, cmd a, st).

End config.

(** *** The daemon *)

(** The numeric form of IPv6 addresses ([getaddrinfo] with AI_NUMERICHOST). *)
Class Resolver : Type := {
  numeric6 : string -> option (list Z);
  numeric6_len s a : numeric6 s = Some a -> length a = 16%nat
}.

(** An answer of [getaddrinfo]: every address has the length it says. *)
Definition answer_wf (answer : option (list (option sockaddr))) : Prop :=
  forall l a, answer = Some l -> Some a ∈ l -> sa_wf a.

Section daemon.
Context `{Kernel} `{Resolver}.

Definition set_lists (al : list action) (tl : list thread_host) (st : sys) (s : fdns) : fdns :=
  {| action_list := al; thread_list := tl; next_id := next_id s; merge_started := merge_started s;
     merge_state := merge_state s; merge_sem := merge_sem s; fsys := st |}.

Definition at_thread (id : nat) (f : thread_host -> thread_host) (l : list thread_host) : list thread_host :=
  map (fun t => if bool_decide (th_id t = id) then f t else t) l.
Definition at_action (id : nat) (f : action -> action) (l : list action) : list action :=
  map (fun a => if bool_decide (act_id a = id) then f a else a) l.

Inductive signal : Type := SIGHUP | SIGINT | SIGTERM | OtherSignal.

Definition handle_signal (sig : signal) (s : fdns) : fdns :=
  let post m := {| action_list := action_list s; thread_list := thread_list s; next_id := next_id s;
                   merge_started := merge_started s; merge_state := m; merge_sem := merge_sem s + 1; fsys := fsys s |} in
  match sig with
  | SIGTERM | SIGINT => post THR_DYING
  | SIGHUP => post (merge_state s)
  | OtherSignal => s
  end.

(** [check_hostname] past [out]: the thread of the host has decided to end; then the host leaves the
    list.  The structure itself is never freed, so actions may still point to it. *)
Definition check_hostname_leave (t : thread_host) : thread_host := with_run THR_DYING (th_sem t) t.
Definition check_hostname_remove (id : nat) (l : list thread_host) : list thread_host := filter (fun x => th_id x <> id) l.

(** One step of a thread, with what the system answers.  A host whose lock is taken waits again; a
    host without actions decides to end, without the lock, and leaves the list in a later step: a
    reload that comes in between finds the host and attaches actions to it.  The body of a loop
    under the lock, from [pthread_rwlock_rdlock] to [pthread_rwlock_unlock], is one step: the rounds
    of a host and of its actions, which both take the lock for reading, do not overlap here. *)
Inductive step (s : fdns) : fdns -> Prop :=
  | step_host_start t junk :
      t ∈ thread_list s -> th_state t = THR_STARTING -> length junk = 10%nat ->
      step s (set_lists (action_list s) (at_thread (th_id t) (check_hostname_start numeric6 junk) (thread_list s)) (fsys s) s)
  | step_host_round t answer t' update :
      t ∈ thread_list s -> th_state t = THR_RUNNING -> refcnt t <> 0 -> answer_wf answer ->
      check_hostname_round answer t = (t', update) ->
      step s (set_lists (wake_actions (actions t) update (action_list s))
                (at_thread (th_id t) (fun _ => sem_clockwait t') (thread_list s)) (fsys s) s)
  | step_host_busy t :
      t ∈ thread_list s -> th_state t = THR_RUNNING -> refcnt t <> 0 ->
      step s (set_lists (action_list s) (at_thread (th_id t) sem_clockwait (thread_list s)) (fsys s) s)
  | step_host_leave t :
      t ∈ thread_list s -> th_state t = THR_RUNNING -> refcnt t = 0 ->
      step s (set_lists (action_list s) (at_thread (th_id t) check_hostname_leave (thread_list s)) (fsys s) s)
  | step_host_remove t :
      t ∈ thread_list s -> th_state t = THR_DYING ->
      step s (set_lists (action_list s) (check_hostname_remove (th_id t) (thread_list s)) (fsys s) s)
  | step_action_start a :
      a ∈ action_list s -> act_state a = THR_STARTING ->
      step s (set_lists (at_action (act_id a) (fun a => with_thread (ACT_FORCE a) THR_RUNNING (act_sem a) a) (action_list s))
                (thread_list s) (fsys s) s)
  | step_action_round a t a' ran st :
      a ∈ action_list s -> act_state a = THR_RUNNING -> 0 < act_sem a -> host_of a (thread_list s) = Some t ->
      check_action_round t a (fsys s) = Ok (a', ran, st) ->
      step s (set_lists (at_action (act_id a) (fun _ => a') (action_list s)) (thread_list s) st s)
  | step_signal sig : step s (handle_signal sig s)
  | step_merge_start : merge_started s = false -> step s (merge_start s)
  | step_merge config s' :
      merge_started s = true -> 0 < merge_sem s -> merge_state s <> THR_DYING -> merge_config config s = Ok (Some s') -> step s s'.

(** The two ends of the daemon, with the exit status and what they leave: [exit(0)] after SIGTERM or
    SIGINT, and [exit(10)] of a reload whose configuration is refused, which clears nothing. *)
Inductive ends (s : fdns) : Z -> sys -> Prop :=
  | ends_signal s' :
      merge_started s = true -> 0 < merge_sem s -> merge_state s = THR_DYING -> merge_exit s = Ok s' -> ends s 0 (fsys s')
  | ends_refused config :
      merge_started s = true -> 0 < merge_sem s -> merge_state s <> THR_DYING -> merge_config config s = Ok None ->
      ends s 10 (fsys s).

(** The states of a daemon that was started with a configuration it accepts. *)
Inductive reachable : fdns -> Prop :=
  | reachable_init config st s : fd_init config st = Some s -> reachable s
  | reachable_step s s' : reachable s -> step s s' -> reachable s'.

End daemon.

(** ** The invariant *)

(** *** Pointers: hosts and actions refer to each other, and the counters count *)

Record wired (pool : list action) (threads : list thread_host) (fresh : nat) : Prop := {
  w_acts : NoDup (map act_id pool);
  w_threads : NoDup (map th_id threads);
  w_act_fresh : forall a, a ∈ pool -> (act_id a < fresh)%nat;
  w_th_fresh : forall t, t ∈ threads -> (th_id t < fresh)%nat;
  w_host : forall a, a ∈ pool -> exists i, host a = Some i /\ (i < fresh)%nat;
  w_members : forall t i, t ∈ threads ->
    i ∈ actions t <-> exists a, a ∈ pool /\ act_id a = i /\ host a = Some (th_id t);
  w_nodup : forall t, t ∈ threads -> NoDup (actions t);
  w_refs : forall t, t ∈ threads -> refcnt t = Z.of_nat (length (actions t))
}.

(** *** Addresses *)

(** The list of a host between two rounds: only a static address can be new. *)
Record calm (l : addr_list) : Prop := {
  calm_nodup : NoDup (addrs l);
  calm_wf : forall e, e ∈ l -> sa_wf (addr e);
  calm_old : forall e, e ∈ l -> ADDR_OLD e = false;
  calm_new : forall e, e ∈ l -> ADDR_NEW e = true -> ADDR_STATIC e = true
}.

(** The table of an action has the addresses of the action. *)
Record act_ok (a : action) : Prop := {
  ok_rnh : settled (act_rnh a);
  ok_tbl : settled (tbl_rnh a);
  ok_static : static_set (tbl_rnh a) ⊆ static_set (act_rnh a);
  ok_same : tablename a <> None -> addr_set (tbl_rnh a) = addr_set (act_rnh a)
}.

Definition has_news (t : thread_host) : Prop := exists e, e ∈ rnh t /\ ADDR_NEW e = true.

(** An action has the addresses of its host, or it is going to be woken: its thread is not started
    yet, its semaphore is posted, it is forced, or its host has an address it has not announced. *)
Definition informed (a : action) (t : thread_host) : Prop :=
  act_state a = THR_STOPPED \/ 0 < act_sem a \/ ACT_FORCE a = true \/ has_news t \/
  addr_set (act_rnh a) = addr_set (rnh t).

Record data_ok (pool : list action) (threads : list thread_host) : Prop := {
  d_host : forall t, t ∈ threads -> calm (rnh t);
  d_act : forall a, a ∈ pool -> act_ok a;
  d_sem : forall a, a ∈ pool -> 0 <= act_sem a;
  d_pair : forall a t, a ∈ pool -> t ∈ threads -> host a = Some (th_id t) ->
    static_set (act_rnh a) ⊆ static_set (rnh t) /\ informed a t
}.

#[export] Instance wired_perm : Proper ((≡ₚ) ==> (=) ==> (=) ==> iff) wired.
Proof.
  assert (Hw : forall p p' ts n, p ≡ₚ p' -> wired p ts n -> wired p' ts n).
  { intros p p' ts n Hp [H1 H2 H3 H4 H5 H6 H7 H8]. split; try done.
    - by rewrite <- Hp.
    - intros a. rewrite <- Hp. auto.
    - intros a. rewrite <- Hp. auto.
    - intros t i Ht. rewrite H6 by done. split; intros (a & Ha & Hr); exists a; (split; [by rewrite Hp in * | done]). }
  intros p p' Hp ts ts' <- n n' <-. split; apply Hw; by rewrite Hp.
Qed.

#[export] Instance data_ok_perm : Proper ((≡ₚ) ==> (=) ==> iff) data_ok.
Proof.
  assert (Hw : forall p p' ts, p ≡ₚ p' -> data_ok p ts -> data_ok p' ts).
  { intros p p' ts Hp [H1 H2 H3 H4]. split; [done | intros a; rewrite <- Hp; auto .. | intros a t; rewrite <- Hp; auto]. }
  intros p p' Hp ts ts' <-. split; apply Hw; by rewrite Hp.
Qed.

(** *** Members that are replaced one by one *)

Lemma wired_map (f : action -> action) (g : thread_host -> thread_host) pool threads fresh :
  (forall a, a ∈ pool -> act_id (f a) = act_id a /\ host (f a) = host a) ->
  (forall t, t ∈ threads -> th_id (g t) = th_id t /\ refcnt (g t) = refcnt t /\ actions (g t) = actions t) ->
  wired pool threads fresh -> wired (map f pool) (map g threads) fresh.
Proof.
  intros Hf Hg [H1 H2 H3 H4 H5 H6 H7 H8].
  assert (Hin : forall a, a ∈ map f pool -> exists x, x ∈ pool /\ a = f x /\ act_id a = act_id x /\ host a = host x).
  { intros a (x & -> & Hx)%list_elem_of_fmap_1. destruct (Hf x Hx). eauto. }
  assert (Hit : forall t, t ∈ map g threads -> exists x, x ∈ threads /\ t = g x /\
    th_id t = th_id x /\ refcnt t = refcnt x /\ actions t = actions x).
  { intros t (x & -> & Hx)%list_elem_of_fmap_1. destruct (Hg x Hx) as (? & ? & ?). eauto 6. }
  split.
  - rewrite map_map. erewrite map_ext_in; [exact H1|]. intros a Ha%list_elem_of_In. by apply Hf.
  - rewrite map_map. erewrite map_ext_in; [exact H2|]. intros t Ht%list_elem_of_In. by apply Hg.
  - intros a (x & Hx & _ & -> & _)%Hin. auto.
  - intros t (x & Hx & _ & -> & _)%Hit. auto.
  - intros a (x & Hx & _ & _ & ->)%Hin. auto.
  - intros t i (y & Hy & -> & E1 & _ & E3)%Hit. rewrite E1, E3, H6 by done. split.
    + intros (a & Ha & <- & E). exists (f a). destruct (Hf a Ha) as [-> ->]. split; [by apply list_elem_of_fmap_2|done].
    + intros (a & (x & Hx & _ & -> & ->)%Hin & E & E'). eauto.
  - intros t (y & Hy & _ & _ & _ & ->)%Hit. auto.
  - intros t (y & Hy & _ & _ & -> & ->)%Hit. auto.
Qed.

Lemma data_map (f : action -> action) (g : thread_host -> thread_host) pool threads :
  (forall a, a ∈ pool -> act_id (f a) = act_id a /\ host (f a) = host a) ->
  (forall t, t ∈ threads -> th_id (g t) = th_id t) ->
  (forall t, t ∈ threads -> calm (rnh (g t))) ->
  (forall a, a ∈ pool -> act_ok (f a) /\ 0 <= act_sem (f a)) ->
  (forall a t, a ∈ pool -> t ∈ threads -> host a = Some (th_id t) ->
     static_set (act_rnh (f a)) ⊆ static_set (rnh (g t)) /\ informed (f a) (g t)) ->
  data_ok (map f pool) (map g threads).
Proof.
  intros Hf Hg Hc Ha Hp. split.
  - intros t (x & -> & Hx)%list_elem_of_fmap_1. auto.
  - intros a (x & -> & Hx)%list_elem_of_fmap_1. by apply Ha.
  - intros a (x & -> & Hx)%list_elem_of_fmap_1. by apply Ha.
  - intros a t (x & -> & Hx)%list_elem_of_fmap_1 (y & -> & Hy)%list_elem_of_fmap_1 E.
    destruct (Hf x Hx) as [_ Eh]. rewrite Eh, Hg in E by done. auto.
Qed.

(** *** A round of a host *)

Definition answer_set (answer : option (list (option sockaddr))) : gset sockaddr :=
  match answer with Some l => list_to_set (omap id l) | None => ∅ end.

Definition pub (l : addr_list) : gset sockaddr := addr_set (filter (fun e => ADDR_NEW e = false) l).
Definition news (l : addr_list) : gset sockaddr := addr_set (filter (fun e => ADDR_NEW e = true) l).
Definition old_static (l : addr_list) : gset sockaddr := static_set (filter (fun e => ADDR_NEW e = false) l).

Lemma settled_calm l : settled l -> calm l.
Proof.
  intros [H1 H2 H3]. split; try done; intros e He; destruct (H3 e He) as [Hn Ho]; [done|]. congruence.
Qed.

Lemma elem_pub l e : NoDup (addrs l) -> e ∈ l -> addr e ∈ pub l <-> ADDR_NEW e = false.
Proof.
  intros Hn He. unfold pub. rewrite elem_of_addr_filter. split; [|eauto].
  intros (x & Hx & Hf & E). by rewrite <- (nodup_addr l x e).
Qed.

Lemma elem_news l e : NoDup (addrs l) -> e ∈ l -> addr e ∈ news l <-> ADDR_NEW e = true.
Proof.
  intros Hn He. unfold news. rewrite elem_of_addr_filter. split; [|eauto].
  intros (x & Hx & Hf & E). by rewrite <- (nodup_addr l x e).
Qed.

Lemma elem_old_static l e : NoDup (addrs l) -> e ∈ l ->
  addr e ∈ old_static l <-> ADDR_NEW e = false /\ ADDR_STATIC e = true.
Proof.
  intros Hn He. unfold old_static. rewrite elem_of_static_set. setoid_rewrite list_elem_of_filter. split.
  - intros (x & [Hf Hx] & E & Hs). rewrite <- (nodup_addr l x e) by done. done.
  - intros [Hf Hs]. exists e. done.
Qed.

Lemma mark_old_calm l : calm l -> mid (pub l) (old_static l) (news l) (mark_old l).
Proof.
  intros [H1 H2 H3 H4].
  assert (Hin : forall e, e ∈ mark_old l -> exists x, x ∈ l /\ addr e = addr x /\ ADDR_NEW e = ADDR_NEW x /\
    ADDR_STATIC e = ADDR_STATIC x /\ ADDR_OLD e = negb (ADDR_STATIC x)).
  { intros e (x & -> & Hx)%list_elem_of_fmap_1. exists x. specialize (H3 x Hx). destruct (ADDR_STATIC x) eqn:E; simpl; auto. }
  split.
  - unfold mark_old. rewrite addrs_map; [done|]. intros e. by destruct (ADDR_STATIC e).
  - intros e (x & Hx & -> & _)%Hin. auto.
  - rewrite (proj1 (sets_unmarked _ _ (mark_old_unmarked l))). apply set_eq. intros b. unfold pub, news.
    rewrite elem_of_union, !elem_of_addr_filter, elem_of_addr_set. split.
    + intros (e & He & <-). destruct (ADDR_NEW e) eqn:E; [right | left]; eauto.
    + intros [(e & He & _ & <-)|(e & He & _ & <-)]; eauto.
  - intros e (x & Hx & -> & -> & _)%Hin. rewrite elem_pub by done. destruct (ADDR_NEW x); split; (done || congruence).
  - intros e (x & Hx & -> & _ & _ & ->)%Hin. rewrite elem_pub, elem_news, elem_old_static by done.
    specialize (H4 x Hx). destruct (ADDR_NEW x), (ADDR_STATIC x); simpl; intuition congruence.
  - intros e (x & Hx & -> & _ & -> & _)%Hin. rewrite elem_pub, elem_old_static by done. tauto.
Qed.

Lemma host_dns_mid s t answer : answer_wf answer -> forall a l,
  mid s t a l -> mid s t (answer_set answer ∪ a) (host_dns answer l).
Proof.
  destruct answer as [res|]; intros Hw a l Hm; simpl; [|by rewrite (left_id_L ∅ (∪))].
  assert (Hres : forall x, Some x ∈ res -> sa_wf x) by (intros; by eapply Hw). clear Hw.
  revert a l Hm. induction res as [|[x|] res IH]; intros a l Hm; simpl.
  - by rewrite (left_id_L ∅ (∪)).
  - rewrite (comm_L (∪) {[x]} (list_to_set _)), <- (assoc_L (∪)).
    apply IH; [intros; apply Hres; by right|]. apply addr_add_mid; [done|]. apply Hres. left.
  - apply IH; [intros; apply Hres; by right | done].
Qed.

(** Static addresses are never marked. *)
Definition kept (l : addr_list) : Prop := forall e, e ∈ l -> ADDR_STATIC e = true -> ADDR_OLD e = false.

Lemma kept_mark l : calm l -> kept (mark_old l).
Proof.
  intros Hc e (x & -> & Hx)%list_elem_of_fmap_1. destruct (ADDR_STATIC x) eqn:E; simpl; [|congruence].
  intros _. by apply (calm_old _ Hc).
Qed.

Lemma kept_find l x : forall l', addr_find l x = Some l' -> kept l -> kept l'.
Proof.
  induction l as [|e l IH]; intros l' E Hk; [done|]. simpl in E.
  destruct (same_addr x (addr e)); simplify_eq.
  - intros y [-> |Hy]%elem_of_cons; [done|]. apply Hk. by right.
  - destruct (addr_find l x) as [l1|]; simplify_eq/=. intros y [-> |Hy]%elem_of_cons; [apply Hk; left|].
    apply (IH l1); [done | intros z Hz; apply Hk; by right | done].
Qed.

Lemma kept_add l x static : kept l -> kept (addr_add l x static).
Proof.
  intros Hk. unfold addr_add. destruct (addr_find l x) as [l'|] eqn:E; [by eapply kept_find|].
  intros y [-> |Hy]%elem_of_cons; [done | by apply Hk].
Qed.

Lemma kept_dns answer l : answer_wf answer -> kept l -> kept (host_dns answer l) /\ static_set l ⊆ static_set (host_dns answer l).
Proof.
  destruct answer as [res|]; intros Hw Hk; simpl; [|done].
  assert (Hres : forall x, Some x ∈ res -> sa_wf x) by (intros; by eapply Hw). clear Hw. revert l Hk.
  induction res as [|[x|] res IH]; intros l Hk; simpl; [done| |apply IH; [intros; apply Hres; by right | done]].
  destruct (IH ltac:(intros; apply Hres; by right) (addr_add l x false) (kept_add _ _ _ Hk)) as [H1 H2].
  split; [done|]. destruct (static_addr_add l x false) as [H3 _]; [apply Hres; left|]. clear -H2 H3. set_solver.
Qed.

Lemma static_sweep_kept l n : kept l -> static_set l ⊆ static_set (sweep l n).1.
Proof.
  intros Hk a (e & He & <- & Hs)%elem_of_static_set. rewrite sweep_spec. apply elem_of_static_set.
  exists (clear_new e). split; [|done]. apply list_elem_of_fmap_2. apply list_elem_of_filter. auto.
Qed.

Lemma old_static_news l : calm l -> old_static l ∪ news l = static_set l.
Proof.
  intros [H1 H2 H3 H4]. apply set_eq. intros a. unfold old_static, news.
  rewrite elem_of_union, elem_of_addr_filter, !elem_of_static_set. setoid_rewrite list_elem_of_filter. split.
  - intros [(e & [_ He] & <- & Hs)|(e & He & Hn & <-)]; exists e; auto.
  - intros (e & He & <- & Hs). destruct (ADDR_NEW e) eqn:E; [right | left]; eauto.
Qed.

(** After a round a host has its static addresses and those of the answer, when the name is looked up
    at all, and the counter is 0 only if the round changed nothing. *)
Lemma check_hostname_round_spec answer t t' update :
  calm (rnh t) -> answer_wf answer -> check_hostname_round answer t = (t', update) ->
  settled (rnh t') /\
  addr_set (rnh t') = static_set (rnh t) ∪ (if mask t =? -1 then answer_set answer else ∅) /\
  static_set (rnh t) ⊆ static_set (rnh t') /\ 0 <= update /\
  (update = 0 -> ~ has_news t /\ addr_set (rnh t') = addr_set (rnh t)) /\ t' = with_rnh (rnh t') t.
Proof.
  intros Hc Hw E. unfold check_hostname_round in E.
  pose proof (mark_old_calm _ Hc) as Hm. pose proof (kept_mark _ Hc) as Hk.
  set (l := if mask t =? -1 then host_dns answer (mark_old (rnh t)) else mark_old (rnh t)) in E.
  set (b := if mask t =? -1 then answer_set answer else ∅).
  assert (Hl : mid (pub (rnh t)) (old_static (rnh t)) (b ∪ news (rnh t)) l /\ kept l /\ static_set (rnh t) ⊆ static_set l).
  { rewrite <- (proj2 (sets_unmarked _ _ (mark_old_unmarked (rnh t)))). unfold l, b. destruct (mask t =? -1).
    - split; [by apply host_dns_mid | by apply kept_dns].
    - split; [by rewrite (left_id_L ∅ (∪)) | done]. }
  destruct Hl as (Hl & Hkl & Hsl).
  assert (Hsub : old_static (rnh t) ⊆ pub (rnh t)) by apply static_subset.
  pose proof (sweep_mid _ _ _ _ Hl Hsub) as Hsw. pose proof (static_sweep_kept l 0 Hkl) as Hst.
  destruct (sweep l 0) as [l' n]. injection E as <- <-. cbn [fst rnh with_rnh] in *. destruct Hsw as (H1 & H2 & _ & H4).
  assert (Ea : addr_set l' = static_set (rnh t) ∪ b).
  { rewrite H2, <- (old_static_news _ Hc). clear. set_solver. }
  split; [done|]. split; [done|]. split; [by etrans|]. split; [lia|]. split; [|done].
  intros Hz. rewrite H4 in Hz. apply count_zero in Hz. rewrite <- H2 in Hz.
  assert (Hn : news (rnh t) = ∅).
  { apply set_eq. intros x. split; [|clear; set_solver]. intros Hx. exfalso.
    assert (Hx' : x ∈ pub (rnh t)) by (rewrite Hz, H2; clear -Hx; set_solver).
    unfold news in Hx. apply elem_of_addr_filter in Hx as (e & He & Hne & <-).
    apply elem_pub in Hx'; [congruence | apply Hc | done]. }
  split.
  - intros (e & He & Hne). apply (elem_news _ e (calm_nodup _ Hc) He) in Hne. rewrite Hn in Hne. clear -Hne. set_solver.
  - rewrite <- Hz. pose proof (mid_set _ _ _ _ Hm) as Hms.
    rewrite (proj1 (sets_unmarked _ _ (mark_old_unmarked (rnh t)))), Hn in Hms. rewrite Hms. clear. set_solver.
Qed.

(** *** A round of an action *)

Lemma table_update_list `{Kernel} a hm st a' er st' :
  table_update a hm st = Ok (a', er, st') -> a' = with_tbl a (refresh (tbl_rnh a) (act_rnh a)).1.
Proof.
  unfold table_update. intros E. destruct (table_sweep _ _ _ _ _) as [[[l e] s1]|] eqn:E1; [|done].
  apply table_sweep_list in E1. simplify_eq/=. done.
Qed.

Lemma refresh_act_ok a a' :
  act_ok a -> settled (act_rnh a') -> static_set (act_rnh a) ⊆ static_set (act_rnh a') ->
  tbl_rnh a' = (refresh (tbl_rnh a) (act_rnh a')).1 -> act_ok a'.
Proof.
  intros [H1 H2 H3 H4] Hs Hst E.
  assert (Hw : forall e, e ∈ act_rnh a' -> sa_wf (addr e)) by apply Hs.
  pose proof (refresh_spec _ _ H2 Hw) as Hr. pose proof (refresh_static (tbl_rnh a) _ Hw) as Hu.
  destruct (refresh (tbl_rnh a) (act_rnh a')) as [l n]. cbn [fst] in *. destruct Hr as (H5 & H6 & _).
  rewrite <- E in *. pose proof (static_subset (act_rnh a')) as Hsub. split; [done | done | |].
  - clear -Hu Hst H3. set_solver.
  - intros _. rewrite H6. clear -H3 Hst Hsub. set_solver.
Qed.

Lemma check_action_round_spec `{Kernel} t a st a' ran st' :
  calm (rnh t) -> act_ok a -> static_set (act_rnh a) ⊆ static_set (rnh t) ->
  check_action_round t a st = Ok (a', ran, st') ->
  act_ok a' /\ addr_set (act_rnh a') = addr_set (rnh t) /\ static_set (act_rnh a') ⊆ static_set (rnh t) /\
  (act_id a' = act_id a /\ host a' = host a /\ act_state a' = act_state a /\ act_sem a' = act_sem a - 1 /\
   tablename a' = tablename a) /\ ran = cmd a.
Proof.
  intros Hc Ha Hst E. unfold check_action_round in E. cbn [act_rnh with_thread] in E.
  pose proof (refresh_spec _ (rnh t) (ok_rnh _ Ha) (calm_wf _ Hc)) as Hr.
  pose proof (refresh_static (act_rnh a) (rnh t) (calm_wf _ Hc)) as Hu.
  destruct (refresh (act_rnh a) (rnh t)) as [l n]. cbn [fst] in Hu. destruct Hr as (H1 & H2 & H3 & H4).
  set (b := with_act_rnh l _) in E. pose proof (static_subset (rnh t)) as Hsub.
  assert (Hset : addr_set l = addr_set (rnh t)) by (rewrite H2; clear -Hst Hsub; set_solver).
  assert (Hsl : static_set l ⊆ static_set (rnh t)) by (clear -Hu Hst; set_solver).
  destruct ((0 <? n) && negb (bool_decide (tablename b = None))) eqn:Eg.
  - destruct (table_update b _ st) as [[[a1 e1] s1]|] eqn:Et; [|done]. simplify_eq/=.
    apply table_update_list in Et as ->. split; [|done].
    apply (refresh_act_ok a); done.
  - simplify_eq/=. split; [|done]. destruct Ha as [A1 A2 A3 A4]. split; [done | done | |].
    + by etrans.
    + intros Ht. change (addr_set (tbl_rnh a) = addr_set l). rewrite A4 by done. apply count_zero. rewrite andb_false_iff in Eg. destruct Eg as [Eg|Eg].
      * apply Z.ltb_ge in Eg. lia.
      * exfalso. apply negb_false_iff, bool_decide_eq_true in Eg. done.
Qed.

Lemma check_action_round_same `{Kernel} t a st a' ran st' :
  check_action_round t a st = Ok (a', ran, st') -> act_id a' = act_id a /\ host a' = host a.
Proof.
  unfold check_action_round. destruct (refresh _ _) as [l n]. destruct (_ && _).
  - destruct (table_update _ _ _) as [[[a1 e1] s1]|] eqn:Et; [|done]. apply table_update_list in Et as ->. intros E. by simplify_eq/=.
  - intros E. by simplify_eq/=.
Qed.

(** ** Every step keeps the invariant *)

Definition inv `{Kernel} (s : fdns) : Prop :=
  wired (action_list s) (thread_list s) (next_id s) /\ data_ok (action_list s) (thread_list s) /\
  forall a, a ∈ action_list s -> act_state a <> THR_STOPPED.

Lemma nodup_id {A} (f : A -> nat) l x y : NoDup (map f l) -> x ∈ l -> y ∈ l -> f x = f y -> x = y.
Proof.
  induction l as [|z l IH]; intros Hn Hx Hy E; [by apply elem_of_nil in Hx|].
  simpl in Hn. apply NoDup_cons_1_1 in Hn as Hz. apply NoDup_cons_1_2 in Hn.
  apply elem_of_cons in Hx as [-> |Hx]; apply elem_of_cons in Hy as [-> |Hy]; auto; exfalso; apply Hz.
  - rewrite E. by apply list_elem_of_fmap_2.
  - rewrite <- E. by apply list_elem_of_fmap_2.
Qed.

(** The host of an action is found through its pointer. *)
Lemma host_of_spec a threads t : host_of a threads = Some t -> t ∈ threads /\ host a = Some (th_id t).
Proof.
  intros E. apply List.find_some in E as [Hin E]. apply bool_decide_eq_true in E. by apply list_elem_of_In in Hin.
Qed.

Lemma map_same {A} (f : A -> A) l : (forall x, x ∈ l -> f x = x) -> map f l = l.
Proof. induction l as [|x l IH]; intros Hf; [done|]. simpl. rewrite Hf, IH; [done | intros; apply Hf; by right | left]. Qed.

(** Replacing one host, with [f] for the actions. *)
Lemma inv_host (f : action -> action) g t pool threads fresh :
  wired pool threads fresh -> data_ok pool threads -> t ∈ threads ->
  (forall a, act_id (f a) = act_id a /\ host (f a) = host a /\ tbl_rnh (f a) = tbl_rnh a /\ act_rnh (f a) = act_rnh a /\
     tablename (f a) = tablename a /\ act_state (f a) = act_state a /\ ACT_FORCE (f a) = ACT_FORCE a /\ act_sem a <= act_sem (f a)) ->
  th_id (g t) = th_id t -> refcnt (g t) = refcnt t -> actions (g t) = actions t ->
  calm (rnh (g t)) -> static_set (rnh t) ⊆ static_set (rnh (g t)) ->
  (forall a, a ∈ pool -> host a = Some (th_id t) -> informed a t -> informed (f a) (g t)) ->
  wired (map f pool) (at_thread (th_id t) g threads) fresh /\ data_ok (map f pool) (at_thread (th_id t) g threads).
Proof.
  intros Hw Hd Ht Hf E1 E2 E3 Hc Hs Hi.
  assert (Hg : forall x, x ∈ threads -> th_id x = th_id t -> x = t).
  { intros x Hx. apply (nodup_id th_id threads); [apply Hw | done | done]. }
  split.
  - apply wired_map; [intros a _; by destruct (Hf a) as (? & ? & _)| |done].
    intros x Hx. case_bool_decide as Ex; [|done]. rewrite (Hg x Hx Ex). done.
  - apply data_map.
    + intros a _. by destruct (Hf a) as (? & ? & _).
    + intros x Hx. case_bool_decide as Ex; [|done]. by rewrite (Hg x Hx Ex).
    + intros x Hx. case_bool_decide as Ex; [by rewrite (Hg x Hx Ex) | by apply Hd].
    + intros a Ha. destruct (Hf a) as (_ & _ & F3 & F4 & F5 & _ & _ & F8). destruct (d_act _ _ Hd a Ha) as [A1 A2 A3 A4].
      pose proof (d_sem _ _ Hd a Ha). split; [split; rewrite ?F3, ?F4, ?F5; done | lia].
    + intros a x Ha Hx Eh. destruct (d_pair _ _ Hd a x Ha Hx Eh) as [Hst Hin].
      destruct (Hf a) as (_ & _ & _ & F4 & _ & F6 & F7 & F8). rewrite F4.
      case_bool_decide as Ex.
      * rewrite (Hg x Hx Ex) in *. split; [by etrans | by apply Hi].
      * split; [done|]. unfold informed in *. rewrite F4, F6, F7. intuition lia.
Qed.

(** Replacing one action. *)
Lemma inv_action f a pool threads fresh :
  wired pool threads fresh -> data_ok pool threads -> a ∈ pool ->
  act_id (f a) = act_id a -> host (f a) = host a -> act_ok (f a) -> 0 <= act_sem (f a) ->
  (forall t, t ∈ threads -> host a = Some (th_id t) ->
     static_set (act_rnh (f a)) ⊆ static_set (rnh t) /\ informed (f a) t) ->
  wired (at_action (act_id a) f pool) threads fresh /\ data_ok (at_action (act_id a) f pool) threads.
Proof.
  intros Hw Hd Ha E1 E2 Hok Hsem Hp.
  assert (Hg : forall x, x ∈ pool -> act_id x = act_id a -> x = a).
  { intros x Hx. apply (nodup_id act_id pool); [apply Hw | done | done]. }
  rewrite <- (map_id threads). split.
  - apply wired_map; [|done|done]. intros x Hx. case_bool_decide as Ex; [|done]. by rewrite (Hg x Hx Ex).
  - apply data_map; [| done | apply Hd | |].
    + intros x Hx. case_bool_decide as Ex; [|done]. by rewrite (Hg x Hx Ex).
    + intros x Hx. case_bool_decide as Ex; [by rewrite (Hg x Hx Ex)|]. split; by apply Hd.
    + intros x t Hx Ht Eh. case_bool_decide as Ex; [|by apply Hd]. rewrite (Hg x Hx Ex) in *. auto.
Qed.

(** A host leaves the list. *)
Lemma wired_remove id pool threads fresh :
  wired pool threads fresh -> data_ok pool threads ->
  wired pool (check_hostname_remove id threads) fresh /\ data_ok pool (check_hostname_remove id threads).
Proof.
  intros [H1 H2 H3 H4 H5 H6 H7 H8] [D1 D2 D3 D4].
  assert (Hin : forall x, x ∈ check_hostname_remove id threads -> x ∈ threads).
  { intros x Hx. by apply list_elem_of_filter in Hx as [_ Hx]. }
  split; split; auto.
  eapply sublist_NoDup; [exact H2|]. apply (fmap_sublist th_id), sublist_filter.
Qed.

Lemma inet_pton_length s a : inet_pton s = Some a -> length a = 4%nat.
Proof.
  unfold inet_pton. destruct (map octet _) as [|[] [|[] [|[] [|[] [|]]]]]; intros [= <-]; done.
Qed.

Lemma make_in_wf junk a : length junk = 10%nat -> length a = 4%nat -> sa_wf (make_in junk a).
Proof.
  intros Hj Ha. unfold sa_wf, make_in. rewrite !length_app, !length_take, length_drop, Hj, Ha. done.
Qed.

Lemma make_in6_wf junk a : length junk = 10%nat -> length a = 16%nat -> sa_wf (make_in6 junk a).
Proof.
  intros Hj Ha. unfold sa_wf, make_in6. rewrite !length_app, !length_take, length_drop, Hj, Ha. done.
Qed.

(** Adding a static address announces it, unless it is there. *)
Lemma addr_add_calm l x : calm l -> sa_wf x ->
  calm (addr_add l x true) /\
  (addr_add l x true = l \/ exists e, e ∈ addr_add l x true /\ ADDR_NEW e = true).
Proof.
  intros [H1 H2 H3 H4] Hx. unfold addr_add. destruct (decide (x ∈ addr_set l)) as [Hin|Hin].
  - destruct (addr_find_Some l x Hx H2 Hin) as (l1 & e & l2 & -> & <- & ->).
    replace (set_old false e) with e; [split; [done | by left]|].
    assert (E : ADDR_OLD e = false) by (apply H3, elem_of_middle; by left).
    destruct e; simpl in E; by rewrite E.
  - rewrite addr_find_None by done. unfold sa_wf in Hx. rewrite Hx, Nat2Z.id, firstn_all. split.
    + split.
      * apply NoDup_cons_2; [|done]. unfold addr_set in Hin. by rewrite elem_of_list_to_set in Hin.
      * intros e [-> |He]%elem_of_cons; simpl; auto.
      * intros e [-> |He]%elem_of_cons; simpl; auto.
      * intros e [-> |He]%elem_of_cons; simpl; auto.
    + right. eexists. split; [left | done].
Qed.

Section steps.
Context `{Kernel} `{Resolver}.

Lemma start_rnh junk t : length junk = 10%nat ->
  rnh (check_hostname_start numeric6 junk t) = rnh t \/
  exists x, sa_wf x /\ rnh (check_hostname_start numeric6 junk t) = addr_add (rnh t) x true.
Proof.
  intros Hj. unfold check_hostname_start. destruct (inet_pton (hostname t)) as [a|] eqn:E.
  - right. exists (make_in junk a). split; [apply make_in_wf; eauto using inet_pton_length|].
    destruct (mask t =? -1); destruct (32 <? _); done.
  - destruct (numeric6 (hostname t)) as [a|] eqn:E6; [right|by left].
    exists (make_in6 junk a). split; [|done]. apply make_in6_wf; [done|]. by eapply numeric6_len.
Qed.

Lemma start_same junk t : let t' := check_hostname_start numeric6 junk t in
  th_id t' = th_id t /\ refcnt t' = refcnt t /\ actions t' = actions t.
Proof.
  unfold check_hostname_start. destruct (inet_pton (hostname t)); [|by destruct (numeric6 (hostname t))].
  destruct (mask t =? -1); destruct (32 <? _); done.
Qed.

Lemma start_runs junk t : th_state (check_hostname_start numeric6 junk t) = THR_RUNNING.
Proof. reflexivity. Qed.

Lemma inv_host_start junk t pool threads fresh :
  wired pool threads fresh -> data_ok pool threads -> t ∈ threads -> length junk = 10%nat ->
  wired pool (at_thread (th_id t) (check_hostname_start numeric6 junk) threads) fresh /\
  data_ok pool (at_thread (th_id t) (check_hostname_start numeric6 junk) threads).
Proof.
  intros Hw Hd Ht Hj. destruct (start_same junk t) as (E1 & E2 & E3).
  pose proof (d_host _ _ Hd t Ht) as Hc. rewrite <- (map_id pool).
  destruct (start_rnh junk t Hj) as [Er|(x & Hx & Er)].
  - apply inv_host; rewrite ?Er; try done.
    intros a Ha Eh. unfold informed, has_news. by rewrite Er.
  - destruct (addr_add_calm _ x Hc Hx) as [Hc' Hn]. destruct (static_addr_add (rnh t) x true Hx) as [Hs _].
    apply inv_host; rewrite ?Er; try done.
    intros a Ha Eh Hi. unfold informed, has_news in *. rewrite Er. destruct Hn as [-> |Hn]; [done | tauto].
Qed.

Lemma inv_host_round answer t t' update pool threads fresh :
  wired pool threads fresh -> data_ok pool threads -> t ∈ threads -> answer_wf answer ->
  check_hostname_round answer t = (t', update) ->
  wired (wake_actions (actions t) update pool) (at_thread (th_id t) (fun _ => sem_clockwait t') threads) fresh /\
  data_ok (wake_actions (actions t) update pool) (at_thread (th_id t) (fun _ => sem_clockwait t') threads).
Proof.
  intros Hw Hd Ht Ha E. pose proof (d_host _ _ Hd t Ht) as Hc.
  destruct (check_hostname_round_spec _ _ _ _ Hc Ha E) as (H1 & H2 & H3 & H4 & H5 & ->).
  apply inv_host; try done.
  - intros a. case_bool_decide; [destruct (_ && _)|]; simpl; repeat (split; [done|]); lia.
  - by apply settled_calm.
  - intros a Hin Eh Hi. rewrite bool_decide_eq_true_2 by (apply (w_members _ _ _ Hw t); eauto).
    pose proof (d_sem _ _ Hd a Hin) as Hs.
    destruct (Z.eqb_spec update 0) as [->|Hne]; [destruct (ACT_FORCE a) eqn:Ef|]; simpl.
    + right. left. simpl. lia.
    + destruct (H5 eq_refl) as [Hnn Heq]. unfold informed in *. simpl. rewrite Ef in *. rewrite Heq. tauto.
    + right. left. simpl. lia.
Qed.

End steps.

(** *** Reading and merging a configuration *)

Lemma settled_nil : settled [].
Proof. split; [apply NoDup_nil_2 | intros e He; by apply elem_of_nil in He ..]. Qed.

(** A new action whose host is [t]. *)
Definition attach (id : nat) (t : thread_host) : thread_host := with_refs (refcnt t + 1) (actions t ++ [id]) t.

Record newborn (a : action) : Prop := {
  nb_rnh : act_rnh a = []; nb_tbl : tbl_rnh a = []; nb_state : act_state a = THR_STOPPED; nb_sem : act_sem a = 0
}.

Lemma wired_attach a t pool threads fresh fresh' :
  wired pool threads fresh -> t ∈ threads -> host a = Some (th_id t) ->
  (forall x, x ∈ pool -> act_id x <> act_id a) -> (act_id a < fresh' /\ fresh <= fresh')%nat ->
  wired (a :: pool) (at_thread (th_id t) (attach (act_id a)) threads) fresh'.
Proof.
  intros [H1 H2 H3 H4 H5 H6 H7 H8] Ht Eh Hnew Hlt.
  assert (Hit : forall x, x ∈ at_thread (th_id t) (attach (act_id a)) threads -> exists y, y ∈ threads /\ th_id x = th_id y /\
    (th_id y = th_id t /\ x = attach (act_id a) y \/ th_id y <> th_id t /\ x = y)).
  { intros x (y & -> & Hy)%list_elem_of_fmap_1. exists y. case_bool_decide; auto. }
  assert (Hno : forall y, y ∈ threads -> act_id a ∉ actions y).
  { intros y Hy (x & Hx & E & _)%H6; [|done]. by apply (Hnew x). }
  split.
  - apply NoDup_cons_2; [|done]. intros (x & E & Hx)%list_elem_of_fmap_1. by apply (Hnew x).
  - unfold at_thread. rewrite map_map. erewrite map_ext; [exact H2|]. intros x. by case_bool_decide.
  - intros x [-> |Hx]%elem_of_cons; [lia|]. specialize (H3 x Hx). lia.
  - intros x (y & Hy & -> & _)%Hit. specialize (H4 y Hy). lia.
  - intros x [-> |Hx]%elem_of_cons; [specialize (H4 t Ht); exists (th_id t); split; [done | lia]|].
    destruct (H5 x Hx) as (i & E & Hi). exists i. split; [done | lia].
  - intros x i (y & Hy & Eid & Hxy)%Hit. rewrite Eid. destruct Hxy as [[Ey ->]|[Ey ->]]; simpl.
    + rewrite elem_of_app, list_elem_of_singleton, H6 by done. split.
      * intros [(z & Hz & Ez)| ->]; [exists z; split; [by right | done]|]. exists a. split; [left|]. by rewrite Ey.
      * intros (z & [-> |Hz]%elem_of_cons & <- & E); [by right | left; eauto].
    + rewrite H6 by done. split; intros (z & Hz & Ez & E'); exists z.
      * split; [by right | done].
      * apply elem_of_cons in Hz as [-> |Hz]; [congruence | done].
  - intros x (y & Hy & _ & [[_ ->]|[_ ->]])%Hit; simpl; [|auto]. apply list.NoDup_app. split; [auto|]. split.
    + intros z Hz ->%list_elem_of_singleton. by apply (Hno y).
    + apply NoDup_singleton.
  - intros x (y & Hy & _ & [[_ ->]|[_ ->]])%Hit; simpl; [|auto]. rewrite length_app, H8 by done. simpl. lia.
Qed.

Lemma data_attach a t pool threads :
  data_ok pool threads -> newborn a -> data_ok (a :: pool) (at_thread (th_id t) (attach (act_id a)) threads).
Proof.
  intros [D1 D2 D3 D4] [N1 N2 N3 N4].
  assert (Hit : forall x, x ∈ at_thread (th_id t) (attach (act_id a)) threads -> exists y, y ∈ threads /\
    th_id x = th_id y /\ rnh x = rnh y).
  { intros x (y & -> & Hy)%list_elem_of_fmap_1. exists y. case_bool_decide; auto. }
  split.
  - intros x (y & Hy & _ & ->)%Hit. auto.
  - intros x [-> |Hx]%elem_of_cons; [|auto]. split; rewrite ?N1, ?N2; auto using settled_nil.
  - intros x [-> |Hx]%elem_of_cons; [lia | auto].
  - intros x z [-> |Hx]%elem_of_cons Hz E.
    + split; [rewrite N1; apply empty_subseteq | by left].
    + destruct (Hit z Hz) as (y & Hy & Ei & Er). destruct (D4 x y Hx Hy) as [P1 P2]; [congruence|].
      unfold informed, has_news in *. rewrite Er. done.
Qed.

Lemma host_find_spec id hn threads h threads' :
  NoDup (map th_id threads) -> host_find id hn threads = Some (h, threads') ->
  exists t, t ∈ threads /\ h = th_id t /\ threads' = at_thread h (attach id) threads.
Proof.
  revert threads'. induction threads as [|x threads IH]; intros threads' Hn E; [done|]. simpl in E, Hn.
  apply NoDup_cons_1_1 in Hn as Hx. apply NoDup_cons_1_2 in Hn. destruct (same_host hn x).
  - simplify_eq. exists x. split; [left|]. split; [done|]. simpl. rewrite bool_decide_eq_true_2 by done. f_equal.
    symmetry. apply map_same. intros y Hy. rewrite bool_decide_eq_false_2; [done|]. intros Ey. apply Hx.
    rewrite <- Ey. by apply list_elem_of_fmap_2.
  - destruct (host_find id hn threads) as [[h1 ts]|]; [|done]. simplify_eq/=.
    destruct (IH ts Hn eq_refl) as (t & Ht & -> & ->). exists t. split; [by right|]. split; [done|].
    rewrite bool_decide_eq_false_2; [done|]. intros Ex. apply Hx. rewrite Ex. by apply list_elem_of_fmap_2.
Qed.

(** A host without actions. *)
Lemma wired_new_host t pool threads fresh fresh' :
  wired pool threads fresh -> (fresh <= th_id t < fresh')%nat -> refcnt t = 0 -> actions t = [] ->
  wired pool (threads ++ [t]) fresh'.
Proof.
  intros [H1 H2 H3 H4 H5 H6 H7 H8] Hlt Er Ea.
  assert (Hit : forall x, x ∈ threads ++ [t] -> x ∈ threads \/ x = t).
  { intros x. rewrite elem_of_app, list_elem_of_singleton. tauto. }
  assert (Hnew : forall x, x ∈ threads -> th_id x <> th_id t) by (intros x Hx; specialize (H4 x Hx); lia).
  split; try done.
  - rewrite map_app. apply list.NoDup_app. split; [done|]. split; [|apply NoDup_singleton].
    intros i (x & -> & Hx)%list_elem_of_fmap_1 E%list_elem_of_singleton. by apply (Hnew x).
  - intros a Ha. specialize (H3 a Ha). lia.
  - intros x [Hx| ->]%Hit; [specialize (H4 x Hx)|]; lia.
  - intros a Ha. destruct (H5 a Ha) as (i & E & Hi). exists i. split; [done | lia].
  - intros x i [Hx| ->]%Hit; [by apply H6|]. rewrite Ea. split; [intros Hi; by apply elem_of_nil in Hi|].
    intros (a & Ha & _ & E). destruct (H5 a Ha) as (j & E' & Hj). exfalso. assert (j = th_id t) by congruence. lia.
  - intros x [Hx| ->]%Hit; [auto|]. rewrite Ea. apply NoDup_nil_2.
  - intros x [Hx| ->]%Hit; [auto|]. by rewrite Ea, Er.
Qed.

Lemma at_thread_new id g threads t :
  (forall x, x ∈ threads -> th_id x <> th_id t) -> id = th_id t -> at_thread id g (threads ++ [t]) = threads ++ [g t].
Proof.
  intros Hn ->. unfold at_thread. rewrite map_app. simpl. rewrite bool_decide_eq_true_2 by done. f_equal.
  apply map_same. intros x Hx. rewrite bool_decide_eq_false_2; [done | auto].
Qed.

Lemma data_new_host t pool threads fresh :
  wired pool threads fresh -> (fresh <= th_id t)%nat -> rnh t = [] -> data_ok pool threads -> data_ok pool (threads ++ [t]).
Proof.
  intros Hw Hi Hr [D1 D2 D3 D4].
  assert (Hit : forall x, x ∈ threads ++ [t] -> x ∈ threads \/ x = t).
  { intros x. rewrite elem_of_app, list_elem_of_singleton. tauto. }
  split; try done.
  - intros x [Hx| ->]%Hit; [auto|]. rewrite Hr. apply settled_calm, settled_nil.
  - intros a x Ha [Hx| ->]%Hit E; [auto|]. exfalso.
    destruct (w_host _ _ _ Hw a Ha) as (j & Ej & Hj). assert (j = th_id t) by congruence. lia.
Qed.

Lemma host_add_inv a pool threads fresh h threads' :
  wired pool threads fresh -> data_ok pool threads -> newborn a -> act_id a = fresh ->
  host_add a (S fresh) threads = Some (h, threads') ->
  wired (with_host (Some h) a :: pool) threads' (S (S fresh)) /\ data_ok (with_host (Some h) a :: pool) threads'.
Proof.
  intros Hw Hd Hb Hi E. unfold host_add in E.
  assert (Hnew : forall x, x ∈ pool -> act_id x <> act_id (with_host (Some h) a)).
  { intros x Hx. pose proof (w_act_fresh _ _ _ Hw x Hx). simpl. lia. }
  assert (Hb' : newborn (with_host (Some h) a)) by (destruct Hb; by split).
  destruct (host_find _ _ threads) as [[h1 ts]|] eqn:Ef.
  - simplify_eq. apply host_find_spec in Ef as (t & Ht & -> & ->); [|apply Hw]. split.
    + eapply (wired_attach (with_host (Some (th_id t)) a) t); simpl; (done || lia).
    + by apply (data_attach (with_host (Some (th_id t)) a) t).
  - destruct (split_mask (act_hostname a)) as [[name m]|]; [|done]. simplify_eq/=.
    set (t := {| th_id := S (act_id a); rnh := []; hostname := name; mask := m; mask6 := m; th_sem := 0;
                 refcnt := 0; th_state := THR_STOPPED; actions := [] |}).
    assert (Hat : forall g, at_thread (th_id t) g (threads ++ [t]) = threads ++ [g t]).
    { intros g. apply at_thread_new; [|done]. intros x Hx. pose proof (w_th_fresh _ _ _ Hw x Hx). simpl. lia. }
    pose proof (wired_new_host t pool threads _ (S (S (act_id a))) Hw ltac:(simpl; lia) eq_refl eq_refl) as Hw'.
    pose proof (data_new_host t pool threads _ Hw ltac:(simpl; lia) eq_refl Hd) as Hd'.
    pose proof (wired_attach (with_host (Some (th_id t)) a) t pool _ _ (S (S (act_id a))) Hw'
      ltac:(apply elem_of_app; right; left) eq_refl Hnew ltac:(simpl; lia)) as Hw2.
    pose proof (data_attach (with_host (Some (th_id t)) a) t pool _ Hd' Hb') as Hd2.
    rewrite Hat in Hw2, Hd2. done.
Qed.

(** ** Actions and the end of hosts *)

(** The host of the action is in the list, and its thread is not ending. *)
Definition live_host (a : action) (threads : list thread_host) : Prop :=
  exists t, t ∈ threads /\ host a = Some (th_id t) /\ th_state t <> THR_DYING.

(** The action has not run yet, and nothing has woken it. *)
Record unwoken (a : action) : Prop := {
  uw_sem : act_sem a = 0; uw_rnh : act_rnh a = []; uw_tbl : tbl_rnh a = [];
  uw_force : act_state a = THR_STOPPED \/ ACT_FORCE a = true
}.

(** Every action has such a host, or it has not been woken and [P] tells where it comes from. *)
Definition held (P : nat -> option nat -> Prop) (pool : list action) (threads : list thread_host) : Prop :=
  forall a, a ∈ pool -> live_host a threads \/ unwoken a /\ P (act_id a) (host a).

Lemma held_map P f g pool threads :
  (forall a, a ∈ pool -> act_id (f a) = act_id a /\ host (f a) = host a /\
     ((unwoken a -> unwoken (f a)) \/ live_host a threads)) ->
  (forall t, t ∈ threads -> th_id (g t) = th_id t /\
     ((th_state t <> THR_DYING -> th_state (g t) <> THR_DYING) \/ forall a, a ∈ pool -> host a <> Some (th_id t))) ->
  held P pool threads -> held P (map f pool) (map g threads).
Proof.
  intros Hf Hg Hh a (x & -> & Hx)%list_elem_of_fmap_1. destruct (Hf x Hx) as (E1 & E2 & E3). rewrite E1, E2.
  assert (Hl : live_host x threads -> live_host (f x) (map g threads)).
  { intros (t & Ht & Eh & Es). destruct (Hg t Ht) as (E4 & [E5|E5]); [|by destruct (E5 x Hx)].
    exists (g t). split; [by apply list_elem_of_fmap_2|]. rewrite E2, E4. auto. }
  destruct (Hh x Hx) as [Hx'|[Hz HP]]; [auto|]. destruct E3 as [E3|E3]; auto.
Qed.

Lemma held_hosts P g pool threads :
  (forall t, t ∈ threads -> th_id (g t) = th_id t /\
     ((th_state t <> THR_DYING -> th_state (g t) <> THR_DYING) \/ forall a, a ∈ pool -> host a <> Some (th_id t))) ->
  held P pool threads -> held P pool (map g threads).
Proof. intros Hg Hh. rewrite <- (map_id pool). apply held_map; auto. Qed.

Lemma held_actions P f pool threads :
  (forall a, a ∈ pool -> act_id (f a) = act_id a /\ host (f a) = host a /\ (unwoken a -> unwoken (f a))) ->
  held P pool threads -> held P (map f pool) threads.
Proof.
  intros Hf Hh. rewrite <- (map_id threads). apply held_map; auto. intros a Ha. destruct (Hf a Ha) as (? & ? & ?). auto.
Qed.

Lemma held_mono (P Q : nat -> option nat -> Prop) pool pool' threads :
  (forall a, a ∈ pool' -> a ∈ pool) -> (forall a, a ∈ pool' -> P (act_id a) (host a) -> Q (act_id a) (host a)) ->
  held P pool threads -> held Q pool' threads.
Proof. intros Hin HPQ Hh a Ha. destruct (Hh a (Hin a Ha)) as [?|[? ?]]; auto. Qed.

Lemma held_remove P t pool threads :
  NoDup (map th_id threads) -> t ∈ threads -> th_state t = THR_DYING ->
  held P pool threads -> held P pool (check_hostname_remove (th_id t) threads).
Proof.
  intros Hn Ht Es Hh a Ha. destruct (Hh a Ha) as [(x & Hx & Eh & Ex)|?]; [left | by right].
  exists x. split; [|done]. apply list_elem_of_filter. split; [|done]. intros E.
  apply Ex. by rewrite (nodup_id th_id threads x t).
Qed.

(** No action points to a host whose counter is 0. *)
Lemma unused_host pool threads fresh t :
  wired pool threads fresh -> t ∈ threads -> refcnt t = 0 -> forall a, a ∈ pool -> host a <> Some (th_id t).
Proof.
  intros Hw Ht Hr a Ha E. pose proof (w_refs _ _ _ Hw t Ht) as Hl.
  assert (Hin : act_id a ∈ actions t) by (apply (w_members _ _ _ Hw t); eauto).
  destruct (actions t); [by apply elem_of_nil in Hin | simpl in Hl; lia].
Qed.

Lemma held_round P t answer t' update pool threads fresh :
  wired pool threads fresh -> t ∈ threads -> th_state t <> THR_DYING ->
  check_hostname_round answer t = (t', update) -> held P pool threads ->
  held P (wake_actions (actions t) update pool) (at_thread (th_id t) (fun _ => sem_clockwait t') threads).
Proof.
  intros Hw Ht Es E Hh. apply held_map; [| |done].
  - intros a Ha. case_bool_decide as Hi; [|auto]. split; [by destruct (_ && _)|]. split; [by destruct (_ && _)|]. right.
    exists t. split; [done|]. split; [|done]. apply (w_members _ _ _ Hw t) in Hi as (b & Hb & Ei & Eh); [|done].
    rewrite (nodup_id act_id pool a b); [done | apply Hw | done..].
  - intros x Hx. case_bool_decide as Ex; [|auto]. unfold check_hostname_round in E. destruct (sweep _ _). simplify_eq. auto.
Qed.

(** *** Through a reload *)

(** The hosts that were ending when the reading of the configuration began. *)
Definition from_dying (threads0 threads : list thread_host) : Prop :=
  forall t, t ∈ threads -> th_state t = THR_DYING -> exists t0, t0 ∈ threads0 /\ th_id t0 = th_id t /\ th_state t0 = THR_DYING.

Lemma host_add_held P a pool threads fresh h threads' threads0 :
  wired pool threads fresh -> newborn a -> act_id a = fresh -> from_dying threads0 threads ->
  (forall t, t ∈ threads0 -> th_state t = THR_DYING -> P (act_id a) (Some (th_id t))) ->
  host_add a (S fresh) threads = Some (h, threads') -> held P pool threads ->
  held P (with_host (Some h) a :: pool) threads' /\ from_dying threads0 threads'.
Proof.
  intros Hw Hb Ei Hd HP E Hh. unfold host_add in E. destruct (host_find _ _ threads) as [[h1 ts]|] eqn:Ef.
  - simplify_eq. apply host_find_spec in Ef as (t & Ht & -> & ->); [|apply Hw]. split.
    + intros x [-> |Hx]%elem_of_cons.
      * simpl. destruct (decide (th_state t = THR_DYING)) as [Es|Es].
        -- right. destruct (Hd t Ht Es) as (t0 & Ht0 & E0 & Es0). split; [destruct Hb; split; auto|]. rewrite <- E0. auto.
        -- left. eexists. split; [by apply (list_elem_of_fmap_2 _ _ t)|]. simpl. by rewrite bool_decide_eq_true_2.
      * apply (held_hosts P (fun x => if bool_decide (th_id x = th_id t) then attach (act_id a) x else x) pool threads); [|done|done].
        intros y Hy. case_bool_decide; auto.
    + intros x (y & -> & Hy)%list_elem_of_fmap_1. case_bool_decide; exact (Hd y Hy).
  - destruct (split_mask (act_hostname a)) as [[name m]|]; [|done]. simplify_eq/=. split.
    + intros x [-> |Hx]%elem_of_cons.
      * left. eexists. split; [apply elem_of_app; right; left | done].
      * destruct (Hh x Hx) as [(t & Ht & Et)|?]; [left | by right]. exists t. split; [apply elem_of_app; by left | done].
    + intros x Hx Es. apply elem_of_app in Hx as [Hx|Hx]; [by apply Hd|]. apply list_elem_of_singleton in Hx as ->. discriminate Es.
Qed.

(** The lists while a configuration is read, next to the actions [extra]. *)
Definition lists_ok (extra : list action) (l : lists) : Prop :=
  wired (extra ++ acts l) (threads l) (fresh l) /\ data_ok (extra ++ acts l) (threads l).

Lemma add_rule_inv extra ty hn tn an pp cm l :
  lists_ok extra l -> errors (add_rule ty hn tn an pp cm l) = errors l -> lists_ok extra (add_rule ty hn tn an pp cm l).
Proof.
  intros [Hw Hd] He. unfold add_rule in *.
  destruct (action_add _ _ _ _ _ _ _ _) as [| |a] eqn:Ea; [simpl in He; lia .. |].
  assert (Hb : newborn a /\ act_id a = fresh l).
  { unfold action_add in Ea. destruct (List.find _ _); [done|]. simplify_eq. by split. }
  destruct Hb as [Hb Hi]. destruct (host_add _ _ _) as [[h ts]|] eqn:Eh; [|simpl in He; lia].
  destruct (host_add_inv a _ _ _ h ts Hw Hd Hb Hi Eh) as [H1 H2]. unfold lists_ok. cbn [acts threads fresh].
  rewrite (assoc_L (++)), <- (Permutation_cons_append (extra ++ acts l)). done.
Qed.

Lemma dnsrule_errors l r : (errors l <= errors (dnsrule l r))%nat.
Proof.
  assert (Ha : forall ty hn tn an pp cm, (errors l <= errors (add_rule ty hn tn an pp cm l))%nat).
  { intros. unfold add_rule. destruct (action_add _ _ _ _ _ _ _ _); simpl; try lia. destruct (host_add _ _ _) as [[]|]; simpl; lia. }
  destruct r; simpl; [destruct (bool_decide _); [|destruct (_ && _)]|destruct cm]; auto; simpl; lia.
Qed.

Lemma dnsrule_inv extra l r : lists_ok extra l -> errors (dnsrule l r) = errors l -> lists_ok extra (dnsrule l r).
Proof.
  intros Hl He. destruct r as [ty hn tn an pp cm|hn [cm|]]; simpl in *; [|by apply add_rule_inv | simpl in He; lia].
  destruct (bool_decide _); [simpl in He; lia|]. destruct (_ && _); [simpl in He; lia|]. by apply add_rule_inv.
Qed.

Lemma parse_config_errors config l : (errors l <= errors (parse_config config l))%nat.
Proof.
  revert l. induction config as [|r config IH]; intros l; simpl; [done|]. unfold parse_config in *. simpl.
  pose proof (dnsrule_errors l r). specialize (IH (dnsrule l r)). lia.
Qed.

Lemma parse_config_inv extra config l :
  lists_ok extra l -> errors (parse_config config l) = errors l -> lists_ok extra (parse_config config l).
Proof.
  revert l. induction config as [|r config IH]; intros l Hl He; [done|]. unfold parse_config in *. simpl in *.
  pose proof (dnsrule_errors l r). pose proof (parse_config_errors config (dnsrule l r)). unfold parse_config in *.
  apply IH; [apply dnsrule_inv; [done | lia] | lia].
Qed.

(** While a configuration is read: [P] holds of the actions that join a host that was ending. *)
Record reading (P : nat -> option nat -> Prop) (threads0 : list thread_host) (n0 : nat) (extra : list action) (l : lists) : Prop := {
  rd_ok : lists_ok extra l;
  rd_held : held P (extra ++ acts l) (threads l);
  rd_dying : from_dying threads0 (threads l);
  rd_fresh : (n0 <= fresh l)%nat
}.

Lemma add_rule_reading P threads0 n0 extra ty hn tn an pp cm l :
  (forall t id, t ∈ threads0 -> th_state t = THR_DYING -> (n0 <= id)%nat -> P id (Some (th_id t))) ->
  reading P threads0 n0 extra l -> errors (add_rule ty hn tn an pp cm l) = errors l ->
  reading P threads0 n0 extra (add_rule ty hn tn an pp cm l).
Proof.
  intros HP [Hl Hh Hd Hf] He. pose proof (add_rule_inv extra ty hn tn an pp cm l Hl He) as Hl'. destruct Hl as [Hw _].
  unfold add_rule in *.
  destruct (action_add _ _ _ _ _ _ _ _) as [| |a] eqn:Ea; [simpl in He; lia .. |].
  assert (Hb : newborn a /\ act_id a = fresh l).
  { unfold action_add in Ea. destruct (List.find _ _); [done|]. simplify_eq. by split. }
  destruct Hb as [Hb Hi]. destruct (host_add _ _ _) as [[h ts]|] eqn:Eh; [|simpl in He; lia].
  destruct (host_add_held P a _ _ _ h ts threads0 Hw Hb Hi Hd) as [H1 H2]; [|done|done|].
  - intros t Ht Es. apply HP; [done | done | lia].
  - split; [done| |done|simpl; lia]. cbn [acts threads]. eapply held_mono; [| |exact H1]; [|done].
    intros x. rewrite elem_of_cons, !elem_of_app, list_elem_of_singleton. tauto.
Qed.

Lemma dnsrule_reading P threads0 n0 extra l r :
  (forall t id, t ∈ threads0 -> th_state t = THR_DYING -> (n0 <= id)%nat -> P id (Some (th_id t))) ->
  reading P threads0 n0 extra l -> errors (dnsrule l r) = errors l -> reading P threads0 n0 extra (dnsrule l r).
Proof.
  intros HP Hl He. destruct r as [ty hn tn an pp cm|hn [cm|]]; simpl in *; [|by apply add_rule_reading | simpl in He; lia].
  destruct (bool_decide _); [simpl in He; lia|]. destruct (_ && _); [simpl in He; lia|]. by apply add_rule_reading.
Qed.

Lemma parse_config_reading P threads0 n0 extra config l :
  (forall t id, t ∈ threads0 -> th_state t = THR_DYING -> (n0 <= id)%nat -> P id (Some (th_id t))) ->
  reading P threads0 n0 extra l -> errors (parse_config config l) = errors l -> reading P threads0 n0 extra (parse_config config l).
Proof.
  intros HP. revert l. induction config as [|r config IH]; intros l Hl He; [done|]. unfold parse_config in *. simpl in *.
  pose proof (dnsrule_errors l r). pose proof (parse_config_errors config (dnsrule l r)). unfold parse_config in *.
  apply IH; [apply dnsrule_reading; [done..|lia] | lia].
Qed.

Lemma remove_id_notin id l : id ∉ l -> remove_id id l = l.
Proof.
  unfold remove_id. induction l as [|x l IH]; intros Hn; [done|]. apply not_elem_of_cons in Hn as [Hx Hn].
  rewrite filter_cons_True by auto. by rewrite IH.
Qed.

Lemma length_remove_id id l : NoDup l -> id ∈ l -> Z.of_nat (length (remove_id id l)) = Z.of_nat (length l) - 1.
Proof.
  induction l as [|x l IH]; intros Hn Hin; [by apply elem_of_nil in Hin|].
  apply NoDup_cons_1_1 in Hn as Hx. apply NoDup_cons_1_2 in Hn. destruct (decide (x = id)) as [-> |Hne].
  - unfold remove_id. rewrite filter_cons_False by auto. fold (remove_id id l). rewrite remove_id_notin by done. simpl. lia.
  - unfold remove_id in *. rewrite filter_cons_True by done. apply elem_of_cons in Hin as [->|Hin]; [done|]. simpl. specialize (IH Hn Hin). lia.
Qed.

Lemma host_del_inv a pool threads fresh :
  wired (a :: pool) threads fresh -> data_ok (a :: pool) threads ->
  wired pool (host_del a threads) fresh /\ data_ok pool (host_del a threads).
Proof.
  intros [H1 H2 H3 H4 H5 H6 H7 H8] [D1 D2 D3 D4].
  assert (Hit : forall x, x ∈ host_del a threads -> exists y, y ∈ threads /\ th_id x = th_id y /\ rnh x = rnh y /\
    (host a = Some (th_id y) /\ actions x = remove_id (act_id a) (actions y) /\ refcnt x = refcnt y - 1 \/
     host a <> Some (th_id y) /\ actions x = actions y /\ refcnt x = refcnt y)).
  { intros x (y & -> & Hy)%list_elem_of_fmap_1. exists y. case_bool_decide; simpl; auto 10. }
  simpl in H1. apply NoDup_cons_1_1 in H1 as Hni. apply NoDup_cons_1_2 in H1.
  assert (Hne : forall x, x ∈ pool -> act_id x <> act_id a).
  { intros x Hx E. apply Hni. rewrite <- E. by apply list_elem_of_fmap_2. }
  split; split; try done; try (intros; apply H3 || apply H5 || apply D2 || apply D3; by right).
  - unfold host_del. rewrite map_map. erewrite map_ext; [exact H2|]. intros x. by case_bool_decide.
  - intros x (y & Hy & -> & _)%Hit. auto.
  - intros x i (y & Hy & -> & _ & Hxy)%Hit. destruct Hxy as [(Eh & -> & _)|(Eh & -> & _)].
    + unfold remove_id. rewrite list_elem_of_filter, H6 by done. split.
      * intros [Hi (z & [-> |Hz]%elem_of_cons & <- & E)]; [done | eauto].
      * intros (z & Hz & <- & E). split; [by apply Hne|]. exists z. split; [by right | done].
    + rewrite H6 by done. split.
      * intros (z & [-> |Hz]%elem_of_cons & <- & E); [done | eauto].
      * intros (z & Hz & <- & E). exists z. split; [by right | done].
  - intros x (y & Hy & _ & _ & [(_ & -> & _)|(_ & -> & _)])%Hit; [|auto]. eapply sublist_NoDup; [by apply H7|]. apply sublist_filter.
  - intros x (y & Hy & _ & _ & [(Eh & -> & ->)|(_ & -> & ->)])%Hit; [|auto].
    rewrite length_remove_id, H8; [done | done | auto |]. apply H6; [done|]. exists a. split; [left | done].
  - intros x (y & Hy & _ & -> & _)%Hit. auto.
  - intros x z Hx Hz E. destruct (Hit z Hz) as (y & Hy & Ei & Er & _). rewrite Ei in E.
    destruct (D4 x y) as [P1 P2]; [by right | done | done |]. unfold informed, has_news in *. rewrite Er. done.
Qed.

Section merge.
Context `{Kernel}.

Lemma action_del_inv a pool threads fresh st threads' st' :
  wired (a :: pool) threads fresh -> data_ok (a :: pool) threads ->
  action_del a threads st = Ok (threads', st') -> wired pool threads' fresh /\ data_ok pool threads'.
Proof.
  intros Hw Hd E. unfold action_del in E. destruct (table_cleanup _ _ _) as [[[]]|]; [|done]. simplify_eq/=.
  by apply host_del_inv.
Qed.

Lemma clear_config_inv l : forall rest threads fresh st threads' st',
  wired (l ++ rest) threads fresh -> data_ok (l ++ rest) threads ->
  clear_config l threads st = Ok (threads', st') -> wired rest threads' fresh /\ data_ok rest threads'.
Proof.
  induction l as [|a l IH]; intros rest threads fresh st threads' st' Hw Hd E; simpl in *; [by simplify_eq|].
  destruct (action_del a threads st) as [[t1 s1]|] eqn:E1; [|done].
  destruct (action_del_inv _ _ _ _ _ _ _ Hw Hd E1) as [Hw' Hd']. by eapply IH.
Qed.

Lemma take_old_perm a tmp old tmp' : take_old a tmp = Some (old, tmp') -> tmp ≡ₚ old :: tmp'.
Proof.
  revert tmp'. induction tmp as [|t tmp IH]; intros tmp' E; simpl in E; [done|].
  destruct (same_merge a t); [by simplify_eq|]. destruct (take_old a tmp) as [[x l]|]; [|done]. simplify_eq/=.
  rewrite (IH l eq_refl). constructor.
Qed.

Lemma merge_loop_inv new : forall tmp al threads fresh st tmp' al' threads' st',
  wired (new ++ tmp ++ al) threads fresh -> data_ok (new ++ tmp ++ al) threads ->
  merge_loop new tmp al threads st = Ok (tmp', al', threads', st') ->
  wired (tmp' ++ al') threads' fresh /\ data_ok (tmp' ++ al') threads'.
Proof.
  induction new as [|a new IH]; intros tmp al threads fresh st tmp' al' threads' st' Hw Hd E; simpl in *; [by simplify_eq|].
  destruct (take_old a tmp) as [[old rest]|] eqn:Et.
  - apply take_old_perm in Et. destruct (action_del a threads st) as [[t1 s1]|] eqn:E1; [|done].
    destruct (action_del_inv _ _ _ _ _ _ _ Hw Hd E1) as [Hw' Hd'].
    assert (Hp : new ++ tmp ++ al ≡ₚ new ++ rest ++ old :: al).
    { rewrite Et. simpl. by rewrite Permutation_middle. }
    rewrite Hp in Hw', Hd'. by eapply IH.
  - assert (Hp : a :: new ++ tmp ++ al ≡ₚ new ++ tmp ++ a :: al).
    { by rewrite Permutation_middle, (Permutation_middle tmp). }
    rewrite Hp in Hw, Hd. by eapply IH.
Qed.

Lemma create_inv (g : thread_host -> thread_host) pool threads fresh :
  (forall t, th_id (g t) = th_id t /\ refcnt (g t) = refcnt t /\ actions (g t) = actions t /\ rnh (g t) = rnh t) ->
  wired pool threads fresh -> data_ok pool threads ->
  wired (map action_create pool) (map g threads) fresh /\ data_ok (map action_create pool) (map g threads).
Proof.
  intros Hg Hw Hd. assert (Hc : forall a, act_id (action_create a) = act_id a /\ host (action_create a) = host a).
  { intros a. unfold action_create. by destruct (act_state a). }
  split.
  - apply wired_map; [auto | intros t _; destruct (Hg t) as (? & ? & ? & _); auto | done].
  - apply data_map; [auto | intros t _; by destruct (Hg t) as (? & _) | | |].
    + intros t Ht. destruct (Hg t) as (_ & _ & _ & ->). by apply Hd.
    + intros a Ha. pose proof (d_act _ _ Hd a Ha) as [A1 A2 A3 A4]. pose proof (d_sem _ _ Hd a Ha).
      unfold action_create. destruct (act_state a); by split.
    + intros a t Ha Ht E. destruct (d_pair _ _ Hd a t Ha Ht E) as [P1 P2].
      destruct (Hg t) as (_ & _ & _ & Er). unfold informed, has_news in *. rewrite Er. unfold action_create.
      destruct (act_state a) eqn:Es; simpl; (split; [done|]); rewrite ?Es; tauto.
Qed.

Lemma created a : act_state (action_create a) <> THR_STOPPED.
Proof. unfold action_create. destruct (act_state a) eqn:E; simpl; congruence. Qed.

Lemma merge_config_inv config s s' : inv s -> merge_config config s = Ok (Some s') -> inv s'.
Proof.
  intros (Hw & Hd & _) E. unfold merge_config in E.
  set (l := parse_config _ _) in E. destruct (errors l) eqn:He; [|done].
  assert (Hl : lists_ok (action_list s) l).
  { apply parse_config_inv; [|done]. unfold lists_ok. simpl. by rewrite app_nil_r. }
  destruct Hl as [Hwl Hdl].
  destruct (merge_loop _ _ _ _ _) as [[[[tmp al] t1] s1]|] eqn:Em; [|done]. cbn [mbind outcome_bind] in E.
  apply (merge_loop_inv _ _ _ _ (fresh l)) in Em as [Hw1 Hd1];
    [| by rewrite app_nil_r, (comm (++)) | by rewrite app_nil_r, (comm (++))].
  destruct (clear_config tmp t1 s1) as [[t2 s2]|] eqn:Ec; [|done].
  destruct (clear_config_inv tmp al t1 (fresh l) s1 t2 s2 Hw1 Hd1 Ec) as [Hw2 Hd2].
  cbn [mbind outcome_bind] in E. injection E as <-. unfold inv. cbn [action_list thread_list next_id]. rewrite map_map.
  destruct (create_inv (fun t => wake (check_hostname_create t)) al t2 (fresh l)) as [H1 H2]; [|done..|].
  - intros t. unfold wake, check_hostname_create. destruct (th_state t); simpl; try done; by destruct (th_state t).
  - split; [done|]. split; [done|]. intros a (x & -> & _)%list_elem_of_fmap_1. apply created.
Qed.

Lemma lists_ok_nil : lists_ok [] {| acts := []; threads := []; fresh := 0; errors := 0 |}.
Proof.
  split; simpl.
  - split; try (intros ? Hin; by apply elem_of_nil in Hin); try apply NoDup_nil_2. intros ? ? Hin; by apply elem_of_nil in Hin.
  - split; try (intros ? Hin; by apply elem_of_nil in Hin). intros ? ? Hin; by apply elem_of_nil in Hin.
Qed.

Lemma fd_init_inv config st s : fd_init config st = Some s -> inv s.
Proof.
  unfold fd_init. set (l := parse_config _ _). destruct (errors l) eqn:He; [|done]. intros [= <-].
  assert (Hl : lists_ok [] l).
  { apply parse_config_inv; [apply lists_ok_nil | done]. }
  destruct Hl as [Hwl Hdl]. simpl in *. unfold inv. cbn [action_list thread_list next_id].
  destruct (create_inv check_hostname_create (acts l) (threads l) (fresh l)) as [H1 H2]; [|done..|].
  - intros t. unfold check_hostname_create. by destruct (th_state t).
  - split; [done|]. split; [done|]. intros a (x & -> & _)%list_elem_of_fmap_1. apply created.
Qed.

Lemma action_del_held P a pool threads st threads' st' :
  action_del a threads st = Ok (threads', st') -> held P pool threads -> held P pool threads'.
Proof.
  intros E. unfold action_del in E. destruct (table_cleanup _ _ _) as [[[]]|]; [|done]. simplify_eq/=.
  apply held_hosts. intros t Ht. case_bool_decide; auto.
Qed.

Lemma clear_config_held P l : forall pool threads st threads' st',
  clear_config l threads st = Ok (threads', st') -> held P pool threads -> held P pool threads'.
Proof.
  induction l as [|a l IH]; intros pool threads st threads' st' E Hh; simpl in *; [by simplify_eq|].
  destruct (action_del a threads st) as [[t1 s1]|] eqn:E1; [|done]. eapply IH; [exact E|]. by eapply action_del_held.
Qed.

Lemma merge_loop_held P new : forall tmp al threads st tmp' al' threads' st',
  merge_loop new tmp al threads st = Ok (tmp', al', threads', st') ->
  held P (new ++ tmp ++ al) threads -> held P al' threads'.
Proof.
  induction new as [|a new IH]; intros tmp al threads st tmp' al' threads' st' E Hh; simpl in *.
  - simplify_eq. eapply held_mono; [| |exact Hh]; [|done]. intros x. rewrite elem_of_app. auto.
  - destruct (take_old a tmp) as [[old rest]|] eqn:Et.
    + destruct (action_del a threads st) as [[t1 s1]|] eqn:E1; [|done]. apply take_old_perm in Et.
      eapply IH; [exact E|]. eapply action_del_held; [exact E1|]. eapply held_mono; [| |exact Hh]; [|done].
      intros x. rewrite elem_of_cons, !elem_of_app, Et, !elem_of_cons. tauto.
    + eapply IH; [exact E|]. eapply held_mono; [| |exact Hh]; [|done].
      intros x. rewrite elem_of_cons, !elem_of_app, elem_of_cons. tauto.
Qed.

Lemma create_held P (g : thread_host -> thread_host) pool threads :
  (forall t, th_id (g t) = th_id t /\ (th_state t <> THR_DYING -> th_state (g t) <> THR_DYING)) ->
  held P pool threads -> held P (map action_create pool) (map g threads).
Proof.
  intros Hg Hh. apply held_map; [| |done].
  - intros a _. unfold action_create. split; [by destruct (act_state a)|]. split; [by destruct (act_state a)|].
    left. intros Hu. destruct (act_state a) eqn:Ea; [|exact Hu..]. destruct Hu. split; auto.
  - intros t _. destruct (Hg t). auto.
Qed.

(** Where the actions of a reload come from: [P] for an action that was there, and for one that is
    new and that has joined a host that was ending. *)
Lemma merge_held P config s s' :
  held P (action_list s) (thread_list s) ->
  wired (action_list s) (thread_list s) (next_id s) /\ data_ok (action_list s) (thread_list s) ->
  merge_config config s = Ok (Some s') ->
  (forall t id, t ∈ thread_list s -> th_state t = THR_DYING -> (next_id s <= id)%nat ->
     id ∈ map act_id (action_list s') -> P id (Some (th_id t))) ->
  held P (action_list s') (thread_list s').
Proof.
  intros Hh Hok E HP. unfold merge_config in E. set (l := parse_config _ _) in E. destruct (errors l) eqn:He; [|done].
  set (Q := fun id h => P id h \/ (next_id s <= id)%nat /\ exists t, t ∈ thread_list s /\ th_state t = THR_DYING /\ h = Some (th_id t)).
  assert (Hl : reading Q (thread_list s) (next_id s) (action_list s) l).
  { apply parse_config_reading; [intros t id Ht Es Hid; right; eauto | | done].
    split; simpl; [unfold lists_ok; simpl; by rewrite app_nil_r | | intros t Ht Es; eauto | done].
    rewrite app_nil_r. eapply held_mono; [| |exact Hh]; [done|]. intros a _ Ha. by left. }
  apply rd_held in Hl.
  destruct (merge_loop _ _ _ _ _) as [[[[tmp al] t1] s1]|] eqn:Em; [|done]. cbn [mbind outcome_bind] in E.
  apply (merge_loop_held Q) in Em; [|by eapply held_mono; [| |exact Hl]; [|done];
    intros x; rewrite app_nil_r, !elem_of_app; tauto].
  destruct (clear_config tmp t1 s1) as [[t2 s2]|] eqn:Ec; [|done]. apply (clear_config_held Q) with (pool := al) in Ec; [|done].
  cbn [mbind outcome_bind] in E. injection E as <-. cbn [action_list thread_list] in *. rewrite map_map.
  apply (held_mono Q P (map action_create al)); [done | |].
  - intros a Ha [HPa|(Hid & t & Ht & Es & Eh)]; [done|]. rewrite Eh. apply HP; [done.. |]. by apply list_elem_of_fmap_2.
  - apply create_held; [|done]. intros t. unfold wake, check_hostname_create. destruct (th_state t) eqn:Et; simpl; rewrite ?Et; simpl; split; try done; congruence.
Qed.

Lemma init_held P config st s : fd_init config st = Some s -> held P (action_list s) (thread_list s).
Proof.
  unfold fd_init. set (l := parse_config _ _). destruct (errors l) eqn:He; [|done]. intros [= <-].
  assert (Hl : reading P [] 0 [] l).
  { apply parse_config_reading; [intros t id Ht; by apply elem_of_nil in Ht| |done].
    split; simpl; [apply lists_ok_nil | intros a Ha; by apply elem_of_nil in Ha | intros t Ht; by apply elem_of_nil in Ht | done]. }
  apply rd_held in Hl. cbn [action_list thread_list]. apply create_held; [|done].
  intros t. unfold check_hostname_create. destruct (th_state t) eqn:Et; simpl; split; try done; congruence.
Qed.

End merge.

(** ** Reachable states *)

Section reach.
Context `{Kernel} `{Resolver}.

Lemma fd_step_inv s s' : inv s -> step s s' -> inv s'.
Proof.
  intros (Hw & Hd & Hs) Hstep. destruct Hstep as
    [t junk Ht _ Hj | t answer t' update Ht _ _ Ha E | t Ht _ _ | t Ht _ _ | t Ht _ | a Ha Es | a t a' ran st Ha Es Hsem Eh E | sig | _ | config s' _ _ _ E];
    try (unfold inv, set_lists; cbn [action_list thread_list next_id]).
  - destruct (inv_host_start junk t _ _ _ Hw Hd Ht Hj). auto.
  - destruct (inv_host_round answer t t' update _ _ _ Hw Hd Ht Ha E). split; [done|]. split; [done|].
    intros a (x & -> & Hx)%list_elem_of_fmap_1. case_bool_decide; [destruct (_ && _)|]; simpl; auto.
  - destruct (inv_host id sem_clockwait t _ _ _ Hw Hd Ht) as [H1 H2]; try done; [by apply (d_host _ _ Hd t Ht)|].
    rewrite map_id in H1, H2. auto.
  - destruct (inv_host id check_hostname_leave t _ _ _ Hw Hd Ht) as [H1 H2]; try done; [by apply (d_host _ _ Hd t Ht)|].
    rewrite map_id in H1, H2. auto.
  - destruct (wired_remove (th_id t) _ _ _ Hw Hd). auto.
  - destruct (inv_action (fun a => with_thread (ACT_FORCE a) THR_RUNNING (act_sem a) a) a _ _ _ Hw Hd Ha) as [H1 H2]; try done.
    + destruct (d_act _ _ Hd a Ha). by split.
    + exact (d_sem _ _ Hd a Ha).
    + intros t Ht Eh. destruct (d_pair _ _ Hd a t Ha Ht Eh) as [P1 P2]. split; [done|]. unfold informed in *. simpl. rewrite Es in P2. intuition congruence.
    + split; [done|]. split; [done|]. intros x (y & -> & Hy)%list_elem_of_fmap_1. case_bool_decide; [done | auto].
  - apply host_of_spec in Eh as [Ht Eh]. destruct (d_pair _ _ Hd a t Ha Ht Eh) as [P1 _].
    destruct (check_action_round_spec t a _ a' ran st (d_host _ _ Hd t Ht) (d_act _ _ Hd a Ha) P1 E)
      as (R1 & R2 & R3 & (E1 & E2 & E3 & E4 & _) & _).
    destruct (inv_action (fun _ => a') a _ _ _ Hw Hd Ha) as [H1 H2]; try done; [lia | |].
    + intros t' Ht' Eh'. assert (t' = t) as ->; [|split; [done | unfold informed; auto]].
      apply (nodup_id th_id (thread_list s)); [apply Hw | done | done | congruence].
    + split; [done|]. split; [done|]. intros x (y & -> & Hy)%list_elem_of_fmap_1. case_bool_decide; [rewrite E3|]; auto.
  - destruct sig; done.
  - done.
  - eapply merge_config_inv; [|exact E]. done.
Qed.

Lemma fd_reachable_inv s : reachable s -> inv s.
Proof. induction 1 as [config st s E | s s' _ IH Hst]; [by eapply fd_init_inv | by eapply fd_step_inv]. Qed.

Lemma pending_or_same s a t : reachable s -> a ∈ action_list s -> host_of a (thread_list s) = Some t ->
  0 < act_sem a \/ ACT_FORCE a = true \/ has_news t \/
  addr_set (act_rnh a) = addr_set (rnh t) /\ (tablename a <> None -> addr_set (tbl_rnh a) = addr_set (rnh t)).
Proof.
  intros (Hw & Hd & Hs)%fd_reachable_inv Ha [Ht Eh]%host_of_spec.
  destruct (d_pair _ _ Hd a t Ha Ht Eh) as [_ [P|[P|[P|[P|P]]]]]; auto; [by destruct (Hs a Ha)|].
  right. right. right. split; [done|]. intros Hn. by rewrite (ok_same _ (d_act _ _ Hd a Ha)).
Qed.

(** The action was made by a reload while the thread of its host was ending. *)
Definition joined_ending (id : nat) (h : option nat) : Prop :=
  exists s0 config s1 t, reachable s0 /\ step s0 s1 /\ merge_config config s0 = Ok (Some s1) /\
    t ∈ thread_list s0 /\ th_state t = THR_DYING /\ h = Some (th_id t) /\
    (next_id s0 <= id)%nat /\ id ∈ map act_id (action_list s1).

Lemma step_held s s' : reachable s -> step s s' ->
  held joined_ending (action_list s) (thread_list s) -> held joined_ending (action_list s') (thread_list s').
Proof.
  intros Hre Hst Hh. pose proof (fd_reachable_inv s Hre) as (Hw & Hd & Hs). pose proof Hst as Hstep. destruct Hst as
    [t junk Ht Es Hj | t answer t' update Ht Es _ Ha E | t Ht Es _ | t Ht Es Hr | t Ht Es | a Ha Es | a t a' ran st Ha Es Hsem Eh E
    | sig | _ | config s' _ _ _ E]; try (unfold set_lists; cbn [action_list thread_list]).
  - apply held_hosts; [|done]. intros x Hx. case_bool_decide; [|auto]. split; [by destruct (start_same junk x)|].
    left. intros _. by rewrite start_runs.
  - apply (held_round _ t answer _ _ _ _ (next_id s)); try done. by rewrite Es.
  - apply held_hosts; [|done]. intros x Hx. case_bool_decide; auto.
  - apply held_hosts; [|done]. intros x Hx. case_bool_decide as Ei; [|auto]. split; [done|]. right. rewrite Ei. exact (unused_host _ _ _ t Hw Ht Hr).
  - eapply held_remove; [apply Hw | done..].
  - apply held_actions; [|done]. intros x Hx. case_bool_decide as Ex; [|auto]. split; [done|]. split; [done|].
    assert (x = a) as -> by (by apply (nodup_id act_id (action_list s)); [apply Hw|..]).
    intros [U1 U2 U3 U4]. split; try done. right. destruct U4; [congruence | done].
  - apply held_actions; [|done]. intros x Hx. case_bool_decide as Ex; [|auto].
    assert (x = a) as -> by (by apply (nodup_id act_id (action_list s)); [apply Hw|..]).
    apply check_action_round_same in E as (-> & ->). split; [done|]. split; [done | intros [Hz _ _ _]; lia].
  - by destruct sig.
  - done.
  - eapply merge_held; [done | split; [exact Hw | exact Hd] | exact E |]. intros t id Ht Et Hid Hin.
    exists s, config, s', t. auto 10.
Qed.

Lemma reachable_held s : reachable s -> held joined_ending (action_list s) (thread_list s).
Proof.
  induction 1 as [config st s E | s s' Hre IH Hst]; [by eapply init_held | by eapply step_held].
Qed.

Lemma live_host_of s a : reachable s -> live_host a (thread_list s) ->
  exists t, host_of a (thread_list s) = Some t /\ th_state t <> THR_DYING.
Proof.
  intros (Hw & _)%fd_reachable_inv (t & Ht & Eh & Es). destruct (host_of a (thread_list s)) as [x|] eqn:Ex.
  - exists x. split; [done|]. apply host_of_spec in Ex as [Hx Eh'].
    by rewrite (nodup_id th_id (thread_list s) x t) by (apply Hw || congruence || done).
  - apply list_elem_of_In in Ht. pose proof (List.find_none _ _ Ex t Ht) as Hf. cbv beta in Hf.
    by rewrite bool_decide_eq_true_2 in Hf.
Qed.

Lemma action_live s a : reachable s -> a ∈ action_list s -> live_host a (thread_list s) \/
  joined_ending (act_id a) (host a) /\ act_sem a = 0 /\ ACT_FORCE a = true /\ act_rnh a = [] /\ tbl_rnh a = [].
Proof.
  intros Hre Ha. destruct (reachable_held s Hre a Ha) as [Hl|[[U1 U2 U3 U4] HJ]]; [by left | right].
  destruct (fd_reachable_inv s Hre) as (_ & _ & Hs). destruct U4 as [U4|U4]; [by destruct (Hs a Ha) | done].
Qed.


(** C27. The reference counters count: in every reachable state the counter of a host is the number of
    the actions that point to it, and the list of the host names exactly these; so when the thread
    of a host reads [refcnt == 0] and decides to end, no action uses the host. *)
Theorem refcnt_counts s t : reachable s -> t ∈ thread_list s ->
  refcnt t = Z.of_nat (length (filter (fun a => host a = Some (th_id t)) (action_list s))) /\
  forall i, i ∈ actions t <-> exists a, a ∈ action_list s /\ act_id a = i /\ host a = Some (th_id t).
Proof.
  intros (Hw & _)%fd_reachable_inv Ht. split; [|intros i; by apply Hw].
  rewrite (w_refs _ _ _ Hw t Ht). f_equal.
  rewrite <- (length_map act_id (filter _ _)). apply Permutation_length. apply NoDup_Permutation.
  - by apply Hw.
  - eapply sublist_NoDup; [apply Hw|]. apply (fmap_sublist act_id), sublist_filter.
  - intros i. rewrite (w_members _ _ _ Hw t i Ht). split.
    + intros (a & Ha & <- & E). apply list_elem_of_fmap_2. by apply list_elem_of_filter.
    + intros (a & -> & Ha)%list_elem_of_fmap_1. apply list_elem_of_filter in Ha as [E Ha]. eauto.
Qed.

(** C8. What a look-up finds reaches the tables.  After a round of a host, every action of the host
    that did not have these addresses already is woken, and the next round of the action, if no
    address faults, leaves in the lists of the action and of its table exactly the static addresses
    of the host and those of the answer, and runs the command. *)
Theorem lookup_reaches_table s t answer t' update a s' :
  reachable s -> t ∈ thread_list s -> answer_wf answer -> mask t = -1 ->
  check_hostname_round answer t = (t', update) -> a ∈ action_list s -> host a = Some (th_id t) ->
  check_action_round t' a (fsys s) = Ok s' ->
  exists a' st, s' = (a', cmd a, st) /\
    addr_set (act_rnh a') = static_set (rnh t) ∪ answer_set answer /\
    (tablename a <> None -> addr_set (tbl_rnh a') = static_set (rnh t) ∪ answer_set answer) /\
    (exists b, b ∈ wake_actions (actions t) update (action_list s) /\ act_id b = act_id a /\
       (0 < act_sem b \/ addr_set (act_rnh a) = static_set (rnh t) ∪ answer_set answer)).
Proof.
  intros (Hw & Hd & Hs)%fd_reachable_inv Ht Ha Hm E Hin Eh Er. destruct s' as [[a' ran] st].
  destruct (check_hostname_round_spec _ _ _ _ (d_host _ _ Hd t Ht) Ha E) as (H1 & H2 & H3 & H4 & H5 & E').
  rewrite Hm in H2. simpl in H2. destruct (d_pair _ _ Hd a t Hin Ht Eh) as [P1 P2].
  destruct (check_action_round_spec t' a _ a' ran st (settled_calm _ H1) (d_act _ _ Hd a Hin) ltac:(by etrans) Er)
    as (R1 & R2 & R3 & (_ & _ & _ & _ & E5) & ->).
  exists a', st. split; [done|]. rewrite R2, H2. split; [done|]. split.
  { intros Hn. rewrite (ok_same _ R1) by (by rewrite E5). by rewrite R2. }
  eexists. split; [by apply (list_elem_of_fmap_2 _ _ a)|]. simpl.
  rewrite bool_decide_eq_true_2 by (apply (w_members _ _ _ Hw t); eauto).
  pose proof (d_sem _ _ Hd a Hin) as Hsem.
  destruct (Z.eqb_spec update 0) as [-> |Hne]; [destruct (ACT_FORCE a) eqn:Ef|]; simpl; (split; [done|]); try (left; simpl; lia).
  destruct (H5 eq_refl) as [Hnn Heq]. destruct P2 as [P|[P|[P|[P|P]]]]; try tauto; [by destruct (Hs a Hin)|congruence|].
  right. by rewrite P, <- Heq, H2.
Qed.

End reach.

(** ** Reloading *)

(** What [merge_config] compares, for an action and for a rule. *)
Definition akey (a : action) : action_type * string * option string * option string :=
  (type a, act_hostname a, tablename a, anchor a).
Definition rule_key (r : rule) : action_type * string * option string * option string :=
  match r with
  | TableRule ty hn tn an _ _ => (ty, hn, Some tn, an)
  | CmdRule hn _ => (CMD_TYPE, hn, None, None)
  end.

Lemma same_merge_key a t : same_merge a t = true <-> akey t = akey a.
Proof.
  unfold same_merge, akey. rewrite !andb_true_iff, !bool_decide_eq_true, String.eqb_eq. split.
  - intros [[[-> ->] ->] ->]. done.
  - intros [= -> -> -> ->]. done.
Qed.

Lemma add_rule_key ty hn tn an pp cm l :
  errors (add_rule ty hn tn an pp cm l) = errors l ->
  exists a, acts (add_rule ty hn tn an pp cm l) = acts l ++ [a] /\ akey a = (ty, hn, tn, an) /\ newborn a.
Proof.
  unfold add_rule, action_add. destruct (List.find _ _); [simpl; lia|]. destruct (host_add _ _ _) as [[h ts]|]; [|simpl; lia].
  intros _. eexists. split; [reflexivity|]. split; [reflexivity|]. by split.
Qed.

Lemma dnsrule_key l r : errors (dnsrule l r) = errors l ->
  exists a, acts (dnsrule l r) = acts l ++ [a] /\ akey a = rule_key r /\ newborn a.
Proof.
  destruct r as [ty hn tn an pp cm|hn [cm|]]; simpl; [|apply add_rule_key | simpl; lia].
  destruct (bool_decide _); [simpl; lia|]. destruct (_ && _); [simpl; lia|]. apply add_rule_key.
Qed.

(** A configuration that is accepted gives one action for every rule, in order. *)
Lemma parse_config_keys config : forall l, errors (parse_config config l) = errors l ->
  exists new, acts (parse_config config l) = acts l ++ new /\ map akey new = map rule_key config /\ Forall newborn new.
Proof.
  induction config as [|r config IH]; intros l He; unfold parse_config in *; simpl in *.
  - exists []. by rewrite app_nil_r.
  - pose proof (dnsrule_errors l r). pose proof (parse_config_errors config (dnsrule l r)). unfold parse_config in *.
    destruct (IH (dnsrule l r)) as (new & E1 & E2 & E3); [lia|].
    destruct (dnsrule_key l r) as (a & E4 & E5 & E6); [lia|]. exists (a :: new).
    rewrite E1, E4, <- app_assoc. simpl. rewrite E2, E5. auto.
Qed.

Lemma take_old_key a tmp old tmp' : take_old a tmp = Some (old, tmp') -> akey old = akey a.
Proof.
  revert tmp'. induction tmp as [|t tmp IH]; intros tmp' E; simpl in E; [done|].
  destruct (same_merge a t) eqn:Es; [simplify_eq; by apply same_merge_key|].
  destruct (take_old a tmp) as [[x l]|]; [|done]. simplify_eq/=. by eapply IH.
Qed.

Lemma take_old_found a tmp : akey a ∈ map akey tmp -> exists old tmp', take_old a tmp = Some (old, tmp').
Proof.
  induction tmp as [|t tmp IH]; intros Hin; simpl in *; [by apply elem_of_nil in Hin|].
  destruct (same_merge a t) eqn:Es; [eauto|]. apply elem_of_cons in Hin as [E|Hin].
  - symmetry in E. apply same_merge_key in E. congruence.
  - destruct (IH Hin) as (old & tmp' & ->). simpl. eauto.
Qed.

Section reload.
Context `{Kernel}.

Lemma merge_loop_keys new : forall tmp al threads st tmp' al' threads' st',
  merge_loop new tmp al threads st = Ok (tmp', al', threads', st') ->
  map akey al' ≡ₚ map akey new ++ map akey al /\
  forall x, x ∈ al' -> x ∈ new \/ x ∈ tmp \/ x ∈ al.
Proof.
  induction new as [|a new IH]; intros tmp al threads st tmp' al' threads' st' E; simpl in *; [by simplify_eq; auto|].
  destruct (take_old a tmp) as [[old rest]|] eqn:Et.
  - destruct (action_del a threads st) as [[t1 s1]|] eqn:E1; [|done]. apply IH in E as [Hp Hx]. split.
    + rewrite Hp. simpl. by rewrite (take_old_key _ _ _ _ Et), Permutation_middle.
    + apply take_old_perm in Et. intros x [Hx'|[Hx'|[-> |Hx']%elem_of_cons]]%Hx; rewrite Et, !elem_of_cons; auto.
  - apply IH in E as [Hp Hx]. split.
    + rewrite Hp. simpl. by rewrite Permutation_middle.
    + intros x [Hx'|[Hx'|[-> |Hx']%elem_of_cons]]%Hx; rewrite elem_of_cons; auto.
Qed.

(** When every action is kept, nothing is asked of the kernel. *)
Lemma merge_loop_kept new : forall tmp al threads st,
  Forall newborn new -> map akey new ≡ₚ map akey tmp ->
  exists al' threads', merge_loop new tmp al threads st = Ok ([], al', threads', st) /\ al' ≡ₚ tmp ++ al.
Proof.
  induction new as [|a new IH]; intros tmp al threads st Hn Hp; simpl in *.
  - apply Permutation_nil in Hp. apply map_eq_nil in Hp. subst tmp. eauto.
  - apply Forall_cons_1 in Hn as [Ha Hn].
    destruct (take_old_found a tmp) as (old & rest & Et); [rewrite <- Hp; left|]. rewrite Et.
    pose proof (take_old_key _ _ _ _ Et) as Ek. apply take_old_perm in Et.
    unfold action_del, table_cleanup. rewrite (nb_tbl _ Ha). simpl.
    destruct (IH rest (old :: al) (host_del a threads) st Hn) as (al' & ts & -> & Hal).
    + rewrite Et in Hp. simpl in Hp. rewrite Ek in Hp. by eapply Permutation_cons_inv.
    + exists al', ts. split; [done|]. rewrite Hal, Et. simpl. by rewrite Permutation_middle.
Qed.

Lemma action_create_key a : akey (action_create a) = akey a.
Proof. unfold action_create. by destruct (act_state a). Qed.

(** C9. A reload follows the configuration: when it is accepted and the merge succeeds, there is one
    action for every rule of the new configuration (by type, host name, table and anchor), and an
    action that has addresses already is one of the old ones, unchanged. *)
Theorem reload_follows_config config s s' :
  merge_config config s = Ok (Some s') ->
  map akey (action_list s') ≡ₚ map rule_key config /\
  forall a, a ∈ action_list s' -> tbl_rnh a <> [] -> act_state a <> THR_STARTING -> a ∈ action_list s.
Proof.
  unfold merge_config. set (l := parse_config _ _). destruct (errors l) eqn:He; [|done].
  destruct (merge_loop _ _ _ _ _) as [[[[tmp al] t1] s1]|] eqn:Em; [|done]. cbn [mbind outcome_bind].
  destruct (clear_config tmp t1 s1) as [[t2 s2]|] eqn:Ec; [|done]. intros [= <-]. cbn [action_list].
  destruct (parse_config_keys config {| acts := []; threads := thread_list s; fresh := next_id s; errors := 0 |} He) as (new & E1 & E2 & E3).
  simpl in E1. fold l in E1. apply merge_loop_keys in Em as [Hp Hx]. rewrite E1 in Hp, Hx. split.
  - rewrite map_map. erewrite map_ext; [|apply action_create_key]. by rewrite Hp, E2, app_nil_r.
  - intros a (x & -> & Hin)%list_elem_of_fmap_1 Ht Hst. apply Hx in Hin as [Hin|[Hin|Hin]]; [| |by apply elem_of_nil in Hin].
    + apply list_elem_of_In in Hin. rewrite List.Forall_forall in E3. apply E3 in Hin as [B1 B2 B3 B4].
      unfold action_create in Ht. by rewrite B3 in Ht; simpl in Ht.
    + unfold action_create in *. by destruct (act_state x).
Qed.

(** A reload of a configuration with the same types, names, tables and anchors disturbs nothing: every
    action stays as it is, and no request is made to the firewall.  Pipes and commands are not
    compared, so an edit of these alone has no effect. *)
Theorem reload_unchanged config s :
  (forall a, a ∈ action_list s -> act_state a <> THR_STOPPED) ->
  errors (parse_config config {| acts := []; threads := thread_list s; fresh := next_id s; errors := 0 |}) = 0%nat ->
  map rule_key config ≡ₚ map akey (action_list s) ->
  exists s', merge_config config s = Ok (Some s') /\ action_list s' ≡ₚ action_list s /\ fsys s' = fsys s.
Proof.
  intros Hs He Hk. unfold merge_config. destruct (parse_config_keys config _ He) as (new & E1 & E2 & E3).
  set (l := parse_config _ _) in *. rewrite He. simpl in E1. rewrite E1.
  destruct (merge_loop_kept new (action_list s) [] (threads l) (fsys s) E3) as (al & ts & -> & Hal); [by rewrite E2|].
  cbn [mbind outcome_bind clear_config]. eexists. split; [reflexivity|]. cbn [action_list fsys]. split; [|done].
  rewrite app_nil_r in Hal. rewrite map_same; [done|]. intros x Hx. rewrite Hal in Hx.
  unfold action_create. specialize (Hs x Hx). by destruct (act_state x).
Qed.

End reload.
