(* ===== verification/FdFaults.v ===== *)
(** filterdns: what is left in the tables when actions are deleted or the daemon ends; inputs for which it
    does not do what it means to (masks, names that are prefixes of others, look-ups that fail); and
    runs of the daemon on concrete configurations. *)
From Stdlib Require Import ZArith Lia Ascii String.
From stdpp Require Import base list gmap sets fin_sets strings numbers.
From S2P Require Import Prelude CProg FdAddr FdTables Fdns.
Open Scope string_scope.
Open Scope list_scope.
Open Scope Z_scope.

(** ** Names with a mask *)

Lemma lower_app a b : lower (a +:+ b) = lower a +:+ lower b.
Proof. induction a as [|c a IH]; simpl; congruence. Qed.

Lemma lower_length a : String.length (lower a) = String.length a.
Proof. induction a as [|c a IH]; simpl; congruence. Qed.

(** A name with a mask joins the first host whose name begins with it: [host_add] compares only the
    characters before the slash, so that "10.0.0.1/24" becomes an action of the host "10.0.0.10" if
    there is one, and is never resolved itself. *)
Theorem masked_name_joins_longer_name name m t :
  name <> "" -> has_char "/" name = false ->
  same_host (name +:+ String "/" m) t = true <-> exists rest, lower (hostname t) = lower name +:+ rest.
Proof.
  intros Hne Hn. unfold same_host. rewrite strchr_app by done.
  destruct name as [|c name]; [done|]. cbn [String.length].
  change (S (String.length name)) with (String.length (String c name)). set (n := String c name).
  unfold strncaseeq. rewrite lower_app, String.eqb_eq, <- (lower_length n), str_take_app. split.
  - intros E. destruct (str_take_rest (String.length (lower n)) (lower (hostname t))) as (r & Er).
    exists r. by rewrite <- E.
  - intros (r & ->). apply str_take_app.
Qed.

Definition demo_host : thread_host :=
  {| th_id := 1; rnh := []; hostname := "10.0.0.10"; mask := -1; mask6 := -1; th_sem := 0; refcnt := 1;
     th_state := THR_RUNNING; actions := [0%nat] |}.

Lemma masked_name_joins_longer_name_witness : same_host "10.0.0.1/24" demo_host = true.
Proof.
  apply (masked_name_joins_longer_name "10.0.0.1" "24" demo_host); [discriminate | reflexivity |].
  exists "0". reflexivity.
Defined.

Definition negative_ok (n : nat) : bool :=
  let s := sdec (- Z.of_nat n) in
  negb (has_char "/" s) && bool_decide (strtol0 s = Some (- Z.of_nat n, "")).

Lemma negative_all : forallb negative_ok (seq 2 126) = true.
Proof. vm_compute. reflexivity. Qed.

Lemma strtol0_negative m : -127 <= m < -1 -> has_char "/" (sdec m) = false /\ strtol0 (sdec m) = Some (m, "").
Proof.
  intros Hm. pose proof negative_all as Hall. rewrite forallb_forall in Hall.
  specialize (Hall (Z.to_nat (- m)) ltac:(apply in_seq; lia)). unfold negative_ok in Hall.
  rewrite Z2Nat.id, Z.opp_involutive in Hall by lia. apply andb_true_iff in Hall as [H1 H2].
  split; [by apply negb_true_iff | by eapply bool_decide_eq_true_1].
Qed.

(** A negative mask is accepted as the mask of a host, and the first IPv6 address that is entered in a
    table of pf with it makes [set_ipmask] write outside of its four words. *)
Theorem negative_mask_overflows name m a :
  -127 <= m < -1 -> sa_family a = AF_INET6 -> length a = 28%nat ->
  split_mask (name +:+ String "/" (sdec m)) = Some (name, m) /\ pfaddr (Some (m, m)) a = Fail (ArrayBounds 4).
Proof.
  intros Hm Hf Hl. destruct (strtol0_negative m Hm) as [H1 H2]. split.
  - unfold split_mask. rewrite strrchr_app, H2 by done. rewrite i32_small by lia.
    destruct (Z.ltb_spec 128 m); [lia | done].
  - unfold pfaddr. rewrite Hf. change (AF_INET6 =? AF_INET) with false. change (AF_INET6 =? AF_INET6) with true. cbn iota.
    unfold table_mask. destruct (Z.eqb_spec m (-1)); [lia|].
    assert (E : u8 m = m + 256) by (unfold u8; rewrite <- (Z.mod_add _ 1), Z.mod_small; lia).
    rewrite E. unfold set_ipmask. rewrite mask_bytes_long by lia. done.
Qed.

Lemma negative_mask_overflows_witness :
  split_mask "fe80::1/-5" = Some ("fe80::1", -5) /\
  pfaddr (Some (-5, -5)) ([28; 28] ++ repeat 0 26) = Fail (ArrayBounds 4).
Proof. apply (negative_mask_overflows "fe80::1" (-5) ([28; 28] ++ repeat 0 26)); [lia | reflexivity | reflexivity]. Defined.

(** ** Look-ups that fail *)

(** A look-up that fails empties the tables: the round after it forgets every address that is not
    static, although the addresses of the last answer could be kept until the retry. *)
Theorem failed_lookup_forgets t t' update :
  calm (rnh t) -> mask t = -1 -> check_hostname_round None t = (t', update) ->
  addr_set (rnh t') = static_set (rnh t) /\
  (~ (addr_set (rnh t) ⊆ static_set (rnh t)) -> 0 < update).
Proof.
  intros Hc Hm E. assert (Hw : answer_wf None) by done.
  destruct (check_hostname_round_spec _ _ _ _ Hc Hw E) as (H1 & H2 & H3 & H4 & H5 & _).
  rewrite Hm in H2. simpl in H2. rewrite (right_id_L ∅ (∪)) in H2. split; [done|].
  intros Hn. destruct (Z.eq_dec update 0) as [-> |]; [|lia]. exfalso. apply Hn.
  destruct (H5 eq_refl) as [_ <-]. by rewrite H2.
Qed.

(** ** Actions that are deleted *)

Section cleanup.
Context `{PfTables}.

(** Without a host the entry has the length of an address. *)
Lemma pfaddr_full a p : pfaddr None a = Ok (Some p) -> pfra_net p = 32 \/ pfra_net p = 128.
Proof.
  unfold pfaddr. destruct (sa_family a =? AF_INET); [intros [= <-]; by left|].
  destruct (sa_family a =? AF_INET6); [|done]. destruct (set_ipmask _ _); simpl; [|done]. intros [= <-]. by right.
Qed.

Lemma cleanup_keeps act l : type act = PF_TYPE -> forall er st er' st',
  table_cleanup_loop act None l er st = Ok (er', st') -> forall n an e, pfra_net e <> 32 -> pfra_net e <> 128 ->
  member (kern st') n an e <-> member (kern st) n an e.
Proof.
  intros Ht. induction l as [|x l IH]; intros er st er' st' E n an e H32 H128; simpl in E; [by simplify_eq|].
  destruct (table_del act None x st) as [[er1 st1]|] eqn:E1; [|done]. cbn [mbind outcome_bind] in E.
  rewrite (IH _ _ _ _ E) by done. clear IH E. unfold table_del, table_entry, pf_tableentry in E1. rewrite Ht in E1.
  destruct (_ || _) eqn:Eb; [by simplify_eq|]. destruct (pfaddr None (addr x)) as [[p|]|] eqn:Ep; cbn [mbind outcome_bind] in E1; [|by simplify_eq|done].
  apply orb_false_iff in Eb as [B1 B2].
  destruct (pf_retry_ok 2 false (default "" (tablename act)) (anchor act) p st B1 B2) as (st2 & E2 & Hc).
  rewrite E2 in E1. simplify_eq. rewrite (Hc n an e). apply pfaddr_full in Ep.
  split; [tauto|]. intros Hm. split; [|done]. intros [= -> -> ->]. tauto.
Qed.

(** Deleting an action leaves its masked entries in the table: the host is detached before the table
    is cleaned, so that the entries are asked for with the full length of an address, and an entry
    with a shorter one is not touched. *)
Theorem masked_entries_left a threads st threads' st' :
  type a = PF_TYPE -> action_del a threads st = Ok (threads', st') ->
  forall n an e, pfra_net e <> 32 -> pfra_net e <> 128 ->
    member (kern st') n an e <-> member (kern st) n an e.
Proof.
  intros Ht E. unfold action_del, table_cleanup in E.
  destruct (table_cleanup_loop a None (tbl_rnh a) 0 st) as [[er1 st1]|] eqn:E1; [|done]. simplify_eq/=.
  by eapply cleanup_keeps.
Qed.

(** The entries, of the full length, that an action with the list [l] of addresses has in the tables. *)
Definition entered (a : action) (l : addr_list) (n an : string) (x : pfr_addr) : Prop :=
  type a = PF_TYPE /\ n = default "" (tablename a) /\ an = default "" (anchor a)
  /\ exists e, e ∈ l /\ pfaddr None (addr e) = Ok (Some x).

(** An action of pf with names that fit, or of a command. *)
Definition cleanable (a : action) (l : addr_list) : Prop :=
  type a = CMD_TYPE \/
  type a = PF_TYPE /\ names_ok a /\ forall e, e ∈ l -> exists p, pfaddr None (addr e) = Ok (Some p).

Lemma entered_cons a e l n an x p : type a = PF_TYPE -> pfaddr None (addr e) = Ok (Some p) ->
  entered a (e :: l) n an x
  <-> (n, an, x) = (default "" (tablename a), default "" (anchor a), p) \/ entered a l n an x.
Proof.
  intros Ht Hp. split.
  - intros (_ & -> & -> & e' & [-> |He]%elem_of_cons & E); [left; congruence|].
    right. split; [done|]. eauto.
  - intros [[= -> -> ->]|(_ & -> & -> & e' & He & E)]; (split; [done|]; split; [done|]; split; [done|]).
    + exists e. split; [left|done].
    + exists e'. split; [by right|done].
Qed.

Lemma cleanup_loop_ok a l : forall er st, cleanable a l ->
  exists er' st', table_cleanup_loop a None l er st = Ok (er', st') /\
    forall n an x, member (kern st') n an x <-> member (kern st) n an x /\ ~ entered a l n an x.
Proof.
  induction l as [|e l IH]; intros er st Hc.
  { exists er, st. split; [done|]. intros n an x. split; [|tauto]. intros Hm. split; [done|].
    by intros (_ & _ & _ & e & He%elem_of_nil & _). }
  cbn [table_cleanup_loop]. destruct Hc as [Ht|(Ht & Hn & Hl)].
  - unfold table_del, table_entry. rewrite Ht. cbn [mbind outcome_bind].
    destruct (IH (-1) st) as (er' & st' & E & Hm); [by left|]. exists er', st'. split; [exact E|].
    intros n an x. rewrite Hm. unfold entered. rewrite Ht. intuition congruence.
  - destruct (Hl e) as [p Hp]; [left|].
    destruct (table_entry_ok a None e false st p Ht Hn Hp) as (st1 & E1 & Hc1).
    unfold table_del. rewrite E1. cbn [mbind outcome_bind].
    destruct (IH 0 st1) as (er' & st' & E & Hm); [right; split; [done|]; split; [done|]; intros; apply Hl; by right|].
    exists er', st'. split; [exact E|]. intros n an x. rewrite Hm, (Hc1 n an x), entered_cons by done. tauto.
Qed.

Lemma clear_config_ok l : forall threads st, (forall a, a ∈ l -> cleanable a (tbl_rnh a)) ->
  exists threads' st', clear_config l threads st = Ok (threads', st') /\
    forall n an x, member (kern st') n an x
      <-> member (kern st) n an x /\ ~ exists a, a ∈ l /\ entered a (tbl_rnh a) n an x.
Proof.
  induction l as [|a l IH]; intros threads st Hl.
  { exists threads, st. split; [done|]. intros n an x. split; [|tauto]. intros Hm. split; [done|].
    by intros (a & Ha%elem_of_nil & _). }
  cbn [clear_config]. unfold action_del, table_cleanup.
  destruct (cleanup_loop_ok a (tbl_rnh a) 0 st) as (er & st1 & -> & Hm1); [apply Hl; left|].
  cbn [mbind outcome_bind].
  destruct (IH (host_del a threads) st1) as (threads' & st' & E & Hm); [intros; apply Hl; by right|].
  exists threads', st'. split; [exact E|]. intros n an x. rewrite Hm, Hm1. split.
  - intros [[Hmem H1] H2]. split; [done|]. intros (b & [-> |Hb]%elem_of_cons & Hin); [done|]. eauto.
  - intros [Hmem H1]. split; [split; [done|]|].
    + intros Hin. apply H1. exists a. split; [left|done].
    + intros (b & Hb & Hin). apply H1. exists b. split; [by right|done].
Qed.

(** A daemon that is told to end cleans up after itself: with a kernel that does what pf(4) promises,
    the end of [merge_config] succeeds, and from the tables it deletes exactly the entries, of the
    full length of an address, of the addresses that the actions have in their tables; everything
    else in the firewall stays. *)
Theorem exit_cleans_tables s :
  (forall a, a ∈ action_list s -> cleanable a (tbl_rnh a)) ->
  exists s', merge_exit s = Ok s' /\ action_list s' = [] /\
    forall n an x, member (kern (fsys s')) n an x
      <-> member (kern (fsys s)) n an x /\ ~ exists a, a ∈ action_list s /\ entered a (tbl_rnh a) n an x.
Proof.
  intros Hl. unfold merge_exit.
  destruct (clear_config_ok (action_list s) (thread_list s) (fsys s) Hl) as (threads' & st' & -> & Hm).
  eexists. split; [reflexivity|]. split; [done|exact Hm].
Qed.

End cleanup.

(** ** Runs *)

Import Demo.

#[export] Instance demo_resolver : Resolver.
Proof. refine {| numeric6 := fun _ => None |}. done. Defined.

Definition demo_config : list rule := [TableRule PF_TYPE "example.org" "hosts" None 0 (Some "touch /tmp/changed")].
Definition demo_answer : option (list (option sockaddr)) := Some [Some (sin 10 0 0 2); None; Some (sin 10 0 0 3)].
Definition demo_empty : sys := {| dev := -1; sock := -1; kern := [] |}.
Definition junk0 : list Z := repeat 0 10.

(** The daemon after its start, and after the host has started. *)
Definition demo_state0 : fdns := default {| action_list := []; thread_list := []; next_id := 0; merge_started := false; merge_state := THR_STARTING; merge_sem := 0; fsys := demo_empty |} (fd_init demo_config demo_empty).
Definition demo_t0 : thread_host := default demo_host (thread_list demo_state0 !! 0%nat).
Definition demo_state1 : fdns :=
  set_lists (action_list demo_state0) (at_thread (th_id demo_t0) (check_hostname_start numeric6 junk0) (thread_list demo_state0))
    (fsys demo_state0) demo_state0.
Definition demo_t1 : thread_host := default demo_host (thread_list demo_state1 !! 0%nat).
Definition demo_a1 : action := default demo_act (action_list demo_state1 !! 0%nat).

Lemma demo_reachable : reachable demo_state1.
Proof.
  eapply reachable_step; [eapply (reachable_init demo_config demo_empty demo_state0); vm_compute; reflexivity|].
  apply (step_host_start demo_state0 demo_t0 junk0); [left | reflexivity | reflexivity].
Qed.

Lemma demo_answer_wf : answer_wf demo_answer.
Proof.
  intros l a [= <-] Hin. apply elem_of_cons in Hin as [[= ->]|Hin]; [reflexivity|].
  apply elem_of_cons in Hin as [Hbad|Hin]; [discriminate Hbad|]. apply list_elem_of_singleton in Hin as [= ->]. reflexivity.
Qed.


(** The race: a reload drops the rule, the thread of the host decides to end, a second reload brings
    the rule back and finds the host, and the host leaves the list. *)
Definition reload_of (config : list rule) (s : fdns) : fdns :=
  match merge_config config s with Ok (Some s') => s' | _ => s end.
Definition race1 : fdns := Eval vm_compute in reload_of [] (handle_signal SIGHUP (merge_start demo_state1)).
Definition race_t1 : thread_host := Eval vm_compute in default demo_host (thread_list race1 !! 0%nat).
Definition race2 : fdns := Eval vm_compute in
  set_lists (action_list race1) (at_thread (th_id race_t1) check_hostname_leave (thread_list race1)) (fsys race1) race1.
Definition race3 : fdns := Eval vm_compute in reload_of demo_config (handle_signal SIGHUP race2).
Definition race_t3 : thread_host := Eval vm_compute in default demo_host (thread_list race3 !! 0%nat).
Definition race4 : fdns := Eval vm_compute in
  set_lists (action_list race3) (check_hostname_remove (th_id race_t3) (thread_list race3)) (fsys race3) race3.
Definition stranded : action := Eval vm_compute in default demo_act (action_list race4 !! 0%nat).

(** The daemon gets there: the action has no host, and nothing wakes it. *)
Lemma stranded_reachable : reachable race4 /\ stranded ∈ action_list race4 /\
  host_of stranded (thread_list race4) = None /\ act_sem stranded = 0 /\ tbl_rnh stranded = [].
Proof.
  split; [|split; [left | split; [reflexivity | split; reflexivity]]].
  assert (H3 : reachable race1).
  { eapply reachable_step; [eapply reachable_step; [eapply reachable_step; [exact demo_reachable|]|]|].
    - by apply step_merge_start.
    - apply (step_signal _ SIGHUP).
    - apply (step_merge _ []); [reflexivity | reflexivity | discriminate | vm_compute; reflexivity]. }
  assert (H4 : reachable race2).
  { eapply reachable_step; [exact H3|]. apply (step_host_leave race1 race_t1); [left | reflexivity | reflexivity]. }
  assert (H5 : reachable race3).
  { eapply reachable_step; [eapply reachable_step; [exact H4 | apply (step_signal _ SIGHUP)]|].
    apply (step_merge _ demo_config); [reflexivity | reflexivity | discriminate | vm_compute; reflexivity]. }
  eapply reachable_step; [exact H5|]. apply (step_host_remove race3 race_t3); [left | reflexivity].
Qed.

Lemma refcnt_counts_witness :
  refcnt demo_t1 = Z.of_nat (length (filter (fun a => host a = Some (th_id demo_t1)) (action_list demo_state1))).
Proof. apply (refcnt_counts demo_state1 demo_t1); [exact demo_reachable | left]. Defined.

Definition demo_t2 : thread_host := (check_hostname_round demo_answer demo_t1).1.
Definition demo_run : action * option string * sys :=
  match check_action_round demo_t2 demo_a1 (fsys demo_state1) with Ok r => r | Fail _ => (demo_act, None, demo_empty) end.

Lemma lookup_reaches_table_witness :
  demo_run.1.2 = Some "touch /tmp/changed" /\
  addr_set (tbl_rnh demo_run.1.1) = static_set (rnh demo_t1) ∪ answer_set demo_answer.
Proof.
  destruct (lookup_reaches_table demo_state1 demo_t1 demo_answer demo_t2 2 demo_a1 demo_run) as (a' & st & E & _ & Ht & _).
  - exact demo_reachable.
  - left.
  - exact demo_answer_wf.
  - reflexivity.
  - vm_compute. reflexivity.
  - left.
  - reflexivity.
  - vm_compute. reflexivity.
  - rewrite E. split; [reflexivity|]. apply Ht. discriminate.
Defined.

Lemma reload_follows_config_witness : exists s', merge_config demo_config demo_state1 = Ok (Some s') /\
  map akey (action_list s') ≡ₚ map rule_key demo_config.
Proof.
  eexists. split; [vm_compute; reflexivity|].
  refine (proj1 (reload_follows_config demo_config demo_state1 _ _)). vm_compute. reflexivity.
Defined.

Definition edited_config : list rule := [TableRule PF_TYPE "example.org" "hosts" None 0 (Some "logger changed")].

Lemma reload_unchanged_witness : exists s', merge_config edited_config demo_state1 = Ok (Some s') /\
  action_list s' ≡ₚ action_list demo_state1.
Proof.
  destruct (reload_unchanged edited_config demo_state1) as (s' & E & Hp & _).
  - intros a [-> |Ha]%elem_of_cons; [discriminate | by apply elem_of_nil in Ha].
  - vm_compute. reflexivity.
  - vm_compute. reflexivity.
  - eauto.
Defined.

Definition looked_up : thread_host := with_rnh [plain (sin 10 0 0 2)] demo_t1.

Lemma failed_lookup_forgets_witness : exists t' update,
  check_hostname_round None looked_up = (t', update) /\ addr_set (rnh t') = static_set (rnh looked_up).
Proof.
  eexists _, _. split; [reflexivity|]. refine (proj1 (failed_lookup_forgets looked_up _ _ _ _ _)); [|reflexivity|reflexivity].
  apply settled_calm. split.
  - apply NoDup_singleton.
  - intros e He%list_elem_of_singleton. by subst e.
  - intros e He%list_elem_of_singleton. by subst e.
Defined.

(** The table has 10.1.0.0/16, entered for a host with a mask. *)
Definition masked_entry : pfr_addr := {| pfra_af := AF_INET; pfra_net := 16; pfra_u := [10; 1; 0; 0] |}.
Definition masked_act : action := with_tbl (with_host (Some 1%nat) demo_act) [plain (sin 10 1 0 0)].
Definition masked_sys : sys := {| dev := 3; sock := -1; kern := [("hosts", "", masked_entry)] |}.

Lemma masked_entries_left_witness : exists threads' st',
  action_del masked_act [demo_host] masked_sys = Ok (threads', st') /\ member (kern st') "hosts" "" masked_entry.
Proof.
  eexists _, _. split; [vm_compute; reflexivity|].
  eapply (masked_entries_left masked_act [demo_host] masked_sys); [reflexivity | vm_compute; reflexivity | discriminate | discriminate | left].
Defined.

(** The daemon with the addresses of [demo_act] in its table, beside 10.0.0.9 of somebody else. *)
Definition ending : fdns :=
  {| action_list := [demo_act]; thread_list := [demo_host]; next_id := 2; merge_started := true;
     merge_state := THR_DYING; merge_sem := 1; fsys := demo_sys |}.

Lemma exit_cleans_tables_witness : exists s', merge_exit ending = Ok s'
  /\ ~ member (kern (fsys s')) "hosts" "" (entry_of (sin 10 0 0 1))
  /\ kern (fsys s') = [("hosts", "", entry_of (sin 10 0 0 9))].
Proof.
  destruct (exit_cleans_tables ending) as (s' & E & _ & Hm).
  - intros a Ha%list_elem_of_singleton. subst a. right. split; [reflexivity|]. split; [split; reflexivity|].
    intros e [-> |[-> |He%elem_of_nil]%elem_of_cons]%elem_of_cons; [eexists; reflexivity..|destruct He].
  - exists s'. split; [exact E|]. split.
    + rewrite Hm. intros [_ Hno]. apply Hno. exists demo_act. split; [left|].
      split; [reflexivity|]. split; [reflexivity|]. split; [reflexivity|].
      exists (plain (sin 10 0 0 1)). split; [left|reflexivity].
    + assert (E' : merge_exit ending = Ok s') by exact E. vm_compute in E'. injection E' as <-. reflexivity.
Defined.
