(* ===== verification/FdLife.v ===== *)
(** filterdns over its whole life: what is in the tables of pf at any time, between the start of the daemon and
    its end, and what becomes of an address that two names of one table share. *)
From Stdlib Require Import ZArith Lia Ascii String.
From stdpp Require Import base list gmap sets fin_sets strings numbers relations.
From S2P Require Import Prelude CProg FdAddr FdTables Fdns FdFaults.
Open Scope string_scope.
Open Scope list_scope.
Open Scope Z_scope.

(** An address of one of the two families that tables can hold. *)
Definition inet (a : sockaddr) : Prop := sa_family a = AF_INET \/ sa_family a = AF_INET6.

(** A host without a mask (32 is what an IPv4 address as its name is given), whose addresses are of these
    families. *)
Record plain_host (t : thread_host) : Prop := {
  ph_mask : mask t = -1 \/ mask t = 32;
  ph_mask6 : mask6 t = -1;
  ph_inet : forall e, e ∈ rnh t -> inet (addr e)
}.

(** An action for a table of pf whose names fit, or for a command. *)
Definition plain_action (a : action) : Prop :=
  type a = CMD_TYPE \/ type a = PF_TYPE /\ names_ok a /\ tablename a <> None.

Section life.
Context `{HK : Kernel} `{HP : !PfTables} `{HR : !Resolver}.

Definition plain_state (s : fdns) : Prop :=
  (forall a, a ∈ action_list s -> plain_action a) /\ (forall t, t ∈ thread_list s -> plain_host t).

(** The states that a daemon started with the firewall in state [st] reaches, as long as its configurations
    have no masks and no ipfw tables. *)
Inductive plain_reachable (st : sys) : fdns -> Prop :=
  | plain_init config s : fd_init config st = Some s -> plain_state s -> plain_reachable st s
  | plain_next s s' : plain_reachable st s -> step s s' -> plain_state s' -> plain_reachable st s'.

(** The entries that the actions have in the tables. *)
Definition own (l : list action) (n an : string) (x : pfr_addr) : Prop := exists a, a ∈ l /\ entered a (tbl_rnh a) n an x.

(** Every entry was there before the daemon, or belongs to an action. *)
Definition no_stale (st : sys) (l : list action) (st' : sys) : Prop :=
  forall n an x, member (kern st') n an x -> member (kern st) n an x \/ own l n an x.

Definition tables_inet (l : list action) : Prop := forall a e, a ∈ l -> e ∈ tbl_rnh a -> inet (addr e).

Lemma inet_pfaddr a : inet a -> exists p, pfaddr None a = Ok (Some p).
Proof.
  unfold pfaddr. intros [E|E]; rewrite E; [by eexists|]. change (AF_INET6 =? AF_INET) with false.
  change (AF_INET6 =? AF_INET6) with true. cbv iota. unfold set_ipmask.
  assert (Hm : exists m, mask_bytes (u8 128) = Ok m) by (eexists; vm_compute; reflexivity). destruct Hm as (m & ->). by eexists.
Qed.

Lemma plain_pfaddr t a : plain_host t -> pfaddr (Some (mask t, mask6 t)) a = pfaddr None a.
Proof. intros [[-> | ->] -> _]; done. Qed.

Lemma plain_cleanable a : plain_action a -> (forall e, e ∈ tbl_rnh a -> inet (addr e)) -> cleanable a (tbl_rnh a).
Proof. intros [Ha|(Ha & Hn & _)] Hi; [by left|right]. split; [done|]. split; [done|]. intros e He. by apply inet_pfaddr, Hi. Qed.

(** What the sweep of a table leaves in it: an entry of an address that stays, or one that was there and is no
    address that goes. *)
Lemma table_sweep_sound act hm l : type act = PF_TYPE -> names_ok act ->
  (forall e, e ∈ l -> exists p, pfaddr hm (addr e) = Ok (Some p)) -> forall er st l' er' st',
  table_sweep act hm l er st = Ok (l', er', st') -> forall n an x, member (kern st') n an x ->
  (exists e, e ∈ l /\ ADDR_OLD e = false /\ (n, an) = (default "" (tablename act), default "" (anchor act)) /\ pfaddr hm (addr e) = Ok (Some x)) \/
  (member (kern st) n an x /\
   forall e, e ∈ l -> ADDR_OLD e = true -> (n, an) = (default "" (tablename act), default "" (anchor act)) -> pfaddr hm (addr e) <> Ok (Some x)).
Proof.
  intros Ht Hn. set (tn := default "" (tablename act)). set (ta := default "" (anchor act)).
  induction l as [|e l IH]; intros Hp er st l' er' st' E n an x Hx.
  { simplify_eq/=. right. split; [done|]. by intros e He%elem_of_nil. }
  destruct (Hp e) as [p Ep]; [left|]. specialize (IH (fun e He => Hp e ltac:(by right))). cbn [table_sweep] in E.
  assert (Ha : exists er1 st1, (if ADDR_NEW e then '(error, st) ← table_add act hm e st; Ok (clear_new e, error, st) else Ok (e, er, st))
    = Ok (if ADDR_NEW e then clear_new e else e, er1, st1) /\
    forall n an y, member (kern st1) n an y -> (n, an, y) = (tn, ta, p) \/ member (kern st) n an y).
  { destruct (ADDR_NEW e); [|exists er, st; split; [done | by right]].
    destruct (table_entry_ok act hm e true st p Ht Hn Ep) as (st1 & E1 & Hc). unfold table_add. rewrite E1.
    exists 0, st1. split; [done|]. intros n1 an1 y. apply Hc. }
  destruct Ha as (er1 & st1 & Ea & Hm). rewrite Ea in E. cbn [mbind outcome_bind] in E.
  replace (ADDR_OLD (if ADDR_NEW e then clear_new e else e)) with (ADDR_OLD e) in E by (by destruct (ADDR_NEW e)).
  destruct (ADDR_OLD e) eqn:Eo.
  - set (e1 := if ADDR_NEW e then clear_new e else e) in E. assert (Ee : addr e1 = addr e) by (unfold e1; by destruct (ADDR_NEW e)).
    destruct (table_entry_ok act hm e1 false st1 p Ht Hn ltac:(by rewrite Ee)) as (st2 & E2 & Hc). unfold table_del in E. rewrite E2 in E.
    cbn [mbind outcome_bind] in E. destruct (IH _ _ _ _ _ E n an x Hx) as [(e' & He' & R)|[Hx2 Hno]].
    + left. exists e'. split; [by right | done].
    + apply Hc in Hx2 as [Hne Hx1]. right. split; [by destruct (Hm _ _ _ Hx1)|].
      intros e' [-> |He']%elem_of_cons Ho Hna; [|by apply Hno]. rewrite Ep. intros [= ->]. apply Hne. by rewrite Hna.
  - destruct (table_sweep act hm l er1 st1) as [[[l2 er2] st2]|] eqn:E2; [|done]. cbn [mbind outcome_bind] in E. injection E as <- <- <-.
    destruct (IH _ _ _ _ _ E2 n an x Hx) as [(e' & He' & R)|[Hx1 Hno]].
    + left. exists e'. split; [by right | done].
    + destruct (Hm _ _ _ Hx1) as [Heq|Hx0].
      * left. exists e. injection Heq as -> -> ->. split; [left | done].
      * right. split; [done|]. intros e' [-> |He']%elem_of_cons Ho; [congruence | by apply Hno].
Qed.

(** A command has no table. *)
Lemma table_sweep_cmd act hm l : type act = CMD_TYPE -> forall er st l' er' st',
  table_sweep act hm l er st = Ok (l', er', st') -> st' = st.
Proof.
  intros Ht. induction l as [|e l IH]; intros er st l' er' st'; cbn [table_sweep]; [by intros [= _ _ <-]|].
  unfold table_add, table_del, table_entry. rewrite Ht. destruct (ADDR_NEW e); cbn [mbind outcome_bind ADDR_OLD clear_new];
    (destruct (ADDR_OLD e); cbn [mbind outcome_bind]; [apply IH|]);
    (destruct (table_sweep _ _ l _ _) as [[[l2 er2] st2]|] eqn:E; [|done]); cbn [mbind outcome_bind]; intros [= _ _ <-]; by eapply IH.
Qed.

Lemma table_update_sound a hm st a' er st' :
  plain_action a -> settled (tbl_rnh a) -> (forall e, e ∈ act_rnh a -> sa_wf (addr e)) ->
  (forall x, pfaddr hm x = pfaddr None x) -> (forall y, y ∈ addr_set (tbl_rnh a) ∪ addr_set (act_rnh a) -> inet y) ->
  table_update a hm st = Ok (a', er, st') -> forall n an x, member (kern st') n an x ->
  entered a' (tbl_rnh a') n an x \/ (member (kern st) n an x /\ (entered a (tbl_rnh a) n an x -> entered a' (tbl_rnh a') n an x)).
Proof.
  intros Hp Hs Hw Hm Hi E n an x Hx. pose proof (table_update_list _ _ _ _ _ _ E) as Ea. unfold table_update in E.
  destruct (table_sweep _ _ _ _ _) as [[[l er1] st1]|] eqn:Es; [|done]. injection E as <- <- <-.
  pose proof (f_equal tbl_rnh Ea) as El. cbn [with_tbl tbl_rnh] in El. clear Ea.
  pose proof (copy_marked _ _ Hs Hw) as [M1 M2 M3 M4 M5 M6]. set (l0 := copy_addrs (mark_old (tbl_rnh a)) (act_rnh a)) in *.
  unfold refresh in El. fold l0 in El. rewrite sweep_spec in El. cbn [fst] in El.
  assert (Hin : forall e p, e ∈ l0 -> ADDR_OLD e = false -> type a = PF_TYPE -> pfaddr None (addr e) = Ok (Some p) ->
    entered (with_tbl a l) l (default "" (tablename a)) (default "" (anchor a)) p).
  { intros e p He Ho Ht Ep. split; [done|]. split; [done|]. split; [done|]. exists (clear_new e). split; [|done].
    rewrite El. apply list_elem_of_fmap_2, list_elem_of_filter. done. }
  destruct Hp as [Ht|(Ht & Hn & _)].
  - right. apply table_sweep_cmd in Es as ->; [|done]. split; [done|]. intros (Hpf & _). congruence.
  - assert (Hp : forall e, e ∈ l0 -> exists p, pfaddr hm (addr e) = Ok (Some p)).
    { intros e He. rewrite Hm. apply inet_pfaddr, Hi. rewrite <-M3. apply elem_of_addr_set. eauto. }
    destruct (table_sweep_sound a hm l0 Ht Hn Hp _ _ _ _ _ Es n an x Hx) as [(e & He & Ho & [= -> ->] & Ep)|[Hx0 Hno]].
    + left. rewrite Hm in Ep. by apply (Hin e).
    + right. split; [done|]. intros (_ & -> & -> & e & He & Ep).
      assert (Hl0 : addr e ∈ addr_set l0) by (rewrite M3; apply elem_of_union; left; apply elem_of_addr_set; eauto).
      apply elem_of_addr_set in Hl0 as (e' & He' & Ee). rewrite <-Ee in Ep. apply (Hin e'); try done.
      destruct (ADDR_OLD e') eqn:Ho; [|done]. destruct (Hno e' He' Ho eq_refl). by rewrite Hm.
Qed.

Lemma action_round_sound t a st a' ran st' :
  plain_host t -> plain_action a -> calm (rnh t) -> act_ok a -> static_set (act_rnh a) ⊆ static_set (rnh t) ->
  (forall e, e ∈ tbl_rnh a -> inet (addr e)) -> check_action_round t a st = Ok (a', ran, st') ->
  (forall e, e ∈ tbl_rnh a' -> inet (addr e)) /\ forall n an x, member (kern st') n an x ->
  entered a' (tbl_rnh a') n an x \/ (member (kern st) n an x /\ (entered a (tbl_rnh a) n an x -> entered a' (tbl_rnh a') n an x)).
Proof.
  intros Hh Hp Hc Ha Hst Hi E. destruct (check_action_round_spec t a st a' ran st' Hc Ha Hst E) as (Ha' & Hset & _ & (_ & _ & _ & _ & Htn) & _).
  unfold check_action_round in E. cbn [act_rnh with_thread] in E.
  pose proof (refresh_spec _ (rnh t) (ok_rnh _ Ha) (calm_wf _ Hc)) as Hr. destruct (refresh (act_rnh a) (rnh t)) as [l k].
  destruct Hr as (R1 & _). set (b := with_act_rnh l _) in E. change (tablename b) with (tablename a) in E.
  destruct (0 <? k); destruct (decide (tablename a = None)) as [Etn|Etn];
    rewrite ?(bool_decide_eq_true_2 _ Etn), ?(bool_decide_eq_false_2 _ Etn) in E; cbn [andb negb] in E;
    try (injection E as <- <- <-; split; [done|]; intros n an x Hx; by right).
  destruct (table_update b _ st) as [[[a1 e1] s1]|] eqn:Et; [|done]. injection E as <- <- <-.
  assert (Hal : addr_set l = addr_set (rnh t)) by (pose proof (table_update_list _ _ _ _ _ _ Et) as ->; exact Hset).
  assert (Hil : forall y, y ∈ addr_set l -> inet y).
  { intros y Hy. rewrite Hal in Hy. apply elem_of_addr_set in Hy as (e & He & <-). by apply Hh. }
  split.
  - intros e He. apply Hil. rewrite Hal, <-Hset, <-(ok_same _ Ha' ltac:(by rewrite Htn)). apply elem_of_addr_set. eauto.
  - intros n an x Hx.
    destruct (table_update_sound b _ st a1 e1 s1 Hp (ok_tbl _ Ha) (settled_wf _ R1) (fun x => plain_pfaddr t x Hh)) with (n := n) (an := an) (x := x) as [Hx1|[Hx1 Hx2]]; try done.
    + intros y [Hy|Hy]%elem_of_union; [|by apply Hil]. apply elem_of_addr_set in Hy as (e & He & <-). by apply Hi.
    + by left.
    + right. split; [done|]. intros Hx3. by apply Hx2.
Qed.

(** What the tables depend on. *)
Definition core (a : action) : action_type * option string * option string * addr_list := (type a, tablename a, anchor a, tbl_rnh a).

Lemma entered_core a b n an x : core a = core b -> entered a (tbl_rnh a) n an x -> entered b (tbl_rnh b) n an x.
Proof. unfold core, entered. by intros [= -> -> -> ->]. Qed.

Lemma core_in l l' a : map core l = map core l' -> a ∈ l -> exists b, b ∈ l' /\ core a = core b.
Proof.
  intros E Ha. apply (list_elem_of_fmap_2 core) in Ha. change (core <$> l) with (map core l) in Ha. rewrite E in Ha.
  apply list_elem_of_fmap_1 in Ha as (b & Eb & Hb). eauto.
Qed.

Lemma own_core l l' n an x : map core l = map core l' -> own l n an x -> own l' n an x.
Proof.
  intros E (a & Ha & Hx). destruct (core_in _ _ _ E Ha) as (b & Hb & Eb). exists b. split; [done|]. by apply (entered_core a).
Qed.

Lemma inet_core l l' : map core l = map core l' -> tables_inet l -> tables_inet l'.
Proof.
  intros E Hi a e Ha He. destruct (core_in _ _ _ (eq_sym E) Ha) as (b & Hb & Eb). apply (Hi b); [done|].
  by injection Eb as _ _ _ <-.
Qed.

(** The invariant. *)
Record life (st : sys) (s : fdns) : Prop := {
  l_inet : tables_inet (action_list s);
  l_stale : no_stale st (action_list s) (fsys s)
}.

Lemma life_same st s s' : life st s -> map core (action_list s) = map core (action_list s') -> fsys s' = fsys s -> life st s'.
Proof.
  intros [H1 H2] E Es. split; [by apply (inet_core (action_list s))|]. intros n an x Hx. rewrite Es in Hx.
  destruct (H2 n an x Hx); [by left|right]. by apply (own_core (action_list s)).
Qed.

Lemma map_core f l : (forall a, core (f a) = core a) -> map core l = map core (map f l).
Proof. intros Hf. rewrite map_map. apply map_ext. auto. Qed.

Lemma core_at_action id f l : (forall a, core (f a) = core a) -> map core l = map core (at_action id f l).
Proof. intros Hf. apply map_core. intros a. case_bool_decide; auto. Qed.

Lemma core_wake ids update l : map core l = map core (wake_actions ids update l).
Proof. apply map_core. intros a. case_bool_decide; [|done]. by destruct (_ && _). Qed.

Lemma core_create l : map core l = map core (map action_create l).
Proof. apply map_core. intros a. unfold action_create. by destruct (act_state a). Qed.

(** *** Reloads *)

Lemma action_del_newborn a threads st : newborn a -> action_del a threads st = Ok (host_del a threads, st).
Proof. intros [_ Ht _ _]. unfold action_del, table_cleanup. by rewrite Ht. Qed.

Lemma merge_loop_life new : forall tmp al threads st tmp' al' threads' st', Forall newborn new ->
  merge_loop new tmp al threads st = Ok (tmp', al', threads', st') ->
  st' = st /\ (forall x, x ∈ tmp \/ x ∈ al -> x ∈ tmp' \/ x ∈ al') /\ (forall x, x ∈ tmp' -> x ∈ tmp).
Proof.
  induction new as [|a new IH]; intros tmp al threads st tmp' al' threads' st' Hn; cbn [merge_loop]; [by intros [= <- <- <- <-]|].
  apply Forall_cons_1 in Hn as [Ha Hn]. destruct (take_old a tmp) as [[old rest]|] eqn:Et.
  - rewrite action_del_newborn by done. cbn [mbind outcome_bind]. intros E. destruct (IH _ _ _ _ _ _ _ _ Hn E) as (-> & H1 & H2).
    apply take_old_perm in Et as Hp. split; [done|]. split.
    + intros x [Hx|Hx]; apply H1; [|right; by right]. rewrite Hp in Hx. apply elem_of_cons in Hx as [-> |Hx]; [right; left | by left].
    + intros x Hx. rewrite Hp. right. auto.
  - intros E. destruct (IH _ _ _ _ _ _ _ _ Hn E) as (-> & H1 & H2). split; [done|]. split; [|done].
    intros x [Hx|Hx]; apply H1; [by left | right; by right].
Qed.

Lemma merge_config_life st config s s' : plain_state s -> life st s -> merge_config config s = Ok (Some s') -> life st s'.
Proof.
  intros [Hp _] [Hi Hs]. unfold merge_config. set (l := parse_config _ _). destruct (errors l) eqn:He; [|done].
  destruct (parse_config_keys config {| acts := []; threads := thread_list s; fresh := next_id s; errors := 0 |} He) as (new & E1 & _ & E3).
  cbn [acts app] in E1. fold l in E1. rewrite E1.
  destruct (merge_loop _ _ _ _ _) as [[[[tmp al] t1] s1]|] eqn:Em; [|done]. cbn [mbind outcome_bind].
  destruct (merge_loop_life _ _ _ _ _ _ _ _ _ E3 Em) as (-> & Hpool & Htmp). pose proof (proj2 (merge_loop_keys _ _ _ _ _ _ _ _ _ Em)) as Hal.
  destruct (clear_config_ok tmp t1 (fsys s)) as (t2 & st2 & -> & Hm).
  { intros a Ha. apply Htmp in Ha. apply plain_cleanable; [by apply Hp | intros e He1; by apply (Hi a)]. }
  cbn [mbind outcome_bind]. intros [= <-]. split; cbn [action_list fsys].
  - apply (inet_core al); [apply core_create|]. intros a e Ha He1. apply Hal in Ha as [Ha|[Ha|Ha]]; [| |by apply elem_of_nil in Ha].
    + apply list_elem_of_In in Ha. rewrite List.Forall_forall in E3. apply E3 in Ha as [_ Hb _ _]. rewrite Hb in He1. by apply elem_of_nil in He1.
    + by apply (Hi a).
  - intros n an x Hx. apply Hm in Hx as [Hx Hno]. destruct (Hs n an x Hx) as [?|(a & Ha & Hin)]; [by left|]. right.
    destruct (Hpool a (or_introl Ha)) as [Ht|Ht]; [destruct Hno; by exists a|].
    apply (own_core al); [apply core_create|]. by exists a.
Qed.

(** *** Rounds of an action *)

Lemma action_round_life st s a t a' ran st' : reachable s -> plain_state s -> life st s ->
  a ∈ action_list s -> host_of a (thread_list s) = Some t -> check_action_round t a (fsys s) = Ok (a', ran, st') ->
  life st (set_lists (at_action (act_id a) (fun _ => a') (action_list s)) (thread_list s) st' s).
Proof.
  intros Hr [Hp Hh] [Hi Hs] Ha Ht E. apply host_of_spec in Ht as [Ht Eh]. destruct (fd_reachable_inv s Hr) as (Hw & Hd & _).
  destruct (d_pair _ _ Hd a t Ha Ht Eh) as [Hst _].
  destruct (action_round_sound t a (fsys s) a' ran st' (Hh t Ht) (Hp a Ha) (d_host _ _ Hd t Ht) (d_act _ _ Hd a Ha) Hst
    (fun e He => Hi a e Ha He) E) as [Hi' Hs'].
  assert (Hin : a' ∈ at_action (act_id a) (fun _ => a') (action_list s)).
  { unfold at_action. apply list_elem_of_fmap. exists a. split; [by rewrite bool_decide_eq_true_2|done]. }
  split; cbn [action_list set_lists fsys].
  - intros b e Hb He. unfold at_action in Hb. apply list_elem_of_fmap_1 in Hb as (c & -> & Hc). case_bool_decide; [by apply Hi'|].
    by apply (Hi c).
  - intros n an x Hx. destruct (Hs' n an x Hx) as [Hx1|[Hx0 Hkeep]]; [right; by exists a'|].
    destruct (Hs n an x Hx0) as [?|(b & Hb & Hxb)]; [by left|]. right. destruct (decide (act_id b = act_id a)) as [Eid|Eid].
    + assert (b = a) as -> by exact (nodup_id act_id _ _ _ (w_acts _ _ _ Hw) Hb Ha Eid). exists a'. auto.
    + exists b. split; [|done]. unfold at_action. apply list_elem_of_fmap. exists b. by rewrite bool_decide_eq_false_2.
Qed.

Lemma step_life st s s' : reachable s -> plain_state s -> life st s -> step s s' -> life st s'.
Proof.
  intros Hr Hp Hl Hs. destruct Hs as [t junk|t answer t' update _ _ _ _ _|t|t|t|a Ha|a t a' ran st1 Ha _ _ Ht E|sig| |config s' _ _ _ E].
  - by apply (life_same st s).
  - apply (life_same st s); [done| |done]. apply core_wake.
  - by apply (life_same st s).
  - by apply (life_same st s).
  - by apply (life_same st s).
  - apply (life_same st s); [done| |done]. by apply core_at_action.
  - by eapply action_round_life.
  - by apply (life_same st s); [|destruct sig..].
  - by apply (life_same st s).
  - by eapply merge_config_life.
Qed.

Lemma plain_reachable_life st s : plain_reachable st s -> reachable s /\ plain_state s /\ life st s.
Proof.
  induction 1 as [config s E Hp|s s' _ (Hr & Hp & Hl) Hs Hp'].
  - split; [by eapply reachable_init|]. split; [done|]. unfold fd_init in E. set (l := parse_config _ _) in E. destruct (errors l) eqn:He; [|done].
    injection E as <-. destruct (parse_config_keys config {| acts := []; threads := []; fresh := 0; errors := 0 |} He) as (new & E1 & _ & E3).
    cbn [acts app] in E1. fold l in E1. split; cbn [action_list fsys].
    + rewrite E1. apply (inet_core new); [apply core_create|]. intros a e Ha He1. apply list_elem_of_In in Ha. rewrite List.Forall_forall in E3.
      apply E3 in Ha as [_ Hb _ _]. rewrite Hb in He1. by apply elem_of_nil in He1.
    + intros n an x Hx. by left.
  - split; [by eapply reachable_step|]. split; [done|]. by eapply step_life.
Qed.


(** ** When no two actions share an entry *)

(** Different addresses of an action and its host have different entries, different actions have different
    entries, and none of them was there before the daemon. *)
Record separate (st : sys) (s : fdns) : Prop := {
  sep_inj a t x y : a ∈ action_list s -> t ∈ thread_list s -> host a = Some (th_id t) ->
    x ∈ addr_set (tbl_rnh a) ∪ addr_set (rnh t) -> y ∈ addr_set (tbl_rnh a) ∪ addr_set (rnh t) ->
    pfaddr None x = pfaddr None y -> x = y;
  sep_acts a b n an x : a ∈ action_list s -> b ∈ action_list s ->
    entered a (tbl_rnh a) n an x -> entered b (tbl_rnh b) n an x -> a = b;
  sep_old n an x : own (action_list s) n an x -> ~ member (kern st) n an x
}.

Inductive separate_reachable (st : sys) : fdns -> Prop :=
  | separate_init config s : fd_init config st = Some s -> plain_state s -> separate st s -> separate_reachable st s
  | separate_next s s' : separate_reachable st s -> step s s' -> plain_state s' -> separate st s' -> separate_reachable st s'.

Lemma separate_plain st s : separate_reachable st s -> plain_reachable st s /\ separate st s.
Proof.
  induction 1 as [config s E Hp Hs|s s' _ [IH _] Hs Hp Hsep]; (split; [|done]); [by eapply plain_init | by eapply plain_next].
Qed.

(** Nothing is missing in the tables. *)
Definition none_missing (st : sys) (l : list action) (st' : sys) : Prop :=
  forall n an x, member (kern st) n an x \/ own l n an x -> member (kern st') n an x.

(** The entry of an address. *)
Definition full_entry (x : sockaddr) : pfr_addr :=
  match pfaddr None x with Ok (Some p) => p | _ => {| pfra_af := 0; pfra_net := 0; pfra_u := [] |} end.

Lemma full_entry_ok x : inet x -> pfaddr None x = Ok (Some (full_entry x)).
Proof. intros Hx. unfold full_entry. destruct (inet_pfaddr x Hx) as (p & ->). done. Qed.

Lemma entered_full a l x : type a = PF_TYPE -> x ∈ addr_set l -> inet x ->
  entered a l (default "" (tablename a)) (default "" (anchor a)) (full_entry x).
Proof.
  intros Ht Hx Hi. apply elem_of_addr_set in Hx as (e & He & <-). split; [done|]. split; [done|]. split; [done|].
  exists e. split; [done|]. by apply full_entry_ok.
Qed.

Lemma entered_inv a l n an p : entered a l n an p ->
  type a = PF_TYPE /\ n = default "" (tablename a) /\ an = default "" (anchor a) /\ exists x, x ∈ addr_set l /\ full_entry x = p.
Proof.
  intros (Ht & -> & -> & e & He & Ep). split_and!; [done..|]. exists (addr e). split; [apply elem_of_addr_set; eauto|].
  unfold full_entry. by rewrite Ep.
Qed.

Lemma table_update_complete a hm st a' er st' :
  plain_action a -> settled (tbl_rnh a) -> (forall e, e ∈ act_rnh a -> sa_wf (addr e)) ->
  (forall x, pfaddr hm x = pfaddr None x) -> (forall y, y ∈ addr_set (tbl_rnh a) ∪ addr_set (act_rnh a) -> inet y) ->
  (forall x y, x ∈ addr_set (tbl_rnh a) ∪ addr_set (act_rnh a) -> y ∈ addr_set (tbl_rnh a) ∪ addr_set (act_rnh a) ->
     pfaddr None x = pfaddr None y -> x = y) ->
  (forall n an x, entered a (tbl_rnh a) n an x -> member (kern st) n an x) ->
  table_update a hm st = Ok (a', er, st') ->
  (forall n an x, entered a' (tbl_rnh a') n an x -> member (kern st') n an x) /\
  (forall n an x, member (kern st) n an x -> ~ entered a (tbl_rnh a) n an x -> member (kern st') n an x).
Proof.
  intros [Ht|(Ht & Hn & _)] Hs Hw Hm Hi Hinj Hown E.
  { pose proof (table_update_list _ _ _ _ _ _ E) as Ea. unfold table_update in E.
    destruct (table_sweep _ _ _ _ _) as [[[l er1] st1]|] eqn:Es; [|done]. injection E as _ _ <-. apply table_sweep_cmd in Es as ->; [|done].
    split; [|done]. rewrite Ea. intros n an x (Hpf & _). cbn in Hpf. congruence. }
  destruct (table_update_set a hm full_entry st Ht Hn Hs Hw) as (l & error & st2 & E2 & Hl & Hset & Hmem & Hother).
  - intros x Hx. rewrite Hm. by apply full_entry_ok, Hi.
  - intros x y Hx Hy Exy. apply Hinj; [done..|]. rewrite !full_entry_ok by (by apply Hi). by rewrite Exy.
  - intros x Hx. apply Hown, entered_full; [done|done|]. apply Hi, elem_of_union. by left.
  - rewrite E2 in E. injection E as <- _ <-. cbn [with_tbl tbl_rnh]. split.
    + intros n an x (_ & -> & -> & y & Hy & Ey)%entered_inv. apply Hmem. left. eauto.
    + intros n an x Hx Hno. destruct (decide ((n, an) = (default "" (tablename a), default "" (anchor a)))) as [[= -> ->]|Hna]; [|by apply Hother].
      apply Hmem. right. split; [done|]. intros (y & Hy & <-). apply Hno, entered_full; [done|done|]. apply Hi, elem_of_union. by left.
Qed.

Lemma action_round_complete t a st a' ran st' :
  plain_host t -> plain_action a -> calm (rnh t) -> act_ok a -> static_set (act_rnh a) ⊆ static_set (rnh t) ->
  (forall e, e ∈ tbl_rnh a -> inet (addr e)) ->
  (forall x y, x ∈ addr_set (tbl_rnh a) ∪ addr_set (rnh t) -> y ∈ addr_set (tbl_rnh a) ∪ addr_set (rnh t) ->
     pfaddr None x = pfaddr None y -> x = y) ->
  (forall n an x, entered a (tbl_rnh a) n an x -> member (kern st) n an x) ->
  check_action_round t a st = Ok (a', ran, st') ->
  (forall n an x, entered a' (tbl_rnh a') n an x -> member (kern st') n an x) /\
  (forall n an x, member (kern st) n an x -> ~ entered a (tbl_rnh a) n an x -> member (kern st') n an x).
Proof.
  intros Hh Hp Hc Ha Hst Hi Hinj Hown E. destruct (check_action_round_spec t a st a' ran st' Hc Ha Hst E) as (Ha' & Hset & _ & _ & _).
  unfold check_action_round in E. cbn [act_rnh with_thread] in E.
  pose proof (refresh_spec _ (rnh t) (ok_rnh _ Ha) (calm_wf _ Hc)) as Hr. destruct (refresh (act_rnh a) (rnh t)) as [l k].
  destruct Hr as (R1 & _). set (b := with_act_rnh l _) in E. change (tablename b) with (tablename a) in E.
  destruct (0 <? k); destruct (decide (tablename a = None)) as [Etn|Etn];
    rewrite ?(bool_decide_eq_true_2 _ Etn), ?(bool_decide_eq_false_2 _ Etn) in E; cbn [andb negb] in E;
    try (injection E as <- <- <-; by split).
  destruct (table_update b _ st) as [[[a1 e1] s1]|] eqn:Et; [|done]. injection E as <- <- <-.
  assert (Hal : addr_set l = addr_set (rnh t)) by (pose proof (table_update_list _ _ _ _ _ _ Et) as ->; exact Hset).
  refine (table_update_complete b _ st a1 e1 s1 Hp (ok_tbl _ Ha) (settled_wf _ R1) (fun x => plain_pfaddr t x Hh) _ _ Hown Et);
    change (tbl_rnh b) with (tbl_rnh a); change (act_rnh b) with l; rewrite Hal; [|exact Hinj].
  intros y [Hy|Hy]%elem_of_union; apply elem_of_addr_set in Hy as (e & He & <-); [by apply Hi | by apply Hh].
Qed.

Lemma merge_loop_perm new : forall tmp al threads st tmp' al' threads' st',
  merge_loop new tmp al threads st = Ok (tmp', al', threads', st') ->
  exists extra, (forall x, x ∈ extra -> x ∈ new) /\ tmp' ++ al' ≡ₚ extra ++ tmp ++ al.
Proof.
  induction new as [|a new IH]; intros tmp al threads st tmp' al' threads' st'; cbn [merge_loop].
  { intros [= <- <- <- <-]. by exists []. }
  destruct (take_old a tmp) as [[old rest]|] eqn:Et.
  - destruct (action_del a threads st) as [[t1 s1]|]; [|done]. cbn [mbind outcome_bind]. intros E.
    destruct (IH _ _ _ _ _ _ _ _ E) as (extra & Hx & Hp). exists extra. split; [intros x Hin; right; auto|].
    rewrite Hp, (take_old_perm _ _ _ _ Et). apply Permutation_app_head. cbn [app]. symmetry. apply Permutation_middle.
  - intros E. destruct (IH _ _ _ _ _ _ _ _ E) as (extra & Hx & Hp). exists (a :: extra). split.
    + intros x [-> |Hin]%elem_of_cons; [left | right; auto].
    + rewrite Hp. cbn [app]. by rewrite (assoc_L (++) extra tmp (a :: al)), <-Permutation_middle, (assoc_L (++)).
Qed.

(** An action with entries is kept or deleted by a reload, not both. *)
Lemma merge_loop_disjoint new old threads st tmp al threads' st' a : Forall newborn new -> NoDup old ->
  merge_loop new old [] threads st = Ok (tmp, al, threads', st') -> a ∈ tmp -> a ∈ al -> tbl_rnh a = [].
Proof.
  intros Hn Ho E H1 H2. destruct (merge_loop_perm _ _ _ _ _ _ _ _ _ E) as (extra & Hx & Hp). rewrite app_nil_r in Hp.
  destruct (decide (tbl_rnh a = [])) as [|Ht]; [done|exfalso].
  assert (Hf : filter (fun b => tbl_rnh b <> []) extra = []).
  { assert (Hall : forall b, b ∈ extra -> tbl_rnh b = []).
    { intros b Hb%Hx. apply list_elem_of_In in Hb. rewrite List.Forall_forall in Hn. by destruct (Hn b Hb). }
    clear -Hall. induction extra as [|b extra IH]; [done|]. rewrite filter_cons_False by (intros Hb; apply Hb, Hall; left).
    apply IH. intros c Hc. apply Hall. by right. }
  apply (filter_Permutation (fun b => tbl_rnh b <> [])) in Hp. rewrite !filter_app, Hf in Hp. cbn [app] in Hp.
  assert (Hnd : NoDup (filter (fun b => tbl_rnh b <> []) tmp ++ filter (fun b => tbl_rnh b <> []) al))
    by (rewrite Hp; by apply list.NoDup_filter).
  apply list.NoDup_app in Hnd as (_ & Hd & _). apply (Hd a); by apply list_elem_of_filter.
Qed.

Lemma merge_config_complete st config s s' : reachable s -> plain_state s -> life st s -> separate st s ->
  none_missing st (action_list s) (fsys s) -> merge_config config s = Ok (Some s') -> none_missing st (action_list s') (fsys s').
Proof.
  intros Hre [Hp _] [Hi _] Hsep Hc. unfold merge_config. set (l := parse_config _ _). destruct (errors l) eqn:He; [|done].
  destruct (parse_config_keys config {| acts := []; threads := thread_list s; fresh := next_id s; errors := 0 |} He) as (new & E1 & _ & E3).
  cbn [acts app] in E1. fold l in E1. rewrite E1.
  destruct (merge_loop _ _ _ _ _) as [[[[tmp al] t1] s1]|] eqn:Em; [|done]. cbn [mbind outcome_bind].
  destruct (merge_loop_life _ _ _ _ _ _ _ _ _ E3 Em) as (-> & _ & Htmp). pose proof (proj2 (merge_loop_keys _ _ _ _ _ _ _ _ _ Em)) as Hal.
  destruct (clear_config_ok tmp t1 (fsys s)) as (t2 & st2 & -> & Hm).
  { intros a Ha. apply Htmp in Ha. apply plain_cleanable; [by apply Hp | intros e He1; by apply (Hi a)]. }
  cbn [mbind outcome_bind]. intros [= <-]. cbn [action_list fsys]. intros n an x Hx. apply Hm.
  destruct Hx as [Hx|Hx].
  - split; [apply Hc; by left|]. intros (b & Hb & Hin). apply (sep_old _ _ Hsep n an x); [|done]. exists b. auto.
  - apply (own_core _ al) in Hx as (a & Ha & Hin); [|symmetry; apply core_create].
    assert (Hold : a ∈ action_list s).
    { apply Hal in Ha as [Ha|[Ha|Ha]]; [|done|by apply elem_of_nil in Ha]. apply list_elem_of_In in Ha. rewrite List.Forall_forall in E3.
      apply E3 in Ha as [_ Hb _ _]. rewrite Hb in Hin. by destruct Hin as (_ & _ & _ & e & He1%elem_of_nil & _). }
    split; [apply Hc; right; by exists a|]. intros (b & Hb & Hinb).
    assert (b = a) as -> by (apply (sep_acts _ _ Hsep b a n an x); auto).
    destruct (fd_reachable_inv s Hre) as (Hw & _). pose proof (NoDup_fmap_1 act_id _ (w_acts _ _ _ Hw)) as Hnd.
    rewrite (merge_loop_disjoint _ _ _ _ _ _ _ _ a E3 Hnd Em Hb Ha) in Hin. by destruct Hin as (_ & _ & _ & e & He1%elem_of_nil & _).
Qed.

Lemma action_round_missing st s a t a' ran st' : reachable s -> plain_state s -> life st s -> separate st s ->
  none_missing st (action_list s) (fsys s) ->
  a ∈ action_list s -> host_of a (thread_list s) = Some t -> check_action_round t a (fsys s) = Ok (a', ran, st') ->
  none_missing st (at_action (act_id a) (fun _ => a') (action_list s)) st'.
Proof.
  intros Hr [Hp Hh] [Hi _] Hsep Hc Ha Ht E. apply host_of_spec in Ht as [Ht Eh]. destruct (fd_reachable_inv s Hr) as (Hw & Hd & _).
  destruct (d_pair _ _ Hd a t Ha Ht Eh) as [Hst _].
  destruct (action_round_complete t a (fsys s) a' ran st' (Hh t Ht) (Hp a Ha) (d_host _ _ Hd t Ht) (d_act _ _ Hd a Ha) Hst
    (fun e He => Hi a e Ha He)) as [Hnew Hkeep]; [intros x y; by apply (sep_inj _ _ Hsep a t)| |exact E|].
  { intros n an x Hx. apply Hc. right. by exists a. }
  intros n an x [Hx|(b & Hb & Hx)].
  - apply Hkeep; [apply Hc; by left|]. intros Hin. apply (sep_old _ _ Hsep n an x); [|done]. by exists a.
  - unfold at_action in Hb. apply list_elem_of_fmap_1 in Hb as (c & -> & Hcin). case_bool_decide as Eid; [by apply Hnew|].
    apply Hkeep; [apply Hc; right; by exists c|]. intros Hin. apply Eid. f_equal. by apply (sep_acts _ _ Hsep c a n an x).
Qed.

Lemma missing_same st l l' st' : map core l = map core l' -> none_missing st l st' -> none_missing st l' st'.
Proof. intros E Hc n an x [Hx|Hx]; apply Hc; [by left|right]. by apply (own_core l'). Qed.

Lemma step_missing st s s' : reachable s -> plain_state s -> life st s -> separate st s ->
  none_missing st (action_list s) (fsys s) -> step s s' -> none_missing st (action_list s') (fsys s').
Proof.
  intros Hr Hp Hl Hsep Hc Hs. destruct Hs as [t junk|t answer t' update _ _ _ _ _|t|t|t|a Ha|a t a' ran st1 Ha _ _ Ht E|sig| |config s' _ _ _ E];
    try exact Hc.
  - apply (missing_same st (action_list s)); [apply core_wake | exact Hc].
  - apply (missing_same st (action_list s)); [by apply core_at_action | exact Hc].
  - by eapply action_round_missing.
  - by destruct sig.
  - by eapply merge_config_complete.
Qed.

Lemma separate_complete st s : separate_reachable st s -> none_missing st (action_list s) (fsys s).
Proof.
  induction 1 as [config s E Hp Hs|s s' Hr IH Hs Hp Hsep].
  - assert (Hl : plain_reachable st s) by (by eapply plain_init).
    unfold fd_init in E. set (l := parse_config _ _) in E. destruct (errors l) eqn:He; [|done]. injection E as <-.
    destruct (parse_config_keys config {| acts := []; threads := []; fresh := 0; errors := 0 |} He) as (new & E1 & _ & E3).
    cbn [acts app] in E1. fold l in E1. cbn [action_list fsys]. rewrite E1. apply (missing_same st new); [apply core_create|].
    intros n an x [Hx|(a & Ha & Hin)]; [done|]. apply list_elem_of_In in Ha. rewrite List.Forall_forall in E3.
    apply E3 in Ha as [_ Hb _ _]. rewrite Hb in Hin. by destruct Hin as (_ & _ & _ & e & He1%elem_of_nil & _).
  - destruct (separate_plain st s Hr) as [Hpl Hse]. destruct (plain_reachable_life st s Hpl) as (Hre & Hps & Hl).
    by eapply step_missing.
Qed.

(** Nothing is pending for an action. *)
Definition at_rest (s : fdns) : Prop :=
  (forall a, a ∈ action_list s -> act_sem a <= 0 /\ ACT_FORCE a = false) /\ (forall t, t ∈ thread_list s -> ~ has_news t).

(** C2. The tables of pf are what the configuration asks for.  The configurations have no masks and no ipfw
    tables, and [separate] holds in every state of the run: different addresses have different entries, no two
    actions share an entry, and no entry of an action was in the tables before the daemon was started.  The
    kernel does what pf(4) promises and refuses no request.  Then in every state that the daemon reaches and in
    which nothing is pending (no action is posted or forced, no host has an address to announce), every action
    has a host whose thread is not ending, and the entries of every table are exactly those that were there
    before the start and, for every action of this table, those of all addresses that its host has at present. *)
Theorem tables_follow_hosts st s : separate_reachable st s -> at_rest s ->
  (forall a, a ∈ action_list s -> live_host a (thread_list s)) /\
  forall n an x, member (kern (fsys s)) n an x <->
  member (kern st) n an x \/
  exists a t e, a ∈ action_list s /\ host_of a (thread_list s) = Some t /\ type a = PF_TYPE /\
    n = default "" (tablename a) /\ an = default "" (anchor a) /\ e ∈ rnh t /\ pfaddr None (addr e) = Ok (Some x).
Proof.
  intros Hs [Hrest Hnews]. destruct (separate_plain st s Hs) as [Hpl _].
  destruct (plain_reachable_life st s Hpl) as (Hre & [Hp _] & [_ Hst]). pose proof (separate_complete st s Hs) as Hc.
  assert (Hlive : forall a, a ∈ action_list s -> live_host a (thread_list s)).
  { intros a Ha. destruct (action_live s a Hre Ha) as [?|(_ & _ & Hf & _)]; [done|]. destruct (Hrest a Ha). congruence. }
  assert (Hsame : forall a, a ∈ action_list s -> exists t, host_of a (thread_list s) = Some t /\
    (type a = PF_TYPE -> addr_set (tbl_rnh a) = addr_set (rnh t))).
  { intros a Ha. destruct (live_host_of s a Hre (Hlive a Ha)) as (t & Et & _). pose proof (pending_or_same s a t Hre Ha Et) as Hq.
    exists t. split; [done|]. intros Hty.
    destruct (Hrest a Ha) as [H1 H2]. destruct (host_of_spec _ _ _ Et) as [Ht _].
    destruct Hq as [Hq|[Hq|[Hq|[_ Hq]]]]; [lia | congruence | by destruct (Hnews t Ht) |].
    apply Hq. destruct (Hp a Ha) as [?|(_ & _ & ?)]; [congruence|done]. }
  split; [exact Hlive|]. intros n an x. split.
  - intros Hx. destruct (Hst n an x Hx) as [?|(a & Ha & Hin)]; [by left|right]. destruct (Hsame a Ha) as (t & Et & Hset).
    destruct Hin as (Hty & -> & -> & e & He & Ep).
    assert (Hin : addr e ∈ addr_set (rnh t)) by (rewrite <-Hset by done; apply elem_of_addr_set; eauto).
    apply elem_of_addr_set in Hin as (e' & He' & Ee). exists a, t, e'. rewrite Ee. by split_and!.
  - intros [Hx|(a & t & e & Ha & Et & Hty & -> & -> & He & Ep)]; apply Hc; [by left|right]. exists a. split; [done|].
    destruct (Hsame a Ha) as (t' & Et' & Hset). rewrite Et in Et'. injection Et' as <-.
    assert (Hin : addr e ∈ addr_set (tbl_rnh a)) by (rewrite Hset by done; apply elem_of_addr_set; eauto).
    apply elem_of_addr_set in Hin as (e' & He' & Ee). split_and!; [done..|]. exists e'. split; [done|]. by rewrite Ee.
Qed.

(** An address that an action no longer has is deleted from the table, no matter whether another action has it. *)
Lemma gone_address_deleted a hm st a' er st' x p :
  type a = PF_TYPE -> names_ok a -> settled (tbl_rnh a) -> (forall e, e ∈ act_rnh a -> sa_wf (addr e)) ->
  (forall x, pfaddr hm x = pfaddr None x) -> (forall y, y ∈ addr_set (tbl_rnh a) ∪ addr_set (act_rnh a) -> inet y) ->
  x ∈ addr_set (tbl_rnh a) -> pfaddr None x = Ok (Some p) ->
  (forall y, y ∈ static_set (tbl_rnh a) ∪ addr_set (act_rnh a) -> pfaddr None y <> Ok (Some p)) ->
  table_update a hm st = Ok (a', er, st') ->
  ~ member (kern st') (default "" (tablename a)) (default "" (anchor a)) p.
Proof.
  intros Ht Hn Hs Hw Hm Hi Hx Ep Hno E Hmem. unfold table_update in E.
  destruct (table_sweep _ _ _ _ _) as [[[l er1] st1]|] eqn:Es; [|done]. injection E as <- <- <-.
  pose proof (copy_marked _ _ Hs Hw) as [M1 M2 M3 M4 M5 M6]. set (l0 := copy_addrs (mark_old (tbl_rnh a)) (act_rnh a)) in *.
  assert (Hp : forall e, e ∈ l0 -> exists p, pfaddr hm (addr e) = Ok (Some p)).
  { intros e He. rewrite Hm. apply inet_pfaddr, Hi. rewrite <-M3. apply elem_of_addr_set. eauto. }
  destruct (table_sweep_sound a hm l0 Ht Hn Hp _ _ _ _ _ Es _ _ p Hmem) as [(e & He & Ho & _ & Ee)|[_ Hall]].
  - rewrite Hm in Ee. apply (Hno (addr e)); [|done]. assert (Hs0 : addr e ∈ addr_set (tbl_rnh a) ∪ addr_set (act_rnh a))
      by (rewrite <-M3; apply elem_of_addr_set; eauto).
    pose proof (M5 e He) as Hold. rewrite Ho in Hold. apply elem_of_union.
    destruct (decide (addr e ∈ addr_set (act_rnh a))); [by right|]. destruct (decide (addr e ∈ static_set (tbl_rnh a))); [by left|].
    apply elem_of_union in Hs0 as [Hs0|Hs0]; [|done]. destruct Hold as [_ Hold]. discriminate Hold. done.
  - assert (Hl0 : x ∈ addr_set l0) by (rewrite M3; apply elem_of_union; by left).
    apply elem_of_addr_set in Hl0 as (e & He & Ee). apply (Hall e He); [|done|by rewrite Hm, Ee].
    apply (M5 e He). rewrite Ee. split; [done|]. split; intros Hin; apply (Hno x); try done; apply elem_of_union; [by left | by right].
Qed.

(** A round of an action whose host has no other addresses asks for nothing. *)
Lemma idle_round u b st b' ran st' :
  calm (rnh u) -> act_ok b -> static_set (act_rnh b) ⊆ static_set (rnh u) -> addr_set (act_rnh b) = addr_set (rnh u) ->
  check_action_round u b st = Ok (b', ran, st') -> st' = st.
Proof.
  intros Hc Hb Hst Heq E. unfold check_action_round in E. cbn [act_rnh with_thread] in E.
  pose proof (refresh_spec _ (rnh u) (ok_rnh _ Hb) (calm_wf _ Hc)) as Hr. destruct (refresh (act_rnh b) (rnh u)) as [l k].
  destruct Hr as (_ & R2 & _ & R4). assert (k = 0) as ->.
  { rewrite R4. apply count_zero. rewrite R2, <- Heq. pose proof (static_subset (act_rnh b)). clear -H. set_solver. }
  by simplify_eq/=.
Qed.

(** The round of an action whose host has lost an address deletes the entry. *)
Lemma round_deletes t a st a' ran st' n an p :
  plain_host t -> plain_action a -> calm (rnh t) -> act_ok a -> static_set (act_rnh a) ⊆ static_set (rnh t) ->
  (forall e, e ∈ tbl_rnh a -> inet (addr e)) -> entered a (tbl_rnh a) n an p ->
  (forall e, e ∈ rnh t -> pfaddr None (addr e) <> Ok (Some p)) ->
  check_action_round t a st = Ok (a', ran, st') -> ~ member (kern st') n an p.
Proof.
  intros Hh [Hcmd|(Hpf & Hn & Htn)] Hc Ha Hst Hi (Hty & -> & -> & e & He & Ep) Hno E; [congruence|].
  assert (Hgone : forall y, y ∈ addr_set (rnh t) -> pfaddr None y <> Ok (Some p)).
  { intros y Hy. apply elem_of_addr_set in Hy as (e' & He' & <-). auto. }
  assert (Hat : addr e ∈ addr_set (tbl_rnh a)) by (apply elem_of_addr_set; eauto).
  unfold check_action_round in E. cbn [act_rnh with_thread] in E.
  pose proof (refresh_spec _ (rnh t) (ok_rnh _ Ha) (calm_wf _ Hc)) as Hr. destruct (refresh (act_rnh a) (rnh t)) as [l k].
  destruct Hr as (R1 & R2 & _ & R4). set (b := with_act_rnh l _) in E. change (tablename b) with (tablename a) in E.
  pose proof (static_subset (rnh t)) as Hsub.
  assert (Hl : addr_set l = addr_set (rnh t)) by (rewrite R2; clear -Hst Hsub; set_solver).
  assert (Hk : 0 < k).
  { destruct (Z.lt_ge_cases 0 k) as [|Hk]; [done|exfalso]. assert (Hz : k = 0) by lia. rewrite R4 in Hz. apply count_zero in Hz.
    apply (Hgone (addr e)); [|done]. by rewrite <- Hl, <- Hz, <- (ok_same _ Ha). }
  rewrite (proj2 (Z.ltb_lt _ _) Hk), (bool_decide_eq_false_2 _ Htn) in E. cbn [andb negb] in E.
  destruct (table_update b _ st) as [[[a1 e1] s1]|] eqn:Et; [|done]. injection E as <- <- <-.
  assert (Hsi : forall y, y ∈ addr_set (tbl_rnh a) ∪ addr_set l -> inet y).
  { intros y [Hy|Hy]%elem_of_union; [|rewrite Hl in Hy]; apply elem_of_addr_set in Hy as (e' & He' & <-); [by apply Hi | by apply Hh]. }
  refine (gone_address_deleted b _ st a1 e1 s1 (addr e) p Hpf Hn (ok_tbl _ Ha) (settled_wf _ R1) (fun x => plain_pfaddr t x Hh) Hsi Hat Ep _ Et).
  intros y Hy. apply Hgone. change (tbl_rnh b) with (tbl_rnh a) in Hy. change (act_rnh b) with l in Hy. rewrite Hl in Hy.
  pose proof (ok_static _ Ha). clear -Hy Hst Hsub H. set_solver.
Qed.

(** C39. An address that two names of one table share is lost when one of them loses it.  In any state of the
    daemon, let two actions have the same entry in the same table, and let the host of the first have no address
    with this entry any more: the next round of the first action takes the entry out of the table, the second
    action stays as it is, with the address among those of its table, and its rounds make no request as long as
    the addresses of its host are those it has. *)
Theorem shared_address_lost st s a b t a' ran st' n an p :
  plain_reachable st s -> a ∈ action_list s -> b ∈ action_list s -> act_id a <> act_id b ->
  host_of a (thread_list s) = Some t ->
  entered a (tbl_rnh a) n an p -> entered b (tbl_rnh b) n an p ->
  (forall e, e ∈ rnh t -> pfaddr None (addr e) <> Ok (Some p)) ->
  check_action_round t a (fsys s) = Ok (a', ran, st') ->
  ~ member (kern st') n an p /\
  b ∈ at_action (act_id a) (fun _ => a') (action_list s) /\
  forall u b' ran' st'', host_of b (thread_list s) = Some u -> addr_set (act_rnh b) = addr_set (rnh u) ->
    check_action_round u b st' = Ok (b', ran', st'') -> st'' = st'.
Proof.
  intros Hpl Ha Hb Hab Et Hina Hinb Hno E. destruct (plain_reachable_life st s Hpl) as (Hre & [Hp Hh] & [Hi _]).
  destruct (fd_reachable_inv s Hre) as (Hw & Hd & _). apply host_of_spec in Et as [Ht Eh].
  destruct (d_pair _ _ Hd a t Ha Ht Eh) as [Hst _]. split; [|split].
  - exact (round_deletes t a _ a' ran st' n an p (Hh t Ht) (Hp a Ha) (d_host _ _ Hd t Ht) (d_act _ _ Hd a Ha) Hst
      (fun e He => Hi a e Ha He) Hina Hno E).
  - unfold at_action. apply list_elem_of_fmap. exists b. by rewrite bool_decide_eq_false_2 by congruence.
  - intros u b' ran' st'' Eu Heq. apply host_of_spec in Eu as [Hu Ehb]. destruct (d_pair _ _ Hd b u Hb Hu Ehb) as [Hsb _].
    by apply idle_round; [apply Hd | apply Hd |..].
Qed.
End life.

(** ** Runs *)

(** Moves of the daemon, by the place of a host or an action in its list; a look-up that answers [ans]. *)
Inductive move : Type := MHostStart (i : nat) | MHostRound (i : nat) (ans : list sockaddr) | MActStart (i : nat) | MActRound (i : nat).

Definition plain_actionb (a : action) : bool :=
  match type a with
  | CMD_TYPE => true
  | PF_TYPE => negb (too_long (Some (default "" (tablename a))) PF_TABLE_NAME_SIZE) && negb (too_long (anchor a) MAXPATHLEN)
               && bool_decide (tablename a <> None)
  | IPFW_TYPE => false
  end.

Definition plain_hostb (t : thread_host) : bool :=
  ((mask t =? -1) || (mask t =? 32)) && (mask6 t =? -1) &&
  forallb (fun e => (sa_family (addr e) =? AF_INET) || (sa_family (addr e) =? AF_INET6)) (rnh t).

Section moves.
Context `{HK : Kernel} `{HP : !PfTables} `{HR : !Resolver}.

Definition plain_stateb (s : fdns) : bool := forallb plain_actionb (action_list s) && forallb plain_hostb (thread_list s).

Definition make (m : move) (s : fdns) : option fdns :=
  match m with
  | MHostStart i =>
      t ← thread_list s !! i;
      if bool_decide (th_state t = THR_STARTING) then
        Some (set_lists (action_list s) (at_thread (th_id t) (check_hostname_start numeric6 junk0) (thread_list s)) (fsys s) s)
      else None
  | MHostRound i ans =>
      t ← thread_list s !! i;
      if bool_decide (th_state t = THR_RUNNING) && negb (refcnt t =? 0) && forallb (fun a => sa_len a =? Z.of_nat (length a)) ans then
        let '(t', update) := check_hostname_round (Some (map Some ans)) t in
        Some (set_lists (wake_actions (actions t) update (action_list s))
                (at_thread (th_id t) (fun _ => sem_clockwait t') (thread_list s)) (fsys s) s)
      else None
  | MActStart i =>
      a ← action_list s !! i;
      if bool_decide (act_state a = THR_STARTING) then
        Some (set_lists (at_action (act_id a) (fun a => with_thread (ACT_FORCE a) THR_RUNNING (act_sem a) a) (action_list s))
                (thread_list s) (fsys s) s)
      else None
  | MActRound i =>
      a ← action_list s !! i;
      t ← host_of a (thread_list s);
      if bool_decide (act_state a = THR_RUNNING) && (0 <? act_sem a) then
        match check_action_round t a (fsys s) with
        | Ok (a', _, st) => Some (set_lists (at_action (act_id a) (fun _ => a') (action_list s)) (thread_list s) st s)
        | Fail _ => None
        end
      else None
  end.

(** Moves after each of which the state passes a check. *)
Fixpoint make_all (chk : fdns -> bool) (ms : list move) (s : fdns) : option fdns :=
  match ms with
  | [] => Some s
  | m :: ms => s ← make m s; if chk s then make_all chk ms s else None
  end.

(** At most one action, whose addresses have different entries. *)
Definition differ (l : list sockaddr) : bool :=
  forallb (fun x => forallb (fun y => bool_decide (x = y) || negb (bool_decide (full_entry x = full_entry y))) l) l.
Definition singleb (s : fdns) : bool :=
  (length (action_list s) <=? 1)%nat &&
  forallb (fun a => forallb (fun t => differ (addrs (tbl_rnh a) ++ addrs (rnh t))) (thread_list s)) (action_list s).

Lemma plain_stateb_ok s : plain_stateb s = true -> plain_state s.
Proof.
  unfold plain_stateb. rewrite andb_true_iff, !forallb_forall. intros [Ha Ht]. split.
  - intros a Hin. specialize (Ha a (proj1 (list_elem_of_In _ _) Hin)). unfold plain_actionb in Ha. unfold plain_action, names_ok.
    destruct (type a); [done| |by left]. right. by rewrite !andb_true_iff, !negb_true_iff, bool_decide_eq_true in Ha.
  - intros t Hin. specialize (Ht t (proj1 (list_elem_of_In _ _) Hin)). unfold plain_hostb in Ht.
    rewrite !andb_true_iff, orb_true_iff, !Z.eqb_eq, forallb_forall in Ht. destruct Ht as [[Hm H6] Hf]. split; [done..|].
    intros e He. specialize (Hf e (proj1 (list_elem_of_In _ _) He)). cbv beta in Hf. by rewrite orb_true_iff, !Z.eqb_eq in Hf.
Qed.

Lemma make_step m s s' : make m s = Some s' -> step s s'.
Proof.
  unfold make. destruct m as [i|i ans|i|i].
  - destruct (thread_list s !! i) as [t|] eqn:Et; [|done]. cbn [mbind option_bind]. case_bool_decide; [|done]. intros [= <-].
    apply step_host_start; [by eapply list_elem_of_lookup_2 | done | done].
  - destruct (thread_list s !! i) as [t|] eqn:Et; [|done]. cbn [mbind option_bind]. destruct (_ && _) eqn:Eg; [|done].
    rewrite !andb_true_iff, bool_decide_eq_true, negb_true_iff, Z.eqb_neq, forallb_forall in Eg. destruct Eg as [[E1 E2] E3].
    destruct (check_hostname_round _ t) as [t' update] eqn:Er. intros [= <-]. eapply step_host_round; try done; [by eapply list_elem_of_lookup_2|].
    intros l a [= <-] Ha. apply list_elem_of_fmap_1 in Ha as (b & [= ->] & Hb). apply list_elem_of_In, E3, Z.eqb_eq in Hb. exact Hb.
  - destruct (action_list s !! i) as [a|] eqn:Ea; [|done]. cbn [mbind option_bind]. case_bool_decide; [|done]. intros [= <-].
    apply step_action_start; [by eapply list_elem_of_lookup_2 | done].
  - destruct (action_list s !! i) as [a|] eqn:Ea; [|done]. cbn [mbind option_bind]. destruct (host_of a _) as [t|] eqn:Eh; [|done].
    cbn [mbind option_bind]. destruct (_ && _) eqn:Eg; [|done]. apply andb_true_iff in Eg as [E1%bool_decide_eq_true E2%Z.ltb_lt].
    destruct (check_action_round t a (fsys s)) as [[[a' ran] st]|] eqn:Er; [|done]. intros [= <-].
    eapply step_action_round; [by eapply list_elem_of_lookup_2 | done | done | exact Eh | exact Er].
Qed.

Lemma make_all_run (R : fdns -> Prop) chk ms : (forall s s', R s -> step s s' -> chk s' = true -> R s') ->
  forall s s', R s -> make_all chk ms s = Some s' -> R s'.
Proof.
  intros Hkeep. induction ms as [|m ms IH]; intros s s' Hs; cbn [make_all]; [by intros [= <-]|].
  destruct (make m s) as [s1|] eqn:Em; [|done]. cbn [mbind option_bind]. destruct (chk s1) eqn:Ec; [|done].
  apply IH. apply (Hkeep s); [done | by eapply make_step | done].
Qed.

Lemma make_all_reachable st ms s s' : plain_reachable st s -> make_all plain_stateb ms s = Some s' -> plain_reachable st s'.
Proof.
  apply (make_all_run (plain_reachable st)). intros s1 s2 Hs Hst Hc. eapply plain_next; [done..|]. by apply plain_stateb_ok.
Qed.

Lemma singleb_ok st s : (forall n an x, ~ member (kern st) n an x) -> singleb s = true -> separate st s.
Proof.
  intros Hk. unfold singleb. rewrite andb_true_iff, Nat.leb_le, forallb_forall. intros [Hl Hd]. split.
  - intros a t x y Ha Ht _ Hx Hy E. apply list_elem_of_In in Ha, Ht. specialize (Hd a Ha). cbv beta in Hd. rewrite forallb_forall in Hd.
    specialize (Hd t Ht). unfold differ in Hd. rewrite forallb_forall in Hd.
    assert (Hin : forall z, z ∈ addr_set (tbl_rnh a) ∪ addr_set (rnh t) -> In z (addrs (tbl_rnh a) ++ addrs (rnh t))).
    { intros z Hz. apply list_elem_of_In. unfold addr_set in Hz. by rewrite elem_of_union, !elem_of_list_to_set, <-elem_of_app in Hz. }
    specialize (Hd x (Hin x Hx)). cbv beta in Hd. rewrite forallb_forall in Hd. specialize (Hd y (Hin y Hy)). cbv beta in Hd.
    apply orb_true_iff in Hd as [Hd|Hd]; [by eapply bool_decide_eq_true_1|]. apply negb_true_iff, bool_decide_eq_false in Hd.
    destruct Hd. unfold full_entry. by rewrite E.
  - intros a b n an x Ha Hb _ _. destruct (action_list s) as [|c [|d l]]; [by apply elem_of_nil in Ha| |cbn in Hl; lia].
    apply list_elem_of_singleton in Ha, Hb. congruence.
  - intros n an x _. apply Hk.
Qed.

Lemma make_all_separate st ms s s' : (forall n an x, ~ member (kern st) n an x) -> separate_reachable st s ->
  make_all (fun s => plain_stateb s && singleb s) ms s = Some s' -> separate_reachable st s'.
Proof.
  intros Hk. apply (make_all_run (separate_reachable st)). intros s1 s2 Hs Hst [Hc1 Hc2]%andb_true_iff.
  eapply separate_next; [done..|by apply plain_stateb_ok | by apply singleb_ok].
Qed.
End moves.

(** Two names for the table "hosts", and an address that both of them have. *)
Import Demo.
Definition two_names : list rule :=
  [TableRule PF_TYPE "a.example" "hosts" None 0 None; TableRule PF_TYPE "b.example" "hosts" None 0 None].
Definition two0 : fdns := Eval vm_compute in default demo_state0 (fd_init two_names demo_empty).
Definition shared : sockaddr := sin 10 0 0 2.
Definition two_up : list move :=
  [MHostStart 0; MHostStart 1; MHostRound 0 [shared]; MHostRound 1 [shared]; MActStart 0; MActStart 1; MActRound 0; MActRound 1].

(** Both names were looked up and entered. *)
Definition two1 : fdns := Eval vm_compute in default two0 (make_all plain_stateb two_up two0).

Lemma two0_reachable : plain_reachable demo_empty two0.
Proof. apply (plain_init _ two_names); [reflexivity|]. apply plain_stateb_ok. vm_compute. reflexivity. Qed.

Lemma two1_reachable : plain_reachable demo_empty two1.
Proof. apply (make_all_reachable _ two_up two0); [apply two0_reachable | vm_compute; reflexivity]. Qed.

(** The two ends, from the state in which both names are entered. *)
Definition two_term : fdns := Eval vm_compute in handle_signal SIGTERM (merge_start two1).
Definition two_hup : fdns := Eval vm_compute in handle_signal SIGHUP (merge_start two1).

Lemma two_term_reachable : plain_reachable demo_empty two_term.
Proof.
  assert (H1 : plain_reachable demo_empty (merge_start two1)).
  { eapply plain_next; [apply two1_reachable | by apply step_merge_start | apply plain_stateb_ok; vm_compute; reflexivity]. }
  eapply plain_next; [exact H1 | exact (step_signal (merge_start two1) SIGTERM) | apply plain_stateb_ok; vm_compute; reflexivity].
Qed.


(** A reload with a rule twice ends the daemon with the addresses of its actions in the tables. *)
Lemma refused_reload_keeps_entries :
  ends two_hup 10 (fsys two_hup) /\ member (kern (fsys two_hup)) "hosts" "" (entry_of shared).
Proof.
  split; [|left]. apply (ends_refused _ (two_names ++ two_names)); [reflexivity | reflexivity | discriminate | vm_compute; reflexivity].
Qed.

(** One name: its addresses change from 10.0.0.2 to 10.0.0.3 and 10.0.0.4. *)
Definition one_name : list rule := [TableRule PF_TYPE "a.example" "hosts" None 0 None].
Definition one_moves : list move :=
  [MHostStart 0; MActStart 0; MHostRound 0 [shared]; MActRound 0; MHostRound 0 [sin 10 0 0 3; sin 10 0 0 4]; MActRound 0].
Definition one0 : fdns := Eval vm_compute in default demo_state0 (fd_init one_name demo_empty).
Definition one1 : fdns := Eval vm_compute in default one0 (make_all (fun s => plain_stateb s && singleb s) one_moves one0).

Lemma demo_empty_no_member n an x : ~ member (kern demo_empty) n an x.
Proof. apply not_elem_of_nil. Qed.

Lemma one1_reachable : separate_reachable demo_empty one1.
Proof.
  apply (make_all_separate demo_empty one_moves one0); [apply demo_empty_no_member | | vm_compute; reflexivity].
  apply (separate_init _ one_name); [reflexivity | apply plain_stateb_ok; vm_compute; reflexivity|].
  apply singleb_ok; [apply demo_empty_no_member | vm_compute; reflexivity].
Qed.

Lemma tables_follow_hosts_witness :
  member (kern (fsys one1)) "hosts" "" (entry_of (sin 10 0 0 4)) /\ ~ member (kern (fsys one1)) "hosts" "" (entry_of shared).
Proof.
  assert (Hr : at_rest one1).
  { split.
    - intros a Ha%list_elem_of_singleton. subst a. split; [cbn; lia | reflexivity].
    - intros t Ht%list_elem_of_singleton. subst t. intros (e & [-> |[-> |He%elem_of_nil]%elem_of_cons]%elem_of_cons & Hn); [discriminate Hn..|destruct He]. }
  split.
  - apply (proj2 (tables_follow_hosts demo_empty one1 one1_reachable Hr)). right.
    exists (default demo_act (action_list one1 !! 0%nat)), (default demo_host (thread_list one1 !! 0%nat)), (plain (sin 10 0 0 4)).
    do 5 (split; [first [left | reflexivity]|]). split; [left | reflexivity].
  - intros H. apply (proj2 (tables_follow_hosts demo_empty one1 one1_reachable Hr)) in H as [H|(a & t & e & Ha & Et & _ & _ & _ & He & Ep)];
      [by apply elem_of_nil in H|].
    apply list_elem_of_singleton in Ha. subst a. injection Et as <-.
    apply elem_of_cons in He as [-> |[-> |He%elem_of_nil]%elem_of_cons]; [discriminate Ep..|destruct He].
Defined.

(** Both names had the address; the first one has lost it. *)
Definition two_mid : fdns := Eval vm_compute in default two0 (make_all plain_stateb [MHostRound 0 []] two1).
Definition two_a : action := Eval vm_compute in default demo_act (action_list two_mid !! 0%nat).
Definition two_b : action := Eval vm_compute in default demo_act (action_list two_mid !! 1%nat).
Definition two_t : thread_host := Eval vm_compute in default demo_host (thread_list two_mid !! 0%nat).
Definition two_round : action * option string * sys := Eval vm_compute in
  match check_action_round two_t two_a (fsys two_mid) with Ok r => r | Fail _ => (demo_act, None, demo_empty) end.

Lemma two_mid_reachable : plain_reachable demo_empty two_mid.
Proof. apply (make_all_reachable _ [MHostRound 0 []] two1); [apply two1_reachable | vm_compute; reflexivity]. Qed.

Lemma shared_address_lost_witness :
  member (kern (fsys two_mid)) "hosts" "" (entry_of shared) /\ ~ member (kern two_round.2) "hosts" "" (entry_of shared) /\
  entered two_b (tbl_rnh two_b) "hosts" "" (entry_of shared).
Proof.
  assert (He : forall a, type a = PF_TYPE -> tablename a = Some "hosts" -> anchor a = None -> tbl_rnh a = [plain shared] ->
    entered a (tbl_rnh a) "hosts" "" (entry_of shared)).
  { intros a H1 H2 H3 ->. split; [done|]. rewrite H2, H3. split; [done|]. split; [done|]. exists (plain shared). split; [left | reflexivity]. }
  split; [left|]. split; [|apply He; reflexivity].
  apply (shared_address_lost demo_empty two_mid two_a two_b two_t two_round.1.1 two_round.1.2 two_round.2 "hosts" "" (entry_of shared) two_mid_reachable).
  - left.
  - right. left.
  - discriminate.
  - reflexivity.
  - apply He; reflexivity.
  - apply He; reflexivity.
  - intros e H%elem_of_nil. destruct H.
  - vm_compute. reflexivity.
Defined.
