(* ===== verification/FdLex.v ===== *)
(** filterdns, the lexer of parse.y: characters with continued lines, escapes and compressed blanks,
    words, quoted strings and comments; and that it reads a line of items as those items.

    The member [lineno] of the file and of [yylval], which only messages show, is left out; [parsebuf] is
    never anything but NULL. *)
From Stdlib Require Import ZArith Lia Ascii String.
From stdpp Require Import base list strings numbers.
From S2P Require Import Prelude CProg.
Open Scope string_scope.
Open Scope list_scope.
Open Scope Z_scope.

(** ** Characters *)

Definition EOF : Z := -1.

(** The rest of [file->stream], and [pushback_buffer] up to [pushback_index], the last entry first. *)
Record lexer : Type := { stream : string; pushback : list Z }.

Definition getc (s : string) : Z * string :=
  match s with
  | "" => (EOF, "")
  | String c r => (ascii_val c, r)
  end.

(** The loop over backslashes: a backslash before a newline joins two lines, one before any other
    character stands for that character. *)
Fixpoint unescape (s : string) : Z * string :=
  match s with
  | String "\" r =>
      match r with
      | String "010" r' => unescape r'
      | _ => getc r
      end
  | _ => getc s
  end.

Definition is_blank (c : Z) : bool := (c =? 9) || (c =? 32).

Fixpoint skip_blanks (s : string) : string :=
  match s with
  | "" => ""
  | String c r => if is_blank (ascii_val c) then skip_blanks r else s
  end.

Definition lgetc (l : lexer) : Z * lexer :=
  match pushback l with
  | c :: p => (c, {| stream := stream l; pushback := p |})
  | [] =>
      let '(c, s) := unescape (stream l) in
      if is_blank c then (32, {| stream := skip_blanks s; pushback := [] |})
      else (c, {| stream := s; pushback := [] |})
  end.

Definition MAXPUSHBACK : nat := 128.

(** The conversion to [char], which is signed. *)
Definition i8 (z : Z) : Z := (z + 128) mod 256 - 128.

Definition lungetc (c : Z) (l : lexer) : lexer :=
  if c =? EOF then l
  else if (length (pushback l) <? MAXPUSHBACK - 1)%nat then {| stream := stream l; pushback := i8 c :: pushback l |}
  else l.

(** ** Tokens *)

(** What [yylex] returns: a token of the grammar with its value, or a character; at the end of the file
    the character is 0. *)
Inductive token : Type :=
  | IPFW | PF | PIPE | ERROR | CMD
  | STRING (s : string)
  | CHAR (c : Z).

#[export] Instance token_eq_dec : EqDecision token.
Proof. solve_decision. Defined.

(** [lookup]; [bsearch] in the sorted table of four keywords. *)
Definition lookup (s : string) : token :=
  if String.eqb s "cmd" then CMD
  else if String.eqb s "ipfw" then IPFW
  else if String.eqb s "pf" then PF
  else if String.eqb s "pipe" then PIPE
  else STRING s.

(** [isalnum] and [ispunct] in the C locale. *)
Definition isalnum (c : Z) : bool :=
  ((48 <=? c) && (c <=? 57)) || ((65 <=? c) && (c <=? 90)) || ((97 <=? c) && (c <=? 122)).
Definition ispunct (c : Z) : bool := (33 <=? c) && (c <=? 126) && negb (isalnum c).

Definition is_char (c : Z) (a : ascii) : bool := c =? ascii_val a.

Definition allowed_in_string (c : Z) : bool :=
  isalnum c ||
  (ispunct c && negb (is_char c "(") && negb (is_char c ")") && negb (is_char c "{") && negb (is_char c "}")
   && negb (is_char c "!") && negb (is_char c "=") && negb (is_char c "#") && negb (is_char c ",")).

Definition word_start (c : Z) : bool := isalnum c || is_char c ":" || is_char c "_".

(** [sizeof(buf)] *)
Definition bufsize : nat := 8096.

(** ** The loops of [yylex] *)

Definition putc (buf : string) (c : Z) : string := buf +:+ String (ascii_of_Z c) "".

Fixpoint findeol_loop (fuel : nat) (l : lexer) : outcome lexer :=
  match fuel with
  | O => Fail NoFuel
  | S n => let '(c, l) := lgetc l in if (c =? 10) || (c =? EOF) then Ok l else findeol_loop n l
  end.

Definition findeol (fuel : nat) (l : lexer) : outcome (token * lexer) :=
  l ← findeol_loop fuel {| stream := stream l; pushback := [] |};
  Ok (ERROR, l).

Fixpoint blanks_loop (fuel : nat) (l : lexer) : outcome (Z * lexer) :=
  match fuel with
  | O => Fail NoFuel
  | S n => let '(c, l) := lgetc l in if (c =? 32) || (c =? 9) then blanks_loop n l else Ok (c, l)
  end.

Fixpoint comment_loop (fuel : nat) (l : lexer) : outcome (Z * lexer) :=
  match fuel with
  | O => Fail NoFuel
  | S n => let '(c, l) := lgetc l in if negb (c =? 10) && negb (c =? EOF) then comment_loop n l else Ok (c, l)
  end.

Inductive quoted : Type :=
  | QString (s : string)
  | QEof
  | QLong.

(** The loop over a quoted string.  A backslash reaches it only as the second of two in the file. *)
Fixpoint quoted_loop (fuel : nat) (quotec : Z) (buf : string) (l : lexer) : outcome (quoted * lexer) :=
  match fuel with
  | O => Fail NoFuel
  | S n =>
      let store c l :=
        if (bufsize - 1 <=? String.length buf + 1)%nat then Ok (QLong, l)
        else quoted_loop n quotec (putc buf c) l in
      let '(c, l) := lgetc l in
      if c =? EOF then Ok (QEof, l)
      else if c =? quotec then Ok (QString (c_str buf), l)
      else if c =? 10 then quoted_loop n quotec buf l
      else if is_char c "\" then
        let '(next, l) := lgetc l in
        if next =? EOF then Ok (QEof, l)
        else if (next =? quotec) || (c =? 32) || (c =? 9) then store next l
        else if next =? 10 then quoted_loop n quotec buf l
        else store c (lungetc next l)
      else store c l
  end.

(** The loop over a word, [None] when it is too long. *)
Fixpoint word_loop (fuel : nat) (c : Z) (buf : string) (l : lexer) : outcome (option string * lexer) :=
  match fuel with
  | O => Fail NoFuel
  | S n =>
      let buf := putc buf c in
      if (bufsize <=? String.length buf)%nat then Ok (None, l)
      else
        let '(c, l) := lgetc l in
        if negb (c =? EOF) && allowed_in_string c then word_loop n c buf l
        else Ok (Some buf, lungetc c l)
  end.

(** [yylex] from the first character that is not a blank and not in a comment. *)
Definition lex_from (fuel : nat) (c : Z) (l : lexer) : outcome (token * lexer) :=
  if is_char c "'" || (c =? 34) then
    '(r, l) ← quoted_loop fuel c "" l;
    match r with
    | QEof => Ok (CHAR 0, l)
    | QLong => findeol fuel l
    | QString s => Ok (STRING s, l)
    end
  else if word_start c then
    '(r, l) ← word_loop fuel c "" l;
    match r with
    | None => findeol fuel l
    | Some buf => Ok (lookup buf, l)
    end
  else if c =? EOF then Ok (CHAR 0, l)
  else Ok (CHAR c, l).

Definition size (l : lexer) : nat := String.length (stream l) + length (pushback l).

(** [yylex]: every character that is read makes the rest of the file smaller. *)
Definition yylex (l : lexer) : outcome (token * lexer) :=
  let fuel := (size l + 2)%nat in
  '(c, l) ← blanks_loop fuel l;
  '(c, l) ← (if is_char c "#" then comment_loop fuel l else Ok (c, l));
  lex_from fuel c l.

(** All tokens up to the one that ends the file.  The generated parser takes every token that is not
    positive for the end. *)
Fixpoint lex_loop (fuel : nat) (l : lexer) : outcome (list token) :=
  match fuel with
  | O => Fail NoFuel
  | S n =>
      '(t, l) ← yylex l;
      let go := ts ← lex_loop n l; Ok (t :: ts) in
      match t with
      | CHAR c => if c <=? 0 then Ok [] else go
      | _ => go
      end
  end.

Definition lex_all (l : lexer) : outcome (list token) := lex_loop (size l + 1) l.
Definition lex_file (text : string) : outcome (list token) := lex_all {| stream := text; pushback := [] |}.

(** ** Progress *)

Lemma unescape_size : forall n s c r, (String.length s <= n)%nat -> unescape s = (c, r) ->
  (String.length r <= String.length s)%nat /\ (c <> EOF -> String.length r < String.length s)%nat.
Proof.
  induction n as [|n IH]; intros [|a s] c r Hn E; cbn [String.length] in Hn; try (injection E as <- <-; split; [done|by intros []]); [lia|].
  assert (Hg : getc (String a s) = (c, r) -> (String.length r <= String.length (String a s))%nat /\
    (c <> EOF -> String.length r < String.length (String a s))%nat) by (intros [= <- <-]; cbn [String.length]; lia).
  destruct (ascii_dec a "\") as [-> |Ha].
  - destruct s as [|b s]; [injection E as <- <-; cbn; split; [lia|by intros []]|].
    destruct (ascii_dec b "010") as [-> |Hb].
    + cbn [unescape] in E. cbn [String.length] in *. destruct (IH s c r ltac:(lia) E). split; [lia|]. intros Hc. apply H0 in Hc. lia.
    + assert (E' : getc (String b s) = (c, r)).
      { rewrite <- E. destruct b as [[] [] [] [] [] [] [] []]; try reflexivity. by exfalso. }
      injection E' as <- <-. cbn [String.length]. lia.
  - apply Hg. rewrite <- E. destruct a as [[] [] [] [] [] [] [] []]; try reflexivity. by exfalso.
Qed.

Lemma skip_blanks_size s : (String.length (skip_blanks s) <= String.length s)%nat.
Proof. induction s as [|c s IH]; cbn [skip_blanks String.length]; [lia|]. destruct (is_blank _); cbn [String.length]; lia. Qed.

Lemma lgetc_size l c l' : lgetc l = (c, l') ->
  (size l' <= size l)%nat /\ (c <> EOF -> size l' < size l)%nat.
Proof.
  unfold lgetc, size. destruct l as [s [|a p]]; cbn [pushback stream length]; [|intros [= <- <-]; cbn; lia].
  destruct (unescape s) as [a r] eqn:E. destruct (unescape_size _ s a r (le_n _) E) as [H1 H2].
  destruct (is_blank a) eqn:Hb; intros [= <- <-]; cbn [stream pushback length].
  - assert (a <> EOF) by (intros ->; discriminate Hb). pose proof (skip_blanks_size r). specialize (H2 H). lia.
  - split; [lia|]. intros Ha. specialize (H2 Ha). lia.
Qed.

Lemma lungetc_size c l : (size (lungetc c l) <= size l + 1)%nat.
Proof. unfold lungetc, size. destruct (c =? EOF); [lia|]. case_match; cbn; lia. Qed.

(** A loop that does not run out of fuel and leaves at most [m] characters. *)
Definition leaves {A} (f : A -> nat) (m : nat) (o : outcome A) : Prop :=
  match o with Ok a => (f a <= m)%nat | Fail _ => False end.

Ltac next_char l c l' :=
  let E := fresh "E" in let H1 := fresh "H" in let H2 := fresh "H" in
  destruct (lgetc l) as [c l'] eqn:E; destruct (lgetc_size _ _ _ E) as [H1 H2].

Ltac lex_cases :=
  repeat match goal with
  | |- context [if ?b then _ else _] => let H := fresh "C" in destruct b eqn:H
  | H : (_ =? _) = false |- _ => apply Z.eqb_neq in H
  | H : _ || _ = false |- _ => apply orb_false_iff in H as [? ?]
  | H : ?c <> EOF -> _, H' : ?c <> EOF |- _ => specialize (H H')
  end.

Lemma findeol_leaves fuel l : (size l < fuel)%nat -> leaves (fun r => size (snd r)) (size l) (findeol fuel l).
Proof.
  intros Hf. unfold findeol.
  assert (H : leaves size (size l) (findeol_loop fuel {| stream := stream l; pushback := [] |})).
  { assert (Hs : (size {| stream := stream l; pushback := [] |} <= size l)%nat) by (unfold size; cbn; lia).
    revert Hs. generalize ({| stream := stream l; pushback := [] |}). revert l Hf.
    induction fuel as [|n IH]; intros m Hm l Hl; [lia|]. cbn [findeol_loop]. next_char l c l'.
    lex_cases; [cbn; lia|]. specialize (IH l' ltac:(lia) l' ltac:(lia)).
    destruct (findeol_loop n l'); cbn in *; [lia|done]. }
  destruct (findeol_loop _ _); cbn in *; done.
Qed.

Lemma blanks_leaves fuel l : (size l < fuel)%nat ->
  leaves (fun r => if (fst r =? EOF)%Z then size (snd r) else S (size (snd r))) (size l) (blanks_loop fuel l).
Proof.
  revert l. induction fuel as [|n IH]; intros l Hl; [lia|]. cbn [blanks_loop]. next_char l c l'. lex_cases.
  - assert (c <> EOF) by (intros ->; discriminate C). specialize (H0 H1). specialize (IH l' ltac:(lia)).
    destruct (blanks_loop n l'); cbn in *; [lia|done].
  - cbn. lex_cases; cbn in *; lia.
Qed.

Lemma comment_leaves fuel l : (size l < fuel)%nat ->
  leaves (fun r => size (snd r)) (size l) (comment_loop fuel l).
Proof.
  revert l. induction fuel as [|n IH]; intros l Hl; [lia|]. cbn [comment_loop]. next_char l c l'.
  destruct (negb (c =? 10) && negb (c =? EOF)) eqn:C; [|cbn; lia].
  apply andb_true_iff in C as [_ C%negb_true_iff%Z.eqb_neq]. specialize (H0 C). specialize (IH l' ltac:(lia)).
  destruct (comment_loop n l'); cbn in *; [lia|done].
Qed.

Lemma quoted_leaves fuel q buf l : (size l < fuel)%nat ->
  leaves (fun r => size (snd r)) (size l) (quoted_loop fuel q buf l).
Proof.
  revert buf l. induction fuel as [|n IH]; intros buf l Hl; [lia|].
  assert (Hgo : forall buf l', (size l' < size l)%nat -> leaves (fun r => size (snd r)) (size l) (quoted_loop n q buf l')).
  { intros b l' H. specialize (IH b l' ltac:(lia)). destruct (quoted_loop n q b l'); cbn in *; [lia|done]. }
  cbn [quoted_loop]. next_char l c l'.
  destruct (c =? EOF) eqn:C; [cbn; lia|]. apply Z.eqb_neq in C. specialize (H0 C).
  destruct (c =? q); [cbn; lia|]. destruct (c =? 10); [apply Hgo; lia|]. destruct (is_char c "\").
  - next_char l' d l2. destruct (d =? EOF) eqn:D; [cbn; lia|]. apply Z.eqb_neq in D. specialize (H2 D).
    pose proof (lungetc_size d l2). destruct (_ || _ || _); [case_match; [cbn; lia | apply Hgo; lia]|].
    destruct (d =? 10); [apply Hgo; lia|]. case_match; [cbn; lia | apply Hgo; lia].
  - case_match; [cbn; lia | apply Hgo; lia].
Qed.

(** A word is followed by one character that is pushed back. *)
Lemma word_leaves fuel c buf l : (size l < fuel)%nat ->
  leaves (fun r => size (snd r)) (size l) (word_loop fuel c buf l).
Proof.
  revert c buf l. induction fuel as [|n IH]; intros c buf l Hl; [lia|]. cbn [word_loop].
  destruct (_ <=? _)%nat; [cbn; lia|]. next_char l d l'. destruct (d =? EOF) eqn:D; cbn [negb andb].
  - cbn [leaves snd]. unfold lungetc. rewrite D. lia.
  - apply Z.eqb_neq in D. specialize (H0 D). destruct (allowed_in_string d).
    + specialize (IH d (putc buf c) l' ltac:(lia)). destruct (word_loop n d (putc buf c) l'); cbn in *; [lia|done].
    + cbn [leaves snd]. pose proof (lungetc_size d l'). lia.
Qed.

Definition ends (t : token) : bool := match t with CHAR c => c <=? 0 | _ => false end.

Lemma lex_from_leaves fuel c l : (size l < fuel)%nat ->
  leaves (fun r => if (c =? EOF)%Z && ends (fst r) then O else size (snd r)) (size l) (lex_from fuel c l).
Proof.
  intros Hf. unfold lex_from.
  assert (He : forall l', (size l' <= size l)%nat ->
    leaves (fun r => if (c =? EOF)%Z && ends (fst r) then O else size (snd r)) (size l) (findeol fuel l')).
  { intros l' Hl'. pose proof (findeol_leaves fuel l' ltac:(lia)) as H. destruct (findeol fuel l') as [[t l2]|]; cbn in *; [|done].
    destruct (_ && _); lia. }
  destruct (_ || _).
  - pose proof (quoted_leaves fuel c "" l Hf) as H. destruct (quoted_loop fuel c "" l) as [[[s| |] l']|]; cbn in *; try done.
    + by rewrite andb_false_r.
    + destruct (_ && _); lia.
    + by apply He.
  - destruct (word_start c).
    + pose proof (word_leaves fuel c "" l Hf) as H. destruct (word_loop fuel c "" l) as [[[b|] l']|]; cbn in *; try done; [|by apply He].
      destruct (_ && _); lia.
    + destruct (c =? EOF) eqn:C; cbn; [lia|]. apply Z.eqb_neq in C. lia.
Qed.

(** [yylex] returns, and every token but the end makes the rest smaller. *)
Lemma yylex_leaves l : leaves (fun r => if ends (fst r) then O else S (size (snd r))) (size l) (yylex l).
Proof.
  unfold yylex. pose proof (blanks_leaves (size l + 2) l ltac:(lia)) as Hb.
  destruct (blanks_loop _ l) as [[c l1]|]; cbn [leaves fst snd mbind outcome_bind] in *; [|done].
  destruct (Z.eqb_spec c EOF) as [-> |Hc].
  - apply Nat.le_0_l.
  - assert (Hl : forall d l2, (size l2 <= size l1)%nat -> d <> EOF ->
      leaves (fun r => if ends (fst r) then O else S (size (snd r))) (size l) (lex_from (size l + 2) d l2)).
    { intros d l2 H2 Hd. pose proof (lex_from_leaves (size l + 2) d l2 ltac:(lia)) as H.
      destruct (lex_from _ d l2) as [[t l3]|]; cbn [leaves fst snd] in *; [|done].
      rewrite (proj2 (Z.eqb_neq d EOF)) in H by done. cbn [andb] in H. destruct (ends t); lia. }
    destruct (is_char c "#"); [|by apply Hl].
    pose proof (comment_leaves (size l + 2) l1 ltac:(lia)) as H1.
    destruct (comment_loop _ l1) as [[d l2]|]; cbn [leaves fst snd mbind outcome_bind] in *; [|done].
    destruct (Z.eq_dec d EOF) as [-> |Hd]; [apply Nat.le_0_l | by apply Hl].
Qed.

(** ** All tokens *)

Lemma lex_loop_enough : forall n m l, (size l < n)%nat -> (size l < m)%nat -> lex_loop n l = lex_loop m l.
Proof.
  induction n as [|n IH]; intros [|m] l Hn Hm; try lia. cbn [lex_loop]. pose proof (yylex_leaves l) as H.
  destruct (yylex l) as [[t l']|]; cbn [leaves fst snd mbind outcome_bind] in *; [|done].
  destruct (ends t) eqn:He.
  - destruct t; try discriminate He. cbn in He. by rewrite He.
  - rewrite (IH m l') by lia. done.
Qed.

Lemma lex_all_step l t l' : yylex l = Ok (t, l') -> ends t = false -> lex_all l = (ts ← lex_all l'; Ok (t :: ts)).
Proof.
  intros E He. pose proof (yylex_leaves l) as H. rewrite E in H. cbn [leaves fst snd] in H. rewrite He in H.
  unfold lex_all. rewrite Nat.add_1_r. cbn [lex_loop]. rewrite E. cbn [mbind outcome_bind].
  rewrite (lex_loop_enough (size l) (size l' + 1)) by lia. destruct t; try done. cbn in He. by rewrite He.
Qed.

Lemma lex_all_end l t l' : yylex l = Ok (t, l') -> ends t = true -> lex_all l = Ok [].
Proof.
  intros E He. unfold lex_all. rewrite Nat.add_1_r. cbn [lex_loop]. rewrite E. cbn [mbind outcome_bind].
  destruct t; try discriminate He. cbn in He. by rewrite He.
Qed.

Lemma lex_file_total text : exists ts, lex_file text = Ok ts.
Proof.
  unfold lex_file. generalize {| stream := text; pushback := [] |}. intros l.
  remember (size l) as n eqn:Hn. revert l Hn. induction (lt_wf n) as [n _ IH]. intros l ->.
  pose proof (yylex_leaves l) as H. destruct (yylex l) as [[t l']|] eqn:E; cbn [leaves fst snd] in H; [|done].
  destruct (ends t) eqn:He; [by exists []; apply (lex_all_end l t l')|].
  destruct (IH (size l') H l' eq_refl) as (ts & Ht). exists (t :: ts). by rewrite (lex_all_step l t l'), Ht.
Qed.

(** ** Lines that are read as they are meant

    A line has items with blanks between them and may end with a comment.  An item is a word (a keyword,
    a name) or a text in quotes, in which every run of blanks is one space. *)

Definition LF : ascii := "010".
Definition blank (c : ascii) : bool := is_blank (ascii_val c).
Definition word_char (c : ascii) : bool := allowed_in_string (ascii_val c) && negb (Ascii.eqb c "\").

Definition is_word (w : string) : bool :=
  match w with
  | "" => false
  | String c r => word_start (ascii_val c) && all_chars word_char r && (String.length w <? bufsize)%nat
  end.

(** The specification of a text in quotes. *)
Fixpoint compress (s : string) : string :=
  match s with
  | "" => ""
  | String c r =>
      if blank c then match r with
                      | String d _ => if blank d then compress r else String " " (compress r)
                      | "" => " "
                      end
      else String c (compress r)
  end.

Definition quote_char (q c : ascii) : bool :=
  negb (Ascii.eqb c q || Ascii.eqb c "\" || Ascii.eqb c LF || Ascii.eqb c "000").

Definition is_quotable (q : ascii) (t : string) : bool :=
  (Ascii.eqb q "'" || (ascii_val q =? 34)) && all_chars (quote_char q) t && (String.length (compress t) <? bufsize - 1)%nat.

Inductive item : string -> token -> Prop :=
  | item_word w : is_word w = true -> item w (lookup w)
  | item_quoted q t : is_quotable q t = true -> item (String q (t +:+ String q "")) (STRING (compress t)).

Definition comment_char (c : ascii) : bool := negb (Ascii.eqb c "\" || Ascii.eqb c LF).

Definition is_comment (s : string) : bool :=
  match s with
  | "" => true
  | String c r => Ascii.eqb c "#" && all_chars comment_char r
  end.

(** What may follow an item. *)
Definition stops (s : string) : bool :=
  match s with
  | "" => true
  | String c _ => blank c || Ascii.eqb c "#" || Ascii.eqb c LF
  end.

Inductive line : list token -> string -> Prop :=
  | line_end bl cm : all_chars blank bl = true -> is_comment cm = true -> line [] (bl +:+ cm)
  | line_item bl text t ts rest :
      all_chars blank bl = true -> item text t -> stops rest = true -> line ts rest ->
      line (t :: ts) (bl +:+ text +:+ rest).

(** ** Reading characters of such a line *)

Definition fresh_at (s : string) : lexer := {| stream := s; pushback := [] |}.

(** The state after the first character of [s] was read and pushed back. *)
Definition pushed (s : string) : lexer := let '(c, l) := lgetc (fresh_at s) in lungetc c l.

Definition at_text (l : lexer) (s : string) : Prop := l = fresh_at s \/ l = pushed s.

Lemma unescape_plain c r : c <> "\"%char -> unescape (String c r) = (ascii_val c, r).
Proof. intros Hc. destruct c as [[] [] [] [] [] [] [] []]; try reflexivity. by exfalso. Qed.

Lemma blank_plain c : blank c = true -> c <> "\"%char.
Proof. by intros H ->. Qed.

Lemma lgetc_plain c r : c <> "\"%char -> blank c = false -> lgetc (fresh_at (String c r)) = (ascii_val c, fresh_at r).
Proof. intros Hc Hb. unfold lgetc, fresh_at. cbn [pushback stream]. rewrite unescape_plain by done. unfold blank in Hb. by rewrite Hb. Qed.

Lemma lgetc_blank c r : blank c = true -> lgetc (fresh_at (String c r)) = (32, fresh_at (skip_blanks r)).
Proof.
  intros Hb. unfold lgetc, fresh_at. cbn [pushback stream]. rewrite unescape_plain by (by apply blank_plain).
  unfold blank in Hb. by rewrite Hb.
Qed.

Lemma skip_blanks_app bl s : all_chars blank bl = true -> skip_blanks (bl +:+ s) = skip_blanks s.
Proof.
  induction bl as [|c bl IH]; [done|]. cbn [all_chars String.append skip_blanks]. intros [Hc Hb]%andb_true_iff.
  unfold blank in Hc. rewrite Hc. by apply IH.
Qed.

Lemma skip_blanks_stop c r : blank c = false -> skip_blanks (String c r) = String c r.
Proof. unfold blank. cbn [skip_blanks]. by intros ->. Qed.

Lemma i8_small z : 0 <= z < 128 -> i8 z = z.
Proof. intros. unfold i8. rewrite Z.mod_small; lia. Qed.

Lemma lungetc_fresh z s : 0 <= z < 128 -> lungetc z (fresh_at s) = {| stream := s; pushback := [z] |}.
Proof. intros Hz. unfold lungetc. rewrite (proj2 (Z.eqb_neq z EOF)) by (unfold EOF; lia). cbn. by rewrite i8_small. Qed.

(** The first character after blanks, and how much is left to read. *)
Lemma blanks_next l bl c r fuel :
  all_chars blank bl = true -> c <> "\"%char -> blank c = false -> ascii_val c < 128 -> (2 <= fuel)%nat ->
  at_text l (bl +:+ String c r) ->
  blanks_loop fuel l = Ok (ascii_val c, fresh_at r) /\ (String.length r < size l)%nat.
Proof.
  intros Hbl Hc Hb Hv Hf. destruct fuel as [|[|n]]; [lia|lia|]. pose proof (ascii_val_range c) as Hr.
  assert (Hd : (ascii_val c =? 32) || (ascii_val c =? 9) = false) by (rewrite orb_comm; exact Hb).
  assert (H1 : forall n, blanks_loop (S n) (fresh_at (String c r)) = Ok (ascii_val c, fresh_at r)).
  { intros k. cbn [blanks_loop]. rewrite lgetc_plain by done. cbn beta iota. by rewrite Hd. }
  destruct bl as [|b bl]; cbn [String.append].
  - intros [-> | ->]; [split; [apply H1 | unfold size; cbn; lia]|]. unfold pushed. rewrite lgetc_plain by done.
    cbn beta iota. rewrite lungetc_fresh by lia. split; [|unfold size; cbn; lia]. cbn [blanks_loop lgetc pushback stream].
    by rewrite Hd.
  - cbn [all_chars] in Hbl. apply andb_true_iff in Hbl as [Hb1 Hb2].
    assert (E : lgetc (fresh_at (String b (bl +:+ String c r))) = (32, fresh_at (String c r))).
    { by rewrite lgetc_blank, skip_blanks_app, skip_blanks_stop by done. }
    intros [-> | ->].
    + split; [|unfold size, fresh_at; cbn; rewrite append_length; cbn; lia].
      remember (S n) as m. cbn [blanks_loop]. rewrite E. cbn. subst. apply H1.
    + unfold pushed. rewrite E. cbn beta iota. rewrite lungetc_fresh by lia. split; [|unfold size; cbn; lia].
      remember (S n) as m. cbn [blanks_loop lgetc pushback stream]. cbn. subst. apply H1.
Qed.

Lemma ascii_of_val c : ascii_of_Z (ascii_val c) = c.
Proof. apply ascii_val_inj. rewrite ascii_val_of_Z. apply Z.mod_small. apply ascii_val_range. Qed.

Lemma putc_append buf c s : putc buf (ascii_val c) +:+ s = buf +:+ String c s.
Proof. unfold putc. by rewrite append_assoc, ascii_of_val. Qed.

Lemma putc_length buf c : String.length (putc buf c) = S (String.length buf).
Proof. unfold putc. rewrite append_length. cbn. lia. Qed.

Lemma val_eq_char c d : (ascii_val c =? ascii_val d) = Ascii.eqb c d.
Proof. apply eq_true_iff_eq. rewrite Z.eqb_eq, Ascii.eqb_eq. split; [apply ascii_val_inj | by intros ->]. Qed.

Lemma val_not_eof c : (ascii_val c =? EOF) = false.
Proof. pose proof (ascii_val_range c). apply Z.eqb_neq. unfold EOF. lia. Qed.

(** What stops a word is pushed back. *)
Lemma stops_read s : stops s = true -> exists c l,
  lgetc (fresh_at s) = (c, l) /\ negb (c =? EOF) && allowed_in_string c = false.
Proof.
  destruct s as [|c r]; [intros _; by exists EOF, (fresh_at "")|]. cbn [stops].
  destruct (blank c) eqn:Hb; [intros _; exists 32, (fresh_at (skip_blanks r)); by rewrite lgetc_blank|].
  cbn [orb]. intros [->%Ascii.eqb_eq | ->%Ascii.eqb_eq]%orb_true_iff; eexists _, _; rewrite lgetc_plain; done.
Qed.

Lemma word_char_spec c : word_char c = true ->
  c <> "\"%char /\ blank c = false /\ allowed_in_string (ascii_val c) = true.
Proof.
  unfold word_char. intros [H1 H2%negb_true_iff%Ascii.eqb_neq]%andb_true_iff. split_and!; [done| |done].
  destruct (blank c) eqn:Hb; [|done]. unfold blank, is_blank in Hb.
  apply orb_true_iff in Hb as [E%Z.eqb_eq|E%Z.eqb_eq]; rewrite E in H1; discriminate H1.
Qed.

Lemma word_read w : forall fuel c buf rest,
  all_chars word_char w = true -> stops rest = true -> (String.length buf + String.length w + 1 < bufsize)%nat ->
  (String.length w < fuel)%nat ->
  word_loop fuel c buf (fresh_at (w +:+ rest)) = Ok (Some (putc buf c +:+ w), pushed rest).
Proof.
  induction w as [|d w IH]; intros [|n] c buf rest Hw Hs Hl Hf; cbn [String.length] in *; try lia.
  - cbn [word_loop String.append]. rewrite putc_length, (proj2 (Nat.leb_gt bufsize _)) by lia. unfold pushed.
    destruct (stops_read rest Hs) as (e & l & -> & E). rewrite E. by rewrite append_nil_r.
  - cbn [all_chars] in Hw. apply andb_true_iff in Hw as [(H1 & H2 & H3)%word_char_spec Hw].
    cbn [word_loop String.append]. rewrite putc_length, (proj2 (Nat.leb_gt bufsize _)) by lia.
    rewrite lgetc_plain by done. cbn beta iota. rewrite val_not_eof, H3. cbn [negb andb].
    rewrite IH by (done || rewrite ?putc_length; lia). by rewrite putc_append.
Qed.

Lemma compress_blank b t : blank b = true -> compress (String b t) = String " " (compress (skip_blanks t)).
Proof.
  revert b. induction t as [|c t IH]; intros b Hb; [cbn; by rewrite Hb|]. cbn [skip_blanks]. fold (blank c).
  destruct (blank c) eqn:Hc.
  - rewrite <- (IH c Hc). cbn [compress]. by rewrite Hb, Hc.
  - cbn [compress]. by rewrite Hb, Hc.
Qed.

Lemma skip_blanks_chars P t : all_chars P t = true -> all_chars P (skip_blanks t) = true.
Proof.
  induction t as [|c t IH]; [done|]. cbn [skip_blanks]. intros H. destruct (is_blank _); [|done].
  apply IH. cbn in H. by apply andb_true_iff in H as [_ H].
Qed.

Lemma skip_blanks_quote t q rest : blank q = false -> skip_blanks (t +:+ String q rest) = skip_blanks t +:+ String q rest.
Proof.
  intros Hq. induction t as [|c t IH]; [by apply skip_blanks_stop|]. cbn [String.append skip_blanks].
  by destruct (is_blank _).
Qed.

Lemma quote_char_spec q c : quote_char q c = true ->
  c <> "\"%char /\ (ascii_val c =? ascii_val q) = false /\ (ascii_val c =? 10) = false /\ is_char (ascii_val c) "\" = false.
Proof.
  unfold quote_char. intros [[[H1 H2]%orb_false_iff H3]%orb_false_iff _]%negb_true_iff%orb_false_iff.
  rewrite val_eq_char. split_and!; [by apply Ascii.eqb_neq | done | |].
  - change 10 with (ascii_val LF). by rewrite val_eq_char.
  - unfold is_char. by rewrite val_eq_char.
Qed.

Lemma quoted_read : forall k t fuel q buf rest,
  (String.length t <= k)%nat -> q <> "\"%char -> blank q = false -> all_chars (quote_char q) t = true ->
  (String.length buf + String.length (compress t) < bufsize - 1)%nat -> (String.length t < fuel)%nat ->
  quoted_loop fuel (ascii_val q) buf (fresh_at (t +:+ String q rest)) = Ok (QString (c_str (buf +:+ compress t)), fresh_at rest).
Proof.
  induction k as [|k IH]; intros [|c t] [|n] q buf rest Hk Hq Hb Ht Hl Hf; cbn [String.length] in Hk, Hf; try lia.
  1,2: cbn [quoted_loop String.append]; rewrite lgetc_plain by done; cbn beta iota;
    rewrite val_not_eof, Z.eqb_refl; cbn [compress]; by rewrite append_nil_r.
  cbn [all_chars] in Ht. apply andb_true_iff in Ht as [(H1 & H2 & H3 & H4)%quote_char_spec Ht].
  cbn [quoted_loop String.append]. destruct (blank c) eqn:Hc.
  - rewrite compress_blank in * by done. cbn [String.length] in Hl.
    rewrite lgetc_blank by done. cbn beta iota. change (32 =? EOF) with false. change (32 =? 10) with false.
    change (is_char 32 "\") with false. cbn iota.
    assert (E : (32 =? ascii_val q) = false).
    { change 32 with (ascii_val " "). rewrite val_eq_char. apply Ascii.eqb_neq. intros <-. discriminate Hb. }
    rewrite E, (proj2 (Nat.leb_gt (bufsize - 1) _)) by lia. rewrite skip_blanks_quote by done.
    pose proof (skip_blanks_size t). rewrite IH; [|lia|done|done|by apply skip_blanks_chars|rewrite putc_length; lia|lia].
    change 32 with (ascii_val " "). by rewrite putc_append.
  - cbn [compress] in *. rewrite Hc in *. cbn [String.length] in Hl.
    rewrite lgetc_plain by done. cbn beta iota. rewrite val_not_eof, H2, H3, H4.
    rewrite (proj2 (Nat.leb_gt (bufsize - 1) _)) by lia.
    rewrite IH; [|lia|done|done|done|rewrite putc_length; lia|lia]. by rewrite putc_append.
Qed.

Lemma comment_read : forall k t fuel rest,
  (String.length t <= k)%nat -> all_chars comment_char t = true -> (String.length t < fuel)%nat ->
  comment_loop fuel (fresh_at (t +:+ String LF rest)) = Ok (10, fresh_at rest).
Proof.
  induction k as [|k IH]; intros [|c t] [|n] rest Hk Ht Hf; cbn [String.length] in *; try lia.
  1,2: cbn [comment_loop String.append]; by rewrite lgetc_plain.
  cbn [all_chars] in Ht. apply andb_true_iff in Ht as [Hc Ht]. unfold comment_char in Hc.
  apply negb_true_iff, orb_false_iff in Hc as [H1%Ascii.eqb_neq H2].
  cbn [comment_loop String.append]. destruct (blank c) eqn:Hb.
  - rewrite lgetc_blank by done. cbn. rewrite skip_blanks_quote by done. pose proof (skip_blanks_size t).
    apply IH; [lia|by apply skip_blanks_chars|lia].
  - rewrite lgetc_plain by done. cbn beta iota. change 10 with (ascii_val LF) at 1. rewrite val_eq_char, H2, val_not_eof.
    cbn [negb andb]. apply IH; [lia|done|lia].
Qed.

Lemma word_start_spec c : word_start (ascii_val c) = true ->
  word_char c = true /\ ascii_val c < 128 /\ is_char (ascii_val c) "#" = false
  /\ is_char (ascii_val c) "'" || (ascii_val c =? 34) = false.
Proof.
  intros H. destruct c as [[] [] [] [] [] [] [] []]; try discriminate H; split_and!; reflexivity.
Qed.

Lemma compress_chars c t : c <> " "%char -> has_char c t = false -> has_char c (compress t) = false.
Proof.
  intros Hc. induction t as [|d t IH]; [done|]. cbn [has_char]. intros [H1 H2]%orb_false_iff.
  specialize (IH H2). cbn [compress]. destruct (blank d); [|cbn [has_char]; by rewrite H1].
  assert (Hn : Ascii.eqb c " " = false) by (by apply Ascii.eqb_neq).
  destruct t as [|e t]; [cbn [has_char]; by rewrite Hn|]. destruct (blank e); [done|]. cbn [has_char]. by rewrite Hn.
Qed.

(** One item of a line. *)
Lemma yylex_item l bl text t rest :
  all_chars blank bl = true -> item text t -> stops rest = true -> at_text l (bl +:+ text +:+ rest) ->
  exists l', yylex l = Ok (t, l') /\ at_text l' rest /\ ends t = false.
Proof.
  intros Hbl Hi Hs Ha. unfold yylex. destruct Hi as [w Hw|q t Hq].
  - destruct w as [|c w]; [done|]. cbn [is_word] in Hw. apply andb_true_iff in Hw as [Hw Hl].
    apply andb_true_iff in Hw as [Hc Hw]. apply Nat.ltb_lt in Hl. cbn [String.length] in Hl.
    destruct (word_start_spec c Hc) as (Hc1 & Hv & Hx & Hy). destruct (word_char_spec c Hc1) as (H1 & H2 & H3).
    cbn [String.append] in Ha. destruct (blanks_next l bl c (w +:+ rest) (size l + 2) Hbl H1 H2 Hv ltac:(lia) Ha) as [E Hsz].
    rewrite E. cbn [mbind outcome_bind]. rewrite Hx. cbn [mbind outcome_bind]. unfold lex_from. rewrite Hy, Hc. rewrite append_length in Hsz.
    rewrite word_read by (done || (cbn [String.length]; lia)). cbn [mbind outcome_bind].
    exists (pushed rest). unfold putc. cbn [String.append]. rewrite ascii_of_val. split_and!; [done|by right|].
    unfold lookup. by repeat case_match.
  - unfold is_quotable in Hq. apply andb_true_iff in Hq as [Hq Hl%Nat.ltb_lt]. apply andb_true_iff in Hq as [Hq Ht].
    assert (Hq' : q = "'"%char \/ q = "034"%char).
    { apply orb_true_iff in Hq as [->%Ascii.eqb_eq|Hq%Z.eqb_eq]; [by left | right; by apply ascii_val_inj]. }
    cbn [String.append] in Ha. rewrite append_assoc in Ha. cbn [String.append] in Ha.
    assert (Hn : q <> "\"%char /\ blank q = false /\ ascii_val q < 128 /\ is_char (ascii_val q) "#" = false)
      by (destruct Hq' as [-> | ->]; done). destruct Hn as (H1 & H2 & Hv & Hx).
    destruct (blanks_next l bl q (t +:+ String q rest) (size l + 2) Hbl H1 H2 Hv ltac:(lia) Ha) as [E Hsz].
    rewrite E. cbn [mbind outcome_bind]. rewrite Hx. cbn [mbind outcome_bind]. unfold lex_from.
    assert (is_char (ascii_val q) "'" || (ascii_val q =? 34) = true) as -> by (destruct Hq' as [-> | ->]; done).
    rewrite append_length in Hsz. cbn [String.length] in Hsz.
    rewrite (quoted_read (String.length t)) by (done || (cbn [String.length]; lia)). cbn [mbind outcome_bind String.append].
    exists (fresh_at rest). split_and!; [|by left|done]. rewrite c_str_plain; [done|].
    apply compress_chars; [done|]. apply (all_chars_no_char (quote_char q)); [|done].
    unfold quote_char. by rewrite !orb_true_r.
Qed.

(** The end of a line. *)
Lemma yylex_newline l bl cm more :
  all_chars blank bl = true -> is_comment cm = true -> at_text l (bl +:+ cm +:+ String LF more) ->
  yylex l = Ok (CHAR 10, fresh_at more).
Proof.
  intros Hbl Hc Ha. unfold yylex. destruct cm as [|c r].
  - destruct (blanks_next l bl LF more (size l + 2) Hbl ltac:(done) eq_refl eq_refl ltac:(lia) Ha) as [-> _]. done.
  - cbn [is_comment] in Hc. apply andb_true_iff in Hc as [->%Ascii.eqb_eq Hr]. cbn [String.append] in Ha.
    destruct (blanks_next l bl "#" (r +:+ String LF more) (size l + 2) Hbl ltac:(done) eq_refl eq_refl ltac:(lia) Ha) as [-> Hsz].
    cbn [mbind outcome_bind]. change (is_char (ascii_val "#") "#") with true. cbn iota. rewrite append_length in Hsz.
    by rewrite (comment_read (String.length r)) by (done || lia).
Qed.

Lemma stops_app rest more : stops rest = true -> stops (rest +:+ String LF more) = true.
Proof. by destruct rest. Qed.

Lemma lex_line ts s more : line ts s -> forall l, at_text l (s +:+ String LF more) ->
  lex_all l = (us ← lex_all (fresh_at more); Ok (ts ++ CHAR 10 :: us)).
Proof.
  induction 1 as [bl cm Hb Hc|bl text t ts rest Hb Hi Hs Hl IH]; intros l Ha; rewrite !append_assoc in Ha.
  - by rewrite (lex_all_step l (CHAR 10) (fresh_at more)) by (done || by eapply yylex_newline).
  - destruct (yylex_item l bl text t _ Hb Hi (stops_app rest more Hs) Ha) as (l' & E & Ha' & He).
    rewrite (lex_all_step l t l' E He), (IH l' Ha'). by destruct (lex_all (fresh_at more)).
Qed.

(** The text of lines. *)
Definition text_of (ss : list string) : string := foldr (fun s r => s +:+ String LF r) "" ss.

Lemma lex_lines tss ss more : Forall2 line tss ss ->
  lex_all (fresh_at (text_of ss +:+ more)) = (us ← lex_all (fresh_at more); Ok (concat (map (fun ts => ts ++ [CHAR 10]) tss) ++ us)).
Proof.
  induction 1 as [|ts s tss ss Hl _ IH]; cbn [text_of foldr map concat app String.append].
  - by destruct (lex_all (fresh_at more)).
  - fold (text_of ss). rewrite append_assoc. cbn [String.append].
    rewrite (lex_line ts s (text_of ss +:+ more) Hl) by (by left). rewrite IH.
    destruct (lex_all (fresh_at more)); [|done]. cbn [mbind outcome_bind]. by rewrite <- !app_assoc.
Qed.

(** ** A line at the end of the file *)

Lemma skip_blanks_all bl : all_chars blank bl = true -> skip_blanks bl = "".
Proof. intros Hb. rewrite <- (append_nil_r bl). by rewrite skip_blanks_app. Qed.

Lemma blanks_eof l bl fuel : all_chars blank bl = true -> (2 <= fuel)%nat -> at_text l bl ->
  blanks_loop fuel l = Ok (EOF, fresh_at "").
Proof.
  intros Hb Hf Ha. destruct fuel as [|[|n]]; [lia|lia|]. destruct bl as [|b bl]; [by destruct Ha as [-> | ->]|].
  cbn [all_chars] in Hb. apply andb_true_iff in Hb as [Hb Hbl].
  assert (E : lgetc (fresh_at (String b bl)) = (32, fresh_at "")) by (by rewrite lgetc_blank, skip_blanks_all).
  destruct Ha as [-> | ->]; [|unfold pushed; rewrite E; by cbn].
  cbn [blanks_loop]. by rewrite E.
Qed.

Lemma comment_eof : forall k t fuel, (String.length t <= k)%nat -> all_chars comment_char t = true ->
  (String.length t < fuel)%nat -> comment_loop fuel (fresh_at t) = Ok (EOF, fresh_at "").
Proof.
  induction k as [|k IH]; intros [|c t] [|n] Hk Ht Hf; cbn [String.length] in *; try lia; [done|done|].
  cbn [all_chars] in Ht. apply andb_true_iff in Ht as [Hc Ht]. unfold comment_char in Hc.
  apply negb_true_iff, orb_false_iff in Hc as [H1%Ascii.eqb_neq H2].
  cbn [comment_loop]. destruct (blank c) eqn:Hb.
  - rewrite lgetc_blank by done. cbn. pose proof (skip_blanks_size t). apply IH; [lia|by apply skip_blanks_chars|lia].
  - rewrite lgetc_plain by done. cbn beta iota. change 10 with (ascii_val LF). rewrite val_eq_char, H2, val_not_eof.
    cbn [negb andb]. apply IH; [lia|done|lia].
Qed.

Lemma yylex_eof l bl cm : all_chars blank bl = true -> is_comment cm = true -> at_text l (bl +:+ cm) ->
  yylex l = Ok (CHAR 0, fresh_at "").
Proof.
  intros Hbl Hc Ha. unfold yylex. destruct cm as [|c r].
  - rewrite append_nil_r in Ha. by rewrite (blanks_eof l bl) by (done || lia).
  - cbn [is_comment] in Hc. apply andb_true_iff in Hc as [->%Ascii.eqb_eq Hr].
    destruct (blanks_next l bl "#" r (size l + 2) Hbl ltac:(done) eq_refl eq_refl ltac:(lia) Ha) as [-> Hsz].
    cbn [mbind outcome_bind]. change (is_char (ascii_val "#") "#") with true. cbn iota.
    by rewrite (comment_eof (String.length r)) by (done || lia).
Qed.

Lemma lex_last_line ts s : line ts s -> forall l, at_text l s -> lex_all l = Ok ts.
Proof.
  induction 1 as [bl cm Hb Hc|bl text t ts rest Hb Hi Hs Hl IH]; intros l Ha.
  - by apply (lex_all_end l (CHAR 0) (fresh_at "")); [eapply yylex_eof|].
  - destruct (yylex_item l bl text t rest Hb Hi Hs Ha) as (l' & E & Ha' & He).
    by rewrite (lex_all_step l t l' E He), (IH l' Ha').
Qed.
