(* ===== verification/FdConfig.v ===== *)
(** filterdns, the grammar of parse.y over the tokens of its lexer, and what becomes of a configuration
    file when the daemon starts and when it reloads. *)
From Stdlib Require Import ZArith Lia Ascii String.
From stdpp Require Import base list gmap strings numbers.
From S2P Require Import Prelude CProg FdAddr FdTables Fdns FdLex.
Open Scope string_scope.
Open Scope list_scope.
Open Scope Z_scope.

(** [atoul]: [strtoul] with base 0 wraps a negative number around, and saturates with [ERANGE]. *)
Definition atoul (s : string) : option Z :=
  match scan_base s with
  | Some (neg, v, "") => if ULONG_MAX <? v then None else Some (if neg : bool then u64 (- v) else v)
  | _ => None
  end.

(** ** The grammar *)

(** [anchor] and [command].  After the table a further string is always the anchor: the parser shifts it
    rather than reducing the empty anchor. *)
Definition optional_string (ts : list token) : option string * list token :=
  match ts with
  | STRING s :: ts => (Some s, ts)
  | _ => (None, ts)
  end.

(** [pipe]; its value is an [int]. *)
Definition pipe_clause (ts : list token) : option (Z * list token) :=
  match ts with
  | PIPE :: STRING s :: ts => ulval ← atoul s; Some (i32 ulval, ts)
  | PIPE :: _ => None
  | _ => Some (0, ts)
  end.

Definition ftype (t : token) : option action_type :=
  match t with IPFW => Some IPFW_TYPE | PF => Some PF_TYPE | _ => None end.

(** [dnsrule], for all tokens of a line; [None] is a syntax error or a pipe that is not a number. *)
Definition dnsrule_tokens (ts : list token) : option rule :=
  match ts with
  | CMD :: STRING hn :: ts =>
      match optional_string ts with
      | (cm, []) => Some (CmdRule hn cm)
      | _ => None
      end
  | t :: STRING hn :: STRING tn :: ts =>
      ty ← ftype t;
      let '(an, ts) := optional_string ts in
      '(pp, ts) ← pipe_clause ts;
      match optional_string ts with
      | (cm, []) => Some (TableRule ty hn tn an pp cm)
      | _ => None
      end
  | _ => None
  end.

(** The lines of the tokens, and what comes after the last newline. *)
Fixpoint split_lines (ts : list token) : list (list token) * list token :=
  match ts with
  | [] => ([], [])
  | t :: ts =>
      let '(ls, last) := split_lines ts in
      if bool_decide (t = CHAR 10) then ([] :: ls, last)
      else match ls with
           | [] => ([], t :: last)
           | x :: ls => ((t :: x) :: ls, last)
           end
  end.

(** [grammar]: empty lines and rules, each with its newline; [None] when there was an error.  After an
    error the parser goes on with the next line, which can only add to the errors: both callers exit if
    there is any. *)
Definition grammar (ts : list token) : option (list rule) :=
  match split_lines ts with
  | (ls, []) => mapM dnsrule_tokens (filter (fun x => x <> []) ls)
  | _ => None
  end.

(** What [yyparse] reads from the file. *)
Definition parse_file (text : string) : outcome (option (list rule)) :=
  ts ← lex_file text;
  Ok (grammar ts).

(** ** Options *)

Record fd_args : Type := { a_file : option string; a_debug : Z; a_foreground : bool; a_interval : Z; a_pidfile : option string }.

(** The static variables before the options are read. *)
Definition fd_defaults : fd_args :=
  {| a_file := None; a_debug := 0; a_foreground := false; a_interval := 30; a_pidfile := None |}.

(** The [getopt] loop over "c:d:fi:p:v"; [inr] is the exit status. *)
Fixpoint fd_getopt (opts : list (ascii * string)) (a : fd_args) : fd_args + Z :=
  match opts with
  | [] => inl a
  | (ch, optarg) :: opts =>
      let set f d g i p := fd_getopt opts {| a_file := f; a_debug := d; a_foreground := g; a_interval := i; a_pidfile := p |} in
      if Ascii.eqb ch "c" then set (Some optarg) (a_debug a) (a_foreground a) (a_interval a) (a_pidfile a)
      else if Ascii.eqb ch "d" then set (a_file a) (atoi optarg) (a_foreground a) (a_interval a) (a_pidfile a)
      else if Ascii.eqb ch "f" then set (a_file a) (a_debug a) true (a_interval a) (a_pidfile a)
      else if Ascii.eqb ch "i" then
        if atoi optarg <? 1 then inr 3
        else set (a_file a) (a_debug a) (a_foreground a) (atoi optarg) (a_pidfile a)
      else if Ascii.eqb ch "p" then set (a_file a) (a_debug a) (a_foreground a) (a_interval a) (Some optarg)
      else if Ascii.eqb ch "v" then inr 0
      else inr 4
  end.

(** What the system answers: the user, the configuration file, and whether [daemon] and the [open] of the
    pid file succeed. *)
Record fd_env : Type := { uid : Z; config_text : option string; daemon_ok : bool; pidfile_ok : bool }.

Section daemon.
Context `{Kernel}.

(** [main] up to the threads, and one reload: [None] where the daemon exits. *)
Definition start_daemon (text : string) (st : sys) : outcome (option fdns) :=
  r ← parse_file text;
  Ok (config ← r; fd_init config st).

Definition reload_file (text : string) (s : fdns) : outcome (option fdns) :=
  r ← parse_file text;
  match r with
  | None => Ok None
  | Some config => merge_config config s
  end.

(** [main]: [inr] is the exit status.  A configuration that cannot be opened or has an error is refused. *)
Definition fd_main (opts : list (ascii * string)) (e : fd_env) (st : sys) : outcome ((fd_args * fdns) + Z) :=
  if negb (uid e =? 0) then Ok (inr 1)
  else
    match fd_getopt opts fd_defaults with
    | inr code => Ok (inr code)
    | inl a =>
        match a_file a, config_text e with
        | None, _ => Ok (inr 4)
        | Some _, None => Ok (inr 1)
        | Some _, Some text =>
            r ← start_daemon text st;
            Ok (match r with
                | None => inr 1
                | Some s =>
                    if negb (a_foreground a) && negb (daemon_ok e) then inr 1
                    else if negb (a_foreground a) && bool_decide (is_Some (a_pidfile a)) && negb (pidfile_ok e) then inr 2
                    else inl (a, s)
                end)
        end
    end.
End daemon.

(** ** Writing a rule *)

(** The tokens that stand for a rule.  A pipe of 0 is written where a command would be taken for the
    anchor. *)
Definition needs_pipe (an : option string) (pp : Z) (cm : option string) : bool :=
  negb (pp =? 0) || (bool_decide (an = None) && negb (bool_decide (cm = None))).

Definition option_tokens (o : option string) : list token := from_option (fun s => [STRING s]) [] o.

Definition rule_tokens (r : rule) : list token :=
  match r with
  | CmdRule hn cm => CMD :: STRING hn :: option_tokens cm
  | TableRule ty hn tn an pp cm =>
      (match ty with IPFW_TYPE => IPFW | _ => PF end) :: STRING hn :: STRING tn :: option_tokens an
      ++ (if needs_pipe an pp cm then [PIPE; STRING (udec pp)] else []) ++ option_tokens cm
  end.

Definition rule_ok (r : rule) : Prop :=
  match r with
  | CmdRule _ _ => True
  | TableRule ty _ _ _ pp _ => ty <> CMD_TYPE /\ 0 <= pp < 2 ^ 31
  end.

(** ** Numbers *)

Lemma base_value_dec acc s : base_value 10 acc s = dec_value acc s.
Proof.
  revert acc. induction s as [|c s IH]; intros acc; [done|]. cbn [base_value dec_value]. unfold xdigit.
  destruct (is_digit c) eqn:Hd.
  - rewrite (proj2 (Z.ltb_lt (digit_val c) 10)); [apply IH|]. unfold is_digit in Hd. unfold digit_val.
    apply andb_true_iff in Hd as [_ H%Z.leb_le]. lia.
  - destruct (_ && _) eqn:Hx; [|done]. apply andb_true_iff in Hx as [H%Z.leb_le _].
    by rewrite (proj2 (Z.ltb_ge _ 10)) by lia.
Qed.

(** A positive number does not begin with 0. *)
Lemma digits_lead k : forall z acc, 0 < z < 10 ^ Z.of_nat k ->
  exists d r, digits 10 k z acc = String (digit_char d) r /\ 0 < d < 10.
Proof.
  induction k as [|k IH]; intros z acc Hz; [cbn in Hz; lia|]. cbn [digits]. destruct (Z.ltb_spec z 10).
  - exists (z mod 10), acc. rewrite Z.mod_small by lia. split; [done|lia].
  - apply IH. pose proof (digits_pow_bound 10 k z ltac:(lia) ltac:(lia)) as [H1 H2]. split; [|done].
    apply Z.div_str_pos. lia.
Qed.

Lemma digit_char_lead d r : 0 < d < 10 -> scan_base (String (digit_char d) r) =
  let '(v, q) := base_value 10 0 (String (digit_char d) r) in Some (false, v, q).
Proof.
  intros Hd. assert (H : d = 1 \/ d = 2 \/ d = 3 \/ d = 4 \/ d = 5 \/ d = 6 \/ d = 7 \/ d = 8 \/ d = 9) by lia.
  repeat destruct H as [-> |H]; try subst; reflexivity.
Qed.

Lemma atoul_udec z : 0 <= z < 2 ^ 31 -> atoul (udec z) = Some z.
Proof.
  intros Hz. unfold atoul. destruct (Z.eq_dec z 0) as [-> |Hn]; [done|].
  destruct (digits_lead 64 z "" ltac:(lia)) as (d & r & E & Hd). change (digits 10 64 z "") with (udec z) in E.
  pose proof (dec_value_udec z "" ltac:(lia) eq_refl) as Hv. rewrite append_nil_r in Hv.
  rewrite E, digit_char_lead, base_value_dec, <- E, Hv by done.
  by rewrite (proj2 (Z.ltb_ge ULONG_MAX z)) by (unfold ULONG_MAX; lia).
Qed.

(** ** Reading it back *)

Lemma optional_string_option o ts : (forall s ts', ts <> STRING s :: ts') -> optional_string (option_tokens o ++ ts) = (o, ts).
Proof. intros Hn. destruct o as [s|]; [done|]. cbn [option_tokens from_option app]. destruct ts as [|[] ts]; try done. by edestruct Hn. Qed.

Lemma optional_string_last o : optional_string (option_tokens o) = (o, []).
Proof. by destruct o. Qed.

Lemma dnsrule_tokens_rule r : rule_ok r -> dnsrule_tokens (rule_tokens r) = Some r.
Proof.
  destruct r as [ty hn tn an pp cm|hn cm]; intros Hr; [|by destruct cm]. destruct Hr as [Hty Hp].
  assert (E : dnsrule_tokens (rule_tokens (TableRule ty hn tn an pp cm)) =
    ('(an, ts) ← Some (optional_string (option_tokens an ++ (if needs_pipe an pp cm then [PIPE; STRING (udec pp)] else []) ++ option_tokens cm));
     '(pp, ts) ← pipe_clause ts;
     match optional_string ts with (cm, []) => Some (TableRule ty hn tn an pp cm) | _ => None end)).
  { by destruct ty. }
  rewrite E. clear E. destruct (needs_pipe an pp cm) eqn:Hn.
  - rewrite optional_string_option by done. cbn [mbind option_bind app pipe_clause]. rewrite atoul_udec by done.
    cbn [mbind option_bind]. rewrite i32_small by lia. by rewrite optional_string_last.
  - apply orb_false_iff in Hn as [Hz%negb_false_iff%Z.eqb_eq Hn]. subst pp. destruct an as [a|], cm as [c|]; done.
Qed.

Lemma rule_tokens_line r : CHAR 10 ∉ rule_tokens r /\ rule_tokens r <> [].
Proof.
  split; [|by destruct r]. intros Hin. assert (H : Forall (fun t => bool_decide (t = CHAR 10) = false) (rule_tokens r)).
  { destruct r as [ty hn tn [a|] pp [c|]|hn [c|]]; cbn [rule_tokens option_tokens from_option app];
      try (destruct (needs_pipe _ _ _)); try destruct ty; cbn; repeat constructor. }
  rewrite List.Forall_forall in H. apply list_elem_of_In in Hin. by specialize (H _ Hin).
Qed.

Lemma split_lines_cons ts us : CHAR 10 ∉ ts ->
  split_lines (ts ++ CHAR 10 :: us) = (ts :: (split_lines us).1, (split_lines us).2).
Proof.
  induction ts as [|t ts IH]; intros Hn; cbn [app split_lines].
  - by destruct (split_lines us).
  - apply not_elem_of_cons in Hn as [Ht Hn]. rewrite (IH Hn). by rewrite bool_decide_eq_false_2 by congruence.
Qed.

Lemma split_lines_concat tss : Forall (fun ts => CHAR 10 ∉ ts) tss ->
  split_lines (concat (map (fun ts => ts ++ [CHAR 10]) tss)) = (tss, []).
Proof.
  induction 1 as [|ts tss Ht _ IH]; [done|]. cbn [map concat]. rewrite <- app_assoc. cbn [app].
  by rewrite split_lines_cons, IH.
Qed.

(** The lines of a configuration: a rule, or nothing but a comment. *)
Definition line_tokens (o : option rule) : list token := from_option rule_tokens [] o.
Definition written (o : option rule) (s : string) : Prop := line (line_tokens o) s.

Lemma line_tokens_lines rs : Forall (fun ts => CHAR 10 ∉ ts) (map line_tokens rs).
Proof. apply List.Forall_map, List.Forall_forall. intros [r|] _; [apply rule_tokens_line | apply not_elem_of_nil]. Qed.

Lemma grammar_lines rs : Forall rule_ok (omap id rs) ->
  grammar (concat (map (fun ts => ts ++ [CHAR 10]) (map line_tokens rs))) = Some (omap id rs).
Proof.
  intros Hr. unfold grammar. rewrite split_lines_concat by apply line_tokens_lines.
  induction rs as [|[r|] rs IH]; [done| |by apply IH].
  inversion Hr as [|? ? H1 H2]; subst. cbn [map line_tokens from_option omap list_omap id].
  rewrite filter_cons_True by apply rule_tokens_line. cbn [mapM]. rewrite dnsrule_tokens_rule by done.
  cbn [mbind option_bind]. by rewrite (IH H2).
Qed.

Lemma lex_written rs ss more : Forall2 written rs ss ->
  lex_file (text_of ss +:+ more) =
  (us ← lex_all (fresh_at more); Ok (concat (map (fun ts => ts ++ [CHAR 10]) (map line_tokens rs)) ++ us)).
Proof. intros Hw. apply lex_lines. by apply Forall2_fmap_l. Qed.

Lemma parse_written rs ss more : Forall rule_ok (omap id rs) -> Forall2 written rs ss ->
  lex_all (fresh_at more) = Ok [] -> parse_file (text_of ss +:+ more) = Ok (Some (omap id rs)).
Proof.
  intros Hr Hw E. unfold parse_file. rewrite (lex_written rs ss more Hw), E. cbn [mbind outcome_bind].
  by rewrite app_nil_r, grammar_lines.
Qed.

(** C15. A configuration file is read as it is meant: whatever blanks, comments and empty lines it has, and
    whether names are written as words or in quotes, [yyparse] finds exactly its rules, in order; the
    daemon that starts with it has one action for each of them. *)
Theorem config_file_read `{Kernel} (rs : list (option rule)) (ss : list string) (st : sys) :
  Forall rule_ok (omap id rs) -> Forall2 written rs ss ->
  parse_file (text_of ss) = Ok (Some (omap id rs)) /\
  forall s, start_daemon (text_of ss) st = Ok (Some s) -> map akey (action_list s) = map rule_key (omap id rs).
Proof.
  intros Hr Hw. assert (E : parse_file (text_of ss) = Ok (Some (omap id rs))).
  { rewrite <- (append_nil_r (text_of ss)). by apply parse_written. }
  split; [done|]. unfold start_daemon. rewrite E. cbn [mbind outcome_bind option_bind]. intros s Hs.
  assert (Hf : fd_init (omap id rs) st = Some s) by (by injection Hs).
  unfold fd_init in Hf. set (l := parse_config _ _) in *. destruct (errors l) eqn:He; [|done].
  injection Hf as <-. destruct (parse_config_keys (omap id rs) _ He) as (new & E1 & E2 & _). fold l in E1.
  cbn [action_list]. rewrite E1, map_map. erewrite map_ext; [exact E2 | apply action_create_key].
Qed.

(** C37. [yyparse] comes to an end on every file. *)
Theorem parse_file_total (text : string) : exists r, parse_file text = Ok r.
Proof. unfold parse_file. destruct (lex_file_total text) as (ts & ->). by eexists. Qed.

(** A byte of value 0 at the beginning of a line is taken for the end of the file: the rules after it
    are silently left out. *)
Theorem nul_ends_config (rs : list (option rule)) (ss : list string) (more : string) :
  Forall rule_ok (omap id rs) -> Forall2 written rs ss ->
  parse_file (text_of ss +:+ String "000" more) = Ok (Some (omap id rs)).
Proof.
  intros Hr Hw. apply parse_written; [done..|].
  apply (lex_all_end _ (CHAR 0) (fresh_at more)); [|done].
  unfold yylex. rewrite Nat.add_comm. cbn [Nat.add blanks_loop]. by rewrite lgetc_plain.
Qed.

Lemma split_lines_last tss ts : Forall (fun ts => CHAR 10 ∉ ts) tss -> CHAR 10 ∉ ts ->
  split_lines (concat (map (fun ts => ts ++ [CHAR 10]) tss) ++ ts) = (tss, ts).
Proof.
  intros Hs Ht. induction Hs as [|us tss Hu _ IH]; cbn [map concat app].
  - induction ts as [|t ts IH]; [done|]. apply not_elem_of_cons in Ht as [Ht Hn]. cbn [split_lines].
    rewrite (IH Hn). by rewrite bool_decide_eq_false_2 by congruence.
  - rewrite <- !app_assoc. cbn [app]. by rewrite split_lines_cons, IH.
Qed.

(** The last rule needs its newline: a file that ends with the text of a rule, or with a comment
    behind it, is refused, and the daemon does not start. *)
Theorem last_newline_required (rs : list (option rule)) (ss : list string) (r : rule) (s : string) :
  Forall2 written rs ss -> written (Some r) s -> parse_file (text_of ss +:+ s) = Ok None.
Proof.
  intros Hw Hl. unfold parse_file. rewrite (lex_written rs ss s Hw), (lex_last_line _ s Hl) by (by left).
  cbn [mbind outcome_bind]. f_equal. unfold grammar.
  rewrite split_lines_last by (apply line_tokens_lines || apply (rule_tokens_line r)).
  by destruct r.
Qed.

(** An ipfw rule with a command but no pipe cannot be written: the command is taken for an anchor, which
    only pf has, and the daemon does not start with any configuration that has such a rule. *)
Theorem ipfw_command_is_anchor `{Kernel} (h t c : string) (before after : list rule) (st : sys) :
  exists r, dnsrule_tokens [IPFW; STRING h; STRING t; STRING c] = Some r /\ fd_init (before ++ r :: after) st = None.
Proof.
  exists (TableRule IPFW_TYPE h t (Some c) 0 None). split; [done|]. unfold fd_init, parse_config.
  rewrite fold_left_app. cbn [fold_left dnsrule].
  rewrite bool_decide_eq_false_2, (bool_decide_eq_false_2 (IPFW_TYPE = PF_TYPE)), (bool_decide_eq_false_2 (Some c = None)) by done.
  cbn [negb andb]. set (l := one_error _). pose proof (parse_config_errors after l) as He. unfold parse_config in He.
  assert (errors l <> 0%nat) by done. destruct (errors (fold_left dnsrule after l)); [lia|done].
Qed.

(** ** Starting *)

Lemma fd_getopt_interval opts : forall a b, 1 <= a_interval a -> fd_getopt opts a = inl b -> 1 <= a_interval b.
Proof.
  induction opts as [|[ch o] opts IH]; intros a b Ha; cbn [fd_getopt]; [by intros [= <-]|]. cbv zeta.
  repeat case_match; intros Hg; try discriminate Hg; eapply IH; try exact Hg; cbn [a_interval]; try done.
  by apply Z.ltb_ge.
Qed.

(** filterdns starts only as root, with a configuration file that is accepted, and with an interval of at
    least one second, so that its threads do not look names up without a pause; then it satisfies the
    invariant of its lists. *)
Theorem fd_main_started `{Kernel} opts e st a s :
  fd_main opts e st = Ok (inl (a, s)) ->
  uid e = 0 /\ 1 <= a_interval a /\ exists text config,
    config_text e = Some text /\ parse_file text = Ok (Some config) /\ fd_init config st = Some s.
Proof.
  unfold fd_main. destruct (Z.eqb_spec (uid e) 0) as [Hu|]; cbn [negb]; [|done].
  destruct (fd_getopt opts fd_defaults) as [b|] eqn:Eo; [|done]. destruct (a_file b); [|done].
  destruct (config_text e) as [text|]; [|done]. unfold start_daemon.
  destruct (parse_file text) as [[config|]|] eqn:Ep; cbn [mbind outcome_bind option_bind]; [|done|done].
  destruct (fd_init config st) as [s1|] eqn:Ei; [|done]. intros Hs.
  assert (Hab : b = a /\ s1 = s) by (repeat case_match; try done; by injection Hs).
  destruct Hab as [-> ->]. split; [done|]. split; [by apply (fd_getopt_interval opts fd_defaults a)|]. by exists text, config.
Qed.

(** ** Examples *)

Definition demo_rule : rule := TableRule PF_TYPE "fw.example.org" "hosts" (Some "userrules") 0 (Some "echo a b").
Definition demo_cmd : rule := TableRule IPFW_TYPE "10.0.0.0/8" "5" None 12 (Some "true").

Lemma demo_line : written (Some demo_rule) "pf fw.example.org  hosts userrules 'echo a  b' # both".
Proof.
  apply (line_item "" "pf" PF _ " fw.example.org  hosts userrules 'echo a  b' # both"); [done|exact (item_word "pf" eq_refl)|done|].
  apply (line_item " " "fw.example.org" _ _ "  hosts userrules 'echo a  b' # both"); [done|exact (item_word "fw.example.org" eq_refl)|done|].
  apply (line_item "  " "hosts" _ _ " userrules 'echo a  b' # both"); [done|exact (item_word "hosts" eq_refl)|done|].
  apply (line_item " " "userrules" _ _ " 'echo a  b' # both"); [done|exact (item_word "userrules" eq_refl)|done|].
  apply (line_item " " "'echo a  b'" _ _ " # both"); [done|exact (item_quoted "'" "echo a  b" eq_refl)|done|].
  exact (line_end " " "# both" eq_refl eq_refl).
Qed.

Lemma demo_cmd_line : written (Some demo_cmd) "ipfw '10.0.0.0/8' 5 pipe 12 true".
Proof.
  apply (line_item "" "ipfw" IPFW _ " '10.0.0.0/8' 5 pipe 12 true"); [done|exact (item_word "ipfw" eq_refl)|done|].
  apply (line_item " " "'10.0.0.0/8'" _ _ " 5 pipe 12 true"); [done|exact (item_quoted "'" "10.0.0.0/8" eq_refl)|done|].
  apply (line_item " " "5" _ _ " pipe 12 true"); [done|exact (item_word "5" eq_refl)|done|].
  apply (line_item " " "pipe" PIPE _ " 12 true"); [done|exact (item_word "pipe" eq_refl)|done|].
  apply (line_item " " "12" _ _ " true"); [done|exact (item_word "12" eq_refl)|done|].
  apply (line_item " " "true" _ _ ""); [done|exact (item_word "true" eq_refl)|done|].
  exact (line_end "" "" eq_refl eq_refl).
Qed.

Definition demo_lines : list string :=
  ["# hosts"; "pf fw.example.org  hosts userrules 'echo a  b' # both"; ""; "ipfw '10.0.0.0/8' 5 pipe 12 true"].

Lemma demo_written : Forall2 written [None; Some demo_rule; None; Some demo_cmd] demo_lines.
Proof.
  repeat constructor; [exact (line_end "" "# hosts" eq_refl eq_refl) | apply demo_line | exact (line_end "" "" eq_refl eq_refl)
                      | apply demo_cmd_line].
Qed.

Lemma demo_rules_ok : Forall rule_ok [demo_rule; demo_cmd].
Proof. repeat constructor; cbn; congruence || lia. Qed.

Lemma config_file_read_witness : parse_file (text_of demo_lines) = Ok (Some [demo_rule; demo_cmd]).
Proof. exact (proj1 (config_file_read [None; Some demo_rule; None; Some demo_cmd] demo_lines FdTables.Demo.demo_sys demo_rules_ok demo_written)). Defined.

Lemma nul_ends_config_witness :
  parse_file (text_of demo_lines +:+ String "000" "pf lost.example.org hosts") = Ok (Some [demo_rule; demo_cmd]).
Proof. exact (nul_ends_config [None; Some demo_rule; None; Some demo_cmd] demo_lines _ demo_rules_ok demo_written). Defined.

Lemma last_newline_required_witness : parse_file "ipfw '10.0.0.0/8' 5 pipe 12 true" = Ok None.
Proof. exact (last_newline_required [] [] demo_cmd _ ltac:(constructor) demo_cmd_line). Defined.

Lemma fd_main_started_witness : exists s,
  fd_main [("c"%char, "/var/etc/filterdns.conf"); ("i"%char, "300")]
    {| uid := 0; config_text := Some (text_of demo_lines); daemon_ok := true; pidfile_ok := true |} FdTables.Demo.demo_sys
  = Ok (inl ({| a_file := Some "/var/etc/filterdns.conf"; a_debug := 0; a_foreground := false; a_interval := 300; a_pidfile := None |}, s))
  /\ 1 <= 300.
Proof.
  eexists. split; [vm_compute; reflexivity|].
  refine (proj1 (proj2 (fd_main_started [("c"%char, "/var/etc/filterdns.conf"); ("i"%char, "300")]
    {| uid := 0; config_text := Some (text_of demo_lines); daemon_ok := true; pidfile_ok := true |} FdTables.Demo.demo_sys
    {| a_file := Some "/var/etc/filterdns.conf"; a_debug := 0; a_foreground := false; a_interval := 300; a_pidfile := None |} _ _))).
  vm_compute. reflexivity.
Defined.
