(* ===== verification/FdLock.v ===== *)
(** filterdns, filterdns.c: the locking between the thread of an action, the thread of its host and the
    reload that deletes the action, one statement at a time; and the end of a host. *)
From Stdlib Require Import ZArith Lia.
From stdpp Require Import base relations.
From S2P Require Import Prelude FdTables.
Open Scope Z_scope.

(** [main_lock] *)
Inductive rwlock : Type := Readers (n : nat) | Writer.

(** Where [check_action] is: at its first [pthread_rwlock_rdlock], at [act->state = THR_RUNNING], at the
    unlock at the head of the loop, at [sem_wait], at the test of [act->host], at the [rdlock] of the loop, in the
    body; after the loop at the unlock, at [act->state = THR_DYING], at [sem_post(&act->exit_sem)], at
    [act->state = THR_STOPPED], and gone. *)
Inductive act_pc : Type :=
  | A_start | A_running | A_top | A_sem_wait | A_test | A_rdlock | A_body | A_unlock | A_dying | A_post | A_stop | A_gone.

(** Where [check_hostname] is: before [pthread_rwlock_tryrdlock], in the body with the lock held, at the
    unlock, waiting ([sem_clockwait_np] always returns, at the latest after the interval). *)
Inductive host_pc : Type := H_try | H_body | H_unlock | H_again.

(** Where [merge_config] is: before [pthread_rwlock_wrlock], in [host_del] before [act->host = NULL], at the
    test of the state with [sem_post(&act->sem)], before [sem_wait(&act->exit_sem)], in [action_del] before
    [free(act)], before the unlock, and after it. *)
Inductive merge_pc : Type := M_wrlock | M_host_null | M_post | M_exit_wait | M_free | M_unlock | M_done.
#[export] Instance merge_pc_eq_dec : EqDecision merge_pc.
Proof. solve_decision. Defined.

Record threads3 : Type := {
  main_lock : rwlock;
  a_pc : act_pc; h_pc : host_pc; m_pc : merge_pc;
  has_host : bool;            (* act->host != NULL *)
  a_state : thr_state;        (* act->state *)
  a_sem : Z; exit_sem : Z;    (* act->sem, act->exit_sem *)
  freed : bool                (* free(act) was called *)
}.

Definition a_set (l : rwlock) (pc : act_pc) (st : thr_state) (sem ex : Z) (s : threads3) : threads3 :=
  {| main_lock := l; a_pc := pc; h_pc := h_pc s; m_pc := m_pc s; has_host := has_host s; a_state := st;
     a_sem := sem; exit_sem := ex; freed := freed s |}.
Definition a_goto (pc : act_pc) (s : threads3) : threads3 := a_set (main_lock s) pc (a_state s) (a_sem s) (exit_sem s) s.
Definition h_set (l : rwlock) (pc : host_pc) (sem : Z) (s : threads3) : threads3 :=
  {| main_lock := l; a_pc := a_pc s; h_pc := pc; m_pc := m_pc s; has_host := has_host s; a_state := a_state s;
     a_sem := sem; exit_sem := exit_sem s; freed := freed s |}.
Definition m_set (l : rwlock) (pc : merge_pc) (hh : bool) (sem ex : Z) (f : bool) (s : threads3) : threads3 :=
  {| main_lock := l; a_pc := a_pc s; h_pc := h_pc s; m_pc := pc; has_host := hh; a_state := a_state s;
     a_sem := sem; exit_sem := ex; freed := f |}.

(** [pthread_rwlock_rdlock], which waits for a writer. *)
Definition rdlock (l : rwlock) : option rwlock := match l with Readers n => Some (Readers (S n)) | Writer => None end.

(** [pthread_rwlock_unlock] of a reader; a lock that another thread has for writing is left alone (EPERM). *)
Definition unlock_read (l : rwlock) : rwlock := match l with Readers (S n) => Readers n | l => l end.

(** The thread of the action; no step when it has to wait. *)
Definition act_step (s : threads3) : option threads3 :=
  match a_pc s with
  | A_start => l ← rdlock (main_lock s); Some (a_set l A_running (a_state s) (a_sem s) (exit_sem s) s)
  | A_running => Some (a_set (main_lock s) A_top THR_RUNNING (a_sem s) (exit_sem s) s)
  | A_top => Some (a_set (unlock_read (main_lock s)) A_sem_wait (a_state s) (a_sem s) (exit_sem s) s)
  | A_sem_wait => if 0 <? a_sem s then Some (a_set (main_lock s) A_test (a_state s) (a_sem s - 1) (exit_sem s) s) else None
  | A_test => Some (a_goto (if has_host s then A_rdlock else A_unlock) s)
  | A_rdlock => l ← rdlock (main_lock s); Some (a_set l A_body (a_state s) (a_sem s) (exit_sem s) s)
  | A_body => Some (a_goto A_top s)
  | A_unlock => Some (a_set (unlock_read (main_lock s)) A_dying (a_state s) (a_sem s) (exit_sem s) s)
  | A_dying => Some (a_set (main_lock s) A_post THR_DYING (a_sem s) (exit_sem s) s)
  | A_post => Some (a_set (main_lock s) A_stop (a_state s) (a_sem s) (exit_sem s + 1) s)
  | A_stop => Some (a_set (main_lock s) A_gone THR_STOPPED (a_sem s) (exit_sem s) s)
  | A_gone => None
  end.

(** The thread of the host; in its body it may post the semaphore of the action, if that is in its list. *)
Definition host_step (post : bool) (s : threads3) : option threads3 :=
  match h_pc s with
  | H_try =>
      match rdlock (main_lock s) with
      | Some l => Some (h_set l H_body (a_sem s) s)
      | None => Some (h_set (main_lock s) H_again (a_sem s) s)
      end
  | H_body => Some (h_set (main_lock s) H_unlock (if post && has_host s then a_sem s + 1 else a_sem s) s)
  | H_unlock => Some (h_set (unlock_read (main_lock s)) H_again (a_sem s) s)
  | H_again => Some (h_set (main_lock s) H_try (a_sem s) s)
  end.

(** The reload that deletes the action. *)
Definition merge_step (s : threads3) : option threads3 :=
  match m_pc s with
  | M_wrlock =>
      match main_lock s with
      | Readers O => Some (m_set Writer M_host_null (has_host s) (a_sem s) (exit_sem s) (freed s) s)
      | _ => None
      end
  | M_host_null => Some (m_set (main_lock s) M_post false (a_sem s) (exit_sem s) (freed s) s)
  | M_post =>
      match a_state s with
      | THR_STARTING | THR_RUNNING => Some (m_set (main_lock s) M_exit_wait (has_host s) (a_sem s + 1) (exit_sem s) (freed s) s)
      | _ => Some (m_set (main_lock s) M_free (has_host s) (a_sem s) (exit_sem s) (freed s) s)
      end
  | M_exit_wait =>
      if 0 <? exit_sem s then Some (m_set (main_lock s) M_free (has_host s) (a_sem s) (exit_sem s - 1) (freed s) s) else None
  | M_free => Some (m_set (main_lock s) M_unlock (has_host s) (a_sem s) (exit_sem s) true s)
  | M_unlock => Some (m_set (Readers 0) M_done (has_host s) (a_sem s) (exit_sem s) (freed s) s)
  | M_done => None
  end.

Inductive step3 (s : threads3) : threads3 -> Prop :=
  | step3_act s' : act_step s = Some s' -> step3 s s'
  | step3_host post s' : host_step post s = Some s' -> step3 s s'
  | step3_merge s' : merge_step s = Some s' -> step3 s s'.

(** The threads were just created. *)
Definition start3 : threads3 :=
  {| main_lock := Readers 0; a_pc := A_start; h_pc := H_try; m_pc := M_wrlock; has_host := true;
     a_state := THR_STARTING; a_sem := 0; exit_sem := 0; freed := false |}.

(** ** The invariant *)

Definition a_holds (pc : act_pc) : bool := match pc with A_running | A_top | A_body => true | _ => false end.
Definition h_holds (pc : host_pc) : bool := match pc with H_body | H_unlock => true | _ => false end.
Definition m_holds (pc : merge_pc) : bool := match pc with M_wrlock | M_done => false | _ => true end.

(** Whether the reload has taken the host away. *)
Definition detached (pc : merge_pc) : bool := match pc with M_wrlock | M_host_null => false | _ => true end.

Definition lock_of (a : act_pc) (h : host_pc) (m : merge_pc) : rwlock :=
  if m_holds m then Writer else Readers (Nat.b2n (a_holds a) + Nat.b2n (h_holds h)).

Definition state_of (a : act_pc) : thr_state :=
  match a with
  | A_start | A_running => THR_STARTING
  | A_post | A_stop => THR_DYING
  | A_gone => THR_STOPPED
  | _ => THR_RUNNING
  end.

(** Which places the two can be at together: a leaving thread was detached; while the reload holds the lock
    nobody reads; it frees the action only when the thread is about to post, or has posted. *)
Definition together (a : act_pc) (h : host_pc) (m : merge_pc) : bool :=
  match a with
  | A_unlock | A_dying => match m with M_post | M_exit_wait => true | _ => false end
  | A_post | A_stop | A_gone => detached m
  | _ => match m with M_free | M_unlock | M_done => false | _ => true end
  end && negb (m_holds m && (a_holds a || h_holds h)).

Definition posted (a : act_pc) : bool := match a with A_stop | A_gone => true | _ => false end.

Record lock_inv (s : threads3) : Prop := {
  i_lock : main_lock s = lock_of (a_pc s) (h_pc s) (m_pc s);
  i_host : has_host s = negb (detached (m_pc s));
  i_state : a_state s = state_of (a_pc s);
  i_freed : freed s = match m_pc s with M_unlock | M_done => true | _ => false end;
  i_together : together (a_pc s) (h_pc s) (m_pc s) = true;
  i_exit : 0 <= exit_sem s /\ (0 < exit_sem s -> posted (a_pc s) = true);
  i_posted : posted (a_pc s) = true -> m_pc s = M_exit_wait -> 0 < exit_sem s;
  i_sem : 0 <= a_sem s /\ (m_pc s = M_exit_wait -> a_pc s = A_sem_wait -> 0 < a_sem s)
}.

Lemma start3_inv : lock_inv start3.
Proof. by split; cbn; try lia. Qed.

(** All cases of the three places. *)
Ltac places :=
  repeat match goal with
  | H : _ = Some _ |- _ => progress cbn in H
  | H : Some _ = Some _ |- _ => injection H as <-
  | H : None = Some _ |- _ => discriminate H
  | H : (if ?b then _ else _) = Some _ |- _ => let E := fresh "E" in destruct b eqn:E
  end.

Ltac solve_inv :=
  split; cbn in *; try done; try (by intros; first [done | lia]); try lia;
    rewrite ?Z.ltb_lt in *; first [lia | intuition (done || congruence || lia)].

Lemma act_step_inv s s' : lock_inv s -> act_step s = Some s' -> lock_inv s'.
Proof.
  intros [H1 H2 H3 H4 H5 H6 H7 H8]. destruct s as [l a h m hh st se ex f]; cbn in *. subst l hh st f.
  unfold act_step. cbn. destruct a, h, m; try discriminate H5; intros E; places; solve_inv.
Qed.

Lemma host_step_inv post s s' : lock_inv s -> host_step post s = Some s' -> lock_inv s'.
Proof.
  intros [H1 H2 H3 H4 H5 H6 H7 H8]. destruct s as [l a h m hh st se ex f]; cbn in *. subst l hh st f.
  unfold host_step. cbn. destruct a, h, m; try discriminate H5; intros E; places; try destruct post; solve_inv.
Qed.

Lemma merge_step_inv s s' : lock_inv s -> merge_step s = Some s' -> lock_inv s'.
Proof.
  intros [H1 H2 H3 H4 H5 H6 H7 H8]. destruct s as [l a h m hh st se ex f]; cbn in *. subst l hh st f.
  unfold merge_step. cbn. destruct a, h, m; try discriminate H5; intros E; places; solve_inv.
Qed.

Lemma step3_inv s s' : lock_inv s -> step3 s s' -> lock_inv s'.
Proof. intros Hi [s1 E|post s1 E|s1 E]; eauto using act_step_inv, host_step_inv, merge_step_inv. Qed.

Lemma reachable3_inv s : rtc step3 start3 s -> lock_inv s.
Proof.
  assert (H : forall s1 s2, rtc step3 s1 s2 -> lock_inv s1 -> lock_inv s2) by (induction 1; eauto using step3_inv).
  intros Hr. eapply H; [exact Hr | apply start3_inv].
Qed.

(** C33. The lock protects what it is meant to: while the reload has it, neither the thread of the action nor
    that of the host is in its critical section, and otherwise it counts exactly the threads that are.  The
    unlock with which a deleted action leaves, although it does not hold the lock, always meets the lock of
    the reload, and so changes nothing. *)
Theorem lock_exclusive s : rtc step3 start3 s ->
  (if m_holds (m_pc s) then main_lock s = Writer /\ a_holds (a_pc s) = false /\ h_holds (h_pc s) = false
   else main_lock s = Readers (Nat.b2n (a_holds (a_pc s)) + Nat.b2n (h_holds (h_pc s)))) /\
  (a_pc s = A_unlock -> unlock_read (main_lock s) = main_lock s).
Proof.
  intros Hr. destruct (reachable3_inv s Hr) as [H1 _ _ _ H5 _ _ _]. rewrite H1. unfold lock_of, together in *.
  destruct (a_pc s), (h_pc s), (m_pc s); try discriminate H5; by cbn.
Qed.

(** ** Deleting an action *)

(** The thread of the action waits for the lock. *)
Definition blocked (pc : act_pc) : bool := match pc with A_start | A_rdlock => true | _ => false end.

Lemma blocked_step s s' : lock_inv s -> step3 s s' -> detached (m_pc s) = true -> blocked (a_pc s) = true ->
  detached (m_pc s') = true /\ blocked (a_pc s') = true.
Proof.
  intros [H1 H2 H3 H4 H5 H6 _ _]. destruct s as [l a h m hh st se ex f]; cbn in *. subst l hh st f.
  intros [s1 E|post s1 E|s1 E]; revert E; [unfold act_step | unfold host_step | unfold merge_step]; cbn;
    destruct a, m; try discriminate H5; try done; destruct h; try discriminate H5; intros E Hd Hb; places; done.
Qed.

(** How far the two are from their ends. *)
Definition act_left (pc : act_pc) : nat :=
  match pc with A_sem_wait => 6 | A_test => 5 | A_unlock => 4 | A_dying => 3 | A_post => 2 | A_stop => 1 | _ => 0 end.
Definition merge_left (pc : merge_pc) : nat :=
  match pc with M_post => 4 | M_exit_wait => 3 | M_free => 2 | M_unlock => 1 | _ => 0 end.

Lemma unblocked_step s : lock_inv s -> detached (m_pc s) = true -> blocked (a_pc s) = false -> m_pc s <> M_done ->
  exists s', step3 s s' /\ detached (m_pc s') = true /\ blocked (a_pc s') = false /\
    (act_left (a_pc s') + merge_left (m_pc s') < act_left (a_pc s) + merge_left (m_pc s))%nat.
Proof.
  intros Hi Hd Hb Hm. destruct (merge_step s) as [s'|] eqn:Em.
  - exists s'. split; [by apply step3_merge|]. revert Em. destruct Hi as [H1 H2 H3 H4 H5 H6 H7 H8].
    destruct s as [l a h m hh st se ex f]; cbn in *. subst l hh st f. unfold merge_step. cbn.
    destruct a, m; try done; try discriminate H5; intros E; places; cbn; split_and!; (done || lia).
  - assert (Hw : m_pc s = M_exit_wait /\ exit_sem s <= 0).
    { revert Em. unfold merge_step. destruct (m_pc s); try done; [by destruct (a_state s)|].
      destruct (Z.ltb_spec 0 (exit_sem s)); [done|]. intros _. split; [done | lia]. }
    destruct Hw as [Hw He]. destruct Hi as [H1 H2 H3 H4 H5 H6 H7 H8].
    destruct s as [l a h m hh st se ex f]; cbn in *. subst l hh st f m.
    assert (Ha : exists s', act_step {| main_lock := lock_of a h M_exit_wait; a_pc := a; h_pc := h; m_pc := M_exit_wait;
      has_host := negb (detached M_exit_wait); a_state := state_of a; a_sem := se; exit_sem := ex; freed := false |} = Some s' /\
      m_pc s' = M_exit_wait /\ blocked (a_pc s') = false /\ (act_left (a_pc s') < act_left a)%nat).
    { unfold act_step. cbn. destruct a; try done; try discriminate H5; try (specialize (H7 eq_refl eq_refl); lia);
        [destruct H8 as [_ H8]; specialize (H8 eq_refl eq_refl); rewrite (proj2 (Z.ltb_lt 0 se)) by done|..];
        eexists; split_and!; try reflexivity; cbn; lia. }
    destruct Ha as (s' & E & E1 & E2 & E3). exists s'. split; [by apply step3_act|]. rewrite E1. split_and!; [done|done|].
    cbn. lia.
Qed.

Lemma unblocked_finishes n : forall s, lock_inv s -> detached (m_pc s) = true -> blocked (a_pc s) = false ->
  (act_left (a_pc s) + merge_left (m_pc s) <= n)%nat -> exists s', rtc step3 s s' /\ m_pc s' = M_done.
Proof.
  induction n as [|n IH]; intros s Hi Hd Hb Hn; (destruct (decide (m_pc s = M_done)) as [Hm|Hm]; [by exists s; split; [apply rtc_refl|]|]);
    destruct (unblocked_step s Hi Hd Hb Hm) as (s1 & Hs & Hd1 & Hb1 & Hl); [lia|].
  destruct (IH s1 (step3_inv _ _ Hi Hs) Hd1 Hb1 ltac:(lia)) as (s' & Hr & Hm'). exists s'. split; [by eapply rtc_l|done].
Qed.

Lemma blocked_forever s s' : rtc step3 s s' -> lock_inv s -> detached (m_pc s) = true -> blocked (a_pc s) = true -> m_pc s' <> M_done.
Proof.
  induction 1 as [s|s s1 s2 Hs _ IH]; intros Hi Hd Hb.
  - intros Em. destruct Hi as [_ _ _ _ H5 _ _ _]. rewrite Em in H5. by destruct (a_pc s).
  - destruct (blocked_step s s1 Hi Hs Hd Hb) as [Hd1 Hb1]. exact (IH (step3_inv _ _ Hi Hs) Hd1 Hb1).
Qed.

(** A schedule: whose turn it is. *)
Inductive turn : Type := T_act | T_host (post : bool) | T_merge.

Definition take_turn (t : turn) (s : threads3) : option threads3 :=
  match t with T_act => act_step s | T_host post => host_step post s | T_merge => merge_step s end.

Fixpoint run3 (ts : list turn) (s : threads3) : option threads3 :=
  match ts with
  | [] => Some s
  | t :: ts => s1 ← take_turn t s; run3 ts s1
  end.

Lemma run3_rtc ts : forall s s', run3 ts s = Some s' -> rtc step3 s s'.
Proof.
  induction ts as [|t ts IH]; cbn; intros s s' E; [injection E as <-; apply rtc_refl|].
  destruct (take_turn t s) as [s1|] eqn:Et; cbn in E; [|discriminate E].
  apply rtc_l with s1; [|by apply IH]. destruct t; [by apply step3_act | by eapply step3_host | by apply step3_merge].
Qed.

(** The state after a schedule from the start. *)
Definition after3 (ts : list turn) : threads3 := default start3 (run3 ts start3).

Lemma after3_reachable ts : rtc step3 start3 (after3 ts).
Proof.
  unfold after3. destruct (run3 ts start3) as [s|] eqn:E; [exact (run3_rtc _ _ _ E) | apply rtc_refl].
Qed.

(** The thread waits for work; it found work and tested the host. *)
Definition to_wait : list turn := [T_act; T_act; T_act].
Definition host_posts : list turn := [T_host true; T_host true; T_host true].
Definition to_rdlock : list turn := to_wait ++ host_posts ++ [T_act; T_act].
(** The reload takes the lock and the host away; then it decides whether to wait. *)
Definition detach : list turn := [T_merge; T_merge].

Lemma lock_exclusive_witness :
  main_lock (after3 (to_wait ++ host_posts ++ detach ++ [T_merge; T_act; T_act])) = Writer /\
  a_pc (after3 (to_wait ++ host_posts ++ detach ++ [T_merge; T_act; T_act])) = A_unlock /\
  unlock_read (main_lock (after3 (to_wait ++ host_posts ++ detach ++ [T_merge; T_act; T_act]))) = Writer.
Proof.
  destruct (lock_exclusive _ (after3_reachable (to_wait ++ host_posts ++ detach ++ [T_merge; T_act; T_act]))) as [[Hw _] Hu].
  split; [exact Hw|]. split; [reflexivity|]. rewrite <-Hw. apply Hu. reflexivity.
Defined.

(** C35. Once the reload has taken its host from an action it can finish if and only if the thread of the
    action does not wait for the lock: a thread that waits for work, or is on its way out, lets it finish, and
    one that was just started, or that tested [act->host] just before, never does. *)
Theorem deletion_deadlocks_iff s : rtc step3 start3 s -> detached (m_pc s) = true ->
  (exists s', rtc step3 s s' /\ m_pc s' = M_done) <-> (a_pc s <> A_start /\ a_pc s <> A_rdlock).
Proof.
  intros Hr Hd. pose proof (reachable3_inv s Hr) as Hi.
  assert (Hb : (a_pc s <> A_start /\ a_pc s <> A_rdlock) <-> blocked (a_pc s) = false) by (destruct (a_pc s); cbn; intuition done).
  rewrite Hb. split.
  - intros (s' & Hs & Hm). destruct (blocked (a_pc s)) eqn:E; [|done]. by destruct (blocked_forever s s' Hs Hi Hd E).
  - intros E. by eapply unblocked_finishes; [..|reflexivity].
Qed.

Lemma deletion_deadlocks_iff_witness :
  (exists s', rtc step3 (after3 (to_wait ++ detach)) s' /\ m_pc s' = M_done) /\
  ~ (exists s', rtc step3 (after3 (to_rdlock ++ detach)) s' /\ m_pc s' = M_done).
Proof.
  split.
  - apply (deletion_deadlocks_iff (after3 (to_wait ++ detach)) (after3_reachable _) eq_refl). by split.
  - intros H. apply (deletion_deadlocks_iff (after3 (to_rdlock ++ detach)) (after3_reachable _) eq_refl) in H. by destruct H as [_ []].
Defined.

(** Deleting an action can stop filterdns: there are interleavings of the three threads after which the
    reload, with the lock held, waits for the thread of the action, which waits for the lock, whatever runs
    from then on: one in which the thread tested [act->host] just before, and one in which the reload comes
    before the thread has run at all. *)
Theorem deletion_can_deadlock : exists s1 s2, rtc step3 start3 s1 /\ rtc step3 start3 s2 /\
  main_lock s1 = Writer /\ a_pc s1 = A_rdlock /\ m_pc s1 = M_exit_wait /\ a_pc s2 = A_start /\ m_pc s2 = M_exit_wait /\
  forall s', rtc step3 s1 s' \/ rtc step3 s2 s' -> m_pc s' <> M_done.
Proof.
  exists (after3 (to_rdlock ++ detach ++ [T_merge])), (after3 (detach ++ [T_merge])). split_and!; try apply after3_reachable; try reflexivity.
  intros s' [H|H]; (eapply blocked_forever; [exact H | apply reachable3_inv, after3_reachable | reflexivity | reflexivity]).
Qed.

(** The memory of a deleted action is used after it was freed, but only at its last two statements: the
    reload may free it while the thread is still to write [THR_STOPPED] to it, and even while it is still to
    post its semaphore; at no other place of the thread is the action freed. *)
Theorem freed_action_used :
  (exists s, rtc step3 start3 s /\ freed s = true /\ a_pc s = A_stop) /\
  (exists s, rtc step3 start3 s /\ freed s = true /\ a_pc s = A_post) /\
  (forall s, rtc step3 start3 s -> freed s = true -> a_pc s = A_post \/ a_pc s = A_stop \/ a_pc s = A_gone).
Proof.
  split_and!.
  - exists (after3 (to_wait ++ detach ++ [T_merge; T_act; T_act; T_act; T_act; T_act; T_merge; T_merge])).
    split; [apply after3_reachable | by split].
  - exists (after3 (to_wait ++ host_posts ++ detach ++ [T_act; T_act; T_act; T_act; T_merge; T_merge])).
    split; [apply after3_reachable | by split].
  - intros s Hr Hf. destruct (reachable3_inv s Hr) as [_ _ _ H4 H5 _ _ _]. rewrite Hf in H4.
    unfold together in H5. destruct (a_pc s), (m_pc s); try discriminate H4; try discriminate H5; tauto.
Qed.

(** ** The end of a host

    A host thread whose host has no actions left ends without the lock ("It is safe to ignore the locking here"),
    while a reload, which holds it, may give the host a new action. *)

(** Where [check_hostname] is: at the test of [refcnt]; after it, at [thr->state = THR_DYING], at
    [TAILQ_REMOVE], at the release of its addresses and name with [thr->state = THR_STOPPED], and gone. *)
Inductive end_pc : Type := E_test | E_dying | E_remove | E_stop | E_gone.

(** Where the reload is: in [host_add] looking for the host in [thread_list]; at [search->refcnt++] of the host it
    found; in the loop that creates threads for hosts of state 0; after it. *)
Inductive join_pc : Type := J_find | J_join | J_create | J_done.

Record host_end : Type := {
  e_pc : end_pc; j_pc : join_pc;
  in_list : bool;             (* thr is in thread_list *)
  refs : Z;                   (* thr->refcnt *)
  e_state : thr_state;        (* thr->state *)
  joined : option bool        (* whether the new action has this host, or a new one *)
}.

Definition e_set (pc : end_pc) (l : bool) (st : thr_state) (s : host_end) : host_end :=
  {| e_pc := pc; j_pc := j_pc s; in_list := l; refs := refs s; e_state := st; joined := joined s |}.
Definition j_set (pc : join_pc) (r : Z) (j : option bool) (s : host_end) : host_end :=
  {| e_pc := e_pc s; j_pc := pc; in_list := in_list s; refs := r; e_state := e_state s; joined := j |}.

(** The thread of the host: a round when it has actions. *)
Definition end_step (s : host_end) : option host_end :=
  match e_pc s with
  | E_test => Some (if refs s =? 0 then e_set E_dying (in_list s) (e_state s) s else s)
  | E_dying => Some (e_set E_remove (in_list s) THR_DYING s)
  | E_remove => Some (e_set E_stop false (e_state s) s)
  | E_stop => Some (e_set E_gone (in_list s) THR_STOPPED s)
  | E_gone => None
  end.

(** The reload: [host_add] for an action with the name of the host, and [check_hostname_create]. *)
Definition join_step (s : host_end) : option host_end :=
  match j_pc s with
  | J_find => Some (if in_list s then j_set J_join (refs s) (joined s) s else j_set J_create (refs s) (Some false) s)
  | J_join => Some (j_set J_create (refs s + 1) (Some true) s)
  | J_create =>
      let s := match in_list s, e_state s with true, THR_STOPPED => e_set E_test true THR_STARTING s | _, _ => s end in
      Some (j_set J_done (refs s) (joined s) s)
  | J_done => None
  end.

Inductive end_or_join (s : host_end) : host_end -> Prop :=
  | by_host s' : end_step s = Some s' -> end_or_join s s'
  | by_reload s' : join_step s = Some s' -> end_or_join s s'.

(** The last action of the host was deleted. *)
Definition unused_host : host_end :=
  {| e_pc := E_test; j_pc := J_find; in_list := true; refs := 0; e_state := THR_RUNNING; joined := None |}.

Definition before_remove (pc : end_pc) : bool := match pc with E_test | E_dying | E_remove => true | _ => false end.

Record end_inv (s : host_end) : Prop := {
  en_list : in_list s = before_remove (e_pc s);
  en_refs : refs s = match joined s with Some true => 1 | _ => 0 end;
  en_join : joined s = None <-> j_pc s = J_find \/ j_pc s = J_join;
  en_new : joined s = Some false -> before_remove (e_pc s) = false;
  en_state : e_state s = THR_STOPPED -> e_pc s = E_gone
}.

Lemma end_or_join_inv s s' : end_inv s -> end_or_join s s' -> end_inv s'.
Proof.
  intros [H1 H2 H3 H4 H5] [s1 E|s1 E]; revert E; destruct s as [pc j l r st jo]; cbn in *; subst l r;
    [destruct pc; cbn; [destruct jo as [[]|]; cbn|..] | destruct j; cbn; [destruct pc; cbn|..|destruct pc, st; cbn|]];
    intros [= <-]; split; cbn in *; try done; try tauto; try (by intuition (congruence || done));
    by rewrite (proj2 H3) by tauto.
Qed.

Lemma end_reachable_inv s : rtc end_or_join unused_host s -> end_inv s.
Proof.
  assert (H : forall s1 s2, rtc end_or_join s1 s2 -> end_inv s1 -> end_inv s2) by (induction 1; eauto using end_or_join_inv).
  intros Hr. eapply H; [exact Hr|]. split; cbn; try done. tauto.
Qed.

(** A schedule of the two. *)
Fixpoint run_end (ts : list bool) (s : host_end) : option host_end :=
  match ts with
  | [] => Some s
  | t :: ts => s1 ← (if t : bool then end_step s else join_step s); run_end ts s1
  end.

Lemma run_end_rtc ts : forall s s', run_end ts s = Some s' -> rtc end_or_join s s'.
Proof.
  induction ts as [|t ts IH]; cbn; intros s s' E; [injection E as <-; apply rtc_refl|].
  destruct t; [destruct (end_step s) as [s1|] eqn:Et | destruct (join_step s) as [s1|] eqn:Et]; cbn in E; try discriminate E;
    (apply rtc_l with s1; [|by apply IH]); [by apply by_host | by apply by_reload].
Qed.

(** Once the thread has found that the host has no actions it leaves. *)
Lemma leaving_step s s' : end_inv s -> e_pc s <> E_test -> end_or_join s s' -> e_pc s' <> E_test.
Proof.
  intros [H1 _ _ _ H5] Hp [s1 E|s1 E]; revert E; destruct s as [pc j l r st jo]; cbn in *; subst l.
  - destruct pc; cbn; intros [= <-]; done.
  - destruct j; cbn; [destruct pc | | destruct pc, st |]; cbn; intros [= <-]; cbn; try done; by specialize (H5 eq_refl).
Qed.

Lemma leaving_forever s s' : rtc end_or_join s s' -> end_inv s -> e_pc s <> E_test -> e_pc s' <> E_test.
Proof.
  induction 1 as [|s s1 s2 Hs _ IH]; intros Hi Hp; [done|]. apply IH; [by eapply end_or_join_inv | by eapply leaving_step].
Qed.

(** While it has an action it stays. *)
Lemma serving_step s s' : end_inv s -> joined s = Some true -> e_pc s = E_test -> end_or_join s s' ->
  joined s' = Some true /\ e_pc s' = E_test.
Proof.
  intros [H1 H2 H3 _ H5] Hj Hp [s1 E|s1 E]; revert E; destruct s as [pc j l r st jo]; cbn in *; subst l r jo pc.
  - intros [= <-]. by split.
  - destruct j; cbn; [| |destruct st|]; cbn; intros [= <-]; split; try done.
Qed.

Lemma serving_forever s s' : rtc end_or_join s s' -> end_inv s -> joined s = Some true -> e_pc s = E_test -> e_pc s' = E_test.
Proof.
  induction 1 as [|s s1 s2 Hs _ IH]; intros Hi Hj Hp; [done|]. destruct (serving_step _ _ Hi Hj Hp Hs).
  apply IH; [by eapply end_or_join_inv | done | done].
Qed.

(** C34. A host that ends can take a new action with it.  When a reload gives an action to a host that its last
    action has left, then either the thread of the host serves it from then on, or, if it had found before that
    it has no actions, it leaves with the action attached to it, no thread is started in its place, and the name
    is never looked up; and there are runs of both kinds. *)
Theorem host_end_races :
  (forall s, rtc end_or_join unused_host s -> joined s = Some true ->
     (forall s', rtc end_or_join s s' -> e_pc s' = E_test) \/ (forall s', rtc end_or_join s s' -> e_pc s' <> E_test)) /\
  (exists s, rtc end_or_join unused_host s /\ joined s = Some true /\ e_pc s = E_test) /\
  (exists s, rtc end_or_join unused_host s /\ j_pc s = J_done /\ joined s = Some true /\ e_pc s = E_gone /\ in_list s = false).
Proof.
  split; [|split].
  - intros s Hr Hj. pose proof (end_reachable_inv s Hr) as Hi. destruct (e_pc s) eqn:Ep.
    1: left; intros s' Hs; exact (serving_forever s s' Hs Hi Hj Ep).
    all: right; intros s' Hs; apply (leaving_forever s s' Hs Hi); by rewrite Ep.
  - eexists. split; [apply (run_end_rtc [false; false; false]); reflexivity | by split].
  - eexists. split; [apply (run_end_rtc [true; false; true; false; false; true; true]); reflexivity | by split].
Qed.
