(* ===== verification/Qstats.v ===== *)
(** qstats, qstats.c: a daemon that keeps the tree of the ALTQ queues of the packet filter with their
    statistics, and prints it for every client. *)
From Stdlib Require Import ZArith Lia Ascii String.
From stdpp Require Import base list strings numbers.
From S2P Require Import Prelude CProg.
Open Scope string_scope.
Open Scope list_scope.
Open Scope Z_scope.

(** ** Floating-point numbers *)

(** The operations on [double] that the program uses, with [printf]'s "%.1f" and "%.2f". *)
Class Double : Type := {
  double : Type;
  d_of_Z : Z -> double;
  d_add : double -> double -> double;
  d_mul : double -> double -> double;
  d_div : double -> double -> double;
  d_ge : double -> double -> bool;
  d_to_int : double -> Z;
  fmt1 : double -> string;
  fmt2 : double -> string
}.

(** ** Queues *)

Inductive scheduler : Type := ALTQT_CBQ | ALTQT_PRIQ | ALTQT_HFSC | ALTQT_FAIRQ | ALTQT_CODEL | ALTQT_OTHER.

(** The members of [struct pf_altq] that are used; [removed] is PFALTQ_FLAG_IF_REMOVED. *)
Record pf_altq : Type := {
  ifname : string; qname : string; parent : string; sched : scheduler; qid : Z; removed : bool;
  ifbandwidth : Z; priority : Z; qlimit : Z; tbrsize : Z
}.

(** The member of [union class_stats] that belongs to the scheduler; [borrows] and [delays] are those of
    CBQ, [codel_drops] the second pair of drop counters of CoDel. *)
Record class_stats : Type := {
  xmit_packets : Z; xmit_bytes : Z; drop_packets : Z; drop_bytes : Z; qlength : Z; qmax : Z;
  borrows : Z; delays : Z; codel_drop_packets : Z; codel_drop_bytes : Z
}.

Definition zero_stats : class_stats :=
  {| xmit_packets := 0; xmit_bytes := 0; drop_packets := 0; drop_bytes := 0; qlength := 0; qmax := 0;
     borrows := 0; delays := 0; codel_drop_packets := 0; codel_drop_bytes := 0 |}.

Definition AVGN_MAX : Z := 8.
Definition STAT_INTERVAL : Z := 5.
Definition DEFAULT_PRIORITY : Z := 1.
Definition DEFAULT_QLIMIT : Z := 50.
Definition R2S_BUFS : nat := 8.
Definition RATESTR_MAX : nat := 16.

Definition has_stats (a : pf_altq) : bool :=
  match sched a with ALTQT_CODEL => true | _ => negb (qid a =? 0) end.

Section qstats.
Context `{Double}.

Record queue_stats : Type := {
  data : class_stats; avgn : Z; avg_bytes : double; avg_packets : double; prev_bytes : Z; prev_packets : Z
}.

Definition new_stats (d : class_stats) : queue_stats :=
  {| data := d; avgn := 0; avg_bytes := d_of_Z 0; avg_packets := d_of_Z 0; prev_bytes := 0; prev_packets := 0 |}.

(** [struct pf_altq_node]: [children] and [next] make lists. *)
Inductive node : Type := Node (altq : pf_altq) (qs : queue_stats) (children : list node).

Definition node_altq (n : node) : pf_altq := match n with Node a _ _ => a end.

(** *** Averages *)

Definition avg (old : double) (n : Z) (delta : Z) : double :=
  d_div (d_add (d_mul old (d_of_Z (n - 1))) (d_of_Z delta)) (d_of_Z n).

(** The bytes and packets of a scheduler that is not known are 0. *)
Definition update_avg (a : pf_altq) (q : queue_stats) : queue_stats :=
  if negb (has_stats a) then q
  else
    let n := avgn q in
    let '(b, p) := match sched a with ALTQT_OTHER => (0, 0) | _ => (xmit_bytes (data q), xmit_packets (data q)) end in
    if n =? 0 then
      {| data := data q; avgn := avgn q + 1; avg_bytes := avg_bytes q; avg_packets := avg_packets q;
         prev_bytes := b; prev_packets := p |}
    else
      {| data := data q; avgn := if n <? AVGN_MAX then avgn q + 1 else avgn q;
         avg_bytes := if prev_bytes q <=? b then avg (avg_bytes q) n (b - prev_bytes q) else avg_bytes q;
         avg_packets := if prev_packets q <=? p then avg (avg_packets q) n (p - prev_packets q) else avg_packets q;
         prev_bytes := b; prev_packets := p |}.

(** *** The tree *)

Definition is_queue (qn ifn : string) (a : pf_altq) : bool := String.eqb (qname a) qn && String.eqb (ifname a) ifn.

(** [pfctl_find_altq_node], and what is done with the node that is found: the first in preorder. *)
Fixpoint at_node (qn ifn : string) (f : node -> node) (n : node) : option node :=
  match n with
  | Node a q cs =>
      if is_queue qn ifn a then Some (f n)
      else
        Node a q <$> (fix at_nodes (l : list node) : option (list node) :=
                        match l with
                        | [] => None
                        | c :: l =>
                            match at_node qn ifn f c with
                            | Some c => Some (c :: l)
                            | None => (c ::.) <$> at_nodes l
                            end
                        end) cs
  end.

Fixpoint pfctl_find_altq_node (qn ifn : string) (f : node -> node) (l : list node) : option (list node) :=
  match l with
  | [] => None
  | c :: l =>
      match at_node qn ifn f c with
      | Some c => Some (c :: l)
      | None => (c ::.) <$> pfctl_find_altq_node qn ifn f l
      end
  end.

Definition add_child (c : node) (n : node) : node := match n with Node a q cs => Node a q (cs ++ [c]) end.

(** A queue whose parent is not there is not inserted. *)
Definition pfctl_insert_altq_node (root : list node) (a : pf_altq) (d : class_stats) : list node :=
  let n := Node a (update_avg a (new_stats d)) [] in
  match root with
  | [] => [n]
  | _ =>
      if String.eqb (parent a) "" then root ++ [n]
      else default root (pfctl_find_altq_node (parent a) (ifname a) (add_child n) root)
  end.

(** [memcpy(&node->qstats.data, ...); update_avg(node)] *)
Definition set_data (d : class_stats) (n : node) : node :=
  match n with
  | Node a q cs =>
      Node a (update_avg a {| data := d; avgn := avgn q; avg_bytes := avg_bytes q; avg_packets := avg_packets q;
                              prev_bytes := prev_bytes q; prev_packets := prev_packets q |}) cs
  end.

Definition record_queue (root : list node) (a : pf_altq) (d : class_stats) : list node :=
  match pfctl_find_altq_node (qname a) (ifname a) (set_data d) root with
  | Some root => root
  | None => pfctl_insert_altq_node root a d
  end.

(** What the kernel answers for one queue: DIOCGETALTQ and, if it is asked, DIOCGETQSTATS. *)
Record answer : Type := { get_altq : option pf_altq; get_qstats : option class_stats }.

(** The loop of [pfctl_update_qstats]; [false] for -1. *)
Fixpoint update_loop (answers : list answer) (root : list node) : bool * list node :=
  match answers with
  | [] => (true, root)
  | x :: answers =>
      match get_altq x with
      | None => (false, root)
      | Some a =>
          if ((0 <? qid a) || match sched a with ALTQT_CODEL => true | _ => false end) && negb (removed a) then
            match get_qstats x with
            | None => (false, root)
            | Some d => update_loop answers (record_queue root a d)
            end
          else if removed a then update_loop answers (record_queue root a zero_stats)
          else update_loop answers root
      end
  end.

(** [*root] and [last_ticket]. *)
Record state : Type := { root : list node; last_ticket : Z }.

(** The answer to DIOCGETALTQS is a ticket and the queues, [None] for an error.  A new ticket starts
    over. *)
Definition pfctl_update_qstats (reply : option (Z * list answer)) (s : state) : bool * state :=
  match reply with
  | None => (false, s)
  | Some (ticket, answers) =>
      let r := if ticket =? last_ticket s then root s else [] in
      let '(ok, r) := update_loop answers r in
      (ok, {| root := r; last_ticket := ticket |})
  end.

(** *** Printing *)

(** [for (i = 0; rate >= 1000 && i <= 3; i++) rate /= 1000] *)
Fixpoint scale (k : nat) (rate : double) (i : nat) : double * nat :=
  match k with
  | O => (rate, i)
  | S k => if d_ge rate (d_of_Z 1000) then scale k (d_div rate (d_of_Z 1000)) (S i) else (rate, i)
  end.

(** The units, with the NUL that ends the string. *)
Definition unit : list ascii := [" "; "K"; "M"; "G"; "000"]%char.

Definition rate2str (rate : double) : string :=
  let '(rate, i) := scale 4 rate 0 in
  let u := default "000"%char (unit !! i) in
  let s := if Z.rem (d_to_int (d_mul rate (d_of_Z 100))) 100 =? 0 then sdec (d_to_int rate) else fmt2 rate in
  c_str (str_take (RATESTR_MAX - 1) (s +:+ String u "b")).

(** [char buf[20]] with [level] tabs. *)
Definition tabs (level : nat) : outcome string :=
  if (level <? 20)%nat then Ok (repeat_char level TAB) else Fail (ArrayBounds 20).

Definition tag (name text : string) : string := "<" +:+ name +:+ ">" +:+ text +:+ "</" +:+ name +:+ ">".
Definition line (buf text : string) : string := buf +:+ text +:+ String LF "".

(** [print_queue] as it is called, with [bw == NULL] and [print_interface]. *)
Definition print_queue (a : pf_altq) (level : nat) : outcome string :=
  buf ← tabs level;
  Ok ((if removed a then tag "status" "INACTIVE" else "")
      +:+ line buf (tag "name" (qname a))
      +:+ line buf (tag "interface" (ifname a))
      +:+ match sched a with
          | ALTQT_CBQ | ALTQT_HFSC | ALTQT_FAIRQ => line buf (tag "bandwidth" (rate2str (d_of_Z (ifbandwidth a))))
          | _ => ""
          end
      +:+ (if priority a =? DEFAULT_PRIORITY then "" else line buf (tag "priority" (udec (priority a))))
      +:+ (if qlimit a =? DEFAULT_QLIMIT then "" else line buf (tag "qlimit" (udec (qlimit a))))).

Definition scheduler_name (s : scheduler) : option string :=
  match s with
  | ALTQT_CBQ => Some "cbq" | ALTQT_PRIQ => Some "priq" | ALTQT_HFSC => Some "hfsc" | ALTQT_FAIRQ => Some "fairq"
  | ALTQT_CODEL => Some "codelq" | ALTQT_OTHER => None
  end.

Definition print_altq (a : pf_altq) (level : nat) : outcome string :=
  if negb (String.eqb (qname a) "") then print_queue a level
  else
    let t := String TAB "" in
    Ok ((if removed a then "INACTIVE " else "")
        +:+ line t (tag "interface" (ifname a))
        +:+ match scheduler_name (sched a) with Some n => line t (tag "scheduler" n) | None => "" end
        +:+ line t (tag "bandwidth" (rate2str (d_of_Z (ifbandwidth a))))
        +:+ (if qlimit a =? DEFAULT_QLIMIT then "" else line t (tag "qlimit" (udec (qlimit a))))
        +:+ t +:+ tag "tbrsize" (udec (tbrsize a))).

Definition counters (pkts bytes dpkts dbytes : Z) : string :=
  tag "pkts" (udec (u64 pkts)) +:+ tag "bytes" (udec (u64 bytes)) +:+
  tag "droppedpkts" (udec (u64 dpkts)) +:+ tag "droppedbytes" (udec (u64 dbytes)).

Definition measured (q : queue_stats) : string :=
  let speed := d_div (d_mul (d_of_Z 8) (avg_bytes q)) (d_of_Z STAT_INTERVAL) in
  tag "measured" (fmt1 (d_div (avg_packets q) (d_of_Z STAT_INTERVAL))) +:+ tag "measuredspeed" (rate2str speed) +:+
  tag "measuredspeedint" (fmt1 speed) +:+ String LF "".

Definition queue_length (d : class_stats) : string := tag "qlength" (sdec (qlength d) +:+ "/" +:+ sdec (qmax d)).

(** [print_priqstats], [print_hfscstats] and [print_fairqstats] have the same text. *)
Definition print_stats (q : queue_stats) (level : nat) : string :=
  let d := data q in
  repeat_char level TAB +:+ counters (xmit_packets d) (xmit_bytes d) (drop_packets d) (drop_bytes d)
  +:+ queue_length d +:+ (if avgn q <? 2 then String LF "" else measured q).
Definition print_priqstats := print_stats.
Definition print_hfscstats := print_stats.
Definition print_fairqstats := print_stats.

Definition print_cbqstats (q : queue_stats) (level : nat) : string :=
  let d := data q in
  repeat_char level TAB +:+ counters (xmit_packets d) (xmit_bytes d) (drop_packets d) (drop_bytes d)
  +:+ queue_length d +:+ tag "borrows" (udec (borrows d)) +:+ tag "suspends" (udec (delays d))
  +:+ (if avgn q <? 2 then String LF "" else measured q).

Definition print_codelstats (q : queue_stats) (level : nat) : string :=
  let d := data q in
  counters (xmit_packets d) (xmit_bytes d) (drop_packets d + codel_drop_packets d) (drop_bytes d + codel_drop_bytes d)
  +:+ queue_length d +:+ (if avgn q <? 2 then "" else measured q).

Definition pfctl_print_altq_nodestat (a : pf_altq) (q : queue_stats) (level : nat) : string :=
  if negb (has_stats a) || removed a then ""
  else match sched a with
       | ALTQT_CBQ => print_cbqstats q level
       | ALTQT_PRIQ => print_priqstats q level
       | ALTQT_HFSC => print_hfscstats q level
       | ALTQT_FAIRQ => print_fairqstats q level
       | ALTQT_CODEL => print_codelstats q level
       | ALTQT_OTHER => ""
       end.

Fixpoint pfctl_print_altq_node (n : node) (level : nat) : outcome string :=
  match n with
  | Node a q cs =>
      buf ← tabs level;
      own ← print_altq a (S level);
      inner ← (fix print_nodes (l : list node) : outcome string :=
                 match l with
                 | [] => Ok ""
                 | c :: l => t ← pfctl_print_altq_node c (S level); r ← print_nodes l; Ok (t +:+ r)
                 end) cs;
      Ok (line buf "<queue>" +:+ own +:+ pfctl_print_altq_nodestat a q (S level) +:+ inner +:+ line buf "</queue>")
  end.

(** The loop of [main] over the roots, for the interface of -i. *)
Fixpoint print_roots (iface : option string) (l : list node) : outcome string :=
  match l with
  | [] => Ok ""
  | n :: l =>
      let a := node_altq n in
      if match iface with Some i => negb (String.eqb (ifname a) i) | None => false end || removed a then print_roots iface l
      else t ← pfctl_print_altq_node n 0; r ← print_roots iface l; Ok (t +:+ r)
  end.

(** One client: the text that is sent to it. *)
Definition serve (iface : option string) (reply : option (Z * list answer)) (s : state) : outcome string * state :=
  let '(ok, s) := pfctl_update_qstats reply s in
  ((t ← (if ok : bool then print_roots iface (root s) else Ok "");
    Ok ("<altqstats>" +:+ String LF "" +:+ t +:+ "</altqstats>" +:+ String LF "" +:+ String LF "")), s).

(** The loop of [main] over [accept], which may fail. *)
Fixpoint serve_loop (iface : option string) (clients : list (option (option (Z * list answer)))) (s : state)
    : list (outcome string) * state :=
  match clients with
  | [] => ([], s)
  | None :: clients => serve_loop iface clients s
  | Some reply :: clients =>
      let '(t, s) := serve iface reply s in
      let '(ts, s) := serve_loop iface clients s in (t :: ts, s)
  end.

(** The [getopt] loop over "di:hp:": the debug level, the interface and the pid file; [None] for a return of -1. *)
Fixpoint qs_getopt (opts : list (ascii * string)) (debug : Z) (iface pidfile : option string)
    : option (Z * option string * option string) :=
  match opts with
  | [] => Some (debug, iface, pidfile)
  | (ch, optarg) :: opts =>
      if Ascii.eqb ch "d" then qs_getopt opts (debug + 1) iface pidfile
      else if Ascii.eqb ch "i" then qs_getopt opts debug (Some optarg) pidfile
      else if Ascii.eqb ch "p" then qs_getopt opts debug iface (Some optarg)
      else None
  end.

(** Whether [daemon], the [open] of the device and of the pid file, [socket], [bind] and [listen] succeed. *)
Record qs_env : Type := { daemon_ok : bool; dev_ok : bool; pid_ok : bool; socket_ok : bool; bind_ok : bool; listen_ok : bool }.

(** [main]; [None] for a return of -1. *)
Definition qs_main (opts : list (ascii * string)) (e : qs_env) (clients : list (option (option (Z * list answer))))
    : option (list (outcome string) * state) :=
  '(debug, iface, pidfile) ← qs_getopt opts 0 None None;
  if (debug <=? 0) && negb (daemon_ok e) then None
  else if negb (dev_ok e) then None
  else if bool_decide (is_Some pidfile) && negb (pid_ok e) then None
  else if negb (socket_ok e) || negb (bind_ok e) || negb (listen_ok e) then None
  else Some (serve_loop iface clients {| root := []; last_ticket := 0 |}).

End qstats.

(** ** The tree has every queue once *)

Section tree.
Context `{Double}.

(** Induction on trees. *)
Lemma node_tree_ind (P : node -> Prop) :
  (forall a q cs, Forall P cs -> P (Node a q cs)) -> forall n, P n.
Proof.
  intros IH. fix rec 1. intros [a q cs]. apply IH. induction cs as [|c cs IHcs]; constructor; [apply rec | exact IHcs].
Qed.

Definition key (a : pf_altq) : string * string := (qname a, ifname a).

(** The queues of a tree, in the order in which they are searched. *)
Fixpoint node_keys (n : node) : list (string * string) :=
  match n with Node a _ cs => key a :: flat_map node_keys cs end.
Definition keys (l : list node) : list (string * string) := flat_map node_keys l.

Lemma is_queue_key qn ifn a : is_queue qn ifn a = true <-> key a = (qn, ifn).
Proof.
  unfold is_queue, key. rewrite andb_true_iff, !String.eqb_eq. split; [by intros [-> ->] | by intros [= -> ->]].
Qed.

Lemma at_node_eq qn ifn f a q cs :
  at_node qn ifn f (Node a q cs)
  = if is_queue qn ifn a then Some (f (Node a q cs)) else Node a q <$> pfctl_find_altq_node qn ifn f cs.
Proof.
  cbn [at_node]. destruct (is_queue qn ifn a); [done|]. f_equal.
  all: try (induction cs as [|c cs IH]; cbn; [done|]; destruct (at_node qn ifn f c); [done|]; by rewrite IH).
Qed.

(** What a search does to the list of queues, when [f] adds the queues [extra] to the node it is applied
    to. *)
Definition finds (qn ifn : string) (f : node -> node) (extra before : list (string * string))
    (after : option (list (string * string))) : Prop :=
  match after with
  | Some after => (qn, ifn) ∈ before /\ after ≡ₚ extra ++ before
  | None => (qn, ifn) ∉ before
  end.

Lemma find_keys qn ifn f extra l :
  Forall (fun n => finds qn ifn f extra (node_keys n) (node_keys <$> at_node qn ifn f n)) l ->
  finds qn ifn f extra (keys l) (keys <$> pfctl_find_altq_node qn ifn f l).
Proof.
  induction l as [|n l IH]; intros Hl; cbn [pfctl_find_altq_node]; [apply not_elem_of_nil|].
  apply Forall_cons_1 in Hl as [Hn Hl]. specialize (IH Hl). destruct (at_node qn ifn f n) as [n'|]; cbn in Hn |- *.
  - destruct Hn as [H1 H2]. split; [by apply elem_of_app; left|]. unfold keys. cbn [flat_map]. by rewrite H2, app_assoc.
  - destruct (pfctl_find_altq_node qn ifn f l) as [l'|]; cbn in IH |- *; unfold keys in *; cbn [flat_map].
    + destruct IH as [H1 H2]. split; [by apply elem_of_app; right|]. rewrite H2, !app_assoc. f_equiv. apply Permutation_app_comm.
    + apply not_elem_of_app. done.
Qed.

Lemma at_node_keys qn ifn f extra :
  (forall n, node_keys (f n) ≡ₚ extra ++ node_keys n) ->
  forall n, finds qn ifn f extra (node_keys n) (node_keys <$> at_node qn ifn f n).
Proof.
  intros Hf. apply node_tree_ind. intros a q cs IH. rewrite at_node_eq. destruct (is_queue qn ifn a) eqn:E.
  - apply is_queue_key in E. cbn [fmap option_fmap option_map finds]. split; [|apply Hf].
    change (node_keys (Node a q cs)) with (key a :: flat_map node_keys cs). rewrite E. left.
  - pose proof (find_keys qn ifn f extra cs IH) as Hk.
    assert (Hne : (qn, ifn) <> key a) by (intros Ek; symmetry in Ek; apply is_queue_key in Ek; congruence).
    destruct (pfctl_find_altq_node qn ifn f cs) as [cs'|]; cbn in Hk |- *.
    + destruct Hk as [H1 H2]. split; [by right|]. unfold keys in H2. rewrite H2. by rewrite Permutation_middle.
    + apply not_elem_of_cons. done.
Qed.

Lemma forest_keys qn ifn f extra l : (forall n, node_keys (f n) ≡ₚ extra ++ node_keys n) ->
  finds qn ifn f extra (keys l) (keys <$> pfctl_find_altq_node qn ifn f l).
Proof. intros Hf. apply find_keys. apply List.Forall_forall. intros n _. by apply at_node_keys. Qed.

Lemma set_data_keys d n : node_keys (set_data d n) = node_keys n.
Proof. by destruct n. Qed.

Lemma add_child_keys c n : node_keys (add_child c n) ≡ₚ node_keys c ++ node_keys n.
Proof.
  destruct n as [a q cs]. cbn. rewrite flat_map_app. cbn. rewrite app_nil_r.
  by rewrite (Permutation_app_comm _ (node_keys c)), Permutation_middle.
Qed.

(** Recording a queue that is there changes no queue; one whose parent is there, or that has none, is
    added. *)
Lemma record_queue_old root a d : key a ∈ keys root -> keys (record_queue root a d) ≡ₚ keys root.
Proof.
  intros Hin. unfold record_queue. pose proof (forest_keys (qname a) (ifname a) (set_data d) [] root) as Hf.
  destruct (pfctl_find_altq_node _ _ _ root) as [r|]; cbn in Hf.
  - apply Hf. intros n. by rewrite set_data_keys.
  - exfalso. apply Hf; [|done]. intros n. by rewrite set_data_keys.
Qed.

Lemma record_queue_new root a d : key a ∉ keys root ->
  root = [] \/ parent a = "" \/ (parent a, ifname a) ∈ keys root ->
  keys (record_queue root a d) ≡ₚ key a :: keys root.
Proof.
  intros Hn Hp. unfold record_queue. pose proof (forest_keys (qname a) (ifname a) (set_data d) [] root) as Hf.
  destruct (pfctl_find_altq_node _ _ _ root) as [r|]; cbn in Hf.
  { exfalso. apply Hn, Hf. intros n. by rewrite set_data_keys. }
  clear Hf. unfold pfctl_insert_altq_node. set (n := Node a _ []). destruct root as [|x root]; [done|].
  destruct (String.eqb_spec (parent a) "") as [E|E].
  { unfold keys. rewrite flat_map_app. cbn [flat_map n node_keys]. rewrite app_nil_r. by rewrite <- Permutation_cons_append. }
  destruct Hp as [Hp|[Hp|Hp]]; [done..|].
  pose proof (forest_keys (parent a) (ifname a) (add_child n) (node_keys n) (x :: root) (add_child_keys n)) as Hf.
  destruct (pfctl_find_altq_node _ _ _ (x :: root)) as [r|]; cbn in Hf; [|done]. by destruct Hf as [_ Hf].
Qed.

(** Answers of the kernel for the queues [qs]: every queue has statistics or is removed. *)
Definition answered (qs : list pf_altq) (answers : list answer) : Prop :=
  Forall2 (fun a x => get_altq x = Some a /\
    (removed a = true \/ (0 < qid a \/ sched a = ALTQT_CODEL) /\ get_qstats x <> None)) qs answers.

(** One step of the loop. *)
Lemma update_loop_step a x answers root :
  get_altq x = Some a /\ (removed a = true \/ (0 < qid a \/ sched a = ALTQT_CODEL) /\ get_qstats x <> None) ->
  exists d, update_loop (x :: answers) root = update_loop answers (record_queue root a d).
Proof.
  intros [Ha Hs]. cbn [update_loop]. rewrite Ha.
  destruct (removed a) eqn:Er; [rewrite andb_false_r; by exists zero_stats|].
  destruct Hs as [Hs|[Hq Hg]]; [done|]. rewrite andb_true_r.
  assert (Hb : (0 <? qid a) || match sched a with ALTQT_CODEL => true | _ => false end = true).
  { apply orb_true_iff. destruct Hq as [Hq| ->]; [left; by apply Z.ltb_lt | by right]. }
  rewrite Hb. destruct (get_qstats x) as [d|]; [|done]. by exists d.
Qed.

Lemma update_loop_old qs answers : forall root, answered qs answers -> Forall (fun a => key a ∈ keys root) qs ->
  exists r, update_loop answers root = (true, r) /\ keys r ≡ₚ keys root.
Proof.
  revert answers. induction qs as [|a qs IH]; intros answers root Ha Hk; inversion Ha as [|? x ? answers' Hx Hr]; subst; [by exists root|].
  apply Forall_cons_1 in Hk as [Hka Hk]. destruct (update_loop_step a x answers' root Hx) as (d & ->).
  pose proof (record_queue_old root a d Hka) as Hp. destruct (IH answers' (record_queue root a d) Hr) as (r & E & Hr').
  - eapply Forall_impl; [|exact Hk]. intros y Hy. by rewrite Hp.
  - exists r. split; [done|]. by rewrite Hr'.
Qed.

(** The parent of every queue comes before it. *)
Fixpoint parents_first (before : list (string * string)) (qs : list pf_altq) : Prop :=
  match qs with
  | [] => True
  | a :: qs => (before = [] \/ parent a = "" \/ (parent a, ifname a) ∈ before) /\ parents_first (key a :: before) qs
  end.

Lemma parents_first_perm qs : forall b b', b ≡ₚ b' -> parents_first b qs -> parents_first b' qs.
Proof.
  induction qs as [|a qs IH]; intros b b' Hb; [done|]. cbn. intros [Hp Hr]. split; [|eapply IH; [|exact Hr]; by rewrite Hb].
  destruct Hp as [-> |[Hp|Hp]]; [left; by apply Permutation_nil | auto | right; right; by rewrite <- Hb].
Qed.

Lemma keys_nil l : keys l = [] -> l = [].
Proof. destruct l as [|[] l]; cbn; congruence. Qed.

Lemma update_loop_new qs answers : forall root, answered qs answers -> NoDup (map key qs ++ keys root) ->
  parents_first (keys root) qs ->
  exists r, update_loop answers root = (true, r) /\ keys r ≡ₚ map key qs ++ keys root.
Proof.
  revert answers. induction qs as [|a qs IH]; intros answers root Ha Hn Hp; inversion Ha as [|? x ? answers' Hx Hr]; subst; [by exists root|].
  destruct (update_loop_step a x answers' root Hx) as (d & ->). cbn [map app] in *.
  apply NoDup_cons_1_1 in Hn as Hna. apply NoDup_cons_1_2 in Hn. apply not_elem_of_app in Hna as [Hnq Hna]. destruct Hp as [Hp1 Hp2].
  assert (Hk : keys (record_queue root a d) ≡ₚ key a :: keys root).
  { apply record_queue_new; [done|]. destruct Hp1 as [E|Hp1]; [left; by apply keys_nil | by right]. }
  destruct (IH answers' (record_queue root a d) Hr) as (r & E & Hr').
  - rewrite Hk, <- Permutation_middle. apply NoDup_cons_2; [|done]. by apply not_elem_of_app.
  - eapply parents_first_perm; [|exact Hp2]. by rewrite Hk.
  - exists r. split; [done|]. rewrite Hr', Hk. by rewrite Permutation_middle.
Qed.

(** C28. The tree is complete.  When the kernel reports a new set of queues, each after its parent, the tree
    has every queue exactly once, whatever it had before; and as long as the set stays the same,
    further requests change the statistics and no queue is added or lost. *)
Theorem qstats_tree_complete qs ticket answers answers' s :
  ticket <> last_ticket s -> NoDup (map key qs) -> parents_first [] qs -> answered qs answers -> answered qs answers' ->
  exists s' s'', pfctl_update_qstats (Some (ticket, answers)) s = (true, s') /\
    pfctl_update_qstats (Some (ticket, answers')) s' = (true, s'') /\
    keys (root s') ≡ₚ map key qs /\ keys (root s'') ≡ₚ map key qs.
Proof.
  intros Ht Hn Hp Ha Ha'. unfold pfctl_update_qstats. rewrite (proj2 (Z.eqb_neq _ _)) by done.
  destruct (update_loop_new qs answers [] Ha) as (r & E & Hr); [by rewrite app_nil_r | done |].
  rewrite E. cbn [keys flat_map] in Hr. rewrite app_nil_r in Hr. eexists. cbn [last_ticket root].
  destruct (update_loop_old qs answers' r Ha') as (r' & E' & Hr').
  { apply List.Forall_forall. intros a Hin%list_elem_of_In. rewrite Hr. by apply list_elem_of_fmap_2. }
  eexists. split; [reflexivity|]. cbn [last_ticket root]. rewrite Z.eqb_refl, E'. split; [reflexivity|]. cbn [root]. split; [done|].
  by rewrite Hr'.
Qed.

(** An update with the queues and the ticket of the tree keeps the tree complete. *)
Lemma update_same_ticket qs answers s : answered qs answers -> keys (root s) ≡ₚ map key qs ->
  exists s', pfctl_update_qstats (Some (last_ticket s, answers)) s = (true, s') /\ keys (root s') ≡ₚ map key qs /\
    last_ticket s' = last_ticket s.
Proof.
  intros Ha Hk. unfold pfctl_update_qstats. rewrite Z.eqb_refl.
  destruct (update_loop_old qs answers (root s) Ha) as (r & E & Hr).
  { apply List.Forall_forall. intros a Hin%list_elem_of_In. rewrite Hk. by apply list_elem_of_fmap_2. }
  rewrite E. eexists. split; [reflexivity|]. cbn [root last_ticket]. split; [by rewrite Hr | done].
Qed.

Lemma serve_loop_complete iface qs batches : forall s, Forall (answered qs) batches -> keys (root s) ≡ₚ map key qs ->
  keys (root (serve_loop iface (map (fun b => Some (Some (last_ticket s, b))) batches) s).2) ≡ₚ map key qs.
Proof.
  induction batches as [|b batches IH]; intros s Hb Hk; [done|]. apply Forall_cons_1 in Hb as [Ha Hb].
  cbn [map serve_loop]. unfold serve. destruct (update_same_ticket qs b s Ha Hk) as (s' & E & Hk' & Ht). rewrite E.
  cbv zeta. rewrite <- Ht. specialize (IH s' Hb Hk'). by destruct (serve_loop _ _ s') as [ts s''].
Qed.

Lemma serve_loop_length iface ticket cs : forall s,
  length (serve_loop iface (map (fun b => Some (Some (ticket, b))) cs) s).1 = length cs.
Proof.
  induction cs as [|c cs IH]; intros s; [done|]. cbn [map serve_loop]. destruct (serve iface _ s) as [t s1].
  specialize (IH s1). destruct (serve_loop _ _ s1). cbn in *. by rewrite IH.
Qed.

(** For every number of clients: as long as the kernel reports the same queues under the same ticket, the
    tree that the last of them is served from has every queue exactly once. *)
Theorem qs_main_complete opts e qs ticket first batches r :
  NoDup (map key qs) -> parents_first [] qs -> answered qs first -> Forall (answered qs) batches ->
  qs_main opts e (map (fun b => Some (Some (ticket, b))) (first :: batches)) = Some r ->
  keys (root r.2) ≡ₚ map key qs /\ length r.1 = S (length batches).
Proof.
  intros Hn Hp Ha Hb. unfold qs_main. destruct (qs_getopt opts 0 None None) as [[[d i] p]|]; [|done].
  cbn [mbind option_bind]. repeat (case_match; [done|]). intros [= <-].
  split; [|apply (serve_loop_length i ticket (first :: batches))]. cbn [map serve_loop]. unfold serve at 1.
  unfold pfctl_update_qstats. cbn [last_ticket root].
  replace (if ticket =? 0 then [] else []) with (@nil node) by (by destruct (ticket =? 0)).
  destruct (update_loop_new qs first [] Ha) as (x & E & Hx); [by rewrite app_nil_r | done |].
  rewrite E. cbn [keys flat_map] in Hx. rewrite app_nil_r in Hx. cbv zeta.
  pose proof (serve_loop_complete i qs batches {| root := x; last_ticket := ticket |} Hb Hx) as Hs. cbn [last_ticket] in Hs.
  by destruct (serve_loop _ _ {| root := x; last_ticket := ticket |}) as [ts s].
Qed.

(** ** Printing stays in its buffers *)

Fixpoint print_forest (l : list node) (level : nat) : outcome string :=
  match l with
  | [] => Ok ""
  | c :: l => t ← pfctl_print_altq_node c level; r ← print_forest l level; Ok (t +:+ r)
  end.

Lemma print_node_eq a q cs level :
  pfctl_print_altq_node (Node a q cs) level
  = (buf ← tabs level; own ← print_altq a (S level); inner ← print_forest cs (S level);
     Ok (line buf "<queue>" +:+ own +:+ pfctl_print_altq_nodestat a q (S level) +:+ inner +:+ line buf "</queue>")).
Proof.
  cbn [pfctl_print_altq_node]. destruct (tabs level); [|done]. cbn [mbind outcome_bind].
  destruct (print_altq a (S level)); [|done]. cbn [mbind outcome_bind]. f_equal.
  all: try (induction cs as [|c cs IH]; cbn [print_forest]; [done|]; by rewrite IH).
Qed.

Fixpoint height (n : node) : nat := match n with Node _ _ cs => S (foldr (fun c h => Nat.max (height c) h) O cs) end.

Lemma print_altq_level a level : (level < 20)%nat -> exists t, print_altq a level = Ok t.
Proof.
  intros Hl. unfold print_altq, print_queue, tabs. rewrite (proj2 (Nat.ltb_lt _ _)) by done.
  destruct (negb _); cbn [mbind outcome_bind]; eauto.
Qed.

Lemma print_altq_fault a level f : print_altq a level = Fail f -> f = ArrayBounds 20.
Proof.
  unfold print_altq, print_queue, tabs. destruct (negb _); [|done]. destruct (level <? 20)%nat; cbn; congruence.
Qed.

Lemma print_node_result n : forall level,
  match pfctl_print_altq_node n level with Ok _ => (level + height n <= 20)%nat | Fail f => f = ArrayBounds 20 end.
Proof.
  induction n as [a q cs IH] using node_tree_ind. intros level. rewrite print_node_eq. cbn [height].
  unfold tabs. destruct (Nat.ltb_spec level 20) as [Hl|]; [|done]. cbn [mbind outcome_bind].
  destruct (print_altq a (S level)) as [own|f] eqn:Ea; [|by eapply print_altq_fault]. cbn [mbind outcome_bind].
  assert (Hf : match print_forest cs (S level) with
    | Ok _ => (S level + foldr (fun c h => Nat.max (height c) h) O cs <= 20)%nat | Fail f => f = ArrayBounds 20 end).
  { clear Ea own. induction cs as [|c cs IHc]; cbn [foldr print_forest]; [lia|].
    apply Forall_cons_1 in IH as [Hc IH]. specialize (Hc (S level)). specialize (IHc IH).
    destruct (pfctl_print_altq_node c (S level)) as [t|f]; [|exact Hc]. cbn [mbind outcome_bind].
    destruct (print_forest cs (S level)) as [r|f]; [|exact IHc]. cbn [mbind outcome_bind]. lia. }
  destruct (print_forest cs (S level)) as [r|f]; [|exact Hf]. cbn [mbind outcome_bind]. lia.
Qed.

Lemma print_node_ok n : forall level, (level + height n <= 19)%nat -> exists t, pfctl_print_altq_node n level = Ok t.
Proof.
  induction n as [a q cs IH] using node_tree_ind. intros level Hh. rewrite print_node_eq. cbn [height] in Hh.
  unfold tabs. rewrite (proj2 (Nat.ltb_lt level 20)) by lia. cbn [mbind outcome_bind].
  destruct (print_altq_level a (S level)) as (own & ->); [lia|]. cbn [mbind outcome_bind].
  assert (Hf : exists t, print_forest cs (S level) = Ok t); [|destruct Hf as (t & ->); cbn; eauto].
  clear own. induction cs as [|c cs IHc]; cbn [foldr print_forest] in *; [by eauto|].
  apply Forall_cons_1 in IH as [Hc IH]. destruct (Hc (S level)) as (t & ->); [lia|]. destruct IHc as (r & ->); [done | lia |].
  cbn. eauto.
Qed.

(** Trees of at most 19 levels are printed without leaving the buffers for the tabs; a tree of more
    than 20 levels overflows them. *)
Theorem qstats_print_depth n :
  ((height n <= 19)%nat -> exists t, pfctl_print_altq_node n 0 = Ok t) /\
  ((20 < height n)%nat -> pfctl_print_altq_node n 0 = Fail (ArrayBounds 20)).
Proof.
  split; intros Hh; [by apply print_node_ok|]. pose proof (print_node_result n 0) as Hr.
  destruct (pfctl_print_altq_node n 0); [lia|]. by rewrite Hr.
Qed.

End tree.

(** ** Two queues *)

(** Numbers as integers, for the examples. *)
#[export] Instance demo_double : Double := {|
  double := Z; d_of_Z := fun z => z; d_add := Z.add; d_mul := Z.mul; d_div := Z.div; d_ge := fun a b => b <=? a;
  d_to_int := fun z => z; fmt1 := fun z => sdec z +:+ ".0"; fmt2 := fun z => sdec z +:+ ".00"
|}.

Definition demo_queue (qn p : string) (id : Z) : pf_altq :=
  {| ifname := "em0"; qname := qn; parent := p; sched := ALTQT_HFSC; qid := id; removed := false;
     ifbandwidth := 100000; priority := 1; qlimit := 50; tbrsize := 0 |}.
Definition demo_queues : list pf_altq := [demo_queue "root_em0" "" 1; demo_queue "qDefault" "root_em0" 2].
Definition demo_answers (n : Z) : list answer :=
  map (fun a => {| get_altq := Some a; get_qstats := Some {| xmit_packets := n; xmit_bytes := 100 * n; drop_packets := 0;
    drop_bytes := 0; qlength := 0; qmax := 50; borrows := 0; delays := 0; codel_drop_packets := 0; codel_drop_bytes := 0 |} |}) demo_queues.

Lemma demo_answered n : answered demo_queues (demo_answers n).
Proof.
  unfold answered, demo_answers, demo_queues. cbn [map].
  apply Forall2_cons; [|apply Forall2_cons; [|apply Forall2_nil]]; (split; [reflexivity|]; right; split; [left; reflexivity | discriminate]).
Qed.

Lemma qstats_tree_complete_witness : exists s' s'',
  pfctl_update_qstats (Some (1, demo_answers 1)) {| root := []; last_ticket := 0 |} = (true, s') /\
  pfctl_update_qstats (Some (1, demo_answers 5)) s' = (true, s'') /\
  keys (root s') ≡ₚ map key demo_queues /\ keys (root s'') ≡ₚ map key demo_queues.
Proof.
  apply (qstats_tree_complete demo_queues 1 (demo_answers 1) (demo_answers 5) {| root := []; last_ticket := 0 |}).
  - discriminate.
  - apply NoDup_cons_2; [|apply NoDup_singleton]. intros E%list_elem_of_singleton. discriminate E.
  - cbn. split; [by left|]. split; [|exact I]. right. right. left.
  - apply demo_answered.
  - apply demo_answered.
Defined.

(** A chain of queues. *)
Fixpoint chain (k : nat) : node :=
  Node (demo_queue "q" "" 1) (new_stats zero_stats) (match k with O => [] | S k => [chain k] end).

Lemma qstats_print_depth_witness :
  (exists t, pfctl_print_altq_node (chain 18) 0 = Ok t) /\ pfctl_print_altq_node (chain 20) 0 = Fail (ArrayBounds 20).
Proof.
  split; [apply (proj1 (qstats_print_depth (chain 18))); vm_compute; lia | apply (proj2 (qstats_print_depth (chain 20))); vm_compute; lia].
Defined.

Lemma qs_main_complete_witness : exists r,
  qs_main [("i"%char, "em0")] {| daemon_ok := true; dev_ok := true; pid_ok := true; socket_ok := true; bind_ok := true; listen_ok := true |}
    [Some (Some (1, demo_answers 1)); Some (Some (1, demo_answers 5))] = Some r /\
  keys (root r.2) ≡ₚ map key demo_queues /\ length r.1 = 2%nat.
Proof.
  eexists. split; [reflexivity|].
  apply (qs_main_complete [("i"%char, "em0")] {| daemon_ok := true; dev_ok := true; pid_ok := true; socket_ok := true; bind_ok := true; listen_ok := true |}
    demo_queues 1 (demo_answers 1) [demo_answers 5]); [| | | |reflexivity].
  - apply NoDup_cons_2; [|apply NoDup_singleton]. intros E%list_elem_of_singleton. discriminate E.
  - cbn. split; [by left|]. split; [|exact I]. right. right. left.
  - apply demo_answered.
  - constructor; [apply demo_answered | constructor].
Defined.
