(* ===== verification/Ifmedia.v ===== *)
(** PHP module, ifmedia.c: the words that describe the medium of a network interface, as text.  The
    tables of names come from net/if_media.h of the system and are parameters ([MediaTables]). *)
From Stdlib Require Import ZArith Lia Ascii String.
From stdpp Require Import base list strings numbers.
From S2P Require Import Prelude CProg.
Open Scope string_scope.
Open Scope list_scope.
Open Scope Z_scope.

(** [struct ifmedia_description]: a word and its name; an array of them ends with a null name. *)
Record ifmedia_description : Type := { ifmt_word : Z; ifmt_string : string }.
Abbreviation descs := (list ifmedia_description).

(** [struct ifmedia_type_to_subtype]; arrays that end with a null pointer, with the flag [alias]. *)
Record ifmedia_type_to_subtype : Type := {
  subtypes : list (descs * bool);
  options : list (descs * bool);
  modes : list (descs * bool)
}.

(** net/if_media.h: the tables, and the parts of a word. *)
Class MediaTables : Type := {
  ifm_type_descriptions : descs;
  ifm_subtype_ethernet_descriptions : descs;
  ifm_subtype_ethernet_aliases : descs;
  ifm_subtype_ethernet_option_descriptions : descs;
  ifm_subtype_ieee80211_descriptions : descs;
  ifm_subtype_ieee80211_aliases : descs;
  ifm_subtype_ieee80211_option_descriptions : descs;
  ifm_subtype_ieee80211_mode_descriptions : descs;
  ifm_subtype_ieee80211_mode_aliases : descs;
  ifm_subtype_atm_descriptions : descs;
  ifm_subtype_atm_aliases : descs;
  ifm_subtype_atm_option_descriptions : descs;
  ifm_subtype_shared_descriptions : descs;
  ifm_subtype_shared_aliases : descs;
  ifm_shared_option_descriptions : descs;
  ifm_shared_option_aliases : descs;
  IFM_TYPE : Z -> Z;
  IFM_SUBTYPE : Z -> Z;
  IFM_MODE : Z -> Z;
  IFM_INST : Z -> Z
}.

(** [strcasecmp(a, b) == 0] *)
Definition lower_char (c : ascii) : ascii :=
  if (65 <=? ascii_val c) && (ascii_val c <=? 90) then ascii_of_Z (ascii_val c + 32) else c.
Fixpoint lower_string (s : string) : string :=
  match s with "" => "" | String c s => String (lower_char c) (lower_string s) end.
Definition same_word (a b : string) : bool := String.eqb (lower_string a) (lower_string b).

(** [strlcat(buf, s, buflen)] *)
Definition strlcat (buf s : string) (buflen : nat) : string :=
  if (String.length buf <? buflen)%nat then str_take (buflen - 1) (buf +:+ s) else buf.

Section ifmedia.
Context `{MediaTables}.

(** "must be in the same order as IFM_TYPE_DESCRIPTIONS" *)
Definition ifmedia_types_to_subtypes : list ifmedia_type_to_subtype :=
  [ {| subtypes := [(ifm_subtype_shared_descriptions, false); (ifm_subtype_shared_aliases, true);
                    (ifm_subtype_ethernet_descriptions, false); (ifm_subtype_ethernet_aliases, true)];
       options := [(ifm_shared_option_descriptions, false); (ifm_shared_option_aliases, true);
                   (ifm_subtype_ethernet_option_descriptions, false)];
       modes := [] |};
    {| subtypes := [(ifm_subtype_shared_descriptions, false); (ifm_subtype_shared_aliases, true);
                    (ifm_subtype_ieee80211_descriptions, false); (ifm_subtype_ieee80211_aliases, true)];
       options := [(ifm_shared_option_descriptions, false); (ifm_shared_option_aliases, true);
                   (ifm_subtype_ieee80211_option_descriptions, false)];
       modes := [(ifm_subtype_ieee80211_mode_descriptions, false); (ifm_subtype_ieee80211_mode_aliases, false)] |};
    {| subtypes := [(ifm_subtype_shared_descriptions, false); (ifm_subtype_shared_aliases, true);
                    (ifm_subtype_atm_descriptions, false); (ifm_subtype_atm_aliases, true)];
       options := [(ifm_shared_option_descriptions, false); (ifm_shared_option_aliases, true);
                   (ifm_subtype_atm_option_descriptions, false)];
       modes := [] |} ].

(** ** From text to words *)

Fixpoint lookup_media_word (desc : descs) (val : string) : Z :=
  match desc with
  | [] => -1
  | d :: desc => if same_word (ifmt_string d) val then ifmt_word d else lookup_media_word desc val
  end.

(** The two pointers that walk over the types together; a type beyond the table of subtypes reads
    outside of it. *)
Fixpoint find_type (type : Z) (desc : descs) (ttos : list ifmedia_type_to_subtype)
    : outcome (option (ifmedia_description * ifmedia_type_to_subtype)) :=
  match desc with
  | [] => Ok None
  | d :: desc =>
      if type =? ifmt_word d then
        match ttos with t :: _ => Ok (Some (d, t)) | [] => Fail (ArrayBounds (Z.of_nat (length ifmedia_types_to_subtypes))) end
      else find_type type desc (tail ttos)
  end.

Definition top_type (type : Z) : outcome (option (ifmedia_description * ifmedia_type_to_subtype)) :=
  find_type type ifm_type_descriptions ifmedia_types_to_subtypes.

(** The first table that knows the word, -1 for none. *)
Fixpoint lookup_tables (tables : list (descs * bool)) (val : string) : Z :=
  match tables with
  | [] => -1
  | (d, _) :: tables =>
      let rval := lookup_media_word d val in
      if rval =? -1 then lookup_tables tables val else rval
  end.

(** [None] for [errx(1, ...)]. *)
Definition get_media_subtype (type : Z) (val : string) : outcome (option Z) :=
  t ← top_type type;
  match t with
  | None => Ok None
  | Some (_, t) => let rval := lookup_tables (subtypes t) val in Ok (if rval =? -1 then None else Some rval)
  end.

Definition get_media_mode (type : Z) (val : string) : outcome (option Z) :=
  t ← top_type type;
  match t with
  | None => Ok None
  | Some (_, t) => Ok (Some (lookup_tables (modes t) val))
  end.

(** [strtok(.., ",")]: the pieces that are not empty. *)
Definition strtok_comma (s : string) : list string := List.filter (fun p => negb (String.eqb p "")) (split_at "," s).

(** The loop over the options.  An option that is not found is -1, and the test is for 0. *)
Fixpoint options_loop (tables : list (descs * bool)) (opts : list string) (rval : Z) : option Z :=
  match opts with
  | [] => Some rval
  | o :: opts =>
      let option := lookup_tables tables o in
      if option =? 0 then None else options_loop tables opts (Z.lor rval option)
  end.

Definition get_media_options (type : Z) (val : string) : outcome (option Z) :=
  t ← top_type type;
  match t with
  | None => Ok None
  | Some (_, t) => Ok (options_loop (options t) (strtok_comma val) 0)
  end.

(** ** From words to text *)

(** The first description, in the tables that are no aliases, whose word is [w]. *)
Fixpoint find_desc (tables : list (descs * bool)) (w : Z) : option ifmedia_description :=
  match tables with
  | [] => None
  | (d, alias) :: tables =>
      if alias : bool then find_desc tables w
      else match List.find (fun x => w =? ifmt_word x) d with
           | Some x => Some x
           | None => find_desc tables w
           end
  end.

Definition get_subtype_desc (ifmw : Z) (ttos : ifmedia_type_to_subtype) : option ifmedia_description :=
  find_desc (subtypes ttos) (IFM_SUBTYPE ifmw).
Definition get_mode_desc (ifmw : Z) (ttos : ifmedia_type_to_subtype) : option ifmedia_description :=
  find_desc (modes ttos) (IFM_MODE ifmw).

(** The descriptions of the options that are set, in the order of the tables. *)
Definition set_options (ifmw : Z) (tables : list (descs * bool)) : descs :=
  flat_map (fun t : descs * bool => if t.2 then [] else List.filter (fun d => negb (Z.land ifmw (ifmt_word d) =? 0)) t.1) tables.

(** The loop over the options, on the buffer. *)
Fixpoint print_options (opts : descs) (seen : bool) (buf : string) (buflen : nat) : string * bool :=
  match opts with
  | [] => (buf, seen)
  | d :: opts =>
      let buf := if seen then buf else strlcat buf " <" buflen in
      let buf := strlcat buf (if seen then "," else "") buflen in
      let buf := strlcat buf (ifmt_string d) buflen in
      print_options opts true buf buflen
  end.

Definition print_media_word (buf : string) (buflen : nat) (ifmw : Z) (print_toptype : bool) : outcome string :=
  t ← top_type (IFM_TYPE ifmw);
  match t with
  | None => Ok (strlcat buf "<unknown type>" buflen)
  | Some (desc, ttos) =>
      let buf := if print_toptype then strlcat buf (ifmt_string desc) buflen else buf in
      match get_subtype_desc ifmw ttos with
      | None => Ok (strlcat buf "<unknown subtype>" buflen)
      | Some desc =>
          let buf := if print_toptype then strlcat buf " " buflen else buf in
          let buf := strlcat buf (ifmt_string desc) buflen in
          let buf :=
            if print_toptype then
              match get_mode_desc ifmw ttos with
              | Some desc =>
                  if same_word "autoselect" (ifmt_string desc) then buf
                  else strlcat (strlcat buf " mode " buflen) (ifmt_string desc) buflen
              | None => buf
              end
            else buf in
          let '(buf, seen) := print_options (set_options ifmw (options ttos)) false buf buflen in
          let buf := strlcat buf (if seen then ">" else "") buflen in
          Ok (if print_toptype && negb (IFM_INST ifmw =? 0) then
                strlcat (strlcat buf " instance " buflen) (str_take 14 (sdec (IFM_INST ifmw))) buflen
              else buf)
      end
  end.

(** [print_media_word_ifconfig]: what is printed. *)
Definition print_media_word_ifconfig (ifmw : Z) : outcome string :=
  t ← top_type (IFM_TYPE ifmw);
  match t with
  | None => Ok "<unknown type>"
  | Some (_, ttos) =>
      match get_subtype_desc ifmw ttos with
      | None => Ok "<unknown subtype>"
      | Some desc =>
          Ok ("media " +:+ ifmt_string desc
              +:+ match get_mode_desc ifmw ttos with Some desc => " mode " +:+ ifmt_string desc | None => "" end
              +:+ match set_options ifmw (options ttos) with
                  | [] => ""
                  | opts => " mediaopt " +:+ join_with "," (map ifmt_string opts)
                  end
              +:+ if IFM_INST ifmw =? 0 then "" else " instance " +:+ sdec (IFM_INST ifmw))
      end
  end.

(** ** The buffer *)

(** What [print_media_word] would write into a buffer of any size. *)
Definition options_text (opts : descs) : string :=
  match opts with [] => "" | _ => " <" +:+ join_with "," (map ifmt_string opts) +:+ ">" end.

Definition media_text (ifmw : Z) (print_toptype : bool) (t : option (ifmedia_description * ifmedia_type_to_subtype)) : string :=
  match t with
  | None => "<unknown type>"
  | Some (desc, ttos) =>
      (if print_toptype then ifmt_string desc else "")
      +:+ match get_subtype_desc ifmw ttos with
          | None => "<unknown subtype>"
          | Some desc =>
              (if print_toptype then " " else "") +:+ ifmt_string desc
              +:+ (if print_toptype then
                     match get_mode_desc ifmw ttos with
                     | Some desc => if same_word "autoselect" (ifmt_string desc) then "" else " mode " +:+ ifmt_string desc
                     | None => ""
                     end
                   else "")
              +:+ options_text (set_options ifmw (options ttos))
              +:+ (if print_toptype && negb (IFM_INST ifmw =? 0) then " instance " +:+ str_take 14 (sdec (IFM_INST ifmw)) else "")
          end
  end.

End ifmedia.

Lemma str_take_take n a b : str_take n (str_take n a +:+ b) = str_take n (a +:+ b).
Proof.
  revert n. induction a as [|c a IH]; intros [|n]; cbn; try done. by rewrite IH.
Qed.

(** A buffer of [n + 1] bytes that holds the beginning of [text]. *)
Lemma strlcat_take n text s : strlcat (str_take n text) s (S n) = str_take n (text +:+ s).
Proof.
  unfold strlcat. pose proof (str_take_length n text).
  rewrite (proj2 (Nat.ltb_lt _ _)) by lia. rewrite Nat.sub_1_r. cbn [Nat.pred]. apply str_take_take.
Qed.

Section text.
Context `{MediaTables}.

(** What the loop over the options appends. *)
Fixpoint options_tail (opts : descs) (seen : bool) : string :=
  match opts with
  | [] => ""
  | d :: opts => (if seen then "," else " <") +:+ ifmt_string d +:+ options_tail opts true
  end.

Lemma print_options_take opts : forall seen n text,
  print_options opts seen (str_take n text) (S n)
  = (str_take n (text +:+ options_tail opts seen), seen || negb (bool_decide (opts = []))).
Proof.
  induction opts as [|d opts IH]; intros seen n text; cbn [print_options options_tail].
  - rewrite bool_decide_eq_true_2 by done. cbn [negb]. by rewrite orb_false_r, append_nil_r.
  - rewrite bool_decide_eq_false_2, orb_true_r by done.
    destruct seen; rewrite !strlcat_take, ?append_nil_r, IH; by rewrite !append_assoc.
Qed.

Lemma options_tail_join opts : opts <> [] -> " <" +:+ join_with "," (map ifmt_string opts) = options_tail opts false.
Proof.
  assert (Hj : forall d l, join_with "," (map ifmt_string (d :: l)) = ifmt_string d +:+ options_tail l true).
  { intros d l. revert d. induction l as [|e l IH]; intros d; [by rewrite append_nil_r|].
    cbn [map]. rewrite join_with_cons by done. cbn [map] in IH. rewrite IH. done. }
  destruct opts as [|d opts]; [done|]. intros _. rewrite Hj. done.
Qed.

Lemma options_text_tail opts : options_text opts = options_tail opts false +:+ if bool_decide (opts = []) then "" else ">".
Proof.
  destruct opts as [|d opts]; [done|]. rewrite bool_decide_eq_false_2 by done. unfold options_text.
  by rewrite <- append_assoc, options_tail_join.
Qed.

(** [print_media_word] appends to a buffer, with [strlcat] at every piece, exactly what it would write
    into a buffer of any size, cut to the size of the buffer: the text of a word is never longer than
    the buffer, and complete when it fits. *)
Lemma print_media_word_text text n ifmw print_toptype t :
  top_type (IFM_TYPE ifmw) = Ok t ->
  print_media_word (str_take n text) (S n) ifmw print_toptype
  = Ok (str_take n (text +:+ media_text ifmw print_toptype t)).
Proof.
  intros E. unfold print_media_word. rewrite E. cbn [mbind outcome_bind].
  destruct t as [[desc ttos]|]; [|by rewrite strlcat_take]. cbn [media_text].
  assert (E1 : forall b s, (if b : bool then strlcat (str_take n text) s (S n) else str_take n text)
    = str_take n (text +:+ if b then s else "")) by (intros []; intros; [apply strlcat_take | by rewrite append_nil_r]).
  rewrite E1. clear E1. destruct (get_subtype_desc ifmw ttos) as [sdesc|]; [|by rewrite strlcat_take, append_assoc].
  set (text1 := text +:+ _).
  assert (E2 : forall b s, (if b : bool then strlcat (str_take n text1) s (S n) else str_take n text1)
    = str_take n (text1 +:+ if b then s else "")) by (intros []; intros; [apply strlcat_take | by rewrite append_nil_r]).
  rewrite E2, strlcat_take. clear E2.
  set (text2 := (text1 +:+ _) +:+ ifmt_string sdesc).
  assert (E3 : (if print_toptype then
      match get_mode_desc ifmw ttos with
      | Some d => if same_word "autoselect" (ifmt_string d) then str_take n text2
                  else strlcat (strlcat (str_take n text2) " mode " (S n)) (ifmt_string d) (S n)
      | None => str_take n text2
      end else str_take n text2)
    = str_take n (text2 +:+ if print_toptype then
        match get_mode_desc ifmw ttos with
        | Some d => if same_word "autoselect" (ifmt_string d) then "" else " mode " +:+ ifmt_string d
        | None => "" end else "")).
  { destruct print_toptype; [|by rewrite append_nil_r]. destruct (get_mode_desc ifmw ttos) as [d|]; [|by rewrite append_nil_r].
    destruct (same_word _ _); [by rewrite append_nil_r|]. by rewrite !strlcat_take, append_assoc. }
  rewrite E3, print_options_take. cbn [orb]. set (text3 := (text2 +:+ _) +:+ options_tail _ _).
  assert (E4 : strlcat (str_take n text3) (if negb (bool_decide (set_options ifmw (options ttos) = [])) then ">" else "") (S n)
    = str_take n ((text2 +:+ if print_toptype then
        match get_mode_desc ifmw ttos with
        | Some d => if same_word "autoselect" (ifmt_string d) then "" else " mode " +:+ ifmt_string d
        | None => "" end else "") +:+ options_text (set_options ifmw (options ttos)))).
  { rewrite strlcat_take. unfold text3. rewrite options_text_tail, !append_assoc. by case_bool_decide. }
  rewrite E4. unfold text2, text1. destruct (print_toptype && _); rewrite ?strlcat_take, !append_assoc; by rewrite ?append_nil_r.
Qed.

End text.

Section options.
Context `{MediaTables}.

(** The options of a type can be told apart: every name that is printed is found with its word, and has
    no comma. *)
Definition option_named (t : ifmedia_type_to_subtype) (d : ifmedia_description) : Prop :=
  lookup_tables (options t) (ifmt_string d) = ifmt_word d /\ ifmt_word d <> 0 /\
  ifmt_string d <> "" /\ has_char "," (ifmt_string d) = false.

Lemma strtok_join names : Forall (fun n => n <> "" /\ has_char "," n = false) names -> strtok_comma (join_with "," names) = names.
Proof.
  intros Hn. destruct names as [|n names]; [done|]. unfold strtok_comma.
  rewrite split_join; [|done|].
  - induction (n :: names) as [|x l IH]; [done|]. apply Forall_cons_1 in Hn as [[Hx _] Hn]. cbn [List.filter].
    destruct (String.eqb_spec x ""); [done|]. cbn [negb]. by rewrite IH.
  - eapply Forall_impl; [|exact Hn]. by intros x [].
Qed.

Lemma options_loop_named t opts : forall rval, Forall (option_named t) opts ->
  options_loop (options t) (map ifmt_string opts) rval = Some (foldl Z.lor rval (map ifmt_word opts)).
Proof.
  induction opts as [|d opts IH]; intros rval Ho; [done|]. apply Forall_cons_1 in Ho as [(H1 & H2 & _) Ho].
  cbn [map options_loop foldl]. rewrite H1. destruct (Z.eqb_spec (ifmt_word d) 0); [done|]. by apply IH.
Qed.

(** The options that [print_media_word] prints between angle brackets are read back by
    [get_media_options] as the options of the word. *)
Lemma options_read_back type desc t ifmw :
  top_type type = Ok (Some (desc, t)) -> Forall (option_named t) (set_options ifmw (options t)) ->
  get_media_options type (join_with "," (map ifmt_string (set_options ifmw (options t))))
  = Ok (Some (foldl Z.lor 0 (map ifmt_word (set_options ifmw (options t))))).
Proof.
  intros E Ho. unfold get_media_options. rewrite E. cbn [mbind outcome_bind]. rewrite strtok_join.
  - by rewrite options_loop_named.
  - apply Forall_map. eapply Forall_impl; [|exact Ho]. intros d (_ & _ & H3 & H4). done.
Qed.

(** *** Reading back what is printed *)

(** All entries, and those of the tables that are no aliases. *)
Definition entries (tables : list (descs * bool)) : descs := flat_map fst tables.
Definition official (tables : list (descs * bool)) : descs := flat_map (fun t : descs * bool => if t.2 then [] else t.1) tables.

(** What net/if_media.h keeps: a name, whatever its case, stands for one word, and no word is -1. *)
Record unambiguous (tables : list (descs * bool)) : Prop := {
  ua_name : forall d d', d ∈ entries tables -> d' ∈ entries tables ->
    same_word (ifmt_string d) (ifmt_string d') = true -> ifmt_word d = ifmt_word d';
  ua_word : forall d, d ∈ entries tables -> ifmt_word d <> -1
}.

(** An option is one bit, and its name has no comma. *)
Definition option_ok (d : ifmedia_description) : Prop :=
  (exists i, 0 <= i /\ ifmt_word d = 2 ^ i) /\ ifmt_string d <> "" /\ has_char "," (ifmt_string d) = false.

Record tables_ok (t : ifmedia_type_to_subtype) : Prop := {
  tk_subtypes : unambiguous (subtypes t);
  tk_modes : unambiguous (modes t);
  tk_options : unambiguous (options t);
  tk_bits : forall d, d ∈ official (options t) -> option_ok d
}.

(** The bits of all options. *)
Definition option_bits (t : ifmedia_type_to_subtype) : Z := foldl Z.lor 0 (map ifmt_word (official (options t))).

Lemma official_entries tables d : d ∈ official tables -> d ∈ entries tables.
Proof.
  induction tables as [|[l a] tables IH]; [done|]. unfold official, entries in *. cbn [flat_map fst snd]. rewrite !elem_of_app.
  destruct a; [|tauto]. intros [Hd%elem_of_nil|Hd]; [done|]. auto.
Qed.

Lemma lookup_media_word_spec l val :
  (lookup_media_word l val = -1 \/ exists d, d ∈ l /\ same_word (ifmt_string d) val = true /\ lookup_media_word l val = ifmt_word d) /\
  (forall d, d ∈ l -> same_word (ifmt_string d) val = true -> (forall x, x ∈ l -> ifmt_word x <> -1) -> lookup_media_word l val <> -1).
Proof.
  induction l as [|x l [IH1 IH2]]; cbn [lookup_media_word]; (split; [|intros d Hd Hs Hw]); [by left | by apply elem_of_nil in Hd| |].
  - destruct (same_word (ifmt_string x) val) eqn:E; [right; exists x; split; [left | done]|].
    destruct IH1 as [->|(d & Hd & R)]; [by left|]. right. exists d. split; [by right | done].
  - destruct (same_word (ifmt_string x) val) eqn:E; [apply Hw; left|]. apply elem_of_cons in Hd as [->|Hd]; [congruence|].
    apply (IH2 d); [done | done | intros y Hy; apply Hw; by right].
Qed.

(** A name is found with its word. *)
Lemma lookup_tables_name tables d : unambiguous tables -> d ∈ entries tables -> lookup_tables tables (ifmt_string d) = ifmt_word d.
Proof.
  intros [Hn Hw] Hd.
  assert (Hself : same_word (ifmt_string d) (ifmt_string d) = true) by apply String.eqb_refl.
  assert (Hg : forall ts, (forall x, x ∈ entries ts -> x ∈ entries tables) -> d ∈ entries ts -> lookup_tables ts (ifmt_string d) = ifmt_word d);
    [|by apply Hg].
  induction ts as [|[l a] ts IH]; intros Hsub Hin; [by apply elem_of_nil in Hin|]. unfold entries in *. cbn [flat_map fst lookup_tables] in *.
  destruct (lookup_media_word_spec l (ifmt_string d)) as [H1 H2].
  assert (Hl : forall x, x ∈ l -> x ∈ flat_map fst tables) by (intros x Hx; apply Hsub, elem_of_app; by left).
  destruct (Z.eqb_spec (lookup_media_word l (ifmt_string d)) (-1)) as [E|E].
  - apply elem_of_app in Hin as [Hin|Hin]; [by destruct (H2 d Hin Hself ltac:(auto))|].
    apply IH; [|done]. intros x Hx. apply Hsub, elem_of_app. by right.
  - destruct H1 as [?|(x & Hx & Hs & ->)]; [done|]. by apply Hn; [apply Hl | |].
Qed.

Lemma find_desc_spec tables w :
  match find_desc tables w with
  | Some d => d ∈ official tables /\ ifmt_word d = w
  | None => w ∉ map ifmt_word (official tables)
  end.
Proof.
  induction tables as [|[l a] tables IH]; cbn [find_desc]; [by apply not_elem_of_nil|]. unfold official in *. cbn [flat_map fst snd].
  destruct a; [exact IH|]. destruct (List.find _ l) as [d|] eqn:E.
  - apply List.find_some in E as [Hin Ew%Z.eqb_eq]. split; [|done]. apply elem_of_app. left. by apply list_elem_of_In.
  - assert (Hno : w ∉ map ifmt_word l).
    { intros (x & Ex & Hx)%list_elem_of_fmap_1. apply list_elem_of_In in Hx. pose proof (List.find_none _ _ E x Hx) as Hf. cbv beta in Hf.
      apply Z.eqb_neq in Hf. congruence. }
    destruct (find_desc tables w) as [d|]; [destruct IH; split; [apply elem_of_app; by right | done]|].
    rewrite map_app, elem_of_app. tauto.
Qed.

Lemma set_options_filter ifmw tables : set_options ifmw tables = List.filter (fun d => negb (Z.land ifmw (ifmt_word d) =? 0)) (official tables).
Proof.
  induction tables as [|[l a] tables IH]; [done|]. unfold set_options, official in *. cbn [flat_map fst snd].
  rewrite IH. destruct a; [done|]. by rewrite List.filter_app.
Qed.

Lemma foldl_lor_bits l i : 0 <= i -> forall z, Z.testbit (foldl Z.lor z l) i = Z.testbit z i || existsb (fun w => Z.testbit w i) l.
Proof.
  intros Hi. induction l as [|w l IH]; intros z; cbn [foldl existsb]; [by rewrite orb_false_r|].
  by rewrite IH, Z.lor_spec, orb_assoc.
Qed.

Lemma option_bit ifmw d : option_ok d -> forall i, 0 <= i ->
  negb (Z.land ifmw (ifmt_word d) =? 0) && Z.testbit (ifmt_word d) i = Z.testbit ifmw i && Z.testbit (ifmt_word d) i.
Proof.
  intros ((k & Hk & E) & _) i Hi. rewrite E, Z.pow2_bits_eqb by done.
  destruct (Z.eqb_spec k i) as [<-|Hne]; [|by rewrite !andb_false_r]. rewrite !andb_true_r.
  assert (Hb : forall j, 0 <= j -> Z.testbit (Z.land ifmw (2 ^ k)) j = Z.testbit ifmw j && (k =? j)).
  { intros j Hj. by rewrite Z.land_spec, Z.pow2_bits_eqb. }
  destruct (Z.testbit ifmw k) eqn:Ek.
  - apply negb_true_iff, Z.eqb_neq. intros Hz. specialize (Hb k Hk). rewrite Hz, Z.bits_0, Ek, Z.eqb_refl in Hb. discriminate Hb.
  - apply negb_false_iff, Z.eqb_eq, Z.bits_inj'. intros j Hj. rewrite Hb, Z.bits_0 by done.
    destruct (Z.eqb_spec k j) as [<-|]; [by rewrite Ek | apply andb_false_r].
Qed.

(** The options that are set, put together, are the option bits of the word. *)
Lemma set_options_bits t ifmw : (forall d, d ∈ official (options t) -> option_ok d) ->
  foldl Z.lor 0 (map ifmt_word (set_options ifmw (options t))) = Z.land ifmw (option_bits t).
Proof.
  intros Hok. apply Z.bits_inj'. intros i Hi. unfold option_bits. rewrite Z.land_spec, set_options_filter, !foldl_lor_bits, Z.bits_0 by done.
  cbn [orb]. induction (official (options t)) as [|d l IH]; [by rewrite andb_false_r|].
  cbn [List.filter map existsb]. rewrite andb_orb_distrib_r, <- (option_bit ifmw d) by (auto; apply Hok; left).
  rewrite <- IH by (intros x Hx; apply Hok; by right).
  destruct (negb (Z.land ifmw (ifmt_word d) =? 0)); cbn [map existsb andb]; done.
Qed.

(** C29. What is printed of a word is read back.  Let the type of the word be known, its tables be as
    net/if_media.h keeps them, and its subtype be one of them.  [print_media_word] appends to the
    buffer, as far as it fits, the name of the type, a name [s] of the subtype, the mode [m] if one is
    printed, the names of the options [os] and the instance; and [get_media_subtype], [get_media_mode]
    and [get_media_options] read from these exactly the subtype, the mode and the option bits of the
    word.  Only names that are no aliases are printed, and all options that are set; no mode is
    printed only when the table has none for the word, or the name is [autoselect]. *)
Theorem media_word_roundtrip text n ifmw desc t :
  top_type (IFM_TYPE ifmw) = Ok (Some (desc, t)) -> tables_ok t ->
  IFM_SUBTYPE ifmw ∈ map ifmt_word (official (subtypes t)) ->
  exists s m os,
    print_media_word (str_take n text) (S n) ifmw true
    = Ok (str_take n (text +:+ ifmt_string desc +:+ " " +:+ s
            +:+ match m with Some m => " mode " +:+ m | None => "" end
            +:+ match os with [] => "" | _ => " <" +:+ join_with "," os +:+ ">" end
            +:+ if IFM_INST ifmw =? 0 then "" else " instance " +:+ str_take 14 (sdec (IFM_INST ifmw)))) /\
    s ∈ map ifmt_string (official (subtypes t)) /\ get_media_subtype (IFM_TYPE ifmw) s = Ok (Some (IFM_SUBTYPE ifmw)) /\
    match m with
    | Some m => m ∈ map ifmt_string (official (modes t)) /\ get_media_mode (IFM_TYPE ifmw) m = Ok (Some (IFM_MODE ifmw))
    | None => forall d, d ∈ official (modes t) -> ifmt_word d = IFM_MODE ifmw ->
        exists d', d' ∈ official (modes t) /\ ifmt_word d' = IFM_MODE ifmw /\ same_word "autoselect" (ifmt_string d') = true
    end /\
    (forall o, o ∈ os <-> exists d, d ∈ official (options t) /\ ifmt_string d = o /\ Z.land ifmw (ifmt_word d) <> 0) /\
    get_media_options (IFM_TYPE ifmw) (join_with "," os) = Ok (Some (Z.land ifmw (option_bits t))).
Proof.
  intros E [Hsub Hmod Hopt Hbits] Hin. pose proof (find_desc_spec (subtypes t) (IFM_SUBTYPE ifmw)) as Hs.
  pose proof (find_desc_spec (modes t) (IFM_MODE ifmw)) as Hm.
  pose proof (print_media_word_text text n ifmw true _ E) as Hp. unfold media_text in Hp. fold (get_subtype_desc ifmw t) in Hs.
  fold (get_mode_desc ifmw t) in Hm. destruct (get_subtype_desc ifmw t) as [d|]; [|done]. destruct Hs as [Hd Ew].
  set (m := match get_mode_desc ifmw t with Some x => if same_word "autoselect" (ifmt_string x) then None else Some (ifmt_string x) | None => None end).
  exists (ifmt_string d), m, (map ifmt_string (set_options ifmw (options t))).
  split; [|split; [|split; [|split; [|split]]]].
  - rewrite Hp. unfold m, options_text. destruct (get_mode_desc ifmw t) as [x|]; [destruct (same_word "autoselect" (ifmt_string x))|];
      destruct (set_options ifmw (options t)), (IFM_INST ifmw =? 0); reflexivity.
  - by apply list_elem_of_fmap_2.
  - unfold get_media_subtype. rewrite E. cbn [mbind outcome_bind]. rewrite (lookup_tables_name _ d Hsub) by (by apply official_entries).
    rewrite Ew. destruct (Z.eqb_spec (IFM_SUBTYPE ifmw) (-1)) as [Eb|]; [|done].
    destruct (ua_word _ Hsub d); [by apply official_entries | congruence].
  - unfold m. destruct (get_mode_desc ifmw t) as [x|].
    + destruct Hm as [Hx Ex]. destruct (same_word "autoselect" (ifmt_string x)) eqn:Ea; [by intros _ _ _; exists x|].
      split; [by apply list_elem_of_fmap_2|]. unfold get_media_mode. rewrite E. cbn [mbind outcome_bind].
      by rewrite (lookup_tables_name _ x Hmod), Ex by (by apply official_entries).
    + intros x Hx Ex. destruct Hm. rewrite <- Ex. by apply list_elem_of_fmap_2.
  - intros o. rewrite set_options_filter. split.
    + intros (x & -> & Hx)%list_elem_of_fmap_1. apply list_elem_of_In, List.filter_In in Hx as [Hx Hb].
      exists x. split; [by apply list_elem_of_In|]. split; [done|]. by apply negb_true_iff, Z.eqb_neq in Hb.
    + intros (x & Hx & <- & Hb). apply list_elem_of_fmap_2. apply list_elem_of_In, List.filter_In. split; [by apply list_elem_of_In|].
      by apply negb_true_iff, Z.eqb_neq.
  - rewrite <- set_options_bits by done. apply (options_read_back _ desc); [done|]. apply List.Forall_forall. intros x Hx.
    rewrite set_options_filter in Hx. apply List.filter_In in Hx as [Hx _]. apply list_elem_of_In in Hx.
    destruct (Hbits x Hx) as ((i & Hi & Ei) & H1 & H2). split; [apply lookup_tables_name; [done | by apply official_entries]|].
    split; [rewrite Ei; pose proof (Z.pow_pos_nonneg 2 i); lia | done].
Qed.

(** An option that no table knows is not refused: it sets every bit of the result. *)
Theorem unknown_option_sets_all_bits type desc t val o :
  top_type type = Ok (Some (desc, t)) -> In o (strtok_comma val) -> lookup_tables (options t) o = -1 ->
  Forall (fun p => lookup_tables (options t) p <> 0) (strtok_comma val) ->
  get_media_options type val = Ok (Some (-1)).
Proof.
  intros E Hin Ho Hall. unfold get_media_options. rewrite E. cbn [mbind outcome_bind]. f_equal.
  generalize dependent (strtok_comma val). intros opts Hin Hall.
  assert (H1 : forall opts, Forall (fun p => lookup_tables (options t) p <> 0) opts -> options_loop (options t) opts (-1) = Some (-1)).
  { clear. induction opts as [|p opts IH]; intros Hall; [done|]. apply Forall_cons_1 in Hall as [Hp Hall]. cbn [options_loop].
    destruct (Z.eqb_spec (lookup_tables (options t) p) 0); [done|]. rewrite Z.lor_m1_l. auto. }
  generalize 0. induction opts as [|p opts IH]; intros rval; [done|]. apply Forall_cons_1 in Hall as [Hp Hall].
  cbn [options_loop]. destruct (Z.eqb_spec (lookup_tables (options t) p) 0); [done|]. destruct Hin as [-> |Hin]; [|by apply IH].
  rewrite Ho, Z.lor_m1_r. by apply H1.
Qed.

End options.

(** ** An interface *)

Definition named (w : Z) (s : string) : ifmedia_description := {| ifmt_word := w; ifmt_string := s |}.

(** Some of the entries of net/if_media.h. *)
#[export] Instance demo_tables : MediaTables := {|
  ifm_type_descriptions := [named 0x20 "Ethernet"; named 0x80 "IEEE 802.11 Wireless Ethernet"; named 0xa0 "ATM"];
  ifm_subtype_ethernet_descriptions := [named 6 "100baseTX"; named 16 "1000baseT"];
  ifm_subtype_ethernet_aliases := [named 6 "100TX"];
  ifm_subtype_ethernet_option_descriptions := [named 0x100 "master"];
  ifm_subtype_ieee80211_descriptions := [named 4 "OFDM/6Mbps"];
  ifm_subtype_ieee80211_aliases := [];
  ifm_subtype_ieee80211_option_descriptions := [named 0x100 "adhoc"];
  ifm_subtype_ieee80211_mode_descriptions := [named 0 "autoselect"; named 0x10000 "11a"];
  ifm_subtype_ieee80211_mode_aliases := [named 0x10000 "a"];
  ifm_subtype_atm_descriptions := [];
  ifm_subtype_atm_aliases := [];
  ifm_subtype_atm_option_descriptions := [];
  ifm_subtype_shared_descriptions := [named 0 "autoselect"; named 1 "manual"; named 2 "none"];
  ifm_subtype_shared_aliases := [named 0 "auto"];
  ifm_shared_option_descriptions := [named 0x100000 "full-duplex"; named 0x200000 "half-duplex"];
  ifm_shared_option_aliases := [named 0x100000 "fdx"];
  IFM_TYPE := fun w => Z.land w 0xe0;
  IFM_SUBTYPE := fun w => Z.land w 0x1f;
  IFM_MODE := fun w => Z.land w 0x70000;
  IFM_INST := fun w => Z.shiftr (Z.land w 0xf0000000) 28
|}.

(** 1000baseT, full-duplex, master. *)
Definition demo_word : Z := 0x20 + 16 + 0x100000 + 0x100.
Definition ether : ifmedia_type_to_subtype := default {| subtypes := []; options := []; modes := [] |} (ifmedia_types_to_subtypes !! 0%nat).

Lemma ether_ok : tables_ok ether.
Proof.
  assert (Hu : forall ts : list (descs * bool),
    forallb (fun d => negb (ifmt_word d =? -1) && forallb (fun d' => negb (same_word (ifmt_string d) (ifmt_string d')) || (ifmt_word d =? ifmt_word d'))
      (entries ts)) (entries ts) = true -> unambiguous ts).
  { intros ts Hb. rewrite forallb_forall in Hb. split.
    - intros d d' Hd Hd' Hs. apply list_elem_of_In in Hd, Hd'. specialize (Hb d Hd). cbv beta in Hb. apply andb_true_iff in Hb as [_ Hb].
      rewrite forallb_forall in Hb. specialize (Hb d' Hd'). cbv beta in Hb. rewrite Hs in Hb. by apply Z.eqb_eq.
    - intros d Hd. apply list_elem_of_In in Hd. specialize (Hb d Hd). cbv beta in Hb. apply andb_true_iff in Hb as [Hb _].
      by apply negb_true_iff, Z.eqb_neq in Hb. }
  split; [apply Hu; vm_compute; reflexivity..|].
  intros d Hd. change (official (options ether)) with [named 0x100000 "full-duplex"; named 0x200000 "half-duplex"; named 0x100 "master"] in Hd.
  rewrite !elem_of_cons, elem_of_nil in Hd. destruct Hd as [->|[->|[->|[]]]]; (split; [|split; done]); [exists 20 | exists 21 | exists 8]; done.
Qed.

Lemma media_word_roundtrip_witness :
  print_media_word "" 24 demo_word true = Ok "Ethernet 1000baseT <ful" /\
  exists os, (forall o, o ∈ os <-> exists d, d ∈ official (options ether) /\ ifmt_string d = o /\ Z.land demo_word (ifmt_word d) <> 0) /\
    get_media_options 0x20 (join_with "," os) = Ok (Some 0x100100).
Proof.
  split; [vm_compute; reflexivity|].
  destruct (media_word_roundtrip "" 100 demo_word (named 0x20 "Ethernet") ether) as (s & m & os & _ & _ & _ & _ & Ho & Hg).
  - reflexivity.
  - exact ether_ok.
  - apply (bool_decide_unpack _). vm_compute. exact I.
  - exists os. split; [exact Ho | exact Hg].
Defined.

Lemma unknown_option_sets_all_bits_witness : get_media_options 0x20 "full-duplex,fast" = Ok (Some (-1)).
Proof.
  apply (unknown_option_sets_all_bits 0x20 (named 0x20 "Ethernet") ether "full-duplex,fast" "fast");
    [reflexivity | vm_compute; tauto | reflexivity | repeat constructor; discriminate].
Defined.
