(* ===== verification/PhpIfaddrs.v ===== *)
(** The PHP module, FreeSense.c: the functions that tell scripts the addresses and parameters of an
    interface ([FreeSense_get_ifaddrs], [FreeSense_get_interface_addresses],
    [FreeSense_getall_interface_addresses]), and the merge sort of the list of addresses they rely on. *)
From Stdlib Require Import ZArith Lia Ascii String.
From stdpp Require Import base list sorting strings numbers.
From S2P Require Import Prelude CProg FdAddr FdTables.
Open Scope string_scope.
Open Scope list_scope.
Open Scope Z_scope.

(** ** Values of PHP *)

Inductive zval : Type :=
  | ZNull
  | ZBool (b : bool)
  | ZLong (n : Z)
  | ZDouble (n : Z)                     (* a double with the integer value [n] *)
  | ZStr (s : string)
  | ZArr (l : list (string * zval))     (* string keys *)
  | ZList (l : list zval).              (* keys 0, 1, ... *)

(** [add_assoc_long], [add_assoc_string], [add_assoc_zval]: the value of a key that is there is
    replaced. *)
Fixpoint add_assoc (a : list (string * zval)) (k : string) (v : zval) : list (string * zval) :=
  match a with
  | [] => [(k, v)]
  | (k', v') :: a => if String.eqb k' k then (k, v) :: a else (k', v') :: add_assoc a k v
  end.

(** ** The kernel's list *)

Record if_data : Type := {
  ifi_link_state : Z;
  ifi_type : Z;
  ifi_mtu : Z;
  ifi_ipackets : Z;
  ifi_ierrors : Z;
  ifi_opackets : Z;
  ifi_oerrors : Z;
  ifi_collisions : Z;
  ifi_ibytes : Z;
  ifi_obytes : Z;
  ifi_imcasts : Z;
  ifi_omcasts : Z;
  ifi_noproto : Z
}.

(** [struct ifaddrs]; [ifa_broadaddr] is another name of [ifa_dstaddr]. *)
Record ifaddrs : Type := {
  ifa_name : string;
  ifa_flags : Z;
  ifa_addr : option sockaddr;
  ifa_netmask : option sockaddr;
  ifa_dstaddr : option sockaddr;
  ifa_data : option if_data
}.

(** net/if.h, net/if_types.h, netinet6/in6_var.h *)
Definition AF_LINK : Z := 18.
Definition IFF_UP : Z := 0x1.
Definition IFF_BROADCAST : Z := 0x2.
Definition IFF_LOOPBACK : Z := 0x8.
Definition IFF_POINTOPOINT : Z := 0x10.
Definition IFF_PROMISC : Z := 0x100.
Definition IFF_ALLMULTI : Z := 0x200.
Definition IFF_OACTIVE : Z := 0x400.
Definition IFF_SIMPLEX : Z := 0x800.
Definition IFF_LINK0 : Z := 0x1000.
Definition IFF_LINK1 : Z := 0x2000.
Definition IFF_LINK2 : Z := 0x4000.
Definition IFF_MULTICAST : Z := 0x8000.
Definition IFF_PPROMISC : Z := 0x20000.
Definition LINK_STATE_UP : Z := 2.
Definition IFT_ETHER : Z := 0x6.
Definition IFT_FASTETHER : Z := 0x3e.
Definition IFT_FASTETHERFX : Z := 0x45.
Definition IFT_IEEE80211 : Z := 0x47.
Definition IFT_GIGABITETHERNET : Z := 0x75.
Definition IFT_TUNNEL : Z := 0x83.
Definition IFT_L2VLAN : Z := 0x87.
Definition IFT_BRIDGE : Z := 0xd1.
Definition IFT_GIF : Z := 0xf0.
Definition IFT_ENC : Z := 0xf4.
Definition IFT_PFLOG : Z := 0xf6.
Definition IFT_PFSYNC : Z := 0xf7.
Definition IFNAMSIZ : nat := 16.

(** What the ioctls and the C library answer: for an interface whether it has 802.11 statistics, its
    MTU, its capabilities (supported, enabled), its hardware address, the flags of an IPv6 address,
    the ends of a tunnel; the text of addresses. *)
Class IfKernel : Type := {
  SIOCG80211STATS : string -> bool;
  SIOCGIFMTU : string -> option Z;
  SIOCGIFCAP : string -> option (Z * Z);
  SIOCGHWADDR : string -> option (list Z);
  SIOCGIFAFLAG_IN6 : string -> sockaddr -> option Z;
  SIOCGIFPSRCADDR : Z -> string -> option sockaddr;
  SIOCGIFPDSTADDR : Z -> string -> option sockaddr;
  inet_ntop4 : list Z -> string;
  inet_ntop6 : list Z -> string;
  getnameinfo : sockaddr -> option string;
  ether_ntoa : list Z -> string
}.

(** ** The merge sort *)

(** [strcmp], which the language describes by its sign only. *)
Definition strcmp (a b : string) : Z :=
  match String.compare a b with Lt => -1 | Eq => 0 | Gt => 1 end.

Definition cmpifaddrs (a b : ifaddrs) : Z := strcmp (ifa_name a) (ifa_name b).

Section sort.
Context {A : Type} (compare : A -> A -> Z).

(** The loop that moves [temp] two and [right] one element at a time: the elements
    before [right], and [right]. *)
Fixpoint halve (temp ll rl : list A) : list A * list A :=
  match temp, rl with
  | _ :: _ :: temp, x :: rl => halve temp (ll ++ [x]) rl
  | _, _ => (ll, rl)
  end.

(** [while (list || right)] *)
Fixpoint merge_lists (l : list A) : list A -> list A :=
  fix merge (rl : list A) : list A :=
    match l, rl with
    | _, [] => l
    | [], _ => rl
    | x :: l', y :: rl' =>
        if compare x y <? 1 then x :: merge_lists l' rl else y :: merge rl'
    end.

(** [fuel] bounds the depth of the recursion. *)
Fixpoint sort_fuel (fuel : nat) (l : list A) : list A :=
  match fuel, l with
  | S fuel, [x; y] => if 0 <? compare x y then [y; x] else [x; y]
  | S fuel, _ :: _ :: _ :: _ =>
      let '(ll, rl) := halve l [] l in merge_lists (sort_fuel fuel ll) (sort_fuel fuel rl)
  | _, _ => l
  end.

Definition sortifaddrs (l : list A) : list A := sort_fuel (length l) l.
End sort.

(** ** Masks *)

(** [do { if (mask & byte[n]) i++; mask >>= 1; } while (mask);] from [mask], a power of two below 256. *)
Fixpoint byte_ones (fuel : nat) (mask byte i : Z) : Z :=
  match fuel with
  | O => i
  | S fuel =>
      let i := if c_true (Z.land mask byte) then i + 1 else i in
      let mask := Z.shiftr mask 1 in
      if mask =? 0 then i else byte_ones fuel mask byte i
  end.

(** The bits of an IPv4 mask, counted from its last byte to its first. *)
Definition mask_ones (bytes : list Z) : Z := foldr (fun b i => byte_ones 8 128 b i) 0 bytes.

(** [for (bit = 7; bit != 0; bit--, plen++) if (!(name[byte] & (1 << bit))) break;] *)
Fixpoint prefix_bits (bit : nat) (b plen : Z) : nat * Z :=
  match bit with
  | O => (O, plen)
  | S bit' => if c_true (Z.land b (Z.shiftl 1 (Z.of_nat bit))) then prefix_bits bit' b (plen + 1) else (bit, plen)
  end.

(** [for (; bit != 0; bit--) if (name[byte] & (1 << bit)) return(0);] *)
Fixpoint stray_bits (bit : nat) (b : Z) : bool :=
  match bit with
  | O => false
  | S bit' => c_true (Z.land b (Z.shiftl 1 (Z.of_nat bit))) || stray_bits bit' b
  end.

Fixpoint prefix_loop (name : list Z) (plen : Z) : Z :=
  match name with
  | [] => plen
  | b :: name =>
      if b =? 255 then prefix_loop name (plen + 8)
      else
        let '(bit, plen) := prefix_bits 7 b plen in
        if stray_bits bit b then 0
        else if List.existsb c_true name then 0 else plen
  end.

(** [prefix(val, size)] of the [size] bytes [name]. *)
Definition prefix (name : list Z) : Z := prefix_loop name 0.

(** ** Interface parameters *)

(** [add_assoc_long(val, key, 1)] for every flag of the table that is set. *)
Definition add_flags (tbl : list (Z * string)) (w : Z) (val : list (string * zval)) : list (string * zval) :=
  fold_left (fun val p => if c_true (Z.land w p.1) then add_assoc val p.2 (ZLong 1) else val) tbl val.

Definition if_flags : list (Z * string) :=
  [(IFF_LINK0, "link0"); (IFF_LINK1, "link1"); (IFF_LINK2, "link2"); (IFF_MULTICAST, "multicast");
   (IFF_LOOPBACK, "loopback"); (IFF_POINTOPOINT, "pointtopoint"); (IFF_PROMISC, "promisc");
   (IFF_PPROMISC, "permanentpromisc"); (IFF_OACTIVE, "oactive"); (IFF_ALLMULTI, "allmulti");
   (IFF_SIMPLEX, "simplex")].

(** IFCAP_POLLING and so on, of net/if.h *)
Definition if_caps : list (Z * string) :=
  [(0x40, "polling"); (0x1, "rxcsum"); (0x2, "txcsum"); (0x200000, "rxcsum6"); (0x400000, "txcsum6");
   (0x8, "vlanmtu"); (0x20, "jumbomtu"); (0x10, "vlanhwtag"); (0x80, "vlanhwcsum"); (0x100, "tso4");
   (0x200, "tso6"); (0x400, "lro"); (0x800, "wolucast"); (0x1000, "wolmcast"); (0x2000, "wolmagic");
   (0x4000, "toe4"); (0x8000, "toe6"); (0x10000, "vlanhwfilter")].

(** IN6_IFF_ANYCAST and so on, of netinet6/in6_var.h *)
Definition in6_flags : list (Z * string) :=
  [(0x1, "anycast"); (0x2, "tentative"); (0x4, "duplicated"); (0x8, "detached"); (0x10, "deprecated");
   (0x40, "autoconf"); (0x80, "temporary"); (0x100, "prefer_source")].

Section interfaces.
Context `{IfKernel}.

Definition iftype (name : string) (t : Z) : string :=
  if t =? IFT_IEEE80211 then "wireless"
  else if (t =? IFT_ETHER) || (t =? IFT_FASTETHER) || (t =? IFT_FASTETHERFX) || (t =? IFT_GIGABITETHERNET) then
    if SIOCG80211STATS name then "wireless" else "ether"
  else if t =? IFT_L2VLAN then "vlan"
  else if t =? IFT_BRIDGE then "bridge"
  else if (t =? IFT_TUNNEL) || (t =? IFT_GIF) || (t =? IFT_ENC) || (t =? IFT_PFLOG) || (t =? IFT_PFSYNC) then "virtual"
  else "other".

(** [struct sockaddr_dl]: [sdl_type], [sdl_nlen], [sdl_alen] and [LLADDR]. *)
Definition sdl_nlen (a : sockaddr) : Z := default 0 (a !! 5%nat).
Definition sdl_alen (a : sockaddr) : Z := default 0 (a !! 6%nat).
Definition LLADDR (a : sockaddr) : list Z := take 6 (drop (8 + Z.to_nat (sdl_nlen a)) a).

(** A null pointer that is read through. *)
Definition deref {A} (p : option A) : outcome A := match p with Some a => Ok a | None => Fail (Oob 0) end.

(** The capabilities that the interface has, and those that are enabled. *)
Definition put_caps (name : string) (val : list (string * zval)) : list (string * zval) :=
  let '(caps, encaps) :=
    match SIOCGIFCAP name with
    | Some (req, cur) => (add_flags if_caps req [("flags", ZLong req)], add_flags if_caps cur [("flags", ZLong cur)])
    | None => ([], [])
    end in
  let val := add_assoc val "caps" (ZArr caps) in
  add_assoc val "encaps" (ZArr encaps).

(** The link-level address, and that of the hardware. *)
Definition put_hwaddr (name : string) (tmpdl : sockaddr) (val : list (string * zval)) : list (string * zval) :=
  let val := if sdl_alen tmpdl =? 6 then add_assoc val "macaddr" (ZStr (ether_ntoa (LLADDR tmpdl))) else val in
  match SIOCGHWADDR name with Some hw => add_assoc val "hwaddr" (ZStr (ether_ntoa hw)) | None => val end.

(** [fill_interface_params]: the address of [mb] is read as a link-level one. *)
Definition fill_interface_params (val : list (string * zval)) (mb : ifaddrs) : outcome (list (string * zval)) :=
  let name := str_take IFNAMSIZ (ifa_name mb) in
  let val := add_assoc val "status" (ZStr (if c_true (Z.land (ifa_flags mb) IFF_UP) then "up" else "down")) in
  let val := add_flags if_flags (ifa_flags mb) val in
  let val :=
    match ifa_data mb with
    | None => val
    | Some md =>
        let val := if ifi_link_state md =? LINK_STATE_UP then add_assoc val "linkstateup" (ZLong 1) else val in
        add_assoc val "iftype" (ZStr (iftype name (ifi_type md)))
    end in
  let val := match SIOCGIFMTU name with Some mtu => add_assoc val "mtu" (ZLong mtu) | None => val end in
  tmpdl ← deref (ifa_addr mb);
  Ok (put_hwaddr name tmpdl (put_caps name val)).

(** [fill_interface_tunnel]; the socket and the requests are those of the family. *)
Definition fill_interface_tunnel (val : list (string * zval)) (ifname : string) (af : Z) : list (string * zval) :=
  let zval_key := if af =? AF_INET then Some "tunnel" else if af =? AF_INET6 then Some "tunnel6" else None in
  let name := str_take (IFNAMSIZ - 1) ifname in
  let numeric sa := if sa_family sa =? af then getnameinfo sa else None in
  default val
    (k ← zval_key;
     src ← SIOCGIFPSRCADDR af name ≫= numeric;
     dst ← SIOCGIFPDSTADDR af name ≫= numeric;
     Some (add_assoc val k (ZArr [("srcaddr", ZStr src); ("dstaddr", ZStr dst)]))).

(** ** Addresses *)

(** IN6_IS_ADDR_LINKLOCAL: fe80::/10 *)
Definition linklocal (a : sockaddr) : bool :=
  match sin6_addr a with
  | b0 :: b1 :: _ => (b0 =? 0xfe) && (Z.land b1 0xc0 =? 0x80)
  | _ => false
  end.

(** The part of an IPv4 address that [FreeSense_get_ifaddrs] and [FreeSense_get_interface_addresses]
    share; [key] is the key of the address itself. *)
Definition put_addr4 (key : string) (val : list (string * zval)) (mb : ifaddrs) (a : sockaddr)
    : outcome (list (string * zval)) :=
  let val := add_assoc val key (ZStr (inet_ntop4 (sin_addr a))) in
  m ← deref (ifa_netmask mb);
  let val := add_assoc val "subnetbits" (ZLong (mask_ones (sin_addr m))) in
  let val := add_assoc val "subnet" (ZStr (inet_ntop4 (sin_addr m))) in
  val ←
    (if c_true (Z.land (ifa_flags mb) IFF_BROADCAST) then
       b ← deref (ifa_dstaddr mb); Ok (add_assoc val "broadcast" (ZStr (inet_ntop4 (sin_addr b))))
     else Ok val);
  Ok (if c_true (Z.land (ifa_flags mb) IFF_POINTOPOINT) then
        match ifa_dstaddr mb with
        | Some d => if sa_family d =? AF_INET then add_assoc val "dstaddr" (ZStr (inet_ntop4 (sin_addr d))) else val
        | None => val
        end
      else val).

(** The same for an IPv6 address; [flags] are the flags of the address that are reported. *)
Definition put_addr6 (kaddr kbits kdst : string) (flags : list (Z * string)) (val : list (string * zval))
    (mb : ifaddrs) (a : sockaddr) : outcome (list (string * zval)) :=
  let val := add_assoc val kaddr (ZStr (inet_ntop6 (sin6_addr a))) in
  let val :=
    match SIOCGIFAFLAG_IN6 (str_take IFNAMSIZ (ifa_name mb)) a with
    | Some llflag => add_flags flags llflag val
    | None => val
    end in
  m ← deref (ifa_netmask mb);
  let val := add_assoc val kbits (ZLong (prefix (sin6_addr m))) in
  Ok (if c_true (Z.land (ifa_flags mb) IFF_POINTOPOINT) then
        match ifa_dstaddr mb with
        | Some d => if sa_family d =? AF_INET6 then add_assoc val kdst (ZStr (inet_ntop6 (sin6_addr d))) else val
        | None => val
        end
      else val).

Definition entry4 (mb : ifaddrs) (a : sockaddr) : outcome zval :=
  val ← put_addr4 "addr" [] mb a; Ok (ZArr val).
Definition entry6 (mb : ifaddrs) (a : sockaddr) : outcome zval :=
  let val := if linklocal a then add_assoc [] "linklocal" (ZLong 1) else [] in
  val ← put_addr6 "addr" "subnetbits" "dstaddr" in6_flags val mb a; Ok (ZArr val).

(** "loop until iface name changes or we exhaust the list" *)
Fixpoint addr_loop (ifname : string) (l : list ifaddrs) (addrs4 addrs6 : list zval) : outcome (list zval * list zval) :=
  match l with
  | [] => Ok (addrs4, addrs6)
  | mb :: l =>
      if negb (strcmp ifname (ifa_name mb) =? 0) then Ok (addrs4, addrs6)
      else
        a ← deref (ifa_addr mb);
        if sa_family a =? AF_INET then e ← entry4 mb a; addr_loop ifname l (addrs4 ++ [e]) addrs6
        else if sa_family a =? AF_INET6 then e ← entry6 mb a; addr_loop ifname l addrs4 (addrs6 ++ [e])
        else addr_loop ifname l addrs4 addrs6
  end.

(** The loop that looks for the first entry of the interface. *)
Fixpoint find_iface (ifname : string) (l : list ifaddrs) : list ifaddrs :=
  match l with
  | [] => []
  | mb :: l' => if String.eqb ifname (ifa_name mb) then l else find_iface ifname l'
  end.

(** [FreeSense_get_ifaddrs]; [ifdata] is the list of [getifaddrs], [None] for an error. *)
Definition get_ifaddrs (ifdata : option (list ifaddrs)) (ifname : string) : outcome zval :=
  match ifdata with
  | None => Ok ZNull
  | Some ifdata =>
      match find_iface ifname (sortifaddrs cmpifaddrs ifdata) with
      | [] => Ok ZNull
      | mb :: l =>
          val ← fill_interface_params [] mb;
          let val := fill_interface_tunnel val ifname AF_INET in
          let val := fill_interface_tunnel val ifname AF_INET6 in
          '(addrs4, addrs6) ← addr_loop ifname (mb :: l) [] [];
          Ok (ZArr (add_assoc (add_assoc val "addrs" (ZList addrs4)) "addrs6" (ZList addrs6)))
      end
  end.

(** The loop of [FreeSense_get_interface_addresses]: it ends at an entry without an address. *)
Fixpoint interface_loop (ifname : string) (l : list ifaddrs) (cnt cnt6 : Z) (val : list (string * zval))
    : outcome (list (string * zval)) :=
  match l with
  | [] => Ok val
  | mb :: l =>
      match ifa_addr mb with
      | None => Ok val
      | Some a =>
          if negb (String.eqb ifname (ifa_name mb)) then interface_loop ifname l cnt cnt6 val
          else if sa_family a =? AF_INET then
            if 0 <? cnt then interface_loop ifname l cnt cnt6 val
            else val ← put_addr4 "ipaddr" val mb a; interface_loop ifname l (cnt + 1) cnt6 val
          else if sa_family a =? AF_INET6 then
            if (0 <? cnt6) || linklocal a then interface_loop ifname l cnt cnt6 val
            else val ← put_addr6 "ipaddr6" "subnetbits6" "dstaddr6" [(0x2, "tentative")] val mb a;
                 interface_loop ifname l cnt (cnt6 + 1) val
          else if sa_family a =? AF_LINK then
            val ← fill_interface_params val mb; interface_loop ifname l cnt cnt6 val
          else interface_loop ifname l cnt cnt6 val
      end
  end.

Definition get_interface_addresses (ifdata : option (list ifaddrs)) (ifname : string) : outcome zval :=
  match ifdata with
  | None => Ok ZNull
  | Some ifdata => val ← interface_loop ifname ifdata 0 0 []; Ok (ZArr val)
  end.

(** [FreeSense_getall_interface_addresses]: every address with the length of its prefix. *)
Fixpoint getall_loop (ifname : string) (l : list ifaddrs) : outcome (list zval) :=
  match l with
  | [] => Ok []
  | mb :: l =>
      match ifa_addr mb with
      | None => Ok []
      | Some a =>
          if negb (String.eqb ifname (ifa_name mb)) then getall_loop ifname l
          else if sa_family a =? AF_INET then
            m ← deref (ifa_netmask mb);
            rest ← getall_loop ifname l;
            Ok (ZStr (inet_ntop4 (sin_addr a) +:+ "/" +:+ sdec (mask_ones (sin_addr m))) :: rest)
          else if sa_family a =? AF_INET6 then
            m ← deref (ifa_netmask mb);
            rest ← getall_loop ifname l;
            Ok (ZStr (default (inet_ntop6 (sin6_addr a)) (getnameinfo a) +:+ "/" +:+ sdec (prefix (sin6_addr m))) :: rest)
          else getall_loop ifname l
      end
  end.

Definition getall_interface_addresses (ifdata : option (list ifaddrs)) (ifname : string) : outcome zval :=
  match ifdata with
  | None => Ok ZNull
  | Some ifdata => l ← getall_loop ifname ifdata; Ok (ZList l)
  end.
End interfaces.

(** ** Arrays *)

Lemma add_assoc_fresh l key v : key ∉ l.*1 -> add_assoc l key v = l ++ [(key, v)].
Proof.
  induction l as [|[k0 v0] l IH]; [done|]. cbn [add_assoc fmap list_fmap fst]. intros Hk.
  apply not_elem_of_cons in Hk as [Hne Hk]. destruct (String.eqb_spec k0 key); [by subst|]. by rewrite IH.
Qed.

Lemma add_assoc_keys l key v k : k ∈ (add_assoc l key v).*1 <-> k = key \/ k ∈ l.*1.
Proof.
  induction l as [|[k0 v0] l IH]; cbn [add_assoc fmap list_fmap fst].
  - rewrite list_elem_of_singleton. split; [by left|]. intros [?|H]; [done|by apply not_elem_of_nil in H].
  - destruct (String.eqb_spec k0 key) as [-> |Hne]; cbn [fmap list_fmap fst]; rewrite !elem_of_cons; [tauto|].
    rewrite IH. tauto.
Qed.

(** ** The sort is a stable sort *)

Section sorting.
Context {A : Type} (compare : A -> A -> Z).

Abbreviation le x y := (compare x y < 1).
Abbreviation sorted l := (StronglySorted (fun x y => compare x y < 1) l).

Hypothesis le_total : forall x y, ~ le x y -> le y x.
Hypothesis le_trans : forall x y z, le x y -> le y z -> le x z.

Lemma halve_spec n : forall temp ll rl : list A, (length temp <= n)%nat -> (length temp <= 2 * length rl)%nat ->
  exists k, halve temp ll rl = (ll ++ take k rl, drop k rl) /\ (2 * k <= length temp < 2 * k + 2)%nat.
Proof.
  induction n as [|n IH]; intros temp ll rl Hn Hr.
  { destruct temp; [|cbn in Hn; lia]. exists O. rewrite take_0, drop_0, app_nil_r. split; [done|cbn; lia]. }
  destruct temp as [|t1 [|t2 temp]]; [exists O; rewrite take_0, drop_0, app_nil_r; (split; [done|cbn; lia])..|].
  destruct rl as [|x rl]; [cbn in Hr; lia|]. cbn [halve length] in *.
  destruct (IH temp (ll ++ [x]) rl) as (k & -> & Hk); [lia|lia|].
  exists (S k). cbn [take drop]. rewrite <- app_assoc. split; [done|lia].
Qed.

Lemma merge_lists_cons x l y r :
  merge_lists compare (x :: l) (y :: r)
  = if compare x y <? 1 then x :: merge_lists compare l (y :: r) else y :: merge_lists compare (x :: l) r.
Proof. done. Qed.
Lemma merge_lists_nil_l r : merge_lists compare [] r = r.
Proof. by destruct r. Qed.
Lemma merge_lists_nil_r l : merge_lists compare l [] = l.
Proof. by destruct l. Qed.

(** Induction on the two arguments of a merge. *)
Lemma merge_ind (P : list A -> list A -> Prop) :
  (forall r, P [] r) -> (forall l, P l []) ->
  (forall x l y r, P l (y :: r) -> P (x :: l) r -> P (x :: l) (y :: r)) ->
  forall l r, P l r.
Proof. intros H1 H2 H3. induction l as [|x l IHl]; [done|]. induction r as [|y r IHr]; auto. Qed.

Lemma merge_lists_perm l r : merge_lists compare l r ≡ₚ l ++ r.
Proof.
  revert l r. refine (merge_ind _ _ _ _).
  - intros r. by rewrite merge_lists_nil_l.
  - intros l. by rewrite merge_lists_nil_r, app_nil_r.
  - intros x l y r IH1 IH2. rewrite merge_lists_cons. destruct (compare x y <? 1); [by rewrite IH1|].
    rewrite IH2. by rewrite <- Permutation_middle.
Qed.

Lemma merge_lists_sorted l r :
  sorted l -> sorted r -> sorted (merge_lists compare l r).
Proof.
  revert l r. refine (merge_ind _ _ _ _).
  - intros r _ Hr. by rewrite merge_lists_nil_l.
  - intros l Hl _. by rewrite merge_lists_nil_r.
  - intros x l y r IH1 IH2 Hl Hr. rewrite merge_lists_cons.
    pose proof (StronglySorted_inv Hl) as [Hl1 Hl2]. pose proof (StronglySorted_inv Hr) as [Hr1 Hr2].
    destruct (Z.ltb_spec (compare x y) 1) as [E|E]; constructor; auto;
      rewrite merge_lists_perm; apply Forall_app; split; auto; constructor; auto.
    + eapply Forall_impl; [|exact Hr2]. intros z Hz. by apply (le_trans x y z).
    + apply le_total. lia.
    + eapply Forall_impl; [|exact Hl2]. intros z Hz. apply (le_trans y x z); [apply le_total; lia|done].
Qed.

(** A property of elements that compare equal. *)
Context (P : A -> Prop) `{forall x, Decision (P x)}.
Hypothesis P_equal : forall x y, P x -> P y -> le x y.

Lemma merge_lists_stable l r : sorted l ->
  filter P (merge_lists compare l r) = filter P l ++ filter P r.
Proof.
  revert l r. refine (merge_ind _ _ _ _).
  - intros r _. by rewrite merge_lists_nil_l.
  - intros l _. by rewrite merge_lists_nil_r, app_nil_r.
  - intros x l y r IH1 IH2 Hl. pose proof (StronglySorted_inv Hl) as [Hl1 Hl2]. rewrite merge_lists_cons.
    destruct (Z.ltb_spec (compare x y) 1) as [E|E].
    + rewrite !(filter_cons P x), IH1 by done. by destruct (decide (P x)).
    + rewrite (filter_cons P y), IH2, (filter_cons P y r) by done. destruct (decide (P y)) as [Hy|]; [|done].
      assert (Hno : filter P (x :: l) = []).
      { apply elem_of_nil_inv. intros z (Hz & Hin)%list_elem_of_filter.
        enough (le x y) by lia. apply (le_trans x z y); [|by apply P_equal].
        apply elem_of_cons in Hin as [-> |Hin]; [by apply P_equal|].
        rewrite List.Forall_forall in Hl2. by apply Hl2, list_elem_of_In. }
      by rewrite Hno.
Qed.

Lemma sort_fuel_spec fuel : forall l, (length l <= fuel)%nat ->
  sort_fuel compare fuel l ≡ₚ l /\ sorted (sort_fuel compare fuel l)
  /\ filter P (sort_fuel compare fuel l) = filter P l.
Proof.
  induction fuel as [|fuel IH]; intros l Hl.
  { destruct l; [|cbn in Hl; lia]. split; [done|]. split; [constructor|done]. }
  destruct l as [|x [|y [|z l]]]; cbn [sort_fuel].
  - split; [done|]. split; [constructor|done].
  - split; [done|]. split; [repeat constructor|done].
  - destruct (Z.ltb_spec 0 (compare x y)) as [E|E].
    + split; [apply perm_swap|]. split; [repeat constructor; apply le_total; lia|].
      rewrite !filter_cons. destruct (decide (P x)), (decide (P y)); try done.
      assert (le x y) by (by apply P_equal). lia.
    + split; [done|]. split; [repeat constructor; lia|done].
  - set (l0 := x :: y :: z :: l) in *.
    destruct (halve_spec (length l0) l0 [] l0) as (k & -> & Hk); [done|lia|]. cbn [app].
    assert (H3 : (3 <= length l0)%nat) by (cbn; lia).
    destruct (IH (take k l0)) as (P1 & S1 & F1); [rewrite length_take; lia|].
    destruct (IH (drop k l0)) as (P2 & S2 & F2); [rewrite length_drop; lia|].
    split; [rewrite merge_lists_perm, P1, P2, take_drop; done|].
    split; [by apply merge_lists_sorted|].
    rewrite merge_lists_stable, F1, F2, <- list.filter_app, take_drop by done. done.
Qed.
End sorting.

Lemma compare_trans a : forall b c, String.compare a b <> Gt -> String.compare b c <> Gt -> String.compare a c <> Gt.
Proof.
  induction a as [|x a IH]; intros [|y b] [|z c]; cbn; try done.
  unfold Ascii.compare.
  destruct (N.compare_spec (N_of_ascii x) (N_of_ascii y)) as [E1|E1|E1]; [|intros _|done];
    (destruct (N.compare_spec (N_of_ascii y) (N_of_ascii z)) as [E2|E2|E2]; [|intros _|done]).
  - rewrite E1, E2, N.compare_refl. apply IH.
  - intros _. rewrite E1, (proj2 (N.compare_lt_iff _ _) E2). done.
  - rewrite <- E2, (proj2 (N.compare_lt_iff _ _) E1). done.
  - rewrite (proj2 (N.compare_lt_iff _ _)) by lia. done.
Qed.

Lemma strcmp_le a b : strcmp a b < 1 <-> String.compare a b <> Gt.
Proof. unfold strcmp. destruct (String.compare a b); split; try done; lia. Qed.
Lemma strcmp_total a b : ~ strcmp a b < 1 -> strcmp b a < 1.
Proof.
  rewrite !strcmp_le, String.compare_antisym. destruct (String.compare b a); cbn; intros Hn; try done.
  intros _. by apply Hn.
Qed.
Lemma strcmp_trans a b c : strcmp a b < 1 -> strcmp b c < 1 -> strcmp a c < 1.
Proof. rewrite !strcmp_le. apply compare_trans. Qed.
Lemma strcmp_refl a : strcmp a a = 0.
Proof.
  unfold strcmp. enough (String.compare a a = Eq) as -> by done.
  induction a as [|c a IH]; cbn; [done|]. unfold Ascii.compare. by rewrite N.compare_refl.
Qed.
Lemma strcmp_eq a b : strcmp a b = 0 <-> a = b.
Proof.
  split; [|intros ->; apply strcmp_refl]. unfold strcmp.
  destruct (String.compare a b) eqn:E; try done. intros _. by apply String.compare_eq_iff.
Qed.
Lemma strcmp_antisym a b : strcmp a b < 1 -> strcmp b a < 1 -> a = b.
Proof.
  rewrite !strcmp_le, (String.compare_antisym b a). intros H1 H2. apply String.compare_eq_iff.
  by destruct (String.compare a b).
Qed.

Lemma sort_facts (l : list ifaddrs) n :
  sortifaddrs cmpifaddrs l ≡ₚ l
  /\ StronglySorted (fun x y => cmpifaddrs x y < 1) (sortifaddrs cmpifaddrs l)
  /\ filter (fun e => ifa_name e = n) (sortifaddrs cmpifaddrs l) = filter (fun e => ifa_name e = n) l.
Proof.
  apply sort_fuel_spec; [| | |done]; unfold cmpifaddrs.
  - intros x y. apply strcmp_total.
  - intros x y z. apply strcmp_trans.
  - intros x y -> ->. by rewrite strcmp_refl.
Qed.

(** C36. [sortifaddrs] is a stable sort: for every list of addresses it returns, the result has exactly the
    entries of the list, ordered by the names of their interfaces, and the entries of one interface
    in the order in which the kernel gave them. *)
Theorem sortifaddrs_stable (l : list ifaddrs) :
  let r := sortifaddrs cmpifaddrs l in
  r ≡ₚ l /\ StronglySorted (fun a b => strcmp (ifa_name a) (ifa_name b) < 1) r
  /\ forall n, filter (fun e => ifa_name e = n) r = filter (fun e => ifa_name e = n) l.
Proof.
  split; [apply (sort_facts l "")|]. split; [apply (sort_facts l "")|]. intro n. apply sort_facts.
Qed.

(** ** The entries of an interface *)

(** In a sorted list the entries of an interface follow each other. *)
Lemma run_first n l : StronglySorted (fun x y => cmpifaddrs x y < 1) l ->
  Forall (fun e => strcmp n (ifa_name e) < 1) l ->
  exists rest, l = filter (fun e => ifa_name e = n) l ++ rest /\ forall e l', rest = e :: l' -> ifa_name e <> n.
Proof.
  induction l as [|x l IH]; intros Hs Hn; [by exists []|].
  pose proof (StronglySorted_inv Hs) as [Hl Hx]. apply Forall_cons_1 in Hn as [Hnx Hn].
  destruct (IH Hl Hn) as (rest & E & Hr). rewrite filter_cons. destruct (decide (ifa_name x = n)) as [Ex|Ex].
  - exists rest. split; [cbn; by f_equal|done].
  - exists (x :: l). split; [|by intros e l' [= <- <-]].
    enough (filter (fun e => ifa_name e = n) l = []) as -> by done.
    apply elem_of_nil_inv. intros z (Hz & Hin)%list_elem_of_filter. apply Ex, strcmp_antisym; [|done].
    rewrite List.Forall_forall in Hx. rewrite <- Hz. by apply Hx, list_elem_of_In.
Qed.

Lemma find_iface_run n l : StronglySorted (fun x y => cmpifaddrs x y < 1) l ->
  exists rest, find_iface n l = filter (fun e => ifa_name e = n) l ++ rest
    /\ (filter (fun e => ifa_name e = n) l = [] -> rest = [])
    /\ forall e l', rest = e :: l' -> ifa_name e <> n.
Proof.
  induction l as [|x l IH]; intros Hs; cbn [find_iface]; [by exists []|].
  pose proof (StronglySorted_inv Hs) as [Hl Hx]. destruct (String.eqb_spec n (ifa_name x)) as [-> |Hne].
  - destruct (run_first (ifa_name x) (x :: l) Hs) as (rest & E & Hr).
    { constructor; [by rewrite strcmp_refl|exact Hx]. }
    exists rest. split; [exact E|]. split; [|done]. by rewrite filter_cons_True.
  - rewrite filter_cons_False by congruence. apply (IH Hl).
Qed.

Section complete.
Context `{IfKernel}.

Definition of_family (af : Z) (e : ifaddrs) : Prop := match ifa_addr e with Some a => sa_family a = af | None => False end.
#[export] Instance of_family_dec af e : Decision (of_family af e).
Proof. unfold of_family. destruct (ifa_addr e); apply _. Defined.

(** An entry as the kernel makes it: it has an address, an internet address has a mask, and an interface
    that broadcasts has a broadcast address. *)
Record complete (e : ifaddrs) : Prop := {
  has_addr : ifa_addr e <> None;
  has_mask : of_family AF_INET e \/ of_family AF_INET6 e -> ifa_netmask e <> None;
  has_broadcast : of_family AF_INET e -> c_true (Z.land (ifa_flags e) IFF_BROADCAST) = true -> ifa_dstaddr e <> None
}.

(** What is reported for an entry. *)
Definition reported (f : ifaddrs -> sockaddr -> outcome zval) (e : ifaddrs) (v : zval) : Prop :=
  exists a, ifa_addr e = Some a /\ f e a = Ok v.

Lemma entry4_ok e a : complete e -> ifa_addr e = Some a -> sa_family a = AF_INET -> exists v, entry4 e a = Ok v.
Proof.
  intros [H1 H2 H3] Ea Ef. assert (Hf : of_family AF_INET e) by (unfold of_family; by rewrite Ea).
  unfold entry4, put_addr4, deref. destruct (ifa_netmask e); [|by destruct H2; [left|]]. cbn [mbind outcome_bind].
  destruct (c_true (Z.land (ifa_flags e) IFF_BROADCAST)).
  - destruct (ifa_dstaddr e); [|by destruct H3]. cbn [mbind outcome_bind]. eauto.
  - cbn [mbind outcome_bind]. eauto.
Qed.

Lemma entry6_ok e a : complete e -> ifa_addr e = Some a -> sa_family a = AF_INET6 -> exists v, entry6 e a = Ok v.
Proof.
  intros [H1 H2 H3] Ea Ef. assert (Hf : of_family AF_INET6 e) by (unfold of_family; by rewrite Ea).
  unfold entry6, put_addr6, deref. destruct (ifa_netmask e); [|by destruct H2; [right|]]. cbn [mbind outcome_bind]. eauto.
Qed.

Lemma addr_loop_ok n es rest : Forall (fun e => ifa_name e = n /\ complete e) es ->
  (forall e l', rest = e :: l' -> ifa_name e <> n) -> forall b4 b6,
  exists v4 v6, addr_loop n (es ++ rest) b4 b6 = Ok (b4 ++ v4, b6 ++ v6)
    /\ Forall2 (reported entry4) (filter (of_family AF_INET) es) v4
    /\ Forall2 (reported entry6) (filter (of_family AF_INET6) es) v6.
Proof.
  intros Hes Hr. induction Hes as [|e es [En Hc] Hes IH]; intros b4 b6.
  - exists [], []. rewrite !app_nil_r. split; [|split; constructor].
    destruct rest as [|e rest]; [done|]. cbn [app addr_loop].
    destruct (Z.eqb_spec (strcmp n (ifa_name e)) 0) as [E%strcmp_eq|]; [|done]. by destruct (Hr e rest eq_refl).
  - cbn [app addr_loop]. rewrite <- En, strcmp_refl. cbn [Z.eqb negb]. rewrite !filter_cons.
    pose proof (has_addr e Hc) as Ha. destruct (ifa_addr e) as [a|] eqn:Ea; [|done]. cbn [deref mbind outcome_bind].
    assert (Hf : forall af, of_family af e <-> sa_family a = af) by (intro; unfold of_family; by rewrite Ea).
    destruct (Z.eqb_spec (sa_family a) AF_INET) as [E4|E4].
    + destruct (entry4_ok e a Hc Ea E4) as [v Ev]. rewrite Ev. cbn [mbind outcome_bind].
      destruct (IH (b4 ++ [v]) b6) as (v4 & v6 & E & F4 & F6). rewrite En, E. exists (v :: v4), v6.
      rewrite <- app_assoc. split; [done|]. rewrite decide_True, decide_False by (rewrite Hf; congruence || by rewrite E4).
      split; [|done]. constructor; [|done]. by exists a.
    + destruct (Z.eqb_spec (sa_family a) AF_INET6) as [E6|E6].
      * destruct (entry6_ok e a Hc Ea E6) as [v Ev]. rewrite Ev. cbn [mbind outcome_bind].
        destruct (IH b4 (b6 ++ [v])) as (v4 & v6 & E & F4 & F6). rewrite En, E. exists v4, (v :: v6).
        rewrite <- app_assoc. split; [done|]. rewrite decide_False, decide_True by (by rewrite Hf).
        split; [done|]. constructor; [|done]. by exists a.
      * rewrite En. destruct (IH b4 b6) as (v4 & v6 & E & F4 & F6). exists v4, v6.
        rewrite !decide_False by (by rewrite Hf). done.
Qed.

Lemma fill_interface_params_ok val e : complete e -> exists val', fill_interface_params val e = Ok val'.
Proof.
  intros [H1 _ _]. unfold fill_interface_params. destruct (ifa_addr e); [|done].
  cbn [deref mbind outcome_bind]. eauto.
Qed.

(** C31. [FreeSense_get_ifaddrs] reports an interface completely: whatever the order of the kernel's list,
    the parameters come from the first entry of the interface (the link-level one, as the kernel
    lists it first), "addrs" has one element for each of its IPv4 entries and "addrs6" one for each
    of its IPv6 entries, in the kernel's order, and no entry of another interface is reported; an
    interface without entries gives null. *)
Theorem get_ifaddrs_complete ifdata n :
  Forall (fun e => ifa_name e = n -> complete e) ifdata ->
  match filter (fun e => ifa_name e = n) ifdata with
  | [] => get_ifaddrs (Some ifdata) n = Ok ZNull
  | mb :: es =>
      exists val v4 v6, fill_interface_params [] mb = Ok val
        /\ Forall2 (reported entry4) (filter (of_family AF_INET) (mb :: es)) v4
        /\ Forall2 (reported entry6) (filter (of_family AF_INET6) (mb :: es)) v6
        /\ get_ifaddrs (Some ifdata) n
           = Ok (ZArr (add_assoc (add_assoc (fill_interface_tunnel (fill_interface_tunnel val n AF_INET) n AF_INET6)
                                    "addrs" (ZList v4)) "addrs6" (ZList v6)))
  end.
Proof.
  intros Hall. destruct (sort_facts ifdata n) as (_ & Hs & Hf).
  destruct (find_iface_run n _ Hs) as (rest & E & Hnil & Hr). rewrite Hf in E, Hnil.
  assert (Hes : Forall (fun e => ifa_name e = n /\ complete e) (filter (fun e => ifa_name e = n) ifdata)).
  { apply List.Forall_forall. intros e (He & Hin)%list_elem_of_In%list_elem_of_filter. split; [done|].
    rewrite List.Forall_forall in Hall. apply Hall; [by apply list_elem_of_In|done]. }
  unfold get_ifaddrs. rewrite E. destruct (filter (fun e => ifa_name e = n) ifdata) as [|mb es].
  - by rewrite Hnil.
  - cbn [app]. destruct (fill_interface_params_ok [] mb) as [val Ev].
    { by apply Forall_cons_1 in Hes as [[_ ?] _]. }
    destruct (addr_loop_ok n (mb :: es) rest Hes Hr [] []) as (v4 & v6 & El & F4 & F6).
    exists val, v4, v6. split; [done|]. split; [done|]. split; [done|].
    rewrite Ev. cbn [mbind outcome_bind app] in El |- *. rewrite El. done.
Qed.
End complete.

(** ** A machine *)

Definition dotted (a : list Z) : string := join_with "." (map udec a).

#[export] Instance demo_if : IfKernel := {|
  SIOCG80211STATS _ := false;
  SIOCGIFMTU _ := Some 1500;
  SIOCGIFCAP _ := Some (0x3, 0x1);
  SIOCGHWADDR _ := None;
  SIOCGIFAFLAG_IN6 _ _ := None;
  SIOCGIFPSRCADDR _ _ := None;
  SIOCGIFPDSTADDR _ _ := None;
  inet_ntop4 := dotted;
  inet_ntop6 a := join_with ":" (map uhex a);
  getnameinfo _ := None;
  ether_ntoa a := join_with ":" (map uhex a)
|}.

Definition link_addr : sockaddr := [54; AF_LINK; 1; 0; 6; 3; 6; 0; 101; 109; 48; 0; 1; 2; 3; 4; 5].
Definition inet (a b c d : Z) : sockaddr := [16; AF_INET; 0; 0; a; b; c; d; 0; 0; 0; 0; 0; 0; 0; 0].
Definition demo_data : if_data :=
  {| ifi_link_state := 2; ifi_type := IFT_ETHER; ifi_mtu := 1500; ifi_ipackets := 10; ifi_ierrors := 0;
     ifi_opackets := 7; ifi_oerrors := 0; ifi_collisions := 0; ifi_ibytes := 1200; ifi_obytes := 800;
     ifi_imcasts := 3; ifi_omcasts := 1; ifi_noproto := 0 |}.
Definition entry_named (n : string) (a : sockaddr) : ifaddrs :=
  {| ifa_name := n; ifa_flags := IFF_UP; ifa_addr := Some a; ifa_netmask := Some (inet 255 255 255 0);
     ifa_dstaddr := None; ifa_data := Some demo_data |}.

(** The entries of em0 are not together. *)
Definition demo_ifdata : list ifaddrs :=
  [entry_named "em1" link_addr; entry_named "em0" link_addr; entry_named "em1" (inet 10 0 0 1);
   entry_named "em0" (inet 192 168 1 1); entry_named "lo0" (inet 127 0 0 1); entry_named "em0" (inet 192 168 1 2)].

Lemma get_ifaddrs_complete_witness :
  (exists v4, Forall2 (reported entry4) [entry_named "em0" (inet 192 168 1 1); entry_named "em0" (inet 192 168 1 2)] v4)
  /\ match get_ifaddrs (Some demo_ifdata) "em0" with
     | Ok (ZArr l) => List.find (fun p => String.eqb p.1 "addrs") l
     | _ => None
     end
     = Some ("addrs", ZList (map (fun a => ZArr [("addr", ZStr a); ("subnetbits", ZLong 24); ("subnet", ZStr "255.255.255.0")])
                               ["192.168.1.1"; "192.168.1.2"])).
Proof.
  split; [|vm_compute; reflexivity].
  destruct (get_ifaddrs_complete demo_ifdata "em0") as (val & v4 & v6 & _ & H4 & _).
  - repeat (apply Forall_cons_2; [intros _; split; [discriminate|intros _; discriminate|intros _ Hb; vm_compute in Hb; discriminate Hb]|]).
    apply Forall_nil_2.
  - exists v4. exact H4.
Defined.
