(* ===== verification/PhpPf.v ===== *)
(** The PHP module, FreeSense.c: masks and the texts of addresses of pf, and the functions that kill
    states and source nodes ([FreeSense_kill_states], [FreeSense_kill_srcstates]). *)
From Stdlib Require Import ZArith Lia Ascii String.
From stdpp Require Import base list strings numbers.
From S2P Require Import Prelude CProg FdAddr FdTables Fdns Ifmedia PhpIfaddrs.
Open Scope string_scope.
Open Scope list_scope.
Open Scope Z_scope.

(** ** Masks *)

(** [struct pf_addr]: sixteen bytes, of which an IPv4 address is the first four. *)
Abbreviation pf_addr := (list Z).

Definition be32 (w : list Z) : Z := fold_left (fun v b => v * 256 + b) w 0.

(** [for (i = 31; tmp & (1 << i); --i) b++;] for [tmp] that is not all ones, with [n = i + 1]. *)
Fixpoint leading_ones (n : nat) (tmp b : Z) : Z :=
  match n with
  | O => b
  | S i => if c_true (Z.land tmp (Z.shiftl 1 (Z.of_nat i))) then leading_ones i tmp (b + 1) else b
  end.

(** The words of the mask from number [j] on. *)
Fixpoint unmask_loop (words : nat) (m : list Z) (b : Z) : Z :=
  match words with
  | O => b
  | S words =>
      if be32 (take 4 m) =? 0xffffffff then unmask_loop words (drop 4 m) (b + 32)
      else leading_ones 32 (be32 (take 4 m)) b
  end.

Definition unmask (m : pf_addr) : Z := unmask_loop 4 m 0.

(** ** Texts *)

(** [PF_AZERO(a, AF_INET6)] *)
Definition PF_AZERO (a : pf_addr) : bool := List.forallb (fun b => b =? 0) a.

(** [struct pf_addr_wrap] by its type.  The name of an interface lies where the address would. *)
Inductive pf_addr_wrap : Type :=
  | PF_ADDR_ADDRMASK (addr mask : pf_addr)
  | PF_ADDR_NOROUTE
  | PF_ADDR_DYNIFTL (ifname : string) (iflags dyncnt : Z) (mask : pf_addr)
  | PF_ADDR_TABLE (tblname : string) (tblcnt : Z)
  | PF_ADDR_URPFFAILED
  | PF_ADDR_RANGE (addr mask : pf_addr)
  | PF_ADDR_OTHER.

Definition name_bytes (name : string) : pf_addr :=
  take 16 (map ascii_val (list_ascii_of_string name) ++ repeat 0 16).

(** net/pfvar.h *)
Definition PFI_AFLAG_NETWORK : Z := 0x1.
Definition PFI_AFLAG_BROADCAST : Z := 0x2.
Definition PFI_AFLAG_PEER : Z := 0x4.
Definition PFI_AFLAG_NOALIAS : Z := 0x8.

Section print.
Context `{IfKernel}.

(** [inet_ntop(af, ...)], [None] for a family it does not know. *)
Definition inet_ntop (af : Z) (a : pf_addr) : option string :=
  if af =? AF_INET then Some (inet_ntop4 (take 4 a))
  else if af =? AF_INET6 then Some (inet_ntop6 (take 16 a)) else None.

Definition cat_addr (af : Z) (a : pf_addr) (buf : string) (bufsz : nat) : string :=
  strlcat buf (default "?" (inet_ntop af a)) bufsz.

(** "mask if not _both_ address and mask are zero" *)
Definition cat_mask (af : Z) (a m : pf_addr) (buf : string) (bufsz : nat) : string :=
  if PF_AZERO a && PF_AZERO m then buf
  else
    let bits := unmask m in
    if negb (bits =? (if af =? AF_INET then 32 else 128)) then strlcat buf ("/" +:+ sdec bits) bufsz else buf.

Definition cat_if (b : bool) (s buf : string) (bufsz : nat) : string := if b then strlcat buf s bufsz else buf.

(** [pf_print_addr].  The count of a dynamic interface is written with [printf], whose format is the
    empty [tmp], and so not at all. *)
Definition pf_print_addr (w : pf_addr_wrap) (af : Z) (buf : string) (bufsz : nat) : string :=
  match w with
  | PF_ADDR_DYNIFTL ifname iflags dyncnt m =>
      let buf := strlcat buf "(" bufsz in
      let buf := strlcat buf ifname bufsz in
      let buf := cat_if (c_true (Z.land iflags PFI_AFLAG_NETWORK)) ":network" buf bufsz in
      let buf := cat_if (c_true (Z.land iflags PFI_AFLAG_BROADCAST)) ":broadcast" buf bufsz in
      let buf := cat_if (c_true (Z.land iflags PFI_AFLAG_PEER)) ":peer" buf bufsz in
      let buf := cat_if (c_true (Z.land iflags PFI_AFLAG_NOALIAS)) ":0" buf bufsz in
      let buf := if dyncnt <=? 0 then strlcat buf ":*" bufsz else strlcat buf "" bufsz in
      let buf := strlcat buf ")" bufsz in
      cat_mask af (name_bytes ifname) m buf bufsz
  | PF_ADDR_TABLE tblname tblcnt =>
      strlcat buf (str_take 510 (if tblcnt =? -1 then "<" +:+ tblname +:+ ":*>"
                                 else "<" +:+ tblname +:+ ":" +:+ sdec tblcnt +:+ ">")) bufsz
  | PF_ADDR_RANGE a m =>
      let buf := cat_addr af a buf bufsz in
      let buf := strlcat buf " - " bufsz in
      cat_addr af m buf bufsz
  | PF_ADDR_ADDRMASK a m =>
      let buf := if PF_AZERO a && PF_AZERO m then strlcat buf "any" bufsz else cat_addr af a buf bufsz in
      cat_mask af a m buf bufsz
  | PF_ADDR_NOROUTE => strlcat buf "no-route" bufsz
  | PF_ADDR_URPFFAILED => strlcat buf "urpf-failed" bufsz
  | PF_ADDR_OTHER => strlcat buf "?" bufsz
  end.

(** [pf_print_host]; [port] is in the order of the host. *)
Definition pf_print_host (a : pf_addr) (port af : Z) (buf : string) (bufsz : nat) : string :=
  let '(mask, af) :=
    if af =? AF_INET then (repeat 255 4 ++ repeat 0 12, af) else (repeat 255 16, AF_INET6) in
  let buf := pf_print_addr (PF_ADDR_ADDRMASK a mask) af buf bufsz in
  if port =? 0 then buf
  else strlcat buf (if af =? AF_INET then ":" +:+ udec port else "[" +:+ udec port +:+ "]") bufsz.
End print.

(** ** Prefixes *)

(** The string behind its first [n] characters. *)
Fixpoint str_drop (n : nat) (s : string) : string :=
  match n, s with S n, String _ s => str_drop n s | _, _ => s end.

(** [strtonum(p, 0, 128, &errstr)], [None] for an error. *)
Definition strtonum128 (p : string) : option Z :=
  match scan_number p with
  | Some (neg, v, "") => let v := if neg then - v else v in if (0 <=? v) && (v <=? 128) then Some v else None
  | _ => None
  end.

(** One answer of [getaddrinfo]: [ai_family] and [ai_addr]. *)
Abbreviation addrinfo := (Z * option sockaddr)%type.

(** [getaddrinfo], without hints and with AI_NUMERICHOST, [None] for an error. *)
Class AddrInfo : Type := {
  getaddrinfo : string -> option (list addrinfo);
  getaddrinfo_numeric : string -> option (list addrinfo)
}.

(** The bytes of the mask of [prefix] bits. *)
Definition mask_v4 (prefix : Z) (mask : pf_addr) : pf_addr :=
  htonl_bytes (u32 (u64 (Z.shiftl 0xffffffffff (32 - prefix)))) ++ drop 4 mask.
Definition mask_v6 (prefix : Z) : pf_addr :=
  let q := Z.to_nat (Z.shiftr prefix 3) in
  let r := Z.land prefix 7 in
  let m := repeat 255 q ++ repeat 0 (16 - q) in
  if 0 <? r then <[q := Z.land (Z.shiftr 0xff00 r) 0xff]> m else m.

Section kill.
Context `{AddrInfo}.

(** [pfctl_addrprefix]: cuts [addr] at its slash and sets [mask]; [None] for -1. *)
Definition pfctl_addrprefix (addr : string) (mask : pf_addr) : string * outcome (option pf_addr) :=
  match strchr addr "/" with
  | None => (addr, Ok (Some mask))
  | Some n =>
      let p := str_drop (S n) addr in
      let addr := str_take n addr in
      (addr,
       match strtonum128 p, getaddrinfo_numeric addr with
       | Some prefix, Some res =>
           match res with
           | [] => Fail (Oob 0)
           | (af, _) :: _ =>
               if (af =? AF_INET) && (32 <? prefix) then Ok None
               else if (af =? AF_INET6) && (128 <? prefix) then Ok None
               else Ok (Some (if af =? AF_INET then mask_v4 prefix mask
                              else if af =? AF_INET6 then mask_v6 prefix else mask))
           end
       | _, _ => Ok None
       end)
  end.

(** ** Killing states and source nodes *)

(** [struct pfctl_kill], and [struct pfioc_src_node_kill], which has no protocol, interface and [nat]. *)
Record kill_req : Type := {
  k_af : Z;
  k_proto : Z;
  k_ifname : string;
  k_nat : bool;
  k_src : pf_addr;
  k_srcmask : pf_addr;
  k_dst : pf_addr;
  k_dstmask : pf_addr
}.

Definition set_src (af : Z) (a : pf_addr) (k : kill_req) : kill_req :=
  {| k_af := af; k_proto := k_proto k; k_ifname := k_ifname k; k_nat := k_nat k; k_src := a;
     k_srcmask := k_srcmask k; k_dst := k_dst k; k_dstmask := k_dstmask k |}.
Definition set_dst (a m : pf_addr) (k : kill_req) : kill_req :=
  {| k_af := k_af k; k_proto := k_proto k; k_ifname := k_ifname k; k_nat := k_nat k; k_src := k_src k;
     k_srcmask := k_srcmask k; k_dst := a; k_dstmask := m |}.
Definition set_nat (b : bool) (k : kill_req) : kill_req :=
  {| k_af := k_af k; k_proto := k_proto k; k_ifname := k_ifname k; k_nat := b; k_src := k_src k;
     k_srcmask := k_srcmask k; k_dst := k_dst k; k_dstmask := k_dstmask k |}.

(** The address of [sa] in a [struct pf_addr] that held [old]; [None] for an unknown family. *)
Definition put_addr (af : Z) (sa : sockaddr) (old : pf_addr) : option pf_addr :=
  if af =? AF_INET then Some (sin_addr sa ++ drop 4 old)
  else if af =? AF_INET6 then Some (sin6_addr sa) else None.

(** [sizeof(struct sockaddr)] bytes, which [last_src] and [last_dst] keep of an address. *)
Definition last_of (sa : sockaddr) : list Z := take 16 sa.
Definition no_last : list Z := repeat 255 16.

(** [calls k]: the requests that are made for the addresses in [k].  [fails h]: whether the last of the
    requests [h] fails. *)
Section loops.
Context (calls : kill_req -> list kill_req) (fails : list kill_req -> bool).

(** The requests one after the other, up to one that fails. *)
Fixpoint issue (ks : list kill_req) (h : list kill_req) : bool * list kill_req :=
  match ks with
  | [] => (true, h)
  | k :: ks => let h := h ++ [k] in if fails h then (false, h) else issue ks h
  end.

(** The loop over the destinations; a request that fails is passed over. *)
Fixpoint dst_loop (res : list addrinfo) (last_dst : list Z) (k : kill_req) (h : list kill_req)
    : kill_req * list kill_req :=
  match res with
  | [] => (k, h)
  | (af, None) :: res => dst_loop res last_dst k h
  | (af, Some sa) :: res =>
      if negb (k_af k =? af) then dst_loop res last_dst k h
      else if bool_decide (last_dst = last_of sa) then dst_loop res last_dst k h
      else
        match put_addr (k_af k) sa (k_dst k) with
        | None => dst_loop res (last_of sa) k h
        | Some a => let k := set_dst a (k_dstmask k) k in dst_loop res (last_of sa) k (h ++ calls k)
        end
  end.

(** The loop over the sources; [ip2] is the copy that [pfctl_addrprefix] cuts.  [false] for null. *)
Fixpoint src_loop (res : list addrinfo) (ip2 : option string) (last_src : list Z) (k : kill_req)
    (h : list kill_req) : outcome (bool * list kill_req) :=
  match res with
  | [] => Ok (true, h)
  | (af, None) :: res => src_loop res ip2 last_src k h
  | (af, Some sa) :: res =>
      if bool_decide (last_src = last_of sa) then src_loop res ip2 last_src k h
      else
        match put_addr af sa (k_src k) with
        | None => src_loop res ip2 (last_of sa) (set_src af (k_src k) k) h
        | Some a =>
            let k := set_src af a k in
            match ip2 with
            | Some s =>
                let '(s, r) := pfctl_addrprefix s (repeat 255 16) in
                m ← r;
                match m, getaddrinfo s with
                | Some m, Some res1 =>
                    let '(k, h) := dst_loop res1 no_last (set_dst (k_dst k) m k) h in
                    src_loop res (Some s) (last_of sa) k h
                | _, _ => Ok (false, h)
                end
            | None =>
                let '(ok, h) := issue (calls k) h in
                if ok then src_loop res None (last_of sa) k h else Ok (true, h)
            end
        end
  end.

(** What the two functions do once they have filled in [k]. *)
Definition kill_from (ip1 : string) (ip2 : option string) (k : kill_req) : outcome (bool * list kill_req) :=
  let '(ip1, r) := pfctl_addrprefix ip1 (k_srcmask k) in
  m ← r;
  match m, getaddrinfo ip1 with
  | Some m, Some res =>
      src_loop res ip2 no_last
        {| k_af := k_af k; k_proto := k_proto k; k_ifname := k_ifname k; k_nat := k_nat k; k_src := k_src k;
           k_srcmask := m; k_dst := k_dst k; k_dstmask := k_dstmask k |} []
  | _, _ => Ok (false, [])
  end.
End loops.

(** [memset(&k, 0, sizeof(k))] and the full mask of the source. *)
Definition kill_init (proto : Z) (ifname : string) : kill_req :=
  {| k_af := 0; k_proto := proto; k_ifname := ifname; k_nat := false; k_src := repeat 0 16;
     k_srcmask := repeat 255 16; k_dst := repeat 0 16; k_dstmask := repeat 0 16 |}.

(** netinet/in.h *)
Definition kill_proto (proto : option string) : Z :=
  match proto with
  | None => 0
  | Some p =>
      if String.prefix "tcp" p then 6
      else if String.prefix "udp" p then 17
      else if String.prefix "icmpv6" p then 58
      else if String.prefix "icmp" p then 1
      else 0
  end.

Definition both_nats (k : kill_req) : list kill_req := [set_nat false k; set_nat true k].

(** [FreeSense_kill_states]; an empty [ip2] is none, a name that is too long is cut.  [false] for null. *)
Definition kill_states (fails : list kill_req -> bool) (ip1 : string) (ip2 iface proto : option string)
    : outcome (bool * list kill_req) :=
  let ip2 := match ip2 with Some "" => None | _ => ip2 end in
  kill_from both_nats fails ip1 ip2 (kill_init (kill_proto proto) (str_take (IFNAMSIZ - 1) (default "" iface))).

(** [FreeSense_kill_srcstates] *)
Definition kill_srcstates (fails : list kill_req -> bool) (ip1 : string) (ip2 : option string)
    : outcome (bool * list kill_req) :=
  kill_from (fun k => [k]) fails ip1 ip2 (kill_init 0 "").
End kill.

(** ** Masks and prefixes *)

Definition v6_ok (p : Z) : bool := (prefix (mask_v6 p) =? p) && (unmask (mask_v6 p) =? p).
Definition v4_ok (p : Z) : bool := mask_ones (htonl_bytes (u32 (u64 (Z.shiftl 0xffffffffff (32 - p))))) =? p.

Lemma upto_all (f : Z -> bool) n : forallb (fun k => f (Z.of_nat k)) (seq 0 (S n)) = true ->
  forall p, 0 <= p <= Z.of_nat n -> f p = true.
Proof.
  intros Hall p Hp. rewrite forallb_forall in Hall. specialize (Hall (Z.to_nat p)).
  rewrite Z2Nat.id in Hall by lia. apply Hall, in_seq. lia.
Qed.

Lemma mask_v6_prefix p : 0 <= p <= 128 -> prefix (mask_v6 p) = p /\ unmask (mask_v6 p) = p.
Proof.
  intros Hp. pose proof (upto_all v6_ok 128 ltac:(vm_compute; reflexivity) p Hp) as H.
  apply andb_true_iff in H as [H1%Z.eqb_eq H2%Z.eqb_eq]. auto.
Qed.
Lemma mask_v4_ones p m : 0 <= p <= 32 -> mask_ones (take 4 (mask_v4 p m)) = p.
Proof.
  intros Hp. pose proof (upto_all v4_ok 32 ltac:(vm_compute; reflexivity) p Hp) as H. apply Z.eqb_eq in H.
  exact H.
Qed.

Lemma str_drop_cut a c b : str_drop (S (String.length a)) (a +:+ String c b) = b.
Proof. induction a as [|d a IH]; [by destruct b|exact IH]. Qed.

Lemma strtonum128_udec p : 0 <= p <= 128 -> strtonum128 (udec p) = Some p.
Proof.
  intros Hp. unfold strtonum128. pose proof (scan_number_sdec p "" ltac:(lia) eq_refl) as H.
  unfold sdec in H. rewrite (proj2 (Z.ltb_ge p 0)), append_nil_r in H by lia. rewrite H.
  rewrite Z.abs_eq by lia. rewrite (proj2 (Z.leb_le 0 p)), (proj2 (Z.leb_le p 128)) by lia. done.
Qed.

Lemma pfctl_addrprefix_eq `{AddrInfo} a p af sa rest mask :
  has_char "/" a = false -> 0 <= p <= 128 -> getaddrinfo_numeric a = Some ((af, sa) :: rest) ->
  pfctl_addrprefix (a +:+ String "/" (udec p)) mask
  = (a, if (af =? AF_INET) && (32 <? p) then Ok None
        else Ok (Some (if af =? AF_INET then mask_v4 p mask else if af =? AF_INET6 then mask_v6 p else mask))).
Proof.
  intros Ha Hp Hn. unfold pfctl_addrprefix.
  rewrite strchr_app, str_drop_cut, str_take_app, Hn, strtonum128_udec by done.
  destruct ((af =? AF_INET) && (32 <? p)); [done|]. rewrite (proj2 (Z.ltb_ge 128 p)), andb_false_r by lia. done.
Qed.

(** The prefix of an address is set and read alike: for "a/p" with a numeric address, [pfctl_addrprefix]
    leaves [a] and a mask whose length is [p] for [prefix] and [unmask] (IPv6, 0 to 128) and for the
    count of ones (IPv4, 0 to 32), which are what the module reports to scripts; longer prefixes of
    IPv4 addresses are refused. *)
Theorem addrprefix_roundtrip `{AddrInfo} a p af sa rest :
  has_char "/" a = false -> 0 <= p <= 128 -> getaddrinfo_numeric a = Some ((af, sa) :: rest) ->
  (af = AF_INET6 -> exists m, pfctl_addrprefix (a +:+ String "/" (udec p)) (repeat 255 16) = (a, Ok (Some m))
                              /\ prefix m = p /\ unmask m = p) /\
  (af = AF_INET -> p <= 32 -> exists m, pfctl_addrprefix (a +:+ String "/" (udec p)) (repeat 255 16) = (a, Ok (Some m))
                              /\ mask_ones (take 4 m) = p) /\
  (af = AF_INET -> 32 < p -> pfctl_addrprefix (a +:+ String "/" (udec p)) (repeat 255 16) = (a, Ok None)).
Proof.
  intros Ha Hp Hn. rewrite (pfctl_addrprefix_eq a p af sa rest) by done. split; [|split]; intros ->.
  - exists (mask_v6 p). split; [done|]. by apply mask_v6_prefix.
  - intros Hle. exists (mask_v4 p (repeat 255 16)). rewrite (proj2 (Z.ltb_ge 32 p)) by lia.
    split; [done|]. apply mask_v4_ones. lia.
  - intros Hlt. by rewrite (proj2 (Z.ltb_lt 32 p)).
Qed.

(** ** The text of a host *)

Lemma strlcat_fits buf s n : (String.length (buf +:+ s) < n)%nat -> strlcat buf s n = buf +:+ s.
Proof.
  intros Hn. unfold strlcat. rewrite append_length in Hn. rewrite (proj2 (Nat.ltb_lt _ _)) by lia.
  apply str_take_all. rewrite append_length. lia.
Qed.

(** A host is its address, for IPv4 with ":port", for every other family with "[port]" behind it, if that
    fits the buffer; no mask is written, and an address of zeros is not taken for "any". *)
Lemma pf_print_host_text `{IfKernel} a port af n :
  let addr := if af =? AF_INET then inet_ntop4 (take 4 a) else inet_ntop6 (take 16 a) in
  let text := addr +:+ if port =? 0 then "" else if af =? AF_INET then ":" +:+ udec port else "[" +:+ udec port +:+ "]" in
  (String.length text < n)%nat -> pf_print_host a port af "" n = text.
Proof.
  cbv zeta. intros Hn. rewrite append_length in Hn.
  unfold pf_print_host, pf_print_addr, cat_mask, cat_addr, inet_ntop.
  destruct (Z.eqb_spec af AF_INET) as [-> |Haf]; cbn [Z.eqb AF_INET AF_INET6 Pos.eqb].
  - change (PF_AZERO (repeat 255 4 ++ repeat 0 12)) with false.
    change (unmask (repeat 255 4 ++ repeat 0 12)) with 32. rewrite andb_false_r. cbn [Z.eqb Pos.eqb negb from_option id].
    rewrite strlcat_fits by (cbn [String.append from_option id]; lia). cbn [String.append from_option id].
    destruct (port =? 0); [by rewrite append_nil_r|]. apply strlcat_fits. by rewrite append_length.
  - change (PF_AZERO (repeat 255 16)) with false. change (unmask (repeat 255 16)) with 128.
    rewrite andb_false_r. cbn [Z.eqb Pos.eqb negb from_option id].
    rewrite strlcat_fits by (cbn [String.append from_option id]; lia). cbn [String.append from_option id].
    destruct (port =? 0); [by rewrite append_nil_r|]. apply strlcat_fits. by rewrite append_length.
Qed.

(** ** Killing *)

(** The address of a [struct sockaddr_in] with port 0, of a [struct sockaddr_in6] with port, flow and
    scope 0. *)
Definition sin4 (a : list Z) : sockaddr := [16; AF_INET; 0; 0] ++ a ++ repeat 0 8.
Definition sin6 (a : list Z) : sockaddr := [28; AF_INET6; 0; 0; 0; 0; 0; 0] ++ a ++ repeat 0 4.

Lemma sin4_addr a : length a = 4%nat -> sin_addr (sin4 a) = a.
Proof. intros Ha. exact (take_app_length' a (repeat 0 8) 4 (eq_sym Ha)). Qed.
Lemma sin6_addr_eq a : length a = 16%nat -> sin6_addr (sin6 a) = a.
Proof. intros Ha. exact (take_app_length' a (repeat 0 4) 16 (eq_sym Ha)). Qed.
Lemma last_of_sin4 a : length a = 4%nat -> last_of (sin4 a) = sin4 a.
Proof. intros Ha. unfold last_of, sin4. apply take_ge. rewrite !length_app, Ha. cbn. lia. Qed.
Lemma sin4_inj a b : sin4 a = sin4 b -> a = b.
Proof. unfold sin4. intros E. apply app_inv_head in E. by apply app_inv_tail in E. Qed.
Lemma last_of_sin6 hi lo : length hi = 8%nat -> last_of (sin6 (hi ++ lo)) = [28; AF_INET6; 0; 0; 0; 0; 0; 0] ++ hi.
Proof.
  intros Ha. unfold last_of, sin6. rewrite take_app_ge by (cbn; lia). f_equal.
  rewrite <- app_assoc. by apply take_app_length'.
Qed.

Section killing.
Context `{AddrInfo}.

(** The request for the IPv4 source [a] with mask [m]. *)
Definition source_req (m : pf_addr) (k : kill_req) (a : list Z) : kill_req :=
  {| k_af := AF_INET; k_proto := k_proto k; k_ifname := k_ifname k; k_nat := k_nat k; k_src := a ++ repeat 0 12;
     k_srcmask := m; k_dst := k_dst k; k_dstmask := k_dstmask k |}.

Lemma issue_ok fails ks h : (forall h, fails h = false) -> issue fails ks h = (true, h ++ ks).
Proof.
  intros Hf. revert h. induction ks as [|k ks IH]; intro h; cbn [issue]; [by rewrite app_nil_r|].
  by rewrite Hf, IH, <- app_assoc.
Qed.

(** Of neighbours that are the same, one. *)
Fixpoint squeeze (l : list (list Z)) : list (list Z) :=
  match l with
  | a :: (b :: _) as l' => if bool_decide (a = b) then squeeze l' else a :: squeeze l'
  | _ => l
  end.

(** What is left of [l] after [last]. *)
Fixpoint squeeze_after (last : option (list Z)) (l : list (list Z)) : list (list Z) :=
  match l with
  | [] => []
  | a :: l => if bool_decide (last = Some a) then squeeze_after last l else a :: squeeze_after (Some a) l
  end.

Lemma squeeze_cons a l : squeeze (a :: l) = a :: squeeze_after (Some a) l.
Proof.
  revert a. induction l as [|b l IH]; intros a; [done|]. cbn [squeeze_after].
  change (squeeze (a :: b :: l)) with (if bool_decide (a = b) then squeeze (b :: l) else a :: squeeze (b :: l)). rewrite IH.
  destruct (decide (a = b)) as [->|Hab]; [by rewrite !bool_decide_eq_true_2 by done|].
  by rewrite !bool_decide_eq_false_2 by congruence.
Qed.

Lemma elem_of_squeeze a l : a ∈ squeeze l <-> a ∈ l.
Proof.
  induction l as [|b l IH]; [done|]. destruct l as [|c l]; [done|].
  change (squeeze (b :: c :: l)) with (if bool_decide (b = c) then squeeze (c :: l) else b :: squeeze (c :: l)).
  rewrite (elem_of_cons _ a b). case_bool_decide as E; [|by rewrite elem_of_cons, IH]. rewrite IH. subst. split; [by right|].
  intros [->|?]; [left | done].
Qed.

Lemma src_loop_v4 calls fails (l : list (option (list Z))) : (forall h, fails h = false) ->
  (forall a, Some a ∈ l -> length a = 4%nat) ->
  forall last k h, drop 4 (k_src k) = repeat 0 12 ->
  src_loop calls fails (map (fun o => (AF_INET, sin4 <$> o)) l) None (match last with Some a => sin4 a | None => no_last end) k h
  = Ok (true, h ++ flat_map (fun a => calls (source_req (k_srcmask k) k a)) (squeeze_after last (omap id l))).
Proof.
  intros Hf. induction l as [|[a|] l IH]; intros Hl last k h Hk.
  { cbn. by rewrite app_nil_r. }
  - assert (Ha : length a = 4%nat) by (apply Hl; left).
    assert (Hl' : forall b, Some b ∈ l -> length b = 4%nat) by (intros b Hb; apply Hl; by right).
    cbn [map src_loop omap list_omap id squeeze_after fmap option_fmap option_map]. rewrite last_of_sin4 by done.
    destruct (decide (last = Some a)) as [->|Hla].
    { rewrite !bool_decide_eq_true_2 by done. exact (IH Hl' (Some a) k h Hk). }
    rewrite (bool_decide_eq_false_2 (last = Some a)) by done.
    rewrite bool_decide_eq_false_2 by (destruct last as [b|]; [intros E%sin4_inj; congruence | discriminate]).
    unfold put_addr. cbn [Z.eqb AF_INET Pos.eqb]. rewrite sin4_addr, Hk by done. rewrite issue_ok by done.
    pose proof (IH Hl' (Some a)) as IHa. cbv iota in IHa. rewrite IHa by (cbn [k_src set_src]; by rewrite drop_app_length').
    cbn [flat_map]. by rewrite <- app_assoc.
  - cbn [map src_loop omap list_omap id fmap option_fmap option_map]. apply IH; [|done]. intros b Hb. apply Hl. by right.
Qed.

Lemma no_slash a mask : has_char "/" a = false -> pfctl_addrprefix a mask = (a, Ok (Some mask)).
Proof.
  intros Ha. unfold pfctl_addrprefix. enough (strchr a "/" = None) as -> by done.
  induction a as [|c a IH]; cbn; [done|]. cbn in Ha. apply orb_false_iff in Ha as [Hc Ha].
  destruct (Ascii.eqb_spec c "/") as [-> |]; [done|]. by rewrite IH.
Qed.

(** C32. [FreeSense_kill_states] for one side: when a name or prefix resolves to IPv4 addresses, however often
    each of them is given, and the kernel does not fail, the requests are exactly, for every address in
    the order of the answer, neighbours that are the same taken once, one to kill the states with this
    source and one for those with NAT, with the mask of the prefix and the interface and protocol that
    were given; every address of the answer is among them, and answers without an address are passed. *)
Theorem kill_states_each fails ip1 s m l iface proto :
  (forall h, fails h = false) ->
  pfctl_addrprefix ip1 (repeat 255 16) = (s, Ok (Some m)) ->
  getaddrinfo s = Some (map (fun o => (AF_INET, sin4 <$> o)) l) ->
  (forall a, Some a ∈ l -> length a = 4%nat) ->
  let k := kill_init (kill_proto proto) (str_take (IFNAMSIZ - 1) (default "" iface)) in
  let asked := squeeze (omap id l) in
  kill_states fails ip1 None iface proto = Ok (true, flat_map (fun a => both_nats (source_req m k a)) asked) /\
  forall a, Some a ∈ l -> a ∈ asked.
Proof.
  intros Hf Hp Hg Hl. cbv zeta. split.
  - unfold kill_states, kill_from. cbn [kill_init k_srcmask]. rewrite Hp, Hg. cbn [mbind outcome_bind].
    rewrite (src_loop_v4 _ _ l Hf Hl None) by done. cbn [app]. do 3 f_equal.
    destruct (omap id l) as [|a l']; [done|]. by rewrite squeeze_cons.
  - intros a Ha. apply elem_of_squeeze, list_elem_of_omap. by exists (Some a).
Qed.

(** Of two IPv6 addresses of a name that lie in the same network of 64 bits, as those of one host
    usually do, the second is taken for a repetition of the first: only [sizeof(struct sockaddr)]
    bytes are compared, which end in the middle of an IPv6 address.  No request names it, and its
    states stay. *)
Theorem kill_skips_same_64 ip1 hi lo1 lo2 :
  has_char "/" ip1 = false -> length hi = 8%nat -> length lo1 = 8%nat -> length lo2 = 8%nat -> lo1 <> lo2 ->
  getaddrinfo ip1 = Some [(AF_INET6, Some (sin6 (hi ++ lo1))); (AF_INET6, Some (sin6 (hi ++ lo2)))] ->
  exists h, kill_states (fun _ => false) ip1 None None None = Ok (true, h)
    /\ map k_src h = [hi ++ lo1; hi ++ lo1] /\ ~ hi ++ lo2 ∈ map k_src h.
Proof.
  intros Hs Hh H1 H2 Hne Hg. unfold kill_states, kill_from. cbn [kill_init k_srcmask]. rewrite no_slash, Hg by done.
  cbn [mbind outcome_bind src_loop]. rewrite !last_of_sin6 by done. rewrite bool_decide_false by discriminate.
  unfold put_addr. cbn [Z.eqb AF_INET AF_INET6 Pos.eqb]. rewrite sin6_addr_eq by (rewrite length_app; lia).
  rewrite issue_ok by done. rewrite bool_decide_true by done. eexists. split; [reflexivity|].
  split; [reflexivity|]. cbn. intros [E|[E|Hn%elem_of_nil]%elem_of_cons]%elem_of_cons; [| |done];
    apply app_inv_head in E; congruence.
Qed.

(** The prefix of the other side is used only once: [pfctl_addrprefix] cuts its copy of the string, so
    that for the second address of the source the destination has no prefix any more, and only the
    states to the single address are killed instead of those to the network. *)
Theorem kill_second_source_mask_lost ip1 a1 a2 d x p sa rest :
  has_char "/" ip1 = false -> has_char "/" d = false -> 0 <= p <= 32 ->
  length a1 = 4%nat -> length a2 = 4%nat -> a1 <> a2 -> length x = 4%nat ->
  getaddrinfo ip1 = Some [(AF_INET, Some (sin4 a1)); (AF_INET, Some (sin4 a2))] ->
  getaddrinfo_numeric d = Some ((AF_INET, sa) :: rest) ->
  getaddrinfo d = Some [(AF_INET, Some (sin4 x))] ->
  exists h, kill_states (fun _ => false) ip1 (Some (d +:+ String "/" (udec p))) None None = Ok (true, h)
    /\ map (fun k => (take 4 (k_src k), take 4 (k_dst k), take 4 (k_dstmask k))) h
       = let m := htonl_bytes (u32 (u64 (Z.shiftl 0xffffffffff (32 - p)))) in
         [(a1, x, m); (a1, x, m); (a2, x, repeat 255 4); (a2, x, repeat 255 4)].
Proof.
  intros Hs Hd Hp H1 H2 Hne Hx Hg Hgn Hgd. unfold kill_states.
  destruct (d +:+ String "/" (udec p)) eqn:Ed; [by destruct d|]. rewrite <- Ed. unfold kill_from. cbn [kill_init k_srcmask]. rewrite no_slash, Hg by done.
  cbn [mbind outcome_bind src_loop]. rewrite !last_of_sin4 by done. rewrite bool_decide_false by discriminate.
  rewrite (pfctl_addrprefix_eq d p AF_INET sa rest) by (done || lia).
  rewrite (proj2 (Z.ltb_ge 32 p)) by lia. cbn [Z.eqb AF_INET Pos.eqb andb put_addr mbind outcome_bind].
  rewrite Hgd. cbn [dst_loop k_af set_src set_dst Z.eqb Pos.eqb negb].
  rewrite last_of_sin4 by done. rewrite bool_decide_false by discriminate.
  cbn [put_addr Z.eqb Pos.eqb]. rewrite bool_decide_false by (by intros E%sin4_inj).
  rewrite no_slash by done. cbn [mbind outcome_bind]. rewrite Hgd.
  cbn [dst_loop k_af set_src set_dst Z.eqb Pos.eqb negb]. rewrite last_of_sin4 by done.
  rewrite bool_decide_false by discriminate. cbn [put_addr Z.eqb Pos.eqb].
  eexists. split; [reflexivity|]. cbn [both_nats app map k_src k_dst k_dstmask set_nat set_dst set_src].
  rewrite !sin4_addr by done.
  rewrite !(take_app_length' a1 _ 4), !(take_app_length' a2 _ 4), !(take_app_length' x _ 4) by done. reflexivity.
Qed.
End killing.

(** ** A resolver *)

Definition demo_hosts : list (string * list addrinfo) :=
  [("host.example.org", [(AF_INET, Some (sin4 [10; 0; 0; 1])); (AF_INET, Some (sin4 [10; 0; 0; 1])); (AF_INET, Some (sin4 [10; 0; 0; 1]));
                         (AF_INET, Some (sin4 [10; 0; 0; 2])); (AF_INET, None); (AF_INET, Some (sin4 [10; 0; 0; 2]))]);
   ("two.example.org", [(AF_INET, Some (sin4 [10; 0; 0; 1])); (AF_INET, Some (sin4 [10; 0; 0; 2]))]);
   ("v6.example.org", [(AF_INET6, Some (sin6 ([0x20; 1; 0xd; 0xb8; 0; 0; 0; 0] ++ [0; 0; 0; 0; 0; 0; 0; 1])));
                       (AF_INET6, Some (sin6 ([0x20; 1; 0xd; 0xb8; 0; 0; 0; 0] ++ [0; 0; 0; 0; 0; 0; 0; 2])))]);
   ("192.168.0.0", [(AF_INET, Some (sin4 [192; 168; 0; 0]))])].
#[export] Instance demo_addrinfo : AddrInfo := {|
  getaddrinfo s := snd <$> List.find (fun p => String.eqb p.1 s) demo_hosts;
  getaddrinfo_numeric s := if String.eqb s "192.168.0.0" then Some [(AF_INET, Some (sin4 [192; 168; 0; 0]))] else None
|}.

Lemma addrprefix_roundtrip_witness :
  exists m, pfctl_addrprefix "192.168.0.0/20" (repeat 255 16) = ("192.168.0.0", Ok (Some m)) /\ mask_ones (take 4 m) = 20.
Proof.
  refine (proj1 (proj2 (addrprefix_roundtrip "192.168.0.0" 20 AF_INET (Some (sin4 [192; 168; 0; 0])) [] _ _ _)) _ _);
    [reflexivity|lia|reflexivity|reflexivity|lia].
Defined.

Lemma kill_states_each_witness :
  kill_states (fun _ => false) "host.example.org" None (Some "em0") (Some "tcp")
  = Ok (true, flat_map (fun a => both_nats (source_req (repeat 255 16) (kill_init 6 "em0") a)) [[10; 0; 0; 1]; [10; 0; 0; 2]]).
Proof.
  apply (kill_states_each (fun _ => false) "host.example.org" "host.example.org" (repeat 255 16)
           [Some [10; 0; 0; 1]; Some [10; 0; 0; 1]; Some [10; 0; 0; 1]; Some [10; 0; 0; 2]; None; Some [10; 0; 0; 2]] (Some "em0") (Some "tcp")); [reflexivity..|].
  intros a Ha. rewrite !elem_of_cons, elem_of_nil in Ha. decompose [or] Ha; simplify_eq; done.
Defined.

Lemma kill_skips_same_64_witness : exists h,
  kill_states (fun _ => false) "v6.example.org" None None None = Ok (true, h) /\ length h = 2%nat.
Proof.
  destruct (kill_skips_same_64 "v6.example.org" [0x20; 1; 0xd; 0xb8; 0; 0; 0; 0] [0; 0; 0; 0; 0; 0; 0; 1]
              [0; 0; 0; 0; 0; 0; 0; 2]) as (h & E & Hm & _); [reflexivity..|discriminate|reflexivity|].
  exists h. split; [exact E|]. apply (f_equal length) in Hm. rewrite length_map in Hm. exact Hm.
Defined.

Lemma kill_second_source_mask_lost_witness : exists h,
  kill_states (fun _ => false) "two.example.org" (Some "192.168.0.0/16") None None = Ok (true, h)
  /\ map (fun k => take 4 (k_dstmask k)) h = [[255; 255; 0; 0]; [255; 255; 0; 0]; [255; 255; 255; 255]; [255; 255; 255; 255]].
Proof.
  destruct (kill_second_source_mask_lost "two.example.org" [10; 0; 0; 1] [10; 0; 0; 2] "192.168.0.0" [192; 168; 0; 0] 16
              (Some (sin4 [192; 168; 0; 0])) []) as (h & E & Hm);
    [reflexivity|reflexivity|lia|reflexivity|reflexivity|discriminate|reflexivity..|].
  exists h. split; [exact E|]. apply (f_equal (map snd)) in Hm. rewrite map_map in Hm. exact Hm.
Defined.
