(* ===== verification/PhpInterfaces.v ===== *)
(** The PHP module, FreeSense.c: the functions that change interfaces - bridge members, creation,
    addresses, names, VLANs, MTU, flags, capabilities - and those that list interfaces and their
    counters.  The kernel is a state the requests read and change. *)
From Stdlib Require Import ZArith Lia Ascii String.
From stdpp Require Import base list strings numbers gmap.
From S2P Require Import Prelude CProg Dhcpleases FdAddr FdTables Fdns Ifmedia PhpIfaddrs PhpPf.
Open Scope string_scope.
Open Scope list_scope.
Open Scope Z_scope.

(** ** Requests *)

(** [strlcpy(dst, src, size)] into a fresh array: the text it holds. *)
Definition strlcpy (src : string) (size : nat) : string := str_take (size - 1) (c_str src).

(** The text of [ifr_name] and the like. *)
Definition if_name (s : string) : string := strlcpy s IFNAMSIZ.

(** net/if_bridgevar.h *)
Definition BRDGADD : Z := 0.
Definition BRDGDEL : Z := 1.
Definition BRDGGIFFLGS : Z := 2.
Definition BRDGSIFFLGS : Z := 3.

(** [struct ifbreq]: the member, its flags, and the fields the functions hand back as they got them. *)
Record ifbreq : Type := { ifbr_ifsname : string; ifbr_ifsflags : Z; ifbr_others : list Z }.

(** The requests of the interface sockets; [None] and [false] are a result of -1.  The state of the
    kernel is [K]. *)
Class IfCtl (K : Type) : Type := {
  ioctl_SIOCSDRVSPEC : string -> Z -> ifbreq -> K -> option ifbreq * K;
  ioctl_SIOCGDRVSPEC : string -> Z -> ifbreq -> K -> option ifbreq * K;
  ioctl_SIOCIFCREATE : string -> K -> option string * K;
  ioctl_SIOCIFCREATE2 : string -> K -> option string * K;
  ioctl_SIOCIFDESTROY : string -> K -> bool * K;
  ioctl_SIOCAIFADDR : string -> sockaddr -> sockaddr -> K -> bool * K;      (* name, address, mask *)
  ioctl_SIOCDIFADDR : string -> sockaddr -> K -> bool * K;
  ioctl_SIOCDIFADDR_IN6 : string -> sockaddr -> K -> bool * K;
  ioctl_SIOCSIFNAME : string -> string -> K -> bool * K;
  ioctl_SIOCSLANPCP : string -> Z -> K -> bool * K;
  ioctl_SIOCSETVLAN : string -> string * Z -> K -> bool * K;                (* parent and tag *)
  ioctl_SIOCSVLANPCP : string -> Z -> K -> bool * K;
  ioctl_SIOCGIFMTU : string -> K -> option Z * K;
  ioctl_SIOCSIFMTU : string -> Z -> K -> bool * K;
  ioctl_SIOCGIFFLAGS : string -> K -> option (Z * Z) * K;                   (* two shorts: low and high *)
  ioctl_SIOCSIFFLAGS : string -> Z * Z -> K -> bool * K;
  ioctl_SIOCGIFCAP : string -> K -> option (Z * Z) * K;                     (* ifr_reqcap, ifr_curcap *)
  ioctl_SIOCSIFCAP : string -> Z -> K -> bool * K;
  NgNameNode : Z -> string -> string -> K -> bool * K;
  inet_pton6 : string -> option (list Z)
}.

(** [array_init(return_value); add_assoc_string(return_value, "error", msg)] *)
Definition php_error (msg : string) : zval := ZArr [("error", ZStr msg)].

Section requests.
Context {K : Type} `{IfCtl K}.
Implicit Types k : K.

Definition request (ok : zval) (bad : zval) (r : bool * K) : zval * K := (if r.1 then ok else bad, r.2).

(** ** Bridges *)

Definition bridge_req (ifchld : string) : ifbreq :=
  {| ifbr_ifsname := if_name ifchld; ifbr_ifsflags := 0; ifbr_others := repeat 0 8 |}.

Definition bridge_add_member (ifname ifchld : string) k : zval * K :=
  let '(r, k) := ioctl_SIOCSDRVSPEC (if_name ifname) BRDGADD (bridge_req ifchld) k in
  (ZBool (bool_decide (is_Some r)), k).

Definition bridge_del_member (ifname ifchld : string) k : zval * K :=
  let '(r, k) := ioctl_SIOCSDRVSPEC (if_name ifname) BRDGDEL (bridge_req ifchld) k in
  (ZBool (bool_decide (is_Some r)), k).

(** [if (value < 0) { value = -value; flags &= ~(int)value; } else flags |= (int)value;] *)
Definition change_flags (flags value : Z) : Z :=
  if value <? 0 then Z.land flags (Z.lnot (i32 (i64 (- value)))) else Z.lor flags (i32 value).

Definition bridge_member_flags (ifname ifchld : string) (flags : Z) k : zval * K :=
  let '(r, k) := ioctl_SIOCGDRVSPEC (if_name ifname) BRDGGIFFLGS (bridge_req ifchld) k in
  match r with
  | None => (ZBool false, k)
  | Some req =>
      let req := {| ifbr_ifsname := ifbr_ifsname req;
                    ifbr_ifsflags := u32 (change_flags (ifbr_ifsflags req) flags);
                    ifbr_others := ifbr_others req |} in
      let '(r, k) := ioctl_SIOCSDRVSPEC (if_name ifname) BRDGSIFFLGS req k in
      (ZBool (bool_decide (is_Some r)), k)
  end.

(** ** Creation, names *)

(** [interface_create(ifname, op, &str, return_value)]: the name of the new interface, or the error. *)
Definition interface_create_op (op : string -> K -> option string * K) (ifname : string) k : zval * K :=
  let '(r, k) := op (if_name ifname) k in
  match r with
  | None => (php_error "Could not create interface", k)
  | Some name => (ZStr (c_str name), k)
  end.

Definition interface_create (ifname : string) k : zval * K := interface_create_op ioctl_SIOCIFCREATE ifname k.
Definition interface_create2 (ifname : string) k : zval * K := interface_create_op ioctl_SIOCIFCREATE2 ifname k.

Definition interface_destroy (ifname : string) k : zval * K :=
  request (ZBool true) (php_error "Could not destroy interface") (ioctl_SIOCIFDESTROY (if_name ifname) k).

Definition interface_rename (ifname newifname : string) k : zval * K :=
  request (ZBool true) (php_error "Could not rename interface") (ioctl_SIOCSIFNAME (if_name ifname) (c_str newifname) k).

(** [csock] is the netgraph socket of the module, -1 when there is none. *)
Definition ngctl_name (csock : Z) (ifname newifname : string) k : zval * K :=
  if csock =? -1 then (ZNull, k)
  else request (ZBool true) ZNull (NgNameNode csock (c_str ifname) (c_str newifname) k).

(** ** Addresses *)

(** What the [%u] conversion stores into the [int] [masklen]. *)
Definition scan_u (s : string) : option Z :=
  match scan_number s with
  | Some (neg, v, _) => Some (i32 (if ULONG_MAX <? v then ULONG_MAX else if neg then - v else v))
  | None => None
  end.

(** [htonl(~((1LL << (32 - masklen)) - 1) & 0xffffffff)] *)
Definition mask_of (masklen : Z) : list Z :=
  htonl_bytes (Z.land (Z.lnot (Z.shiftl 1 (32 - masklen) - 1)) 0xffffffff).

(** [*p = '\0'] in the caller's string, [before] being the text in front of the slash. *)
Definition cut_at (ip before : string) : string := before +:+ String "000" (str_drop (S (String.length before)) ip).

(** [FreeSense_interface_setaddress]; also the contents of the argument [ip] after the call. *)
Definition interface_setaddress (ifname ip : string) k : zval * string * K :=
  let set_addr (ip : string) (mask : sockaddr) :=
    match inet_pton (c_str ip) with
    | None => (ZBool false, ip, k)
    | Some a =>
        let '(v, k) := request (ZBool true) (php_error "Could not set interface address")
                         (ioctl_SIOCAIFADDR (if_name ifname) (sin4 a) mask k) in (v, ip, k)
    end in
  match strrchr (c_str ip) "/" with
  | None => set_addr ip (repeat 0 16)
  | Some (before, len) =>
      match scan_u len with
      | Some masklen =>
          if (masklen <? 0) || (32 <? masklen) then (ZBool false, ip, k)
          else set_addr (cut_at ip before) (sin4 (mask_of masklen))
      | None => (ZBool false, ip, k)
      end
  end.

(** The address of a request to remove an IPv6 address: the family is written as [AF_INET]. *)
Definition del_sin6 (a : list Z) : sockaddr := [28; AF_INET; 0; 0; 0; 0; 0; 0] ++ a ++ repeat 0 4.

Definition interface_deladdress (ifname ip : string) k : zval * K :=
  let bad := php_error "Could not delete interface address" in
  if has_char ":" (c_str ip) then
    match inet_pton6 (c_str ip) with
    | None => (ZBool false, k)
    | Some a => request (ZBool true) bad (ioctl_SIOCDIFADDR_IN6 (if_name ifname) (del_sin6 a) k)
    end
  else
    match inet_pton (c_str ip) with
    | None => (ZBool false, k)
    | Some a => request (ZBool true) bad (ioctl_SIOCDIFADDR (if_name ifname) (sin4 a) k)
    end.

(** ** VLANs, MTU, flags, capabilities *)

Definition interface_setpcp (ifname : string) (pcp : Z) k : zval * K :=
  request (ZBool true) (ZBool false) (ioctl_SIOCSLANPCP (if_name ifname) (u16 pcp) k).

Definition vlan_create (ifname parentifname : string) (tag pcp : Z) k : zval * K :=
  let '(ok, k) := ioctl_SIOCSETVLAN (if_name ifname) (if_name parentifname, u16 tag) k in
  if ok then request (ZBool true) ZNull (ioctl_SIOCSVLANPCP (if_name ifname) (u16 pcp) k) else (ZNull, k).

Definition interface_getmtu (ifname : string) k : zval * K :=
  let '(r, k) := ioctl_SIOCGIFMTU (if_name ifname) k in
  (match r with None => ZNull | Some mtu => ZArr [("mtu", ZLong mtu)] end, k).

Definition interface_mtu (ifname : string) (mtu : Z) k : zval * K :=
  request (ZBool true) ZNull (ioctl_SIOCSIFMTU (if_name ifname) (i32 mtu) k).

(** [flags = (ifr.ifr_flags & 0xffff) | (ifr.ifr_flagshigh << 16)], an [int]. *)
Definition flags_word (lo hi : Z) : Z := i32 (Z.lor (Z.land lo 0xffff) (Z.shiftl hi 16)).

(** A [short]. *)
Definition i16 (z : Z) : Z := (z + 2 ^ 15) mod 2 ^ 16 - 2 ^ 15.

Definition interface_flags (ifname : string) (value : Z) k : zval * K :=
  let '(r, k) := ioctl_SIOCGIFFLAGS (if_name ifname) k in
  match r with
  | None => (ZNull, k)
  | Some (lo, hi) =>
      let flags := change_flags (flags_word lo hi) value in
      request (ZBool true) ZNull
        (ioctl_SIOCSIFFLAGS (if_name ifname) (i16 (Z.land flags 0xffff), i16 (Z.shiftr flags 16)) k)
  end.

Definition interface_capabilities (ifname : string) (value : Z) k : zval * K :=
  let '(r, k) := ioctl_SIOCGIFCAP (if_name ifname) k in
  match r with
  | None => (ZNull, k)
  | Some (reqcap, curcap) =>
      let flags := Z.land (change_flags curcap value) reqcap in
      request (ZBool true) ZNull (ioctl_SIOCSIFCAP (if_name ifname) flags k)
  end.
End requests.

(** ** The list of interfaces *)

(** [ifname] is the name of the entry taken last. *)
Fixpoint listget_loop (flags : Z) (ifname : option string) (l : list ifaddrs) : list string :=
  match l with
  | [] => []
  | mb :: l =>
      let up := c_true (Z.land (ifa_flags mb) IFF_UP) in
      if (negb (flags =? 0)) && ((up && (flags <? 0)) || (negb up && (0 <? flags))) then listget_loop flags ifname l
      else if match ifname with Some n => String.eqb n (ifa_name mb) | None => false end
      then listget_loop flags ifname l
      else ifa_name mb :: listget_loop flags (Some (ifa_name mb)) l
  end.

(** [FreeSense_interface_listget] *)
Definition interface_listget (ifdata : option (list ifaddrs)) (flags : Z) : zval :=
  match ifdata with
  | None => ZNull
  | Some l => ZList (map ZStr (listget_loop flags None l))
  end.

(** ** Counters *)

(** net/pfvar.h *)
Definition PF_PASS : nat := 0.
Definition PF_DROP : nat := 1.

(** [struct pfi_kif]: the counters by address family, direction and decision, 64 bits wide. *)
Record pfi_kif : Type := {
  pfik_name : string;
  pfik_packets : nat -> nat -> nat -> Z;
  pfik_bytes : nat -> nat -> nat -> Z
}.

(** [pfi_get_ifaces(dev, filter, buf, &size)]: [DIOCIGETIFACES] fills the buffer for the name; [None] is
    a result other than 0. *)
Definition pfi_get_ifaces (DIOCIGETIFACES : string -> option pfi_kif) (filter : string) : option pfi_kif :=
  if (IFNAMSIZ <=? String.length (c_str filter))%nat then None else DIOCIGETIFACES (if_name filter).

(** The loop of [FreeSense_get_interface_info] over the list of addresses; [None] while [found] is 0. *)
Fixpoint info_loop (ifname : string) (l : list ifaddrs) (val : option (list (string * zval)))
    : outcome (option (list (string * zval))) :=
  match l with
  | [] => Ok val
  | mb :: l =>
      match ifa_addr mb with
      | None => Ok val
      | Some a =>
          if negb (String.eqb ifname (ifa_name mb)) then info_loop ifname l val
          else
            let v := default [] val in
            if sa_family a =? AF_LINK then
              tmpd ← deref (ifa_data mb);
              let v := add_assoc v "inerrs" (ZLong (i64 (ifi_ierrors tmpd))) in
              let v := add_assoc v "outerrs" (ZLong (i64 (ifi_oerrors tmpd))) in
              let v := add_assoc v "collisions" (ZLong (i64 (ifi_collisions tmpd))) in
              let v := add_assoc v "inmcasts" (ZLong (i64 (ifi_imcasts tmpd))) in
              let v := add_assoc v "outmcasts" (ZLong (i64 (ifi_omcasts tmpd))) in
              let v := add_assoc v "unsuppproto" (ZLong (i64 (ifi_noproto tmpd))) in
              let v := add_assoc v "mtu" (ZLong (i64 (ifi_mtu tmpd))) in
              info_loop ifname l (Some v)
            else info_loop ifname l (Some v)
      end
  end.

Definition kif_counters (val : list (string * zval)) (kif : pfi_kif) : list (string * zval) :=
  let packets := pfik_packets kif 0%nat in
  let bytes := pfik_bytes kif 0%nat in
  let put val key n := add_assoc val key (ZLong (i64 (u64 n))) in
  let val := add_assoc val "interface" (ZStr (c_str (pfik_name kif))) in
  let val := put val "inpktspass" (packets 0%nat PF_PASS) in
  let val := put val "outpktspass" (packets 1%nat PF_PASS) in
  let val := put val "inbytespass" (bytes 0%nat PF_PASS) in
  let val := put val "outbytespass" (bytes 1%nat PF_PASS) in
  let val := put val "inpktsblock" (packets 0%nat PF_DROP) in
  let val := put val "outpktsblock" (packets 1%nat PF_DROP) in
  let val := put val "inbytesblock" (bytes 0%nat PF_DROP) in
  let val := put val "outbytesblock" (bytes 1%nat PF_DROP) in
  let val := put val "inbytes" (bytes 0%nat PF_DROP + bytes 0%nat PF_PASS) in
  let val := put val "outbytes" (bytes 1%nat PF_DROP + bytes 1%nat PF_PASS) in
  let val := put val "inpkts" (packets 0%nat PF_DROP + packets 0%nat PF_PASS) in
  put val "outpkts" (packets 1%nat PF_DROP + packets 1%nat PF_PASS).

(** [FreeSense_get_interface_info]; [dev_pf] is whether /dev/pf opens. *)
Definition get_interface_info (dev_pf : bool) (DIOCIGETIFACES : string -> option pfi_kif)
    (ifdata : option (list ifaddrs)) (ifname : string) : outcome zval :=
  if negb dev_pf then Ok ZNull
  else match ifdata with
  | None => Ok ZNull
  | Some ifdata =>
      found ← info_loop ifname ifdata None;
      match found with
      | None => Ok ZNull
      | Some val =>
          match pfi_get_ifaces DIOCIGETIFACES ifname with
          | None => Ok (ZArr val)
          | Some kif => Ok (ZArr (kif_counters val kif))
          end
      end
  end.

(** The conversion of an unsigned 64-bit integer to [double]: 53 bits, to nearest, ties to even. *)
Definition to_double (n : Z) : Z :=
  let e := Z.log2 n - 52 in
  if e <=? 0 then n
  else
    let q := Z.shiftr n e in
    let r := n - Z.shiftl q e in
    let half := Z.shiftl 1 (e - 1) in
    Z.shiftl (if (half <? r) || ((half =? r) && Z.odd q) then q + 1 else q) e.

(** [FreeSense_get_interface_stats]; [sysctl_ifdata] reads [IFMIB_IFDATA] of an interface index. *)
Definition get_interface_stats (if_nametoindex : string -> Z) (sysctl_ifdata : Z -> option if_data)
    (ifname : string) : zval :=
  let ifidx := if_nametoindex (c_str ifname) in
  if ifidx =? 0 then ZNull
  else match sysctl_ifdata ifidx with
  | None => ZNull
  | Some tmpd =>
      let put key n val := add_assoc val key (ZDouble (to_double n)) in
      let val := put "inpkts" (ifi_ipackets tmpd) [] in
      let val := put "inbytes" (ifi_ibytes tmpd) val in
      let val := put "outpkts" (ifi_opackets tmpd) val in
      let val := put "outbytes" (ifi_obytes tmpd) val in
      let val := put "inerrs" (ifi_ierrors tmpd) val in
      let val := put "outerrs" (ifi_oerrors tmpd) val in
      let val := put "collisions" (ifi_collisions tmpd) val in
      let val := put "inmcasts" (ifi_imcasts tmpd) val in
      let val := put "outmcasts" (ifi_omcasts tmpd) val in
      let val := put "unsuppproto" (ifi_noproto tmpd) val in
      ZArr (add_assoc val "mtu" (ZLong (i64 (ifi_mtu tmpd))))
  end.

(** ** Bits of the machine's integers *)

Lemma testbit_cong n a b i : 0 <= i < n -> a mod 2 ^ n = b mod 2 ^ n -> Z.testbit a i = Z.testbit b i.
Proof.
  intros Hi E. rewrite <- (Z.mod_pow2_bits_low a n i), <- (Z.mod_pow2_bits_low b n i) by lia. by rewrite E.
Qed.

Lemma wrap_cong n z : 0 < n -> ((z + 2 ^ (n - 1)) mod 2 ^ n - 2 ^ (n - 1)) mod 2 ^ n = z mod 2 ^ n.
Proof. intros Hn. rewrite Zminus_mod_idemp_l. f_equal. lia. Qed.

Lemma i32_bits z i : 0 <= i < 32 -> Z.testbit (i32 z) i = Z.testbit z i.
Proof. intros Hi. apply (testbit_cong 32); [done|]. apply (wrap_cong 32). lia. Qed.
Lemma i16_bits z i : 0 <= i < 16 -> Z.testbit (i16 z) i = Z.testbit z i.
Proof. intros Hi. apply (testbit_cong 16); [done|]. apply (wrap_cong 16). lia. Qed.
Lemma u32_bits z i : 0 <= i < 32 -> Z.testbit (u32 z) i = Z.testbit z i.
Proof. intros Hi. unfold u32. apply Z.mod_pow2_bits_low. lia. Qed.

Lemma ones_bits n i : 0 <= i < n -> Z.testbit (2 ^ n - 1) i = true.
Proof. intros Hi. replace (2 ^ n - 1) with (Z.ones n) by (rewrite Z.ones_equiv; lia). apply Z.ones_spec_low. lia. Qed.

(** The flags named by a request, and whether it sets or clears them. *)
Definition named (value i : Z) : bool := Z.testbit (Z.abs value) i.

Lemma change_flags_bits flags value i : - 2 ^ 63 < value < 2 ^ 63 -> 0 <= i < 32 ->
  Z.testbit (change_flags flags value) i = if named value i then 0 <=? value else Z.testbit flags i.
Proof.
  intros Hv Hi. unfold change_flags, named. destruct (Z.ltb_spec value 0).
  - rewrite (proj2 (Z.leb_gt 0 value)) by lia. rewrite Z.land_spec, Z.lnot_spec, i32_bits by lia.
    rewrite i64_small by lia. rewrite Z.abs_neq by lia. by destruct (Z.testbit (- value) i); rewrite ?andb_false_r, ?andb_true_r.
  - rewrite (proj2 (Z.leb_le 0 value)) by lia. rewrite Z.lor_spec, i32_bits, Z.abs_eq by lia.
    by destruct (Z.testbit value i); rewrite ?orb_true_r, ?orb_false_r.
Qed.

Lemma flags_word_bits lo hi i : 0 <= i < 32 ->
  Z.testbit (flags_word lo hi) i = if i <? 16 then Z.testbit lo i else Z.testbit hi (i - 16).
Proof.
  intros Hi. unfold flags_word. rewrite i32_bits, Z.lor_spec, Z.land_spec, Z.shiftl_spec by lia.
  destruct (Z.ltb_spec i 16).
  - rewrite (Z.testbit_neg_r hi) by lia. change 0xffff with (2 ^ 16 - 1). rewrite ones_bits by lia.
    by rewrite andb_true_r, orb_false_r.
  - replace (Z.testbit 0xffff i) with false; [by rewrite andb_false_r|].
    symmetry. apply (Z.bits_above_log2 0xffff); [lia|]. change (Z.log2 0xffff) with 15. lia.
Qed.

(** Splitting a word into two shorts and joining them keeps it. *)
Lemma split_flags_bits w i : 0 <= i < 32 ->
  Z.testbit (flags_word (i16 (Z.land w 0xffff)) (i16 (Z.shiftr w 16))) i = Z.testbit w i.
Proof.
  intros Hi. rewrite flags_word_bits by done. destruct (Z.ltb_spec i 16).
  - rewrite i16_bits, Z.land_spec by lia. change 0xffff with (2 ^ 16 - 1). by rewrite ones_bits, andb_true_r by lia.
  - rewrite i16_bits, Z.shiftr_spec by lia. f_equal. lia.
Qed.

(** ** Flags and capabilities *)

(** What netintro(4) says of the two requests for flags: the words the kernel keeps, and the bits that a
    process cannot change.  A request that succeeds gives the interface the other bits as they are in
    the request, and the other interfaces keep theirs.  Of the bits that a process cannot change
    nothing is said: the kernel may change them on its own (running with up, promiscuous mode with the
    request for it). *)
Class IfFlags (K : Type) `{IfCtl K} : Type := {
  if_word : K -> string -> option Z;
  cantchange : Z;
  get_flags : forall n k, ioctl_SIOCGIFFLAGS n k = ((fun w => (i16 w, i16 (Z.shiftr w 16))) <$> if_word k n, k);
  set_flags : forall n lo hi k k', ioctl_SIOCSIFFLAGS n (lo, hi) k = (true, k') ->
    forall m w, if_word k m = Some w ->
    exists w', if_word k' m = Some w' /\
      forall i, 0 <= i < 32 -> Z.testbit cantchange i = false ->
        Z.testbit w' i = Z.testbit (if String.eqb m n then flags_word lo hi else w) i
}.

(** C20. [FreeSense_interface_flags] with a value [v] sets, for [v] positive, or clears, for [v] negative,
    exactly the flags of [|v|] among those a process can change: every other such flag of the interface,
    in both halves of the word, and all such flags of every other interface stay.  (The flags that only
    the kernel changes may follow, as running does up.) *)
Theorem interface_flags_bits {K} `{IfFlags K} (n : string) (value : Z) (k k' : K) (w : Z) :
  - 2 ^ 63 < value < 2 ^ 63 -> if_word k (if_name n) = Some w ->
  interface_flags n value k = (ZBool true, k') ->
  (exists w', if_word k' (if_name n) = Some w' /\
     forall i, 0 <= i < 32 -> Z.testbit cantchange i = false ->
       Z.testbit w' i = if named value i then 0 <=? value else Z.testbit w i) /\
  (forall m v, m <> if_name n -> if_word k m = Some v ->
     exists v', if_word k' m = Some v' /\ forall i, 0 <= i < 32 -> Z.testbit cantchange i = false -> Z.testbit v' i = Z.testbit v i).
Proof.
  intros Hv Hw E. unfold interface_flags in E. rewrite get_flags, Hw in E. cbn [fmap option_fmap option_map] in E.
  destruct (ioctl_SIOCSIFFLAGS _ _ k) as [[] k1] eqn:E1; unfold request in E; cbn in E;
    [injection E as <-|discriminate].
  pose proof (set_flags _ _ _ _ _ E1) as Hset. split.
  - destruct (Hset _ w Hw) as (w' & Ew & Hb). exists w'. split; [done|]. intros i Hi Hc.
    rewrite Hb, String.eqb_refl, split_flags_bits, change_flags_bits by done.
    assert (Hold : Z.testbit (flags_word (i16 w) (i16 (Z.shiftr w 16))) i = Z.testbit w i).
    { rewrite flags_word_bits by done. destruct (Z.ltb_spec i 16); rewrite i16_bits by lia; [done|].
      rewrite Z.shiftr_spec by lia. f_equal. lia. }
    by rewrite Hold.
  - intros m v Hm Hmv. destruct (Hset m v Hmv) as (v' & Ev & Hb). exists v'. split; [done|]. intros i Hi Hc. rewrite Hb by done.
    by apply String.eqb_neq in Hm as ->.
Qed.

(** [FreeSense_interface_capabilities] asks the kernel for the enabled capabilities with those of
    [|v|] added or removed, and never for one the interface does not support. *)
Theorem interface_capabilities_supported {K} `{IfCtl K} (n : string) (value : Z) (k k1 : K) (reqcap curcap : Z) :
  - 2 ^ 63 < value < 2 ^ 63 -> ioctl_SIOCGIFCAP (if_name n) k = (Some (reqcap, curcap), k1) ->
  exists flags, interface_capabilities n value k = request (ZBool true) ZNull (ioctl_SIOCSIFCAP (if_name n) flags k1) /\
    Z.ldiff flags reqcap = 0 /\
    forall i, 0 <= i < 32 ->
      Z.testbit flags i = Z.testbit reqcap i && (if named value i then 0 <=? value else Z.testbit curcap i).
Proof.
  intros Hv E. unfold interface_capabilities. rewrite E. eexists. split; [done|]. split.
  - apply Z.bits_inj'. intros i Hi. rewrite Z.ldiff_spec, Z.land_spec, Z.bits_0. by destruct (Z.testbit reqcap i); rewrite ?andb_false_r.
  - intros i Hi. rewrite Z.land_spec, change_flags_bits by done. apply andb_comm.
Qed.

(** ** Setting an address *)

Definition mask_ok (m : Z) : bool := mask_ones (mask_of m) =? m.

Lemma mask_of_ones m : 0 <= m <= 32 -> mask_ones (mask_of m) = m.
Proof. intros Hm. pose proof (upto_all mask_ok 32 ltac:(vm_compute; reflexivity) m Hm) as E. by apply Z.eqb_eq in E. Qed.

Lemma scan_u_udec m : 0 <= m <= 32 -> scan_u (udec m) = Some m.
Proof.
  intros Hm. unfold scan_u. pose proof (scan_number_sdec m "" ltac:(lia) eq_refl) as E.
  unfold sdec in E. rewrite (proj2 (Z.ltb_ge m 0)), append_nil_r in E by lia. rewrite E, Z.abs_eq by lia.
  unfold ULONG_MAX. rewrite (proj2 (Z.ltb_ge (2 ^ 64 - 1) m)) by lia. f_equal. apply i32_small. lia.
Qed.

Lemma c_str_cut a b : c_str (a +:+ String "000" b) = c_str a.
Proof. induction a as [|d a IH]; [done|]. cbn [c_str String.append]. by rewrite IH. Qed.

Definition octets (a : list Z) : Prop := Forall (fun z => 0 <= z <= 255) a.

Lemma inet_ntoa_no_char c a : is_digit c = false -> Ascii.eqb "." c = false -> octets a -> has_char c (inet_ntoa a) = false.
Proof.
  intros Hc Hd Ha. apply join_with_no_char; [intros ->; by rewrite Ascii.eqb_refl in Hd|]. apply Forall_map. eapply Forall_impl; [exact Ha|].
  intros z Hz. cbn in *. apply udec_no_char; [done|lia].
Qed.

Lemma octets_4 a : octets a -> length a = 4%nat -> inet_pton (inet_ntoa a) = Some a.
Proof. intros Ha Hl. destruct a as [|x [|y [|z [|t [|]]]]]; try done. by apply inet_pton_ntoa. Qed.

Lemma setaddress_eq {K} `{IfCtl K} (n : string) (a : list Z) (m : Z) (k : K) :
  octets a -> length a = 4%nat -> 0 <= m <= 32 ->
  mask_ones (mask_of m) = m /\
  interface_setaddress n (inet_ntoa a +:+ String "/" (udec m)) k
  = (let '(ok, k') := ioctl_SIOCAIFADDR (if_name n) (sin4 a) (sin4 (mask_of m)) k in
     (if ok then ZBool true else php_error "Could not set interface address",
      inet_ntoa a +:+ String "000" (udec m), k')).
Proof.
  intros Ha Hl Hm. split; [by apply mask_of_ones|]. unfold interface_setaddress.
  assert (Hplain : has_char "000" (inet_ntoa a +:+ String "/" (udec m)) = false).
  { rewrite has_char_app. rewrite inet_ntoa_no_char by done. cbn [has_char orb].
    rewrite udec_no_char by (done || lia). done. }
  rewrite c_str_plain, strrchr_app by (done || (apply udec_no_char; [done|lia])). cbn beta iota.
  rewrite scan_u_udec by done. rewrite (proj2 (Z.ltb_ge m 0)), (proj2 (Z.ltb_ge 32 m)) by lia. cbn [orb].
  unfold cut_at. rewrite str_drop_cut, c_str_cut, c_str_plain by (by apply inet_ntoa_no_char).
  rewrite octets_4 by done. unfold request. by destruct (ioctl_SIOCAIFADDR _ _ _ k) as [[] k'].
Qed.

(** [FreeSense_interface_setaddress] on the text of an address and a prefix length hands the kernel
    that address and a netmask of exactly that many leading ones; the argument is left with a NUL in
    place of its slash. *)
Theorem interface_setaddress_ok {K} `{IfCtl K} (n : string) (a : list Z) (m : Z) (k : K) :
  octets a -> length a = 4%nat -> 0 <= m <= 32 ->
  mask_ones (mask_of m) = m /\
  interface_setaddress n (inet_ntoa a +:+ String "/" (udec m)) k
  = (let '(ok, k') := ioctl_SIOCAIFADDR (if_name n) (sin4 a) (sin4 (mask_of m)) k in
     (if ok then ZBool true else php_error "Could not set interface address",
      inet_ntoa a +:+ String "000" (udec m), k')).
Proof. apply setaddress_eq. Qed.

(** The slash of the argument of [FreeSense_interface_setaddress] stays cut after a call that
    succeeds: a second call with the same PHP string sets the address with an empty netmask. *)
Theorem interface_setaddress_again {K} `{IfCtl K} (n n2 : string) (a : list Z) (m : Z) (k k1 : K) v ip :
  octets a -> length a = 4%nat -> 0 <= m <= 32 ->
  interface_setaddress n (inet_ntoa a +:+ String "/" (udec m)) k = (v, ip, k1) ->
  interface_setaddress n2 ip k1
  = (let '(ok, k') := ioctl_SIOCAIFADDR (if_name n2) (sin4 a) (repeat 0 16) k1 in
     (if ok then ZBool true else php_error "Could not set interface address", ip, k')).
Proof.
  intros Ha Hl Hm E.
  assert (ip = inet_ntoa a +:+ String "000" (udec m)) as ->.
  { rewrite (proj2 (setaddress_eq n a m k Ha Hl Hm)) in E. by destruct (ioctl_SIOCAIFADDR _ _ _ k); inversion E. }
  unfold interface_setaddress. rewrite c_str_cut, c_str_plain by (by apply inet_ntoa_no_char).
  rewrite strrchr_none by (by apply inet_ntoa_no_char). cbn beta iota.
  rewrite octets_4 by done. unfold request. by destruct (ioctl_SIOCAIFADDR _ _ _ k1) as [[] k'].
Qed.

(** ** Listing *)

(** The entries a call is about: those up for positive flags, those down for negative ones. *)
Definition wanted (flags : Z) (mb : ifaddrs) : bool :=
  let up := c_true (Z.land (ifa_flags mb) IFF_UP) in
  if 0 <? flags then up else if flags <? 0 then negb up else true.

(** The entries of one interface follow each other, as [getifaddrs] lists them. *)
Fixpoint grouped (l : list string) : Prop :=
  match l with
  | [] => True
  | x :: l => (x ∈ l -> head l = Some x) /\ grouped l
  end.

Lemma grouped_skip x y l : grouped (x :: y :: l) -> grouped (x :: l).
Proof.
  intros [Hx [Hy Hl]]. split; [|done]. intros Hin.
  assert (y = x) as -> by (specialize (Hx ltac:(by apply list_elem_of_further)); by inversion Hx). auto.
Qed.

Lemma listget_cons flags last mb l :
  listget_loop flags last (mb :: l)
  = if negb (wanted flags mb) || bool_decide (last = Some (ifa_name mb)) then listget_loop flags last l
    else ifa_name mb :: listget_loop flags (Some (ifa_name mb)) l.
Proof.
  cbn [listget_loop]. unfold wanted. set (up := c_true _).
  assert (E : match last with Some n => String.eqb n (ifa_name mb) | None => false end
              = bool_decide (last = Some (ifa_name mb))).
  { destruct last as [n|]; [|by rewrite bool_decide_eq_false_2]. destruct (String.eqb_spec n (ifa_name mb)) as [-> |Hn].
    - by rewrite bool_decide_eq_true_2.
    - rewrite bool_decide_eq_false_2; [done|]. by intros [= ->]. }
  rewrite E. destruct (Z.eqb_spec flags 0), (Z.ltb_spec 0 flags), (Z.ltb_spec flags 0); try lia; destruct up, (bool_decide _); done.
Qed.

Lemma listget_complete flags l n : forall last, n ∈ map ifa_name (filter (fun mb => wanted flags mb = true) l) ->
  n ∈ listget_loop flags last l \/ last = Some n.
Proof.
  induction l as [|mb l IH]; intros last Hn; [set_solver|]. rewrite listget_cons, filter_cons in *.
  destruct (wanted flags mb) eqn:Ew; cbn [negb orb].
  - rewrite decide_True in Hn by done. cbn in Hn. apply elem_of_cons in Hn as [-> |Hn].
    + case_bool_decide; [by right|left; by apply list_elem_of_here].
    + case_bool_decide; [by apply IH|]. left. destruct (IH (Some (ifa_name mb)) Hn) as [?|[= ->]]; set_solver.
  - rewrite decide_False in Hn by done. by apply IH.
Qed.

Lemma listget_sound flags l n : forall last, n ∈ listget_loop flags last l ->
  n ∈ map ifa_name (filter (fun mb => wanted flags mb = true) l).
Proof.
  induction l as [|mb l IH]; intros last Hn; [by apply not_elem_of_nil in Hn|]. rewrite listget_cons, filter_cons in *.
  destruct (wanted flags mb) eqn:Ew; cbn [negb orb] in *.
  - rewrite decide_True by done. cbn. case_bool_decide; [right; by eapply IH|].
    apply elem_of_cons in Hn as [-> |Hn]; [left|right; by eapply IH].
  - rewrite decide_False by done. by eapply IH.
Qed.

Lemma listget_names flags last l n : n ∈ listget_loop flags last l -> n ∈ map ifa_name l.
Proof.
  intros Hn%listget_sound. apply list_elem_of_fmap_1 in Hn as (mb & -> & Hmb%list_elem_of_filter).
  destruct Hmb. by apply (list_elem_of_fmap_2 ifa_name).
Qed.

Lemma listget_nodup flags l : forall last, grouped (map ifa_name l) ->
  (forall x, last = Some x -> grouped (x :: map ifa_name l)) ->
  NoDup (listget_loop flags last l) /\ (forall x, last = Some x -> x ∉ listget_loop flags last l).
Proof.
  induction l as [|mb l IH]; intros last Hg Hlast.
  { split; [constructor|]. intros x _. apply not_elem_of_nil. }
  rewrite listget_cons. destruct (_ || _) eqn:Eb.
  - apply IH; [by destruct Hg|]. intros x Hx. by eapply grouped_skip, Hlast.
  - apply orb_false_iff in Eb as [_ Hne%bool_decide_eq_false_1].
    destruct (IH (Some (ifa_name mb))) as [Hnd Hy]; [by destruct Hg|by intros x [= <-]|]. split.
    + apply NoDup_cons_2; auto.
    + intros x Hx [-> |Hin]%elem_of_cons; [by destruct Hne|]. apply listget_names in Hin.
      destruct (Hlast x Hx) as [Hh _]. specialize (Hh ltac:(by apply list_elem_of_further)). cbn in Hh.
      injection Hh as Hh. by rewrite Hx, Hh in Hne.
Qed.

(** When the entries of an interface follow each other, [FreeSense_interface_listget] lists every
    interface with the wanted state (up for positive flags, down for negative ones) exactly once. *)
Theorem interface_listget_once (l : list ifaddrs) (flags : Z) :
  grouped (map ifa_name l) ->
  exists names, interface_listget (Some l) flags = ZList (map ZStr names) /\ NoDup names /\
    forall n, n ∈ names <-> exists mb, mb ∈ l /\ ifa_name mb = n /\ wanted flags mb = true.
Proof.
  intros Hg. eexists. split; [done|]. split; [by apply (listget_nodup flags l None)|]. intros n. split.
  - intros Hn%listget_sound. apply list_elem_of_fmap_1 in Hn as (mb & -> & Hmb%list_elem_of_filter). naive_solver.
  - intros (mb & Hmb & <- & Hw). destruct (listget_complete flags l (ifa_name mb) None) as [?|?]; [|done|done].
    apply list_elem_of_fmap_2, list_elem_of_filter. done.
Qed.

(** ** Counters as doubles *)

(** A counter of [FreeSense_get_interface_stats] is off by at most one part in 2^53, and exact below that. *)
Lemma to_double_close n : 0 <= n -> 2 ^ 53 * Z.abs (to_double n - n) <= n /\ (n < 2 ^ 53 -> to_double n = n).
Proof.
  intros Hn. unfold to_double. destruct (Z.leb_spec (Z.log2 n - 52) 0) as [He|He].
  { rewrite Z.sub_diag. split; [done|done]. }
  assert (0 < n) as Hpos by (destruct (Z.eq_dec n 0) as [-> |]; [cbn in He|]; lia).
  pose proof (Z.log2_spec n Hpos) as [Hlo _]. set (e := Z.log2 n - 52) in *.
  assert (Z.log2 n = e + 52) as El by lia. rewrite El, Z.pow_add_r in Hlo by lia.
  assert (2 ^ e = 2 * 2 ^ (e - 1)) as E2 by (rewrite <- Z.pow_succ_r by lia; f_equal; lia).
  pose proof (Z.pow_pos_nonneg 2 (e - 1) ltac:(lia) ltac:(lia)) as Hh.
  rewrite Z.shiftr_div_pow2, !Z.shiftl_mul_pow2, Z.mul_1_l by lia.
  pose proof (Z.div_mod n (2 ^ e) ltac:(lia)) as Hd. pose proof (Z.mod_pos_bound n (2 ^ e) ltac:(lia)) as Hm.
  set (q := n / 2 ^ e) in *. set (r := n mod 2 ^ e) in *.
  replace (n - q * 2 ^ e) with r by lia. split; [|nia].
  destruct ((2 ^ (e - 1) <? r) || (2 ^ (e - 1) =? r) && Z.odd q) eqn:Er.
  - assert (2 ^ (e - 1) <= r).
    { apply orb_true_iff in Er as [?%Z.ltb_lt|[?%Z.eqb_eq _]%andb_true_iff]; lia. }
    rewrite Z.mul_add_distr_r, Z.mul_1_l. replace (q * 2 ^ e + 2 ^ e - n) with (2 ^ e - r) by lia. nia.
  - apply orb_false_iff in Er as [?%Z.ltb_ge _]. replace (q * 2 ^ e - n) with (- r) by lia. nia.
Qed.

(** ** A kernel *)

(** Flags by interface and the requests for addresses. *)
Record demo_kernel : Type := { dk_words : string -> option Z; dk_addrs : list (string * sockaddr * sockaddr) }.

Definition IFF_CANTCHANGE : Z := 0x8f52.

(** A kernel in which an interface runs when it is up. *)
Definition demo_word (w req : Z) : Z :=
  let w := Z.lor (Z.land w IFF_CANTCHANGE) (Z.ldiff req IFF_CANTCHANGE) in
  if Z.testbit req 0 then Z.lor w 0x40 else Z.ldiff w 0x40.

Definition demo_setflags (n : string) (f : Z * Z) (k : demo_kernel) : bool * demo_kernel :=
  match dk_words k n with
  | None => (false, k)
  | Some w =>
      (true, {| dk_words := fun m => if String.eqb m n then Some (demo_word w (flags_word f.1 f.2)) else dk_words k m;
                dk_addrs := dk_addrs k |})
  end.

#[export] Instance demo_ctl : IfCtl demo_kernel := {|
  ioctl_SIOCSDRVSPEC := fun _ _ r k => (Some r, k);
  ioctl_SIOCGDRVSPEC := fun _ _ r k => (Some r, k);
  ioctl_SIOCIFCREATE := fun n k => (Some n, k);
  ioctl_SIOCIFCREATE2 := fun n k => (Some n, k);
  ioctl_SIOCIFDESTROY := fun _ k => (true, k);
  ioctl_SIOCAIFADDR := fun n a m k => (true, {| dk_words := dk_words k; dk_addrs := dk_addrs k ++ [(n, a, m)] |});
  ioctl_SIOCDIFADDR := fun _ _ k => (true, k);
  ioctl_SIOCDIFADDR_IN6 := fun _ _ k => (true, k);
  ioctl_SIOCSIFNAME := fun _ _ k => (true, k);
  ioctl_SIOCSLANPCP := fun _ _ k => (true, k);
  ioctl_SIOCSETVLAN := fun _ _ k => (true, k);
  ioctl_SIOCSVLANPCP := fun _ _ k => (true, k);
  ioctl_SIOCGIFMTU := fun _ k => (Some 1500, k);
  ioctl_SIOCSIFMTU := fun _ _ k => (true, k);
  ioctl_SIOCGIFFLAGS := fun n k => ((fun w => (i16 w, i16 (Z.shiftr w 16))) <$> dk_words k n, k);
  ioctl_SIOCSIFFLAGS := demo_setflags;
  ioctl_SIOCGIFCAP := fun _ k => (Some (0x1b, 0x03), k);
  ioctl_SIOCSIFCAP := fun _ _ k => (true, k);
  NgNameNode := fun _ _ _ k => (true, k);
  inet_pton6 := fun _ => None
|}.

#[export] Program Instance demo_flags : IfFlags demo_kernel := {| if_word := dk_words; cantchange := IFF_CANTCHANGE |}.
Next Obligation. done. Qed.
Next Obligation.
  intros n lo hi k k' E m v Hv. cbn in E. unfold demo_setflags in E. destruct (dk_words k n) as [w|]; [|done].
  injection E as <-. cbn [dk_words fst snd]. destruct (String.eqb m n); [|by exists v]. eexists. split; [done|]. intros i Hi Hc.
  assert (Hr : Z.testbit 0x40 i = false).
  { destruct (Z.eq_dec i 6) as [->|Hne]; [discriminate Hc|]. change 0x40 with (2 ^ 6). apply Z.pow2_bits_false. lia. }
  unfold demo_word. destruct (Z.testbit (flags_word lo hi) 0); rewrite ?Z.lor_spec, ?Z.ldiff_spec, ?Z.lor_spec, ?Z.land_spec, ?Z.ldiff_spec, ?Hc, ?Hr;
    destruct (Z.testbit w i), (Z.testbit (flags_word lo hi) i); done.
Qed.

Definition em0 : demo_kernel := {| dk_words := fun n => if String.eqb n "em0" then Some 0x88c3 else None; dk_addrs := [] |}.

Lemma interface_flags_bits_witness : exists w,
  if_word (interface_flags "em0" (-1) em0).2 "em0" = Some w /\ Z.testbit w 0 = false /\ Z.testbit w 7 = true.
Proof.
  destruct (interface_flags_bits "em0" (-1) em0 (interface_flags "em0" (-1) em0).2 0x88c3) as [(w & E & Hw) _];
    [lia|reflexivity|vm_compute; reflexivity|].
  exists w. split; [exact E|]. split; [exact (Hw 0 ltac:(lia) eq_refl)|exact (Hw 7 ltac:(lia) eq_refl)].
Defined.

Lemma interface_capabilities_supported_witness : exists flags,
  Z.ldiff flags 0x1b = 0 /\ Z.testbit flags 0 = false /\ Z.testbit flags 1 = true.
Proof.
  destruct (interface_capabilities_supported "em0" (-1) em0 em0 0x1b 0x03) as (f & _ & H1 & H2); [lia|reflexivity|].
  exists f. split; [exact H1|]. split; [exact (H2 0 ltac:(lia))|exact (H2 1 ltac:(lia))].
Defined.

Lemma interface_setaddress_ok_witness : exists k,
  interface_setaddress "em0" "10.0.0.1/24" em0 = (ZBool true, "10.0.0.1" +:+ String "000" "24", k) /\
  dk_addrs k = [("em0", sin4 [10; 0; 0; 1], sin4 [255; 255; 255; 0])].
Proof.
  destruct (interface_setaddress_ok "em0" [10; 0; 0; 1] 24 em0) as [_ E]; [repeat constructor; lia|done|lia|].
  eexists. split; [exact E|reflexivity].
Defined.

Lemma interface_setaddress_again_witness : exists ip k1 k2,
  interface_setaddress "em0" "10.0.0.1/24" em0 = (ZBool true, ip, k1) /\
  interface_setaddress "em1" ip k1 = (ZBool true, ip, k2) /\
  dk_addrs k2 = [("em0", sin4 [10; 0; 0; 1], sin4 [255; 255; 255; 0]); ("em1", sin4 [10; 0; 0; 1], repeat 0 16)].
Proof.
  do 3 eexists. split; [reflexivity|].
  split; [exact (interface_setaddress_again "em0" "em1" [10; 0; 0; 1] 24 em0 _ _ _
                   ltac:(repeat constructor; lia) eq_refl ltac:(lia) eq_refl)|reflexivity].
Defined.

Lemma interface_listget_once_witness : exists names,
  interface_listget (Some [entry_named "em0" link_addr; entry_named "em0" (inet 10 0 0 1); entry_named "em1" link_addr]) 0
  = ZList (map ZStr names) /\ NoDup names.
Proof.
  destruct (interface_listget_once [entry_named "em0" link_addr; entry_named "em0" (inet 10 0 0 1); entry_named "em1" link_addr] 0)
    as (names & E & Hnd & _); [|by exists names].
  cbn. split; [done|]. split; [|split; [|done]]; set_solver.
Defined.
