(* ===== verification/PhpStates.v ===== *)
(** The PHP module, FreeSense.c: what scripts are told of pf - its rules ([FreeSense_get_pf_rules]), its
    states with their filters ([FreeSense_append_state], [FreeSense_get_pf_states]) and its statistics
    ([FreeSense_get_pf_stats]). *)
From Stdlib Require Import ZArith Lia Ascii String Btauto.
From stdpp Require Import base list strings numbers.
From S2P Require Import Prelude CProg FdAddr FdTables Fdns Ifmedia PhpIfaddrs PhpPf PhpInterfaces.
Open Scope string_scope.
Open Scope list_scope.
Open Scope Z_scope.

(** [strstr(hay, needle) != NULL] *)
Fixpoint strstr (hay needle : string) : bool :=
  String.prefix needle hay || match hay with "" => false | String _ hay => strstr hay needle end.

(** ** Rules *)

(** [struct pfctl_rule], as far as it is reported; an Ethernet rule has no counts of states and no
    process.  The labels are an array of [PF_RULE_MAX_LABEL_COUNT] strings, unused ones empty. *)
Record pfctl_rule : Type := {
  r_nr : Z;
  r_ridentifier : Z;
  r_evaluations : Z;
  r_packets : Z * Z;
  r_bytes : Z * Z;
  r_states_cur : Z;
  r_states_tot : Z;
  r_cpid : Z;
  r_label : list string
}.

(** [while (rule.label[i][0]) add_next_index_string(&zlabels, rule.label[i++]);] *)
Fixpoint labels_loop (i : Z) (label : list string) : outcome (list string) :=
  match label with
  | [] => Fail (ArrayBounds i)
  | "" :: _ => Ok []
  | l :: label => r ← labels_loop (i + 1) label; Ok (l :: r)
  end.

Definition zrule (rule : pfctl_rule) : outcome zval :=
  let put key n (val : list (string * zval)) := add_assoc val key (ZLong (i64 n)) in
  let val := put "id" (r_nr rule) [] in
  let val := put "tracker" (r_ridentifier rule) val in
  let val := put "ridentifier" (r_ridentifier rule) val in
  let val := put "evaluations" (r_evaluations rule) val in
  let val := put "packets" (u64 ((r_packets rule).1 + (r_packets rule).2)) val in
  let val := put "bytes" (u64 ((r_bytes rule).1 + (r_bytes rule).2)) val in
  let val := put "states" (r_states_cur rule) val in
  let val := put "states_cur" (r_states_cur rule) val in
  let val := put "pid" (r_cpid rule) val in
  let val := put "cpid" (r_cpid rule) val in
  let val := put "state creations" (r_states_tot rule) val in
  let val := put "states_tot" (r_states_tot rule) val in
  labels ← labels_loop 0 (r_label rule);
  Ok (ZArr (add_assoc val "labels" (ZList (map ZStr labels)))).

(** An Ethernet rule. *)
Definition zethrule (rule : pfctl_rule) : outcome zval :=
  let put key n (val : list (string * zval)) := add_assoc val key (ZLong (i64 n)) in
  let val := put "id" (r_nr rule) [] in
  let val := put "tracker" (r_ridentifier rule) val in
  let val := put "ridentifier" (r_ridentifier rule) val in
  let val := put "evaluations" (r_evaluations rule) val in
  let val := put "packets" (u64 ((r_packets rule).1 + (r_packets rule).2)) val in
  let val := put "bytes" (u64 ((r_bytes rule).1 + (r_bytes rule).2)) val in
  labels ← labels_loop 0 (r_label rule);
  Ok (ZArr (add_assoc val "labels" (ZList (map ZStr labels)))).

(** [for (nr = 0; nr < info.nr; nr++)] from [nr], [n] times; [None] when a rule cannot be read. *)
Fixpoint rules_loop (get_rule : Z -> option pfctl_rule) (show : pfctl_rule -> outcome zval) (nr : Z) (n : nat)
    : outcome (option (list zval)) :=
  match n with
  | O => Ok (Some [])
  | S n =>
      match get_rule nr with
      | None => Ok None
      | Some rule =>
          z ← show rule;
          r ← rules_loop get_rule show (nr + 1) n;
          Ok (option_map (cons z) r)
      end
  end.

(** The functions of libpfctl for a ruleset, by path: the number of rules and a ticket, then a rule by
    its number. *)
Record ruleset_ops : Type := {
  get_rules_info : string -> option (Z * Z);
  get_rule : Z -> Z -> string -> option pfctl_rule;
  get_eth_rules_info : string -> option (Z * Z);
  get_eth_rule : Z -> Z -> string -> option pfctl_rule
}.

(** [FreeSense_get_pf_rules] *)
Definition get_pf_rules (dev_pf : bool) (pf : ruleset_ops) (ethrules : bool) (path : string) : outcome zval :=
  let path := c_str path in
  let '(info, get, show) :=
    if ethrules then (get_eth_rules_info pf path, get_eth_rule pf, zethrule)
    else (get_rules_info pf path, get_rule pf, zrule) in
  if negb dev_pf then Ok (ZBool false)
  else match info with
  | None => Ok (ZBool false)
  | Some (nr, ticket) =>
      r ← rules_loop (fun i => get i ticket path) show 0 (Z.to_nat nr);
      Ok (match r with Some l => ZList l | None => ZBool false end)
  end.

(** ** States *)

Record pfctl_state_key : Type := {
  sk_addr0 : pf_addr;
  sk_addr1 : pf_addr;
  sk_port0 : Z;       (* in the order of the host *)
  sk_port1 : Z;
  sk_af : Z;
  sk_proto : Z
}.

(** [struct pfctl_state]; [anchor] and [rule] are 32 bits wide, all ones for none. *)
Record pfctl_state : Type := {
  s_ifname : string;
  s_orig_ifname : string;
  s_rt_ifname : string;
  s_direction : Z;
  s_key_wire : pfctl_state_key;
  s_key_stack : pfctl_state_key;
  s_src_state : Z;
  s_dst_state : Z;
  s_creation : Z;
  s_expire : Z;
  s_packets : Z * Z;
  s_bytes : Z * Z;
  s_anchor : Z;
  s_rule : Z;
  s_id : Z;
  s_creatorid : Z
}.

(** netinet/in.h, net/pfvar.h, netinet/tcp_fsm.h *)
Definition IPPROTO_ICMP : Z := 1.
Definition IPPROTO_TCP : Z := 6.
Definition IPPROTO_UDP : Z := 17.
Definition IPPROTO_ICMPV6 : Z := 58.
Definition PF_IN : Z := 1.
Definition PF_OUT : Z := 2.
Definition TCPS_TIME_WAIT : Z := 10.
Definition PF_TCPS_PROXY_SRC : Z := 11.
Definition PF_TCPS_PROXY_DST : Z := 12.
Definition tcpstates : list string :=
  ["CLOSED"; "LISTEN"; "SYN_SENT"; "SYN_RCVD"; "ESTABLISHED"; "CLOSE_WAIT"; "FIN_WAIT_1"; "CLOSING";
   "LAST_ACK"; "FIN_WAIT_2"; "TIME_WAIT"].
Definition PFUDPS_NSTATES : Z := 3.
Definition PFUDPS_NAMES : list string := ["NO_TRAFFIC"; "SINGLE"; "MULTIPLE"].
Definition PFOTHERS_NSTATES : Z := 3.
Definition PFOTHERS_NAMES : list string := ["NO_TRAFFIC"; "SINGLE"; "MULTIPLE"].
Definition NO_RULE : Z := 0xffffffff.
Definition E2BIG : Z := 7.
Definition EINVAL : Z := 22.

(** [PF_ANEQ] *)
Definition PF_ANEQ (a b : pf_addr) (af : Z) : bool :=
  ((af =? AF_INET) && negb (bool_decide (take 4 a = take 4 b))) ||
  ((af =? AF_INET6) && negb (bool_decide (take 16 a = take 16 b))).

(** Values of PHP as an argument: keys are numbers or strings. *)
Inductive zkey : Type := KLong (n : Z) | KStr (s : string).
Inductive zin : Type :=
  | InArr (l : list (zkey * zin))
  | InStr (s : string)
  | InLong (n : Z)
  | InOther.

(** [struct FreeSense_state_arg]; [a_result] is the array under construction. *)
Record state_arg : Type := {
  a_count : Z;
  a_filter_if : bool;
  a_filter_rl : bool;
  a_zvar : zin;
  a_filter : option string;
  a_result : list zval
}.

(** "%.2u:%.2u:%.2u" of hours, minutes and seconds. *)
Definition hms (t : Z) : string :=
  let sec := t mod 60 in
  let t := t / 60 in
  let min := t mod 60 in
  let t := t / 60 in
  pad0 2 (udec t) +:+ ":" +:+ pad0 2 (udec min) +:+ ":" +:+ pad0 2 (udec sec).

(** [if (a->filter != NULL && !found && strstr(text, a->filter)) found = 1;] *)
Definition note (filter : option string) (found : bool) (text : string) : bool :=
  found || match filter with Some f => strstr text f | None => false end.

(** The text of the levels of the two ends and the names in it a filter is compared with. *)
Definition state_text (proto src dst : Z) : string * list string :=
  let names (l : list string) :=
    let a := nth (Z.to_nat src) l "" in
    let b := nth (Z.to_nat dst) l "" in (a +:+ ":" +:+ b, [a; b]) in
  if proto =? IPPROTO_TCP then
    if (src <=? TCPS_TIME_WAIT) && (dst <=? TCPS_TIME_WAIT) then names tcpstates
    else if (src =? PF_TCPS_PROXY_SRC) || (dst =? PF_TCPS_PROXY_SRC) then ("PROXY:SRC", [])
    else if (src =? PF_TCPS_PROXY_DST) || (dst =? PF_TCPS_PROXY_DST) then ("PROXY:DST", [])
    else ("<BAD STATE LEVELS " +:+ udec src +:+ ":" +:+ udec dst +:+ ">", [])
  else if (proto =? IPPROTO_UDP) && (src <? PFUDPS_NSTATES) && (dst <? PFUDPS_NSTATES) then names PFUDPS_NAMES
  else if negb (proto =? IPPROTO_ICMP) && (src <? PFOTHERS_NSTATES) && (dst <? PFOTHERS_NSTATES) then names PFOTHERS_NAMES
  else (udec src +:+ ":" +:+ udec dst, []).

Section states.
Context `{IfKernel} (getprotobynumber : Z -> option string).

Definition print_host (a : pf_addr) (port af : Z) : string := pf_print_host a port af "" 128.

(** The loop over the filters of [FreeSense_append_state] for one state: [None] is the return of
    [EINVAL], otherwise [found].  A value of another type than the one read is a fault. *)
Fixpoint match_values (filter_if : bool) (s : pfctl_state) (l : list (zkey * zin)) (found : bool) : outcome bool :=
  match l with
  | [] => Ok found
  | (_, v) :: l =>
      m ← (if filter_if then
             match v with InStr t => Ok (strcaseeq (s_orig_ifname s) (c_str t)) | _ => Fail (Oob 0) end
           else if s_rule s =? NO_RULE then Ok false
           else match v with InLong n => Ok (s_rule s =? n) | _ => Fail (Oob 0) end);
      match_values filter_if s l (found || m)
  end.

Fixpoint match_filters (filter_if : bool) (s : pfctl_state) (l : list (zkey * zin)) (found : bool) : outcome (option bool) :=
  match l with
  | [] => Ok (Some found)
  | (_, v) :: l =>
      match v with
      | InArr vs =>
          found ← match_values filter_if s vs found;
          match vs with [] => Ok None | _ => match_filters filter_if s l found end
      | _ => Fail (Oob 0)
      end
  end.

(** The array of a state, and whether the filter occurs in it. *)
Definition state_array (filter : option string) (s : pfctl_state) : list (string * zval) * bool :=
  let proto := sk_proto (s_key_wire s) in
  let icmp := (proto =? IPPROTO_ICMP) || (proto =? IPPROTO_ICMPV6) in
  let out := s_direction s =? PF_OUT in
  let '(src, dst) := if out then (s_src_state s, s_dst_state s) else (s_dst_state s, s_src_state s) in
  let '(sk, nk) := if out then (s_key_stack s, s_key_wire s) else (s_key_wire s, s_key_stack s) in
  let sp0 := if out && icmp then sk_port0 nk else sk_port0 sk in
  let sp1 := if negb out && icmp then sk_port1 nk else sk_port1 sk in
  let afto := negb (sk_af sk =? sk_af nk) in
  let outward := out || (afto && (s_direction s =? PF_IN)) in
  let val := add_assoc [] "if" (ZStr (s_ifname s)) in
  let val := add_assoc val "origif" (ZStr (s_orig_ifname s)) in
  let val := add_assoc val "rt_ifname" (ZStr (s_rt_ifname s)) in
  let '(val, found) :=
    match getprotobynumber proto with
    | Some p_name => (add_assoc val "proto" (ZStr p_name), note filter false p_name)
    | None => (add_assoc val "proto" (ZLong proto), false)
    end in
  let val := add_assoc val "direction" (ZStr (if outward then "out" else "in")) in
  let buf := print_host (sk_addr1 nk) (sk_port1 nk) (sk_af nk) in
  let val := add_assoc val (if outward then "src" else "dst") (ZStr buf) in
  let found := note filter found buf in
  let '(val, found) :=
    if afto || PF_ANEQ (sk_addr1 nk) (sk_addr1 sk) (sk_af nk) || negb (sk_port1 nk =? sp1) then
      let buf := if afto then print_host (sk_addr0 sk) sp0 (sk_af sk) else print_host (sk_addr1 sk) sp1 (sk_af sk) in
      (add_assoc val (if outward then "src-orig" else "dst-orig") (ZStr buf), note filter found buf)
    else (val, found) in
  let buf := print_host (sk_addr0 nk) (sk_port0 nk) (sk_af nk) in
  let val := add_assoc val (if outward then "dst" else "src") (ZStr buf) in
  let found := note filter found buf in
  let '(val, found) :=
    if afto || PF_ANEQ (sk_addr0 nk) (sk_addr0 sk) (sk_af nk) || negb (sk_port0 nk =? sp0) then
      let buf := if afto then print_host (sk_addr1 sk) sp1 (sk_af sk) else print_host (sk_addr0 sk) sp0 (sk_af sk) in
      (add_assoc val (if outward then "dst-orig" else "src-orig") (ZStr buf), note filter found buf)
    else (val, found) in
  let '(text, names) := state_text proto src dst in
  (add_assoc val "state" (ZStr text), fold_left (note filter) names found).

(** The counters and numbers of a state, added when the filter lets it pass. *)
Definition state_counters (s : pfctl_state) (val : list (string * zval)) : list (string * zval) :=
  let dbl key n val := add_assoc val key (ZDouble (to_double n)) in
  let val := add_assoc val "age" (ZStr (hms (s_creation s))) in
  let val := add_assoc val "expires in" (ZStr (hms (s_expire s))) in
  let val := dbl "packets total" (u64 ((s_packets s).1 + (s_packets s).2)) val in
  let val := dbl "packets in" (s_packets s).1 val in
  let val := dbl "packets out" (s_packets s).2 val in
  let val := dbl "bytes total" (u64 ((s_bytes s).1 + (s_bytes s).2)) val in
  let val := dbl "bytes in" (s_bytes s).1 val in
  let val := dbl "bytes out" (s_bytes s).2 val in
  let val := if s_anchor s =? NO_RULE then val else add_assoc val "anchor" (ZLong (s_anchor s)) in
  let val := if s_rule s =? NO_RULE then val else add_assoc val "rule" (ZLong (s_rule s)) in
  let val := add_assoc val "id" (ZStr (pad0 16 (uhex (s_id s)))) in
  add_assoc val "creatorid" (ZStr (pad0 8 (uhex (s_creatorid s)))).

Definition add_count (a : state_arg) : state_arg :=
  {| a_count := a_count a + 1; a_filter_if := a_filter_if a; a_filter_rl := a_filter_rl a; a_zvar := a_zvar a;
     a_filter := a_filter a; a_result := a_result a |}.
Definition add_result (a : state_arg) (z : zval) : state_arg :=
  {| a_count := a_count a; a_filter_if := a_filter_if a; a_filter_rl := a_filter_rl a; a_zvar := a_zvar a;
     a_filter := a_filter a; a_result := a_result a ++ [z] |}.

(** [FreeSense_append_state]: the returned error, 0 to go on, and the argument afterwards. *)
Definition append_state (s : pfctl_state) (a : state_arg) : outcome (Z * state_arg) :=
  if 50000 <? a_count a then Ok (E2BIG, a)
  else
    let a := add_count a in
    m ← (if a_filter_if a || a_filter_rl a then
           match a_zvar a with InArr l => match_filters (a_filter_if a) s l false | _ => Fail (Oob 0) end
         else Ok (Some true));
    match m with
    | None => Ok (EINVAL, a)
    | Some false => Ok (0, a)
    | Some true =>
        let '(val, found) := state_array (a_filter a) s in
        match a_filter a, found with
        | Some _, false => Ok (0, a)
        | _, _ => Ok (0, add_result a (ZArr (state_counters s val)))
        end
    end.

(** [pfctl_get_states_iter]: the callback on every state until it returns an error; [rc] is the error of
    the library itself at the end of the states it could read. *)
Fixpoint states_iter (sts : list pfctl_state) (rc : Z) (a : state_arg) : outcome (Z * state_arg) :=
  match sts with
  | [] => Ok (rc, a)
  | s :: sts => '(e, a) ← append_state s a; if e =? 0 then states_iter sts rc a else Ok (e, a)
  end.

(** The loops of [FreeSense_get_pf_states] over its argument. *)
Record filter_arg : Type := { f_entries : bool; f_if : bool; f_rl : bool; f_filter : option string }.

Fixpoint scan_values (l : list (zkey * zin)) (f : filter_arg) : outcome filter_arg :=
  match l with
  | [] => Ok f
  | (k, v) :: l =>
      match k with
      | KLong _ => Fail (Oob 0)      (* [ZSTR_VAL] of a null pointer *)
      | KStr key =>
          let key := c_str key in
          let f :=
            match v with
            | InStr s =>
                if strcaseeq key "interface" then {| f_entries := true; f_if := true; f_rl := f_rl f; f_filter := f_filter f |}
                else if strcaseeq key "filter" then {| f_entries := true; f_if := f_if f; f_rl := f_rl f; f_filter := Some (c_str s) |}
                else {| f_entries := true; f_if := f_if f; f_rl := f_rl f; f_filter := f_filter f |}
            | InLong _ =>
                if strcaseeq key "ruleid" then {| f_entries := true; f_if := f_if f; f_rl := true; f_filter := f_filter f |}
                else {| f_entries := true; f_if := f_if f; f_rl := f_rl f; f_filter := f_filter f |}
            | _ => {| f_entries := true; f_if := f_if f; f_rl := f_rl f; f_filter := f_filter f |}
            end in
          scan_values l f
      end
  end.

Fixpoint scan_filters (l : list (zkey * zin)) (f : filter_arg) : outcome filter_arg :=
  match l with
  | [] => Ok f
  | (KLong _, InArr vs) :: l => f ← scan_values vs f; scan_filters l f
  | _ :: l => scan_filters l f
  end.

Definition no_filters : filter_arg := {| f_entries := false; f_if := false; f_rl := false; f_filter := None |}.

Definition init_arg (zvar : zin) (f : filter_arg) : state_arg :=
  {| a_count := 0; a_filter_if := f_if f; a_filter_rl := f_rl f; a_zvar := zvar; a_filter := f_filter f; a_result := [] |}.

(** [FreeSense_get_pf_states]; no argument is [InOther]. *)
Definition get_pf_states (sts : list pfctl_state) (rc : Z) (zvar : zin) : outcome zval :=
  f ← (match zvar with
       | InArr l =>
           f ← scan_filters l no_filters;
           Ok (if negb (f_entries f) || (f_if f && f_rl f) then None else Some f)
       | _ => Ok (Some no_filters)
       end);
  match f with
  | None => Ok ZNull
  | Some f =>
      '(ret, a) ← states_iter sts rc (init_arg zvar f);
      Ok (if negb (ret =? 0) && negb (ret =? E2BIG) then ZNull else ZList (a_result a))
  end.
End states.

(** ** Statistics *)

(** What [pfctl_get_status] gives: the counters of pfctl_status_counter and of its three relatives by
    number, and the fields that are reported. *)
Record pfctl_status : Type := {
  st_counter : Z -> Z;
  st_lcounter : Z -> Z;
  st_fcounter : Z -> Z;
  st_scounter : Z -> Z;
  st_running : Z;
  st_states : Z;
  st_src_nodes : Z;
  st_hostid : Z;              (* in the order of the host *)
  st_chksum : list Z;         (* PF_MD5_DIGEST_LENGTH bytes *)
  st_debug : Z;
  st_since : Z
}.

Definition PF_MD5_DIGEST_LENGTH : nat := 16.

(** The table [hex] and the loop that writes the two digits of every byte. *)
Definition hex_digits : string := "0123456789abcdef".
Definition hex_char (d : Z) : ascii := default "?"%char (String.get (Z.to_nat d) hex_digits).

Fixpoint chksum_hex (chksum : list Z) : string :=
  match chksum with
  | [] => ""
  | b :: chksum => String (hex_char (Z.shiftr b 4)) (String (hex_char (Z.land b 15)) (chksum_hex chksum))
  end.

Definition debuglevel (debug : Z) : string :=
  if debug =? 0 then "none" else if debug =? 1 then "urgent" else if debug =? 2 then "misc"
  else if debug =? 3 then "noisy" else "unknown".

(** [day], [hrs], [min] and [sec] are unsigned 32-bit; [statline] holds 80 bytes. *)
Definition uptime (runtime : Z) : string :=
  let day := u32 runtime in
  let sec := day mod 60 in
  let day := day / 60 in
  let min := day mod 60 in
  let day := day / 60 in
  let hrs := day mod 24 in
  let day := day / 24 in
  str_take 79 ("Running: for " +:+ udec day +:+ " days " +:+ pad0 2 (udec hrs) +:+ ":" +:+ pad0 2 (udec min) +:+ ":"
               +:+ pad0 2 (udec sec)).

(** The names of the counters by their numbers in pfvar.h. *)
Definition res_counters : list (string * Z) :=
  [("rulesmatch", 0); ("pullhdrfail", 1); ("fragments", 2); ("shortpacket", 3); ("normalizedrop", 4); ("nomemory", 5);
   ("badtimestamp", 6); ("congestion", 7); ("ipoptions", 8); ("protocksumbad", 9); ("statesbad", 10);
   ("stateinsertions", 11); ("maxstatesdrop", 12); ("srclimitdrop", 13); ("synproxydrop", 14)].
Definition limit_counters : list (string * Z) :=
  [("maxstatesreached", 0); ("maxsrcstatesreached", 1); ("maxsrcnodesreached", 2); ("maxsrcconnreached", 3);
   ("maxsrcconnratereached", 4); ("overloadtable", 5); ("overloadflush", 6)].
Definition state_counts : list (string * Z) := [("statesearch", 0); ("stateinsert", 1); ("stateremovals", 2)].
Definition node_counts : list (string * Z) := [("srcnodessearch", 0); ("srcnodesinsert", 1); ("srcnodesremovals", 2)].

Definition put_counters (get : Z -> Z) (names : list (string * Z)) (val : list (string * zval)) : list (string * zval) :=
  fold_left (fun val p => add_assoc val p.1 (ZLong (i64 (get p.2)))) names val.

(** [FreeSense_get_pf_stats]: [dev_pf] is the error of opening /dev/pf, [status] the answer or its error,
    [now] the time. *)
Definition get_pf_stats (dev_pf : option string) (status : string + pfctl_status) (now : Z) : zval :=
  match dev_pf, status with
  | Some err, _ => php_error err
  | None, inl err => php_error err
  | None, inr st =>
      let val := put_counters (st_counter st) res_counters [] in
      let val := put_counters (st_lcounter st) limit_counters val in
      let val := put_counters (st_fcounter st) state_counts val in
      let val := put_counters (st_scounter st) node_counts val in
      let val := add_assoc val "running" (ZLong (st_running st)) in
      let val := add_assoc val "states" (ZLong (st_states st)) in
      let val := add_assoc val "srcnodes" (ZLong (st_src_nodes st)) in
      let val := add_assoc val "hostid" (ZLong (st_hostid st)) in
      let val := add_assoc val "pfchecksum" (ZStr (chksum_hex (st_chksum st))) in
      let val := add_assoc val "debuglevel" (ZStr (debuglevel (st_debug st))) in
      ZArr (if st_since st =? 0 then val else add_assoc val "uptime" (ZStr (uptime (now - st_since st))))
  end.

(** ** Rules are listed with their labels *)

(** The labels in front of the first unused one. *)
Fixpoint used_labels (label : list string) : list string :=
  match label with
  | [] | "" :: _ => []
  | l :: label => l :: used_labels label
  end.

Lemma labels_loop_used label : forall i, "" ∈ label -> labels_loop i label = Ok (used_labels label).
Proof.
  induction label as [|[|c l] label IH]; intros i Hin; [by apply not_elem_of_nil in Hin|done|].
  apply elem_of_cons in Hin as [|Hin]; [done|]. cbn [labels_loop used_labels]. by rewrite IH.
Qed.

Lemma labels_loop_overrun label : forall i, "" ∉ label -> labels_loop i label = Fail (ArrayBounds (i + Z.of_nat (length label))).
Proof.
  induction label as [|[|c l] label IH]; intros i Hin.
  - cbn. do 2 f_equal. lia.
  - destruct Hin. by apply list_elem_of_here.
  - cbn [labels_loop length]. rewrite IH by (intros ?; apply Hin; by apply list_elem_of_further). cbn. do 2 f_equal. lia.
Qed.

Lemma rules_loop_all get show zs : forall nr,
  (forall i z, zs !! i = Some z -> exists r, get (nr + Z.of_nat i) = Some r /\ show r = Ok z) ->
  rules_loop get show nr (length zs) = Ok (Some zs).
Proof.
  induction zs as [|z zs IH]; intros nr Hall; [done|]. cbn [length rules_loop].
  destruct (Hall 0%nat z eq_refl) as (r & Hr & Hz). rewrite Z.add_0_r in Hr. rewrite Hr, Hz. cbn.
  rewrite IH; [done|]. intros i z' Hi. destruct (Hall (S i) z' Hi) as (r' & Hr' & Hz').
  exists r'. split; [|done]. by replace (nr + 1 + Z.of_nat i) with (nr + Z.of_nat (S i)) by lia.
Qed.

(** ** The filter and the texts it is compared with *)

Definition assoc (k : string) (l : list (string * zval)) : option zval := snd <$> List.find (fun p => String.eqb p.1 k) l.

Definition shows (l : list (string * zval)) (f k : string) : bool :=
  match assoc k l with Some (ZStr t) => strstr t f | _ => false end.

Section filters.
Context `{IfKernel} (getprotobynumber : Z -> option string).

(** The names of the two levels of a state, source first. *)
Definition level_names (s : pfctl_state) : list string :=
  let proto := sk_proto (s_key_wire s) in
  if s_direction s =? PF_OUT then (state_text proto (s_src_state s) (s_dst_state s)).2
  else (state_text proto (s_dst_state s) (s_src_state s)).2.

Lemma fold_note f names b : fold_left (note (Some f)) names b = b || existsb (fun t => strstr t f) names.
Proof. revert b. induction names as [|t names IH]; intros b; cbn; [by rewrite orb_false_r|]. by rewrite IH, orb_assoc. Qed.

Lemma fold_note_none names : fold_left (note None) names false = false.
Proof. by induction names. Qed.

Definition filter_keys : list string := ["proto"; "src"; "src-orig"; "dst"; "dst-orig"].

Lemma state_array_found f s :
  (state_array getprotobynumber (Some f) s).1 = (state_array getprotobynumber None s).1 /\
  (state_array getprotobynumber (Some f) s).2
  = existsb (shows (state_array getprotobynumber None s).1 f) filter_keys || existsb (fun t => strstr t f) (level_names s).
Proof.
  unfold state_array, level_names.
  destruct (s_direction s =? PF_OUT); cbn [orb andb negb];
    (destruct (state_text _ _ _) as [text names]);
    destruct (getprotobynumber _); cbn [fst snd];
    repeat match goal with |- context [if ?b then _ else _] => destruct b eqn:?; cbn [fst snd orb andb] end;
    rewrite fold_note; (split; [done|]); unfold note, filter_keys, shows, assoc; cbn; btauto.
Qed.
End filters.

(** ** The states that are returned *)

Section returned.
Context `{IfKernel} (getprotobynumber : Z -> option string).

(** What a script gets of a state. *)
Definition entry (s : pfctl_state) : zval := ZArr (state_counters s (state_array getprotobynumber None s).1).

(** The filter text occurs in the protocol, a host or a level. *)
Definition text_matches (f : string) (s : pfctl_state) : bool :=
  existsb (shows (state_array getprotobynumber None s).1 f) filter_keys || existsb (fun t => strstr t f) (level_names s).

(** The values of all filters, and when one of them selects a state. *)
Definition values (l : list (zkey * zin)) : list zin :=
  flat_map (fun p => match p.2 with InArr vs => map snd vs | _ => [] end) l.

Definition value_matches (filter_if : bool) (s : pfctl_state) (v : zin) : bool :=
  match v with
  | InStr t => filter_if && strcaseeq (s_orig_ifname s) (c_str t)
  | InLong n => negb filter_if && negb (s_rule s =? NO_RULE) && (s_rule s =? n)
  | _ => false
  end.

(** Filters that are arrays, not empty, of values of the type their kind reads. *)
Definition typed_value (filter_if : bool) (q : zkey * zin) : Prop :=
  match q.2 with InStr _ => filter_if = true | InLong _ => filter_if = false | _ => False end.
Definition typed_filter (filter_if : bool) (p : zkey * zin) : Prop :=
  match p.2 with InArr vs => vs <> [] /\ Forall (typed_value filter_if) vs | _ => False end.

Lemma match_values_ok b s vs found : Forall (typed_value b) vs ->
  match_values b s vs found = Ok (found || existsb (value_matches b s) (map snd vs)).
Proof.
  intros Hty. revert found. induction Hty as [|[k v] vs Hv Hty IH]; intros found; [cbn; by rewrite orb_false_r|].
  cbn [match_values map existsb snd]. unfold typed_value in Hv. cbn in Hv.
  destruct v; try done; subst b; cbn [mbind outcome_bind value_matches andb negb]; [by rewrite IH, orb_assoc|].
  destruct (s_rule s =? NO_RULE); cbn; by rewrite IH, ?orb_false_r, ?orb_assoc.
Qed.

Lemma match_filters_ok b s l found : Forall (typed_filter b) l ->
  match_filters b s l found = Ok (Some (found || existsb (value_matches b s) (values l))).
Proof.
  intros Hty. revert found. induction Hty as [|[k v] l Hv Hty IH]; intros found; [cbn; by rewrite orb_false_r|].
  unfold typed_filter in Hv. cbn in Hv. destruct v as [vs| | |]; try done. destruct Hv as [Hne Hvs].
  cbn [match_filters values flat_map snd]. rewrite match_values_ok by done. cbn [mbind outcome_bind].
  destruct vs as [|q vs]; [done|]. rewrite IH, existsb_app, orb_assoc. done.
Qed.

Definition keep (f : filter_arg) (l : list (zkey * zin)) (s : pfctl_state) : bool :=
  (if f_if f || f_rl f then existsb (value_matches (f_if f) s) (values l) else true)
  && match f_filter f with Some t => text_matches t s | None => true end.

(** The argument of the callback carries the filters [f] of [l]. *)
Definition carries (a : state_arg) (f : filter_arg) (l : list (zkey * zin)) : Prop :=
  a_filter_if a = f_if f /\ a_filter_rl a = f_rl f /\ a_filter a = f_filter f /\
  (f_if f || f_rl f = true -> a_zvar a = InArr l /\ Forall (typed_filter (f_if f)) l).

Lemma filtered_array flt s a :
  (let '(val, found) := state_array getprotobynumber flt s in
   match flt, found with
   | Some _, false => Ok (0, a)
   | _, _ => Ok (0, add_result a (ZArr (state_counters s val)))
   end)
  = Ok (0, if match flt with Some t => text_matches t s | None => true end then add_result a (entry s) else a).
Proof.
  unfold entry, text_matches. destruct flt as [t|]; [|by destruct (state_array _ None s)].
  destruct (state_array_found getprotobynumber t s) as [E1 E2].
  destruct (state_array _ (Some t) s) as [val fnd]. cbn [fst snd] in E1, E2. rewrite <- E2, <- E1. by destruct fnd.
Qed.

Lemma append_state_ok s a f l : carries a f l -> a_count a <= 50000 ->
  append_state getprotobynumber s a
  = Ok (0, if keep f l s then add_result (add_count a) (entry s) else add_count a).
Proof.
  intros (H1 & H2 & H3 & H4) Hc. unfold append_state. rewrite (proj2 (Z.ltb_ge 50000 (a_count a))) by lia.
  cbn [add_count a_filter_if a_filter_rl a_zvar a_filter]. rewrite H1, H2, H3. unfold keep.
  destruct (f_if f || f_rl f) eqn:E.
  - destruct (H4 eq_refl) as [-> Hty]. rewrite match_filters_ok by done. cbn [mbind outcome_bind orb].
    destruct (existsb _ (values l)); cbn [andb]; [|done]. apply filtered_array.
  - cbn [mbind outcome_bind andb]. apply filtered_array.
Qed.

Lemma states_iter_ok rc f l sts : forall a, carries a f l -> a_count a <= 50001 ->
  exists e a', states_iter getprotobynumber sts rc a = Ok (e, a') /\
    e = (if 50001 - a_count a <? Z.of_nat (length sts) then E2BIG else rc) /\
    a_result a' = a_result a ++ map entry (List.filter (keep f l) (take (Z.to_nat (50001 - a_count a)) sts)).
Proof.
  induction sts as [|s sts IH]; intros a Hcar Hc.
  - exists rc, a. rewrite take_nil, app_nil_r. cbn [length]. rewrite (proj2 (Z.ltb_ge _ _)) by lia. done.
  - cbn [states_iter]. destruct (decide (a_count a = 50001)) as [Eq|Hne].
    + unfold append_state. rewrite Eq. cbn [Z.ltb Z.compare Pos.compare Pos.compare_cont mbind outcome_bind].
      eexists _, _. split; [done|]. rewrite Z.sub_diag. cbn [take Z.to_nat]. rewrite app_nil_r.
      rewrite (proj2 (Z.ltb_lt _ _)) by (cbn [length]; lia). done.
    + rewrite append_state_ok with (f := f) (l := l) by (done || lia). cbn [mbind outcome_bind Z.eqb].
      set (a1 := if keep f l s then _ else _).
      assert (carries a1 f l /\ a_count a1 = a_count a + 1 /\
              a_result a1 = a_result a ++ map entry (if keep f l s then [s] else [])) as (C1 & C2 & C3).
      { unfold a1. destruct (keep f l s); cbn; rewrite ?app_nil_r; auto. }
      destruct (IH a1 C1 ltac:(lia)) as (e & a' & E1 & E2 & E3). exists e, a'. split; [exact E1|]. split.
      * rewrite E2, C2. cbn [length]. destruct (Z.ltb_spec (50001 - (a_count a + 1)) (Z.of_nat (length sts)));
          destruct (Z.ltb_spec (50001 - a_count a) (Z.of_nat (S (length sts)))); done || lia.
      * rewrite E3, C3, C2, <- app_assoc. f_equal.
        replace (Z.to_nat (50001 - a_count a)) with (S (Z.to_nat (50001 - (a_count a + 1)))) by lia.
        cbn [take List.filter]. by destruct (keep f l s).
Qed.
End returned.

(** C17. With filters of the types the function reads, [FreeSense_get_pf_states] looks at the first 50001
    states of the kernel (the comment above the test says 50.000; one more passes it) and returns, in
    their order, exactly those that [keep] selects.  With an interface filter these are the states whose
    original interface is, whatever the case of the letters, one of the values of the filter arrays,
    each value of each array being compared; with a rule filter those whose rule is one of these values;
    and with a filter text those in whose protocol, hosts or levels, as they are shown, it occurs. *)
Theorem get_pf_states_filtered `{IfKernel} getprotobynumber (sts : list pfctl_state) (rc : Z)
    (l : list (zkey * zin)) (f : filter_arg) :
  scan_filters l no_filters = Ok f -> f_entries f = true -> f_if f && f_rl f = false ->
  (f_if f || f_rl f = true -> Forall (typed_filter (f_if f)) l) ->
  rc = 0 \/ 50001 < Z.of_nat (length sts) ->
  get_pf_states getprotobynumber sts rc (InArr l)
  = Ok (ZList (map (entry getprotobynumber) (List.filter (keep getprotobynumber f l) (take (Z.to_nat 50001) sts)))).
Proof.
  intros Hscan Hent Hboth Hty Hrc. unfold get_pf_states. rewrite Hscan. cbn [mbind outcome_bind].
  rewrite Hent, Hboth. cbn [negb orb].
  destruct (states_iter_ok getprotobynumber rc f l sts (init_arg (InArr l) f)) as (e & a' & E1 & E2 & E3).
  { repeat split; auto. } { cbn. lia. }
  rewrite E1. cbn [mbind outcome_bind]. rewrite E3. cbn [init_arg a_result app a_count] in *. rewrite Z.sub_0_r in *.
  assert (negb (e =? 0) && negb (e =? E2BIG) = false) as ->; [|done].
  subst e. destruct (Z.ltb_spec 50001 (Z.of_nat (length sts))); [done|]. destruct Hrc as [-> |]; [done|lia].
Qed.

(** Without filters: the first 50001 states, in the order of the kernel. *)
Lemma get_pf_states_all `{IfKernel} getprotobynumber sts rc :
  rc = 0 \/ 50001 < Z.of_nat (length sts) ->
  get_pf_states getprotobynumber sts rc InOther = Ok (ZList (map (entry getprotobynumber) (take (Z.to_nat 50001) sts))).
Proof.
  intros Hrc. unfold get_pf_states. cbn [mbind outcome_bind].
  destruct (states_iter_ok getprotobynumber rc no_filters [] sts (init_arg InOther no_filters)) as (e & a' & E1 & E2 & E3).
  { unfold carries. cbn. naive_solver. } { cbn. lia. }
  rewrite E1. cbn [mbind outcome_bind]. rewrite E3. cbn [init_arg a_result app a_count] in *. rewrite Z.sub_0_r in *.
  replace (List.filter (keep getprotobynumber no_filters []) (take (Z.to_nat 50001) sts)) with (take (Z.to_nat 50001) sts).
  - assert (negb (e =? 0) && negb (e =? E2BIG) = false) as ->; [|done].
    subst e. destruct (Z.ltb_spec 50001 (Z.of_nat (length sts))); [done|]. destruct Hrc as [-> |]; [done|lia].
  - clear. symmetry. induction (take _ sts) as [|s l IH]; [done|]. cbn [List.filter].
    change (keep _ _ _ s) with true. cbn iota. by rewrite IH.
Qed.

(** ** Rules *)

Definition shows_rule (r : pfctl_rule) (z : zval) : Prop :=
  exists val, z = ZArr val /\ assoc "id" val = Some (ZLong (i64 (r_nr r))) /\
    assoc "tracker" val = Some (ZLong (i64 (r_ridentifier r))) /\
    assoc "labels" val = Some (ZList (map ZStr (used_labels (r_label r)))).

Lemma zrule_ok r : "" ∈ r_label r -> exists z, zrule r = Ok z /\ shows_rule r z.
Proof.
  intros Hl. unfold zrule. rewrite labels_loop_used by done. cbn [mbind outcome_bind]. eexists. split; [done|].
  eexists. split; [done|]. repeat split.
Qed.
Lemma zethrule_ok r : "" ∈ r_label r -> exists z, zethrule r = Ok z /\ shows_rule r z.
Proof.
  intros Hl. unfold zethrule. rewrite labels_loop_used by done. cbn [mbind outcome_bind]. eexists. split; [done|].
  eexists. split; [done|]. repeat split.
Qed.

Lemma show_all (show : pfctl_rule -> outcome zval) rules :
  (forall r, "" ∈ r_label r -> exists z, show r = Ok z /\ shows_rule r z) -> Forall (fun r => "" ∈ r_label r) rules ->
  exists zs, Forall2 (fun r z => show r = Ok z /\ shows_rule r z) rules zs.
Proof.
  intros Hshow. induction 1 as [|r rules Hr _ (zs & IH)]; [by exists []|].
  destruct (Hshow r Hr) as (z & Hz). exists (z :: zs). by constructor.
Qed.

(** [FreeSense_get_pf_rules], for packet and for Ethernet rules, lists every rule of the ruleset in its
    order with its number, its tracker and the labels in front of the first unused one, when every rule
    can be read and has an unused label. *)
Theorem get_pf_rules_listed (pf : ruleset_ops) (eth : bool) (path : string) (ticket : Z) (rules : list pfctl_rule) :
  (if eth then get_eth_rules_info pf else get_rules_info pf) (c_str path) = Some (Z.of_nat (length rules), ticket) ->
  (forall i r, rules !! i = Some r ->
     (if eth then get_eth_rule pf else get_rule pf) (Z.of_nat i) ticket (c_str path) = Some r /\ "" ∈ r_label r) ->
  exists zs, get_pf_rules true pf eth path = Ok (ZList zs) /\ Forall2 shows_rule rules zs.
Proof.
  intros Hinfo Hget.
  assert (exists zs, Forall2 (fun r z => (if eth then zethrule else zrule) r = Ok z /\ shows_rule r z) rules zs) as (zs & Hzs).
  { apply show_all; [destruct eth; [apply zethrule_ok|apply zrule_ok]|]. apply Forall_lookup. intros i r Hi. by apply (Hget i). }
  exists zs. split; [|eapply Forall2_impl; [|exact Hzs]; by intros r z [_ ?]].
  assert (Hlen : length rules = length zs) by (by eapply Forall2_length).
  assert (Hloop : rules_loop (fun i => (if eth then get_eth_rule pf else get_rule pf) i ticket (c_str path))
                    (if eth then zethrule else zrule) 0 (length zs) = Ok (Some zs)).
  { apply rules_loop_all. intros i z Hi. destruct (Forall2_lookup_r _ _ _ _ _ Hzs Hi) as (r & Hr & Hz & _).
    exists r. split; [|done]. by apply (Hget i). }
  unfold get_pf_rules. destruct eth; rewrite Hinfo; cbn [negb mbind outcome_bind]; rewrite Nat2Z.id, Hlen, Hloop; done.
Qed.

(** A rule that uses every one of its labels makes [FreeSense_get_pf_rules] read behind the array of
    labels: the loop that copies them has no other end than an empty label. *)
Theorem get_pf_rules_label_overrun (pf : ruleset_ops) (path : string) (nr ticket : Z) (r : pfctl_rule) :
  0 < nr -> get_rules_info pf (c_str path) = Some (nr, ticket) -> get_rule pf 0 ticket (c_str path) = Some r ->
  "" ∉ r_label r -> get_pf_rules true pf false path = Fail (ArrayBounds (Z.of_nat (length (r_label r)))).
Proof.
  intros Hnr Hinfo Hr Hl. unfold get_pf_rules. rewrite Hinfo. cbn [negb].
  destruct (Z.to_nat nr) as [|n] eqn:En; [lia|]. cbn [rules_loop]. rewrite Hr. unfold zrule.
  by rewrite labels_loop_overrun.
Qed.

(** ** Ages and checksums *)

Lemma dec_value_pad0 w z : 0 <= z < 2 ^ 64 -> dec_value 0 (pad0 w (udec z)) = (z, "").
Proof.
  intros Hz. unfold pad0. rewrite dec_value_zeros. rewrite <- (append_nil_r (udec z)). by apply dec_value_udec.
Qed.

(** The seconds a text of hours, minutes and seconds stands for. *)
Definition hms_value (s : string) : option Z :=
  match map (dec_value 0) (split_at ":" s) with
  | [(h, ""); (m, ""); (s, "")] => if (m <? 60) && (s <? 60) then Some (3600 * h + 60 * m + s) else None
  | _ => None
  end.

Lemma hms_join t : hms t = join_with ":" (map (fun z => pad0 2 (udec z)) [t / 60 / 60; t / 60 mod 60; t mod 60]).
Proof. done. Qed.

(** The ages and the times to live shown for a state are hours, minutes below 60 and seconds below 60
    that add up to the time of the kernel, for every 32-bit time. *)
Theorem hms_roundtrip (t : Z) : 0 <= t < 2 ^ 32 -> hms_value (hms t) = Some t.
Proof.
  intros Ht. pose proof (Z.div_mod t 60 ltac:(lia)). pose proof (Z.div_mod (t / 60) 60 ltac:(lia)).
  pose proof (Z.mod_pos_bound t 60 ltac:(lia)). pose proof (Z.mod_pos_bound (t / 60) 60 ltac:(lia)).
  assert (0 <= t / 60 / 60 < 2 ^ 32) by lia.
  unfold hms_value. rewrite hms_join, split_join; [|done|].
  - cbn [map]. rewrite !dec_value_pad0 by lia. rewrite !(proj2 (Z.ltb_lt _ 60)) by lia. cbn [andb]. f_equal. lia.
  - repeat constructor; (apply pad0_no_char; [done|apply udec_no_char; [done|lia]]).
Qed.

Definition unhex_digit (c : ascii) : Z := if is_digit c then ascii_val c - 48 else ascii_val c - 87.

Fixpoint unhex (s : string) : list Z :=
  match s with
  | String a (String b s) => 16 * unhex_digit a + unhex_digit b :: unhex s
  | _ => []
  end.

Definition hex_ok (d : Z) : bool := unhex_digit (hex_char d) =? d.

Lemma unhex_digit_char d : 0 <= d < 16 -> unhex_digit (hex_char d) = d.
Proof. intros Hd. pose proof (upto_all hex_ok 15 ltac:(vm_compute; reflexivity) d ltac:(lia)) as E. by apply Z.eqb_eq in E. Qed.

(** The checksum of pf's configuration in [FreeSense_get_pf_stats] is its bytes in hexadecimal, two
    lower-case digits each. *)
Theorem chksum_roundtrip (chksum : list Z) : Forall (fun b => 0 <= b < 256) chksum ->
  unhex (chksum_hex chksum) = chksum /\ String.length (chksum_hex chksum) = (2 * length chksum)%nat.
Proof.
  induction 1 as [|b l Hb _ [IH1 IH2]]; [done|]. cbn [chksum_hex unhex String.length length]. rewrite IH1, IH2. split; [|lia].
  change 15 with (2 ^ 4 - 1). rewrite land_pow2_mod, Z.shiftr_div_pow2 by lia.
  change (2 ^ 4) with 16. pose proof (Z.div_mod b 16 ltac:(lia)). pose proof (Z.mod_pos_bound b 16 ltac:(lia)).
  rewrite !unhex_digit_char by lia. f_equal. lia.
Qed.

(** ** Examples *)

Definition demo_key (a b : list Z) (pa pb proto : Z) : pfctl_state_key :=
  {| sk_addr0 := a ++ repeat 0 12; sk_addr1 := b ++ repeat 0 12; sk_port0 := pa; sk_port1 := pb; sk_af := AF_INET;
     sk_proto := proto |}.

Definition demo_state (ifname : string) (a b : list Z) : pfctl_state :=
  {| s_ifname := ifname; s_orig_ifname := ifname; s_rt_ifname := ""; s_direction := PF_OUT;
     s_key_wire := demo_key a b 443 50000 6; s_key_stack := demo_key a b 443 50000 6;
     s_src_state := 4; s_dst_state := 4; s_creation := 3725; s_expire := 86400; s_packets := (10, 12);
     s_bytes := (1000, 1200); s_anchor := NO_RULE; s_rule := 7; s_id := 0x1122; s_creatorid := 0xab |}.

Definition demo_states : list pfctl_state :=
  [demo_state "em0" [10; 0; 0; 1] [10; 0; 0; 2]; demo_state "EM1" [10; 0; 1; 1] [10; 0; 1; 2];
   demo_state "em1" [192; 168; 0; 1] [192; 168; 0; 2]].

Definition demo_filter : list (zkey * zin) :=
  [(KLong 0, InArr [(KStr "interface", InStr "em1")])].

Lemma get_pf_states_filtered_witness :
  exists l, get_pf_states (H := demo_if) (fun p => if p =? 6 then Some "tcp" else None) demo_states 0 (InArr demo_filter)
            = Ok (ZList l) /\ length l = 2%nat.
Proof.
  eexists. split.
  - apply (get_pf_states_filtered (H := demo_if) _ demo_states 0 demo_filter
             {| f_entries := true; f_if := true; f_rl := false; f_filter := None |}); try reflexivity.
    + intros _. repeat constructor; done.
    + by left.
  - vm_compute. reflexivity.
Defined.

Definition demo_rule (labels : list string) : pfctl_rule :=
  {| r_nr := 0; r_ridentifier := 1000; r_evaluations := 5; r_packets := (1, 2); r_bytes := (3, 4); r_states_cur := 0;
     r_states_tot := 9; r_cpid := 100; r_label := labels |}.
Definition demo_ruleset (labels : list string) : ruleset_ops :=
  {| get_rules_info := fun _ => Some (1, 77); get_rule := fun _ _ _ => Some (demo_rule labels);
     get_eth_rules_info := fun _ => None; get_eth_rule := fun _ _ _ => None |}.

Lemma get_pf_rules_listed_witness : exists z,
  get_pf_rules true (demo_ruleset ["USER_RULE"; ""; ""; ""; ""]) false "" = Ok (ZList [z]) /\
  shows_rule (demo_rule ["USER_RULE"; ""; ""; ""; ""]) z.
Proof.
  destruct (get_pf_rules_listed (demo_ruleset ["USER_RULE"; ""; ""; ""; ""]) false "" 77 [demo_rule ["USER_RULE"; ""; ""; ""; ""]])
    as (zs & E & H); [reflexivity| |].
  - intros [|i] r; [|done]. intros [= <-]. split; [done|]. right. left.
  - destruct zs as [|z [|]]; [inversion H| |inversion H as [|? ? ? ? ? H2]; inversion H2].
    exists z. split; [exact E|]. by inversion H.
Defined.

Lemma get_pf_rules_label_overrun_witness :
  get_pf_rules true (demo_ruleset ["a"; "b"; "c"; "d"; "e"]) false "" = Fail (ArrayBounds 5).
Proof.
  apply (get_pf_rules_label_overrun (demo_ruleset ["a"; "b"; "c"; "d"; "e"]) "" 1 77 (demo_rule ["a"; "b"; "c"; "d"; "e"]));
    [lia|reflexivity|reflexivity|].
  intros H. cbn in H. repeat (apply elem_of_cons in H as [H|H]; [done|]). by apply not_elem_of_nil in H.
Defined.

Lemma hms_roundtrip_witness : hms 3725 = "01:02:05" /\ hms_value (hms 3725) = Some 3725.
Proof. split; [reflexivity|apply (hms_roundtrip 3725); lia]. Defined.

Lemma chksum_roundtrip_witness : unhex (chksum_hex [0; 171; 255]) = [0; 171; 255].
Proof. apply (chksum_roundtrip [0; 171; 255]). repeat constructor; lia. Defined.
