(* ===== verification/PhpSwitch.v ===== *)
(** The PHP module, FreeSense.c: the functions for Ethernet switches ([FreeSense_etherswitch_*]), with the
    constants and structures of etherswitch.h.  The driver is a state the requests read and change. *)
From Stdlib Require Import ZArith Lia Ascii String.
From stdpp Require Import base list strings numbers.
From S2P Require Import Prelude CProg FdAddr FdTables Fdns Ifmedia PhpIfaddrs PhpPf PhpInterfaces PhpStates.
Open Scope string_scope.
Open Scope list_scope.
Open Scope Z_scope.

(** ** etherswitch.h *)

Definition ETHERSWITCH_VID_MASK : Z := 0xfff.
Definition ETHERSWITCH_VID_VALID : Z := Z.shiftl 1 12.
Definition ETHERSWITCH_VLAN_ISL : Z := Z.shiftl 1 0.
Definition ETHERSWITCH_VLAN_PORT : Z := Z.shiftl 1 1.
Definition ETHERSWITCH_VLAN_DOT1Q : Z := Z.shiftl 1 2.
Definition ETHERSWITCH_VLAN_DOT1Q_4K : Z := Z.shiftl 1 3.
Definition ETHERSWITCH_VLAN_DOUBLE_TAG : Z := Z.shiftl 1 4.
Definition ETHERSWITCH_CAPS_PORTS_MASK : Z := Z.shiftl 1 0.
Definition ETHERSWITCH_CAPS_LAGG : Z := Z.shiftl 1 1.
Definition ETHERSWITCH_CAPS_PSTATE : Z := Z.shiftl 1 2.
Definition ETHERSWITCH_CONF_VLAN_MODE : Z := Z.shiftl 1 2.
Definition ETHERSWITCH_PSTATE_DISABLED : Z := Z.shiftl 1 0.
Definition ETHERSWITCH_PSTATE_BLOCKING : Z := Z.shiftl 1 1.
Definition ETHERSWITCH_PSTATE_LEARNING : Z := Z.shiftl 1 2.
Definition ETHERSWITCH_PSTATE_FORWARDING : Z := Z.shiftl 1 3.

(** The names of capabilities, port states and port flags, in the order they are tested. *)
Definition vlan_caps : list (Z * string) :=
  [(ETHERSWITCH_VLAN_ISL, "ISL"); (ETHERSWITCH_VLAN_PORT, "PORT"); (ETHERSWITCH_VLAN_DOT1Q, "DOT1Q");
   (ETHERSWITCH_VLAN_DOT1Q_4K, "DOT1Q4K"); (ETHERSWITCH_VLAN_DOUBLE_TAG, "QinQ")].
Definition switch_caps : list (Z * string) :=
  [(ETHERSWITCH_CAPS_PORTS_MASK, "PORTS_MASK"); (ETHERSWITCH_CAPS_LAGG, "LAGG"); (ETHERSWITCH_CAPS_PSTATE, "PSTATE")].
Definition port_states : list (Z * string) :=
  [(ETHERSWITCH_PSTATE_DISABLED, "DISABLED"); (ETHERSWITCH_PSTATE_BLOCKING, "BLOCKING");
   (ETHERSWITCH_PSTATE_LEARNING, "LEARNING"); (ETHERSWITCH_PSTATE_FORWARDING, "FORWARDING")].
Definition port_flags : list (Z * string) :=
  [(Z.shiftl 1 0, "HOST"); (Z.shiftl 1 1, "STRIPTAG"); (Z.shiftl 1 2, "ADDTAG"); (Z.shiftl 1 3, "FIRSTLOCK");
   (Z.shiftl 1 7, "DROPTAGGED"); (Z.shiftl 1 4, "DROPUNTAGGED"); (Z.shiftl 1 5, "QinQ"); (Z.shiftl 1 6, "INGRESS")].

(** [struct etherswitch_info], [_conf], [_laggroup], [_vlangroup], [_port]; [es_others] stands for the
    fields of a port that are handed back as they were read. *)
Record etherswitch_info : Type := {
  es_nports : Z;
  es_nvlangroups : Z;
  es_nlaggroups : Z;
  es_name : string;
  es_vlan_caps : Z;
  es_switch_caps : Z;
  es_ports_mask : list Z
}.
Record etherswitch_conf : Type := { conf_cmd : Z; conf_vlan_mode : Z }.
Record etherswitch_laggroup : Type := {
  lg_valid : Z;
  lg_laggroup : Z;
  lg_member_ports : Z;
  lg_untagged_ports : Z
}.
Record etherswitch_vlangroup : Type := {
  vg_vlangroup : Z;
  vg_vid : Z;
  vg_member_ports : Z;
  vg_untagged_ports : Z;
  vg_fid : Z
}.
Record etherswitch_port : Type := {
  es_port : Z;
  es_pvid : Z;
  es_flags : Z;
  es_state : Z;
  ifm_status : Z;
  ifm_current : Z;
  ifm_active : Z;
  es_others : list Z
}.

Definition IFM_ACTIVE : Z := 0x2.

(** ** The driver *)

(** The requests of etherswitch(4) on an open device; [None] is a result other than 0.  A request for a
    group or a port gets the number of it. *)
Class SwitchCtl (K : Type) : Type := {
  sw_open : string -> K -> bool;
  IOETHERSWITCHGETINFO : string -> K -> option etherswitch_info;
  IOETHERSWITCHGETCONF : string -> K -> option etherswitch_conf;
  IOETHERSWITCHSETCONF : string -> etherswitch_conf -> K -> option K;
  IOETHERSWITCHGETPORT : string -> Z -> K -> option etherswitch_port;
  IOETHERSWITCHSETPORT : string -> etherswitch_port -> K -> option K;
  IOETHERSWITCHGETLAGGROUP : string -> Z -> K -> option etherswitch_laggroup;
  IOETHERSWITCHSETLAGGROUP : string -> etherswitch_laggroup -> K -> option K;
  IOETHERSWITCHGETVLANGROUP : string -> Z -> K -> option etherswitch_vlangroup;
  IOETHERSWITCHSETVLANGROUP : string -> etherswitch_vlangroup -> K -> option K
}.

(** [etherswitch_dev_is_valid]: the unit, negative for an invalid name. *)
Definition etherswitch_dev_is_valid (dev : string) : Z :=
  if (String.length dev <=? 16)%nat || negb (String.eqb (str_take 16 dev) "/dev/etherswitch") then -1
  else match strtol0 (str_drop 16 dev) with Some (unit, "") => i32 unit | _ => -1 end.

(** [if (devlen == 0) dev = "/dev/etherswitch0";] and the name as C reads it. *)
Definition dev_name (dev : string) : string := if String.eqb dev "" then "/dev/etherswitch0" else c_str dev.

(** [1 << port] as an [int]: a shift by 32 and more is not defined. *)
Definition PORTMASK (port : Z) : outcome Z :=
  if (0 <=? port) && (port <? 32) then Ok (i32 (Z.shiftl 1 port)) else Fail (ArrayBounds port).

Section switch.
Context {K : Type} `{SwitchCtl K} `{MediaTables}.
Implicit Types k : K.

(** The device is valid and opens. *)
Definition dev_ok (dev : string) k : bool := (0 <=? etherswitch_dev_is_valid dev) && sw_open dev k.

(** ** Reading *)

(** [for (i = 0; i < info.es_nports; i++)] over a mask of words of 32 bits: the ports in it, as keys. *)
Fixpoint mask_ports (mask : list Z) (i : Z) (n : nat) : outcome (list (string * zval)) :=
  match n with
  | O => Ok []
  | S n =>
      match mask !! Z.to_nat (i / 32) with
      | None => Fail (ArrayBounds (i / 32))
      | Some w =>
          r ← mask_ports mask (i + 1) n;
          Ok (if c_true (Z.land w (Z.shiftl 1 (i mod 32))) then (udec i, ZBool true) :: r else r)
      end
  end.

Definition vlan_mode_name (mode : Z) : string :=
  if mode =? ETHERSWITCH_VLAN_ISL then "ISL" else if mode =? ETHERSWITCH_VLAN_PORT then "PORT"
  else if mode =? ETHERSWITCH_VLAN_DOT1Q then "DOT1Q" else if mode =? ETHERSWITCH_VLAN_DOT1Q_4K then "DOT1Q4K"
  else if mode =? ETHERSWITCH_VLAN_DOUBLE_TAG then "QinQ" else "Unknown".

Definition etherswitch_getinfo (dev : string) k : outcome zval :=
  let dev := dev_name dev in
  if negb (dev_ok dev k) then Ok ZNull
  else match IOETHERSWITCHGETINFO dev k, IOETHERSWITCHGETCONF dev k with
  | Some info, Some conf =>
      let val := add_assoc [] "name" (ZStr (es_name info)) in
      let val := add_assoc val "nports" (ZLong (es_nports info)) in
      let val := add_assoc val "nlaggroups" (ZLong (es_nlaggroups info)) in
      let val := add_assoc val "nvlangroups" (ZLong (es_nvlangroups info)) in
      let val := add_assoc val "caps" (ZArr (add_flags vlan_caps (es_vlan_caps info) [])) in
      let val := add_assoc val "switch_caps" (ZArr (add_flags switch_caps (es_switch_caps info) [])) in
      val ← (if c_true (Z.land (es_switch_caps info) ETHERSWITCH_CAPS_PORTS_MASK) then
               pmask ← mask_ports (es_ports_mask info) 0 (Z.to_nat (es_nports info));
               Ok (add_assoc val "ports_mask" (ZArr pmask))
             else Ok val);
      Ok (ZArr (add_assoc val "vlan_mode" (ZStr (vlan_mode_name (conf_vlan_mode conf)))))
  | _, _ => Ok ZNull
  end.

Definition etherswitch_getport (dev : string) (port : Z) k : outcome zval :=
  let dev := dev_name dev in
  if negb (dev_ok dev k) then Ok ZNull
  else match IOETHERSWITCHGETCONF dev k with
  | None => Ok ZNull
  | Some conf =>
      match IOETHERSWITCHGETPORT dev (i32 port) k with
      | None => Ok ZNull
      | Some p =>
          let val := add_assoc [] "port" (ZLong (es_port p)) in
          let val := if conf_vlan_mode conf =? ETHERSWITCH_VLAN_DOT1Q then add_assoc val "pvid" (ZLong (es_pvid p)) else val in
          let val := add_assoc val "status"
                       (ZStr (if c_true (Z.land (ifm_status p) IFM_ACTIVE) then "active" else "no carrier")) in
          let val := add_assoc val "state" (ZArr (add_flags port_states (es_state p) [])) in
          let val := add_assoc val "flags" (ZArr (add_flags port_flags (es_flags p) [])) in
          current ← print_media_word "" 128 (ifm_current p) true;
          let media := add_assoc [] "current" (ZStr current) in
          media ← (if negb (ifm_active p =? ifm_current p) then
                     active ← print_media_word "" 128 (ifm_active p) false;
                     Ok (add_assoc media "active" (ZStr active))
                   else Ok media);
          Ok (ZArr (add_assoc val "media" (ZArr media)))
      end
  end.

(** The loop over the ports of a group: the key of a port is its number, with "t" behind it when it is
    tagged.  For a link aggregation group there is no suffix. *)
Fixpoint members_loop (suffix : bool) (members untagged i : Z) (n : nat) (val : list (string * zval))
    : outcome (list (string * zval)) :=
  match n with
  | O => Ok val
  | S n =>
      bit ← PORTMASK i;
      let tag := if suffix && negb (c_true (Z.land untagged bit)) then "t" else "" in
      members_loop suffix members untagged (i + 1) n
        (if c_true (Z.land members bit) then add_assoc val (sdec i +:+ tag) (ZLong 1) else val)
  end.

Definition etherswitch_getlaggroup (dev : string) (laggroup : Z) k : outcome zval :=
  let dev := dev_name dev in
  if negb (dev_ok dev k) then Ok ZNull
  else match IOETHERSWITCHGETINFO dev k with
  | None => Ok ZNull
  | Some info =>
      if negb (c_true (Z.land (es_switch_caps info) ETHERSWITCH_CAPS_LAGG)) then Ok ZNull
      else if es_nlaggroups info <=? laggroup then Ok ZNull
      else match IOETHERSWITCHGETLAGGROUP dev (i32 laggroup) k with
      | None => Ok ZNull
      | Some lg =>
          if lg_valid lg =? 0 then Ok ZNull
          else
            members ← members_loop false (lg_member_ports lg) 0 0 (Z.to_nat (es_nports info)) [];
            Ok (ZArr (add_assoc (add_assoc [] "laggroup" (ZLong (lg_laggroup lg))) "members" (ZArr members)))
      end
  end.

Definition etherswitch_getvlangroup (dev : string) (vlangroup : Z) k : outcome zval :=
  let dev := dev_name dev in
  if negb (dev_ok dev k) then Ok ZNull
  else match IOETHERSWITCHGETINFO dev k with
  | None => Ok ZNull
  | Some info =>
      if es_nvlangroups info <=? vlangroup then Ok ZNull
      else match IOETHERSWITCHGETVLANGROUP dev (i32 vlangroup) k with
      | None => Ok ZNull
      | Some vg =>
          if negb (c_true (Z.land (vg_vid vg) ETHERSWITCH_VID_VALID)) then Ok ZNull
          else
            let val := add_assoc [] "vlangroup" (ZLong (vg_vlangroup vg)) in
            let val := add_assoc val "vid" (ZLong (Z.land (vg_vid vg) ETHERSWITCH_VID_MASK)) in
            members ← members_loop true (vg_member_ports vg) (vg_untagged_ports vg) 0 (Z.to_nat (es_nports info)) [];
            Ok (ZArr (add_assoc val "members" (ZArr members)))
      end
  end.

(** ** Changing *)

(** A request that changes the driver: its result and the driver after it. *)
Definition sw_result (ok bad : zval) (r : option K) k : zval * K :=
  match r with Some k' => (ok, k') | None => (bad, k) end.

Definition with_pvid (p : etherswitch_port) (pvid : Z) : etherswitch_port :=
  {| es_port := es_port p; es_pvid := pvid; es_flags := es_flags p; es_state := es_state p; ifm_status := ifm_status p;
     ifm_current := ifm_current p; ifm_active := ifm_active p; es_others := es_others p |}.
Definition with_state (p : etherswitch_port) (state : Z) : etherswitch_port :=
  {| es_port := es_port p; es_pvid := es_pvid p; es_flags := es_flags p; es_state := state; ifm_status := ifm_status p;
     ifm_current := ifm_current p; ifm_active := ifm_active p; es_others := es_others p |}.

Definition etherswitch_setport (dev : string) (port pvid : Z) k : zval * K :=
  let dev := dev_name dev in
  if negb (dev_ok dev k) then (ZBool false, k)
  else match IOETHERSWITCHGETPORT dev (i32 port) k with
  | None => (ZBool false, k)
  | Some p =>
      let p := if (0 <=? pvid) && (pvid <=? 4094) then with_pvid p pvid else p in
      sw_result (ZBool true) (ZBool false) (IOETHERSWITCHSETPORT dev p k) k
  end.

Definition pstate_of (state : string) (old : Z) : Z :=
  if strcaseeq state "forwarding" then ETHERSWITCH_PSTATE_FORWARDING
  else if strcaseeq state "blocking" then ETHERSWITCH_PSTATE_BLOCKING
  else if strcaseeq state "learning" then ETHERSWITCH_PSTATE_LEARNING
  else if strcaseeq state "disabled" then ETHERSWITCH_PSTATE_DISABLED else old.

Definition etherswitch_setport_state (dev : string) (port : Z) (state : string) k : zval * K :=
  if String.eqb state "" then (ZBool false, k)
  else
    let dev := dev_name dev in
    if negb (dev_ok dev k) then (ZBool false, k)
    else match IOETHERSWITCHGETPORT dev (i32 port) k with
    | None => (ZBool false, k)
    | Some p =>
        let p := with_state p (pstate_of (c_str state) (es_state p)) in
        sw_result (ZBool true) (ZBool false) (IOETHERSWITCHSETPORT dev p k) k
    end.

(** The value of "tagged" in the array of a port is a number other than 0. *)
Definition is_tagged (l : list (zkey * zin)) : bool :=
  existsb (fun p => match p with
                    | (KStr key, InLong n) =>
                        (String.length (c_str key) =? 6)%nat && strcaseeq (c_str key) "tagged" && negb (n =? 0)
                    | _ => false
                    end) l.

(** The loop over the argument: the members and the untagged members. *)
Fixpoint parse_ports (nports : Z) (l : list (zkey * zin)) (members untagged : Z) : outcome (Z * Z) :=
  match l with
  | [] => Ok (members, untagged)
  | (KLong lkey, InArr vs) :: l =>
      let port := i32 lkey in
      if (port <? 0) || (nports <=? port) then parse_ports nports l members untagged
      else
        bit ← PORTMASK port;
        parse_ports nports l (Z.lor members bit) (if is_tagged vs then untagged else Z.lor untagged bit)
  | _ :: l => parse_ports nports l members untagged
  end.

Definition ports_of (nports : Z) (zvar : zin) : outcome (Z * Z) :=
  match zvar with InArr l => parse_ports nports l 0 0 | _ => Ok (0, 0) end.

Definition etherswitch_setlaggroup (dev : string) (laggroup : Z) (zvar : zin) k : outcome (zval * K) :=
  if laggroup <? 0 then Ok (ZLong (-1), k)
  else
    let dev := dev_name dev in
    if negb (dev_ok dev k) then Ok (ZLong (-1), k)
    else match IOETHERSWITCHGETINFO dev k with
    | None => Ok (ZLong (-1), k)
    | Some info =>
        if es_nvlangroups info <=? laggroup then Ok (ZLong (-1), k)
        else
          '(members, untagged) ← ports_of (es_nports info) zvar;
          match IOETHERSWITCHGETLAGGROUP dev (i32 laggroup) k with
          | None => Ok (ZLong (-1), k)
          | Some lag =>
              let lag := {| lg_valid := lg_valid lag; lg_laggroup := lg_laggroup lag; lg_member_ports := members;
                            lg_untagged_ports := untagged |} in
              Ok (sw_result (ZLong 0) (ZLong (-1)) (IOETHERSWITCHSETLAGGROUP dev lag k) k)
          end
    end.

(** "Find the first unused vlangroup": [None] for an error of the driver, -1 when none is unused. *)
Fixpoint free_group (dev : string) (i : Z) (n : nat) k : option Z :=
  match n with
  | O => Some (-1)
  | S n =>
      match IOETHERSWITCHGETVLANGROUP dev i k with
      | None => None
      | Some vg => if negb (c_true (Z.land (vg_vid vg) ETHERSWITCH_VID_VALID)) then Some i else free_group dev (i + 1) n k
      end
  end.

Definition etherswitch_setvlangroup (dev : string) (vlangroup vlan : Z) (zvar : zin) k : outcome (zval * K) :=
  if c_true (Z.land vlan (Z.lnot ETHERSWITCH_VID_MASK)) then Ok (ZLong (-1), k)
  else if (vlangroup =? -1) && (vlan =? 0) then Ok (ZLong (-1), k)
  else
    let dev := dev_name dev in
    if negb (dev_ok dev k) then Ok (ZLong (-1), k)
    else match IOETHERSWITCHGETINFO dev k with
    | None => Ok (ZLong (-1), k)
    | Some info =>
        if negb (vlangroup =? -1) && (es_nvlangroups info <=? vlangroup) then Ok (ZLong (-1), k)
        else
          '(members, untagged) ← (if vlan =? 0 then Ok (0, 0) else ports_of (es_nports info) zvar);
          let group := if vlangroup =? -1 then free_group dev 0 (Z.to_nat (es_nvlangroups info)) k else Some vlangroup in
          match group with
          | None => Ok (ZLong (-1), k)
          | Some vlangroup =>
              if vlangroup =? -1 then Ok (ZLong (-1), k)
              else match IOETHERSWITCHGETVLANGROUP dev (i32 vlangroup) k with
              | None => Ok (ZLong (-1), k)
              | Some vg =>
                  let vg := {| vg_vlangroup := vg_vlangroup vg; vg_vid := i32 vlan; vg_member_ports := members;
                               vg_untagged_ports := untagged; vg_fid := vg_fid vg |} in
                  Ok (sw_result (ZLong vlangroup) (ZLong (-1)) (IOETHERSWITCHSETVLANGROUP dev vg k) k)
              end
          end
    end.

Definition vlan_mode_of (mode : string) : Z :=
  if strcaseeq mode "isl" then ETHERSWITCH_VLAN_ISL
  else if strcaseeq mode "port" then ETHERSWITCH_VLAN_PORT
  else if strcaseeq mode "dot1q" then ETHERSWITCH_VLAN_DOT1Q
  else if strcaseeq mode "dot1q4k" then ETHERSWITCH_VLAN_DOT1Q_4K
  else if strcaseeq mode "qinq" then ETHERSWITCH_VLAN_DOUBLE_TAG else 0.

Definition etherswitch_setmode (dev mode : string) k : zval * K :=
  if String.eqb mode "" then (ZLong (-1), k)
  else
    let dev := dev_name dev in
    if negb (dev_ok dev k) then (ZLong (-1), k)
    else match IOETHERSWITCHGETINFO dev k with
    | None => (ZLong (-1), k)
    | Some _ =>
        sw_result (ZLong 0) (ZLong (-1))
          (IOETHERSWITCHSETCONF dev {| conf_cmd := ETHERSWITCH_CONF_VLAN_MODE; conf_vlan_mode := vlan_mode_of (c_str mode) |} k) k
    end.
End switch.

(** ** Groups of ports *)

(** Port [p] is listed by the argument, and listed without a tag. *)
Definition lists_port (l : list (zkey * zin)) (p : Z) : bool :=
  existsb (fun e => match e with (KLong key, InArr _) => i32 key =? p | _ => false end) l.
Definition lists_untagged (l : list (zkey * zin)) (p : Z) : bool :=
  existsb (fun e => match e with (KLong key, InArr vs) => (i32 key =? p) && negb (is_tagged vs) | _ => false end) l.

Lemma PORTMASK_small p : 0 <= p < 31 -> PORTMASK p = Ok (2 ^ p).
Proof.
  intros Hp. unfold PORTMASK. rewrite (proj2 (Z.leb_le 0 p)), (proj2 (Z.ltb_lt p 32)) by lia. cbn [andb].
  rewrite Z.shiftl_1_l. f_equal. apply i32_small. pose proof (pow2_le p 30 ltac:(lia)). pose proof (pow2_pos p ltac:(lia)). lia.
Qed.

Lemma lor_pow2_testbit m p q : 0 <= p -> 0 <= q -> Z.testbit (Z.lor m (2 ^ p)) q = Z.testbit m q || (p =? q).
Proof. intros Hp Hq. by rewrite Z.lor_spec, Z.pow2_bits_eqb. Qed.

Lemma parse_ports_bits nports l : nports <= 31 -> forall m u, 0 <= m -> 0 <= u ->
  exists m' u', parse_ports nports l m u = Ok (m', u') /\ 0 <= m' /\ 0 <= u' /\
    forall p, 0 <= p < nports ->
      Z.testbit m' p = Z.testbit m p || lists_port l p /\ Z.testbit u' p = Z.testbit u p || lists_untagged l p.
Proof.
  intros Hn. induction l as [|[key v] l IH]; intros m u Hm Hu.
  { exists m, u. split; [done|]. split; [done|]. split; [done|]. intros p _. by rewrite !orb_false_r. }
  assert (Hskip : forall m u, 0 <= m -> 0 <= u ->
            (forall p, 0 <= p < nports -> match (key, v) with (KLong key, InArr _) => i32 key =? p | _ => false end = false) ->
            exists m' u', parse_ports nports l m u = Ok (m', u') /\ 0 <= m' /\ 0 <= u' /\
            forall p, 0 <= p < nports ->
              Z.testbit m' p = Z.testbit m p || lists_port ((key, v) :: l) p /\
              Z.testbit u' p = Z.testbit u p || lists_untagged ((key, v) :: l) p).
  { intros m1 u1 Hm1 Hu1 Hno. destruct (IH m1 u1 Hm1 Hu1) as (m' & u' & E & H1 & H2 & H3). exists m', u'.
    split; [done|]. split; [done|]. split; [done|]. intros p Hp. specialize (Hno p Hp).
    unfold lists_port, lists_untagged. cbn [existsb]. destruct key as [n|], v; try (by apply H3). rewrite Hno. by apply H3. }
  cbn [parse_ports]. destruct key as [n|]; [|by apply Hskip]. destruct v as [vs| | |]; try (by apply Hskip).
  destruct ((i32 n <? 0) || (nports <=? i32 n)) eqn:Eout.
  { apply Hskip; [done..|]. intros p Hp. apply Z.eqb_neq. apply orb_true_iff in Eout as [?%Z.ltb_lt|?%Z.leb_le]; lia. }
  apply orb_false_iff in Eout as [H1%Z.ltb_ge H2%Z.leb_gt]. rewrite PORTMASK_small by lia. cbn [mbind outcome_bind].
  pose proof (pow2_pos (i32 n) H1) as Hpos.
  destruct (IH (Z.lor m (2 ^ i32 n)) (if is_tagged vs then u else Z.lor u (2 ^ i32 n))) as (m' & u' & E & P1 & P2 & P3).
  { apply Z.lor_nonneg; lia. } { destruct (is_tagged vs); [done|apply Z.lor_nonneg; lia]. }
  exists m', u'. split; [done|]. split; [done|]. split; [done|]. intros p Hp. destruct (P3 p Hp) as [-> ->].
  unfold lists_port, lists_untagged. cbn [existsb]. rewrite lor_pow2_testbit by lia. split; [by rewrite orb_assoc|].
  destruct (is_tagged vs); cbn [negb]; rewrite ?andb_false_r, ?andb_true_r, ?lor_pow2_testbit, <- ?orb_assoc by lia; done.
Qed.

(** ** Listing a group *)

Definition port_key (suffix : bool) (untagged p : Z) : string :=
  sdec p +:+ (if suffix && negb (Z.testbit untagged p) then "t" else "").

Lemma port_key_value suffix u p : 0 <= p < 2 ^ 31 -> exists tag, dec_value 0 (port_key suffix u p) = (p, tag).
Proof.
  intros Hp. exists (if suffix && negb (Z.testbit u p) then "t" else ""). unfold port_key, sdec.
  rewrite (proj2 (Z.ltb_ge p 0)) by lia. apply dec_value_udec; [lia|]. by destruct (suffix && _).
Qed.

Definition ports (m : Z) (i : Z) (n : nat) : list Z := List.filter (Z.testbit m) (seqZ i (Z.of_nat n)).

Lemma members_loop_ports suffix m u n : 0 <= m -> 0 <= u -> forall i val, 0 <= i -> i + Z.of_nat n <= 31 ->
  Forall (fun kv => exists j tag, 0 <= j < i /\ dec_value 0 kv.1 = (j, tag)) val ->
  members_loop suffix m u i n val = Ok (val ++ map (fun p => (port_key suffix u p, ZLong 1)) (ports m i n)).
Proof.
  intros Hm Hu. induction n as [|n IH]; intros i val Hi Hn Hval; [by rewrite app_nil_r|].
  cbn [members_loop]. rewrite PORTMASK_small by lia. cbn [mbind outcome_bind]. rewrite !c_true_testbit by lia.
  unfold ports. rewrite (seqZ_cons i) by lia. cbn [List.filter].
  replace (Z.pred (Z.of_nat (S n))) with (Z.of_nat n) by lia. fold (ports m (Z.succ i) n).
  destruct (port_key_value suffix u i ltac:(lia)) as (tag & Htag).
  assert (Hval' : Forall (fun kv : string * zval => exists j t, 0 <= j < i + 1 /\ dec_value 0 kv.1 = (j, t)) val).
  { eapply Forall_impl; [|exact Hval]. intros kv (j & t & Hj & E). exists j, t. split; [lia|done]. }
  destruct (Z.testbit m i).
  - change (sdec i +:+ (if suffix && negb (Z.testbit u i) then "t" else "")) with (port_key suffix u i).
    rewrite add_assoc_fresh.
    + rewrite IH; [|lia|lia|].
      * rewrite <- app_assoc. done.
      * apply Forall_app. split; [exact Hval'|]. constructor; [|constructor]. exists i, tag. split; [lia|done].
    + intros Hin. apply list_elem_of_fmap_1 in Hin as (kv & E & Hkv). apply list_elem_of_In in Hkv. rewrite Forall_forall in Hval.
      destruct (Hval kv Hkv) as (j & t & Hj & Ej). rewrite <- E, Htag in Ej. injection Ej as ->. lia.
  - by rewrite IH by (done || lia).
Qed.

(** ** Setting a group and reading it back *)

(** What the driver promises for VLAN groups: a group that was set reads back as it was written, marked
    valid when it has a VLAN; the other groups, the switch and its device do not change. *)
Class SwitchGroups (K : Type) `{SwitchCtl K} : Prop := {
  get_group_number : forall dev g k vg, IOETHERSWITCHGETVLANGROUP dev g k = Some vg -> vg_vlangroup vg = g;
  set_group_same : forall dev vg k k', IOETHERSWITCHSETVLANGROUP dev vg k = Some k' ->
    sw_open dev k' = sw_open dev k /\ IOETHERSWITCHGETINFO dev k' = IOETHERSWITCHGETINFO dev k;
  set_group_get : forall dev vg k k' g, IOETHERSWITCHSETVLANGROUP dev vg k = Some k' ->
    IOETHERSWITCHGETVLANGROUP dev g k'
    = if g =? vg_vlangroup vg
      then Some {| vg_vlangroup := g; vg_vid := if vg_vid vg =? 0 then 0 else Z.lor (vg_vid vg) ETHERSWITCH_VID_VALID;
                   vg_member_ports := vg_member_ports vg; vg_untagged_ports := vg_untagged_ports vg; vg_fid := vg_fid vg |}
      else IOETHERSWITCHGETVLANGROUP dev g k
}.

Lemma vid_fits vlan : c_true (Z.land vlan (Z.lnot ETHERSWITCH_VID_MASK)) = false -> vlan < 4096.
Proof.
  intros Emask. unfold c_true in Emask. apply negb_false_iff, Z.eqb_eq in Emask.
  destruct (Z.lt_ge_cases vlan 4096) as [|Hge]; [done|]. exfalso.
  pose proof (Z.log2_le_mono (2 ^ 12) vlan ltac:(lia)) as Hl. rewrite Z.log2_pow2 in Hl by lia.
  pose proof (f_equal (fun x => Z.testbit x (Z.log2 vlan)) Emask) as Hb. cbn beta in Hb.
  rewrite Z.land_spec, Z.bit_log2, Z.lnot_spec, Z.bits_0 in Hb by lia.
  change ETHERSWITCH_VID_MASK with (Z.ones 12) in Hb. by rewrite Z.ones_spec_high in Hb by lia.
Qed.

(** A valid VLAN reads back without the mark. *)
Lemma vid_marked vlan : 0 < vlan < 4096 ->
  Z.land (Z.lor vlan ETHERSWITCH_VID_VALID) ETHERSWITCH_VID_MASK = vlan /\
  c_true (Z.land (Z.lor vlan ETHERSWITCH_VID_VALID) ETHERSWITCH_VID_VALID) = true.
Proof.
  intros Hv. split.
  - rewrite Z.land_lor_distr_l. change (Z.land ETHERSWITCH_VID_VALID ETHERSWITCH_VID_MASK) with 0.
    rewrite Z.lor_0_r. change ETHERSWITCH_VID_MASK with (2 ^ 12 - 1). rewrite land_pow2_mod by lia. apply Z.mod_small. lia.
  - change ETHERSWITCH_VID_VALID with (2 ^ 12). rewrite c_true_testbit by (lia || (apply Z.lor_nonneg; lia)).
    by rewrite lor_pow2_testbit, Z.eqb_refl, orb_true_r by lia.
Qed.

Section groups.
Context {K : Type} `{SwitchGroups K}.

Lemma free_group_spec dev k n : forall i r, free_group dev i n k = Some r -> 0 <= i -> r <> -1 ->
  i <= r < i + Z.of_nat n /\
  (exists vg, IOETHERSWITCHGETVLANGROUP dev r k = Some vg /\ Z.land (vg_vid vg) ETHERSWITCH_VID_VALID = 0) /\
  (forall j, i <= j < r -> exists vg, IOETHERSWITCHGETVLANGROUP dev j k = Some vg /\ Z.land (vg_vid vg) ETHERSWITCH_VID_VALID <> 0).
Proof.
  induction n as [|n IH]; intros i r E Hi Hr; cbn [free_group] in E; [congruence|].
  destruct (IOETHERSWITCHGETVLANGROUP dev i k) as [vg|] eqn:Eg; [|done].
  destruct (c_true _) eqn:Ec; cbn [negb] in E.
  - destruct (IH (i + 1) r E ltac:(lia) Hr) as (H1 & H2 & H3). split; [lia|]. split; [done|].
    intros j Hj. destruct (Z.eq_dec j i) as [-> |]; [|apply H3; lia]. exists vg. split; [done|].
    unfold c_true in Ec. by apply negb_true_iff, Z.eqb_neq in Ec.
  - injection E as <-. split; [lia|]. split; [|intros; lia]. exists vg. split; [done|].
    unfold c_true in Ec. by apply negb_false_iff, Z.eqb_eq in Ec.
Qed.

(** A call that succeeds: the group, the members it writes. *)
Lemma setvlangroup_inv dev g vlan l k k' r info :
  IOETHERSWITCHGETINFO (dev_name dev) k = Some info -> es_nports info <= 31 -> es_nvlangroups info < 2 ^ 31 ->
  0 < vlan -> 0 <= r -> etherswitch_setvlangroup dev g vlan (InArr l) k = Ok (ZLong r, k') ->
  dev_ok (dev_name dev) k = true /\ vlan < 4096 /\ r < es_nvlangroups info /\
  (if g =? -1 then free_group (dev_name dev) 0 (Z.to_nat (es_nvlangroups info)) k = Some r else r = g) /\
  exists m u fid, parse_ports (es_nports info) l 0 0 = Ok (m, u) /\
    IOETHERSWITCHSETVLANGROUP (dev_name dev)
      {| vg_vlangroup := r; vg_vid := vlan; vg_member_ports := m; vg_untagged_ports := u; vg_fid := fid |} k = Some k'.
Proof.
  intros Hinfo Hports Hgroups Hvlan Hr E. unfold etherswitch_setvlangroup in E.
  destruct (c_true (Z.land vlan _)) eqn:Emask; [injection E as Hz _; lia|].
  rewrite (proj2 (Z.eqb_neq vlan 0)), andb_false_r in E by lia.
  destruct (dev_ok (dev_name dev) k); cbn [negb] in E; [|injection E as Hz _; lia]. rewrite Hinfo in E.
  destruct (negb (g =? -1) && (es_nvlangroups info <=? g)) eqn:Eg; [injection E as Hz _; lia|].
  cbn [ports_of] in E. destruct (parse_ports_bits (es_nports info) l Hports 0 0 ltac:(lia) ltac:(lia)) as (m & u & Ep & _).
  rewrite Ep in E. cbn [mbind outcome_bind] in E.
  destruct (if g =? -1 then _ else _) as [r'|] eqn:Egr; [|injection E as Hz _; lia].
  destruct (Z.eqb_spec r' (-1)) as [|Hr']; [injection E as Hz _; lia|].
  destruct (IOETHERSWITCHGETVLANGROUP _ (i32 r') k) as [vg|] eqn:Evg; [|injection E as Hz _; lia].
  apply get_group_number in Evg. unfold sw_result in E. rewrite Evg in E.
  destruct (IOETHERSWITCHSETVLANGROUP _ _ k) as [k1|] eqn:Es; injection E as Hz <-; [subst r'|lia].
  pose proof (vid_fits vlan Emask) as Hv.
  assert (Hlt : r < es_nvlangroups info /\ (if g =? -1 then free_group (dev_name dev) 0 (Z.to_nat (es_nvlangroups info)) k = Some r else r = g)).
  { destruct (g =? -1); cbn [negb andb] in *.
    - split; [|done]. pose proof (free_group_spec _ _ _ 0 r Egr ltac:(lia) ltac:(lia)) as [? _]. lia.
    - injection Egr as ->. apply Z.leb_gt in Eg. done. }
  destruct Hlt as [Hlt Hg]. rewrite !i32_small in Es by lia. repeat (split; [done|]). by exists m, u, (vg_fid vg).
Qed.
End groups.

(** The members of a group by the keys [FreeSense_etherswitch_getvlangroup] gives them. *)
Definition shown_members (l : list (zkey * zin)) (nports : Z) : list (string * zval) :=
  map (fun p => (sdec p +:+ (if lists_untagged l p then "" else "t"), ZLong 1)) (List.filter (lists_port l) (seqZ 0 nports)).

Lemma shown_members_eq l m u nports : 0 <= nports ->
  (forall p, 0 <= p < nports -> Z.testbit m p = lists_port l p /\ Z.testbit u p = lists_untagged l p) ->
  map (fun p => (port_key true u p, ZLong 1)) (ports m 0 (Z.to_nat nports)) = shown_members l nports.
Proof.
  intros Hn Hbits. unfold shown_members, ports. rewrite Z2Nat.id by lia.
  assert (Hall : Forall (fun p => 0 <= p < nports) (seqZ 0 nports)).
  { apply Forall_forall. intros p Hp. apply list_elem_of_In, elem_of_seqZ in Hp. lia. }
  induction Hall as [|p ps Hp _ IH]; [done|]. destruct (Hbits p Hp) as [E1 E2]. cbn [List.filter]. rewrite E1.
  destruct (lists_port l p); [|done]. cbn [map]. rewrite IH. f_equal. unfold port_key. rewrite E2.
  by destruct (lists_untagged l p).
Qed.

(** C18. A VLAN group set with [FreeSense_etherswitch_setvlangroup], in a group of its own choice or in a
    given one, reads back with [FreeSense_etherswitch_getvlangroup] as the VLAN and exactly the ports of
    the switch the argument lists, each with its tag. *)
Theorem vlangroup_roundtrip {K} `{SwitchGroups K} (dev : string) (g vlan : Z) (l : list (zkey * zin)) (k k' : K) (r : Z)
    (info : etherswitch_info) :
  IOETHERSWITCHGETINFO (dev_name dev) k = Some info -> 0 <= es_nports info <= 31 -> es_nvlangroups info < 2 ^ 31 ->
  0 < vlan -> 0 <= r -> etherswitch_setvlangroup dev g vlan (InArr l) k = Ok (ZLong r, k') ->
  etherswitch_getvlangroup dev r k'
  = Ok (ZArr [("vlangroup", ZLong r); ("vid", ZLong vlan); ("members", ZArr (shown_members l (es_nports info)))]).
Proof.
  intros Hinfo Hports Hgroups Hvlan Hr E.
  destruct (setvlangroup_inv dev g vlan l k k' r info Hinfo ltac:(lia) Hgroups Hvlan Hr E)
    as (Hdev & Hv & Hlt & _ & m & u & fid & Ep & Es).
  destruct (set_group_same _ _ _ _ Es) as [Hopen Hinfo']. pose proof (set_group_get _ _ _ _ r Es) as Hget.
  unfold etherswitch_getvlangroup, dev_ok. rewrite Hopen. fold (dev_ok (dev_name dev) k). rewrite Hdev. cbn [negb].
  rewrite Hinfo', Hinfo, (proj2 (Z.leb_gt _ r)) by lia. rewrite i32_small, Hget by lia. cbn [vg_vlangroup vg_vid].
  rewrite Z.eqb_refl, (proj2 (Z.eqb_neq vlan 0)) by lia. cbn [vg_vlangroup vg_vid vg_member_ports vg_untagged_ports].
  destruct (vid_marked vlan ltac:(lia)) as [-> ->]. cbn [negb].
  destruct (parse_ports_bits (es_nports info) l ltac:(lia) 0 0 ltac:(lia) ltac:(lia)) as (m' & u' & Ep' & Hm & Hu & Hbits).
  rewrite Ep in Ep'. injection Ep' as <- <-. rewrite members_loop_ports by (lia || constructor). cbn [mbind outcome_bind app].
  rewrite (shown_members_eq l); [done|lia|]. intros p Hp. destruct (Hbits p Hp) as [E1 E2].
  rewrite Z.bits_0 in E1, E2. done.
Qed.

(** Asked to choose a group (-1), [FreeSense_etherswitch_setvlangroup] takes the first one that is not
    in use and leaves every other group as it was. *)
Theorem setvlangroup_first_free {K} `{SwitchGroups K} (dev : string) (vlan : Z) (l : list (zkey * zin)) (k k' : K) (r : Z)
    (info : etherswitch_info) :
  IOETHERSWITCHGETINFO (dev_name dev) k = Some info -> 0 <= es_nports info <= 31 -> es_nvlangroups info < 2 ^ 31 ->
  0 < vlan -> 0 <= r -> etherswitch_setvlangroup dev (-1) vlan (InArr l) k = Ok (ZLong r, k') ->
  r < es_nvlangroups info /\
  (exists vg, IOETHERSWITCHGETVLANGROUP (dev_name dev) r k = Some vg /\ Z.land (vg_vid vg) ETHERSWITCH_VID_VALID = 0) /\
  (forall j, 0 <= j < r -> exists vg, IOETHERSWITCHGETVLANGROUP (dev_name dev) j k = Some vg /\
                                     Z.land (vg_vid vg) ETHERSWITCH_VID_VALID <> 0) /\
  (forall j, j <> r -> IOETHERSWITCHGETVLANGROUP (dev_name dev) j k' = IOETHERSWITCHGETVLANGROUP (dev_name dev) j k).
Proof.
  intros Hinfo Hports Hgroups Hvlan Hr E.
  destruct (setvlangroup_inv dev (-1) vlan l k k' r info Hinfo ltac:(lia) Hgroups Hvlan Hr E)
    as (_ & _ & Hlt & Hfree & m & u & fid & _ & Es).
  destruct (free_group_spec _ _ _ 0 r Hfree ltac:(lia) ltac:(lia)) as (_ & H1 & H2). repeat (split; [done|]).
  intros j Hj. rewrite (set_group_get _ _ _ _ j Es). cbn [vg_vlangroup]. by rewrite (proj2 (Z.eqb_neq j r)).
Qed.

(** [FreeSense_etherswitch_setlaggroup] compares the number of a link aggregation group with the number
    of VLAN groups: a group of the switch whose number is not below that, which
    [FreeSense_etherswitch_getlaggroup] reads, is refused. *)
Theorem setlaggroup_wrong_bound {K} `{SwitchCtl K} (dev : string) (lag : Z) (zvar : zin) (k : K)
    (info : etherswitch_info) (lg : etherswitch_laggroup) :
  dev_ok (dev_name dev) k = true -> IOETHERSWITCHGETINFO (dev_name dev) k = Some info ->
  c_true (Z.land (es_switch_caps info) ETHERSWITCH_CAPS_LAGG) = true -> 0 <= es_nports info <= 31 ->
  0 <= es_nvlangroups info <= lag -> lag < es_nlaggroups info < 2 ^ 31 ->
  IOETHERSWITCHGETLAGGROUP (dev_name dev) lag k = Some lg -> lg_valid lg <> 0 -> 0 <= lg_member_ports lg ->
  etherswitch_setlaggroup dev lag zvar k = Ok (ZLong (-1), k) /\
  etherswitch_getlaggroup dev lag k
  = Ok (ZArr [("laggroup", ZLong (lg_laggroup lg));
              ("members", ZArr (map (fun p => (sdec p, ZLong 1)) (ports (lg_member_ports lg) 0 (Z.to_nat (es_nports info)))))]).
Proof.
  intros Hdev Hinfo Hcap Hports Hlow Hhigh Hlg Hvalid Hmem. split.
  - unfold etherswitch_setlaggroup. rewrite (proj2 (Z.ltb_ge lag 0)) by lia. rewrite Hdev, Hinfo. cbn [negb].
    by rewrite (proj2 (Z.leb_le _ lag)) by lia.
  - unfold etherswitch_getlaggroup. rewrite Hdev, Hinfo. cbn [negb]. rewrite Hcap. cbn [negb].
    rewrite (proj2 (Z.leb_gt _ lag)), i32_small, Hlg, (proj2 (Z.eqb_neq _ 0)) by (done || lia).
    rewrite members_loop_ports by (lia || constructor). cbn [mbind outcome_bind app].
    rewrite (map_ext _ (fun p => (sdec p, ZLong 1))); [done|]. intros p. unfold port_key. cbn [andb]. by rewrite append_nil_r.
Qed.

(** ** A switch *)

(** A driver that keeps its VLAN groups: the first ones are in use; five ports, one VLAN group less than
    link aggregation groups. *)
Record demo_switch : Type := { dsw_group : Z -> etherswitch_vlangroup }.

Definition demo_info : etherswitch_info :=
  {| es_nports := 5; es_nvlangroups := 3; es_nlaggroups := 4; es_name := "demo"; es_vlan_caps := 4; es_switch_caps := 2;
     es_ports_mask := [0] |}.

Definition demo_set_group (vg : etherswitch_vlangroup) (k : demo_switch) : demo_switch :=
  {| dsw_group := fun g =>
       if g =? vg_vlangroup vg
       then {| vg_vlangroup := g; vg_vid := if vg_vid vg =? 0 then 0 else Z.lor (vg_vid vg) ETHERSWITCH_VID_VALID;
               vg_member_ports := vg_member_ports vg; vg_untagged_ports := vg_untagged_ports vg; vg_fid := vg_fid vg |}
       else dsw_group k g |}.

Definition with_number (g : Z) (vg : etherswitch_vlangroup) : etherswitch_vlangroup :=
  {| vg_vlangroup := g; vg_vid := vg_vid vg; vg_member_ports := vg_member_ports vg;
     vg_untagged_ports := vg_untagged_ports vg; vg_fid := vg_fid vg |}.

#[export] Instance demo_switch_ctl : SwitchCtl demo_switch := {|
  sw_open := fun dev _ => String.eqb dev "/dev/etherswitch0";
  IOETHERSWITCHGETINFO := fun _ _ => Some demo_info;
  IOETHERSWITCHGETCONF := fun _ _ => Some {| conf_cmd := 0; conf_vlan_mode := 4 |};
  IOETHERSWITCHSETCONF := fun _ _ k => Some k;
  IOETHERSWITCHGETPORT := fun _ _ _ => None;
  IOETHERSWITCHSETPORT := fun _ _ _ => None;
  IOETHERSWITCHGETLAGGROUP := fun _ g _ =>
    Some {| lg_valid := 1; lg_laggroup := g; lg_member_ports := 6; lg_untagged_ports := 0 |};
  IOETHERSWITCHSETLAGGROUP := fun _ _ k => Some k;
  IOETHERSWITCHGETVLANGROUP := fun _ g k => Some (with_number g (dsw_group k g));
  IOETHERSWITCHSETVLANGROUP := fun _ vg k => Some (demo_set_group vg k)
|}.

#[export] Instance demo_switch_groups : SwitchGroups demo_switch.
Proof.
  constructor.
  - by intros dev g k vg [= <-].
  - by intros dev vg k k' [= <-].
  - intros dev vg k k' g [= <-]. cbn. by destruct (g =? vg_vlangroup vg).
Qed.

Definition demo_sw : demo_switch :=
  {| dsw_group := fun g => {| vg_vlangroup := g; vg_vid := if g =? 0 then 0x1001 else 0; vg_member_ports := 0;
                              vg_untagged_ports := 0; vg_fid := 0 |} |}.

Definition demo_ports : list (zkey * zin) :=
  [(KLong 0, InArr [(KStr "tagged", InLong 1)]); (KLong 3, InArr []); (KLong 9, InArr [])].

Lemma vlangroup_roundtrip_witness :
  etherswitch_getvlangroup "" 1 (demo_set_group {| vg_vlangroup := 1; vg_vid := 100; vg_member_ports := 9;
                                                   vg_untagged_ports := 8; vg_fid := 0 |} demo_sw)
  = Ok (ZArr [("vlangroup", ZLong 1); ("vid", ZLong 100); ("members", ZArr [("0t", ZLong 1); ("3", ZLong 1)])]).
Proof. apply (vlangroup_roundtrip "" (-1) 100 demo_ports demo_sw _ 1 demo_info); (reflexivity || (cbn; lia)). Defined.

Lemma setvlangroup_first_free_witness :
  1 < es_nvlangroups demo_info /\
  (exists vg, IOETHERSWITCHGETVLANGROUP "/dev/etherswitch0" 1 demo_sw = Some vg /\ Z.land (vg_vid vg) ETHERSWITCH_VID_VALID = 0) /\
  (forall j, 0 <= j < 1 -> exists vg, IOETHERSWITCHGETVLANGROUP "/dev/etherswitch0" j demo_sw = Some vg /\
                                      Z.land (vg_vid vg) ETHERSWITCH_VID_VALID <> 0).
Proof.
  destruct (setvlangroup_first_free "" 100 demo_ports demo_sw
           (demo_set_group {| vg_vlangroup := 1; vg_vid := 100; vg_member_ports := 9; vg_untagged_ports := 8; vg_fid := 0 |} demo_sw)
           1 demo_info) as (H1 & H2 & H3 & _); [reflexivity || (cbn; lia) ..|]. exact (conj H1 (conj H2 H3)).
Defined.

Lemma setlaggroup_wrong_bound_witness :
  etherswitch_setlaggroup "" 3 (InArr []) demo_sw = Ok (ZLong (-1), demo_sw) /\
  etherswitch_getlaggroup "" 3 demo_sw = Ok (ZArr [("laggroup", ZLong 3); ("members", ZArr [("1", ZLong 1); ("2", ZLong 1)])]).
Proof.
  apply (setlaggroup_wrong_bound "" 3 (InArr []) demo_sw demo_info
           {| lg_valid := 1; lg_laggroup := 3; lg_member_ports := 6; lg_untagged_ports := 0 |}); (reflexivity || (cbn; lia)).
Defined.
