(* ===== verification/PhpSystem.v ===== *)
(** The PHP module, FreeSense.c: the functions that ask the operating system - the ARP table
    ([FreeSense_ip_to_mac]), syncing of files ([FreeSense_fsync]), serial ports
    ([FreeSense_get_modem_devices]), sysctls ([FreeSense_get_os_hw_data], [FreeSense_get_os_kern_data]), the
    kernel's environment ([FreeSense_kenv_dump]) - and the sockets of the module itself. *)
From Stdlib Require Import ZArith Lia Ascii String.
From stdpp Require Import base list strings numbers sets.
From S2P Require Import Prelude CProg Dhcpleases FdAddr FdTables Fdns Ifmedia PhpIfaddrs PhpPf PhpInterfaces PhpStates.
Open Scope string_scope.
Open Scope list_scope.
Open Scope Z_scope.

(** ** The ARP table *)

(** A message of the table: the address, the index of the interface and the hardware address. *)
Record arp_entry : Type := { arp_addr : list Z; arp_index : Z; arp_lladdr : list Z }.

(** The answer to a request for the table with a buffer of a size. *)
Inductive arp_answer : Type :=
  | ArpTable (l : list arp_entry)
  | ArpNoMem              (* ENOMEM: the buffer is too small *)
  | ArpError.             (* any other error *)

Section arp.
Context `{IfKernel} (if_indextoname : Z -> option string).

(** [for (;;)]: the buffer grows by an eighth until the table fits.  The memory for it is always there. *)
Fixpoint arp_fetch (sysctl : Z -> arp_answer) (fuel : nat) (needed : Z) : outcome arp_answer :=
  match fuel with
  | O => Fail NoFuel
  | S fuel =>
      match sysctl needed with
      | ArpNoMem => arp_fetch sysctl fuel (needed + needed / 8)
      | r => Ok r
      end
  end.

(** The loop over the messages. *)
Fixpoint arp_find (rifname : option string) (addr : list Z) (l : list arp_entry) : option arp_entry :=
  match l with
  | [] => None
  | e :: l =>
      let other := match rifname, if_indextoname (arp_index e) with
                   | Some r, Some n => negb (strcmp n r =? 0)
                   | _, _ => false
                   end in
      if other then arp_find rifname addr l
      else if bool_decide (addr = arp_addr e) then Some e else arp_find rifname addr l
  end.

(** [FreeSense_ip_to_mac]; [estimate] is the size of the table.  An error of the second request leaves
    the buffer unwritten, and the loop reads it all the same. *)
Definition ip_to_mac (estimate : option Z) (sysctl : Z -> arp_answer) (fuel : nat) (ip : string) (rifname : option string)
    : outcome zval :=
  match inet_pton (c_str ip) with
  | None => Ok ZNull
  | Some addr =>
      match estimate with
      | None => Ok ZNull
      | Some needed =>
          if needed =? 0 then Ok ZNull
          else
            r ← arp_fetch sysctl fuel needed;
            match r with
            | ArpTable l =>
                match arp_find (c_str <$> rifname) addr l with
                | None => Ok ZNull
                | Some e => Ok (ZArr [("macaddr", ZStr (ether_ntoa (arp_lladdr e)))])
                end
            | _ => Fail (Oob 0)
            end
      end
  end.
End arp.

(** ** Syncing a file *)

(** [dirname(3)] *)
Definition strip_slashes (s : list ascii) : list ascii := (* from the end *)
  (fix strip (l : list ascii) : list ascii :=
     match l with c :: l' => if Ascii.eqb c "/" then strip l' else l | [] => [] end) s.
Definition strip_name (s : list ascii) : list ascii :=
  (fix strip (l : list ascii) : list ascii :=
     match l with c :: l' => if Ascii.eqb c "/" then l else strip l' | [] => [] end) s.
Definition dirname (path : string) : string :=
  match rev (list_ascii_of_string path) with
  | [] => "."
  | r =>
      match strip_slashes r with
      | [] => "/"
      | r =>
          match strip_name r with
          | [] => "."
          | r => match strip_slashes r with [] => "/" | r => string_of_list_ascii (rev r) end
          end
      end
  end.

(** What [open(path, O_RDWR | O_CLOEXEC)] and [fsync] of what was opened give. *)
Record filesystem : Type := { fs_open_rdwr : string -> bool; fs_fsync : string -> bool; fs_isdir : string -> bool }.

(** [FreeSense_fsync]: the result and the files that were synced, in order. *)
Definition php_fsync (fs : filesystem) (fname : string) : zval * list string :=
  if String.eqb fname "" then (ZBool false, [])
  else
    let fname := c_str fname in
    if negb (fs_open_rdwr fs fname) then (ZBool false, [])
    else if negb (fs_fsync fs fname) then (ZBool false, [])
    else
      let parent_dir := dirname fname in
      if negb (fs_open_rdwr fs parent_dir) then (ZBool false, [fname])
      else if negb (fs_fsync fs parent_dir) then (ZBool false, [fname])
      else (ZBool true, [fname; parent_dir]).

(** ** Serial ports *)

Inductive io_result : Type :=
  | IoBytes (n : Z)     (* the count of bytes *)
  | IoAgain             (* EAGAIN *)
  | IoError.

(** A device: whether it opens, whether the three settings succeed, and the results of the calls of
    [write], [poll] and [read] by their number. *)
Record serial_port : Type := {
  sp_open : bool;
  sp_fcntl : bool;
  sp_tcgetattr : bool;
  sp_tcsetattr : bool;
  sp_write : nat -> io_result;
  sp_poll : nat -> Z;
  sp_read : nat -> io_result
}.

(** [while (retries++ < 3)] around [write]: [retries] after the loop, [None] for the jump to the error. *)
Fixpoint write_loop (p : serial_port) (fuel : nat) (retries : Z) (calls : nat) : outcome (option Z) :=
  match fuel with
  | O => Fail NoFuel
  | S fuel =>
      if retries <? 3 then
        match sp_write p calls with
        | IoError => Ok None
        | _ => write_loop p fuel (retries + 1) (S calls)
        end
      else Ok (Some (retries + 1))
  end.

(** From the label tryagain2: whether the device is reported. *)
Fixpoint read_loop (p : serial_port) (fuel : nat) (retries : Z) (calls : nat) : outcome bool :=
  match fuel with
  | O => Fail NoFuel
  | S fuel =>
      if 0 <? sp_poll p calls then
        match sp_read p calls with
        | IoBytes n => Ok (0 <? n)
        | IoAgain => if retries + 1 <? 3 then read_loop p fuel (retries + 1) (S calls) else Ok false
        | IoError => Ok false
        end
      else Ok false
  end.

(** One device that was opened. *)
Definition try_modem (p : serial_port) : outcome bool :=
  if negb (sp_fcntl p) then Ok false
  else if negb (sp_tcgetattr p) then Ok false
  else if negb (sp_tcsetattr p) then Ok false
  else
    r ← write_loop p 4 0 0;
    match r with
    | None => Ok false
    | Some retries => if 3 <=? retries then Ok false else read_loop p 3 0 0
    end.

(** [FreeSense_get_modem_devices]: the array of devices, [paths] being what [glob] found. *)
Fixpoint get_modem_devices (dev : string -> serial_port) (paths : list string) (val : list (string * zval))
    : outcome (list (string * zval)) :=
  match paths with
  | [] => Ok val
  | path :: paths =>
      if strstr path "lock" || strstr path "init" then get_modem_devices dev paths val
      else if negb (sp_open (dev path)) then get_modem_devices dev paths (add_assoc val path (ZStr path))
      else
        match try_modem (dev path) with
        | Fail f => Fail f
        | Ok found => get_modem_devices dev paths (if found then add_assoc val path (ZStr path) else val)
        end
  end.

(** ** Sysctls *)

(** A sysctl that is read: a text (in two requests, for its size and its contents), a number, or the time
    of the boot. *)
Inductive sysctl_kind : Type := SysText | SysInt | SysLong | SysTime.

Definition hw_data : list (string * string * sysctl_kind) :=
  [("hwmachine", "HW_MACHINE", SysText); ("hwmodel", "HW_MODEL", SysText); ("hwarch", "HW_MACHINE_ARCH", SysText);
   ("ncpus", "HW_NCPU", SysInt); ("physmem", "HW_PHYSMEM", SysLong); ("usermem", "HW_USERMEM", SysLong);
   ("realmem", "HW_REALMEM", SysLong)].
Definition kern_data : list (string * string * sysctl_kind) :=
  [("hostuuid", "KERN_HOSTUUID", SysText); ("hostname", "KERN_HOSTNAME", SysText); ("osrelease", "KERN_OSRELEASE", SysText);
   ("oskernel_version", "KERN_VERSION", SysText); ("boottime", "KERN_BOOTTIME", SysTime); ("hostid", "KERN_HOSTID", SysInt);
   ("osreleasedate", "KERN_OSRELDATE", SysInt); ("osrevision", "KERN_OSREV", SysInt);
   ("ossecurelevel", "KERN_SECURELVL", SysInt); ("osreleasedate", "KERN_OSRELDATE", SysInt);
   ("osreleasedate", "KERN_OSRELDATE", SysInt)].

(** What [sysctl] gives for a name: the size of a text and, in the second request, the text; a number. *)
Record sysctls : Type := {
  sysctl_size : string -> option Z;
  sysctl_text : string -> option string;
  sysctl_number : string -> option Z;
  ctime : Z -> string
}.

Definition add_sysctl (sy : sysctls) (val : list (string * zval)) (e : string * string * sysctl_kind) : list (string * zval) :=
  let '(key, name, kind) := e in
  match kind with
  | SysText =>
      match sysctl_size sy name, sysctl_text sy name with
      | Some _, Some s => add_assoc val key (ZStr (c_str s))
      | _, _ => val
      end
  | SysInt => match sysctl_number sy name with Some n => add_assoc val key (ZLong (i32 n)) | None => val end
  | SysLong => match sysctl_number sy name with Some n => add_assoc val key (ZLong (i64 n)) | None => val end
  | SysTime => match sysctl_number sy name with Some n => add_assoc val key (ZStr (ctime sy n)) | None => val end
  end.

Definition get_os_hw_data (sy : sysctls) : zval := ZArr (fold_left (add_sysctl sy) hw_data []).
Definition get_os_kern_data (sy : sysctls) : zval := ZArr (fold_left (add_sysctl sy) kern_data []).

(** ** The kernel's environment *)

(** The loop over the buffer from [bp] on; reading behind the buffer is a fault. *)
Fixpoint kenv_loop (fuel : nat) (bp : string) (val : list (string * zval)) : outcome (list (string * zval)) :=
  match fuel with
  | O => Fail NoFuel
  | S fuel =>
      match bp with
      | "" => Fail (Oob 0)
      | String c _ =>
          if Ascii.eqb c "000" then Ok val
          else if negb (has_char "000" bp) then Fail (Oob 0)
          else
            let entry := c_str bp in
            let next := str_drop (S (String.length entry)) bp in
            match strchr entry "=" with
            | None => kenv_loop fuel next val
            | Some n => kenv_loop fuel next (add_assoc val (str_take n entry) (ZStr (str_drop (S n) entry)))
            end
      end
  end.

(** [FreeSense_kenv_dump]: [dump] is what the kernel writes, [junk] the byte of the buffer behind it, which
    [malloc] leaves as it was. *)
Definition kenv_dump (dump : option string) (junk : ascii) : outcome zval :=
  match dump with
  | None => Ok ZNull
  | Some dump =>
      let buf := dump +:+ String junk "" in
      val ← kenv_loop (S (String.length buf)) buf [];
      Ok (ZArr val)
  end.

(** ** The sockets of the module *)

Record module_globals : Type := { g_s : Z; g_inets : Z; g_inets6 : Z; g_csock : Z }.

(** [PHP_MINIT_FUNCTION]: [sockets] are the results of the three calls of [socket], [netgraph] the socket
    of [NgMkSockNode].  [None] is a failure; also the descriptors that were closed. *)
Definition minit (s inets inets6 : Z) (root : bool) (netgraph : option Z) : option module_globals * list Z :=
  if s <? 0 then (None, [])
  else if inets <? 0 then (None, [s])
  else if inets6 <? 0 then (None, [s; inets])
  else (Some {| g_s := s; g_inets := inets; g_inets6 := inets6; g_csock := if root then default (-1) netgraph else -1 |}, []).

(** [PHP_MSHUTDOWN_FUNCTION]: the descriptors that are closed. *)
Definition mshutdown (g : module_globals) : list Z :=
  List.filter (fun fd => negb (fd =? -1)) [g_csock g; g_inets g; g_inets6 g; g_s g].

(** ** The ARP table is fetched and searched *)

Lemma arp_fetch_enough sysctl big : (forall n, big <= n -> sysctl n <> ArpNoMem) ->
  forall fuel needed, 8 <= needed -> Z.max 0 (big - needed) < Z.of_nat fuel -> exists r, arp_fetch sysctl fuel needed = Ok r /\ r <> ArpNoMem.
Proof.
  intros Hbig. induction fuel as [|fuel IH]; intros needed Hn Hf; cbn [arp_fetch].
  - lia.
  - destruct (sysctl needed) eqn:E; [by eexists| |by eexists].
    destruct (Z.le_gt_cases big needed) as [Hle|Hlt]; [by destruct (Hbig _ Hle)|]. pose proof (Z.div_le_lower_bound needed 8 1 ltac:(lia) ltac:(lia)). apply IH; lia.
Qed.

Lemma arp_find_first if_indextoname rifname addr l :
  arp_find if_indextoname rifname addr l
  = List.find (fun e => bool_decide (addr = arp_addr e) &&
                        match rifname, if_indextoname (arp_index e) with Some r, Some n => String.eqb n r | _, _ => true end) l.
Proof.
  induction l as [|e l IH]; [done|]. cbn [arp_find List.find]. destruct rifname as [r|].
  - destruct (if_indextoname (arp_index e)) as [n|]; cbn [negb].
    + destruct (String.eqb_spec n r) as [-> |Hne].
      * rewrite strcmp_refl. cbn. rewrite andb_true_r. by destruct (bool_decide _).
      * rewrite (proj2 (Z.eqb_neq (strcmp n r) 0)) by (by rewrite strcmp_eq). cbn. by rewrite andb_false_r.
    + rewrite andb_true_r. by destruct (bool_decide _).
  - rewrite andb_true_r. by destruct (bool_decide _).
Qed.

(** [FreeSense_ip_to_mac] ends when the kernel gives its ARP table for every large enough buffer, and
    answers with the hardware address of the first entry for the address on the given interface (or on
    one whose name cannot be told), or with NULL when there is none. *)
Theorem ip_to_mac_first `{IfKernel} if_indextoname (sysctl : Z -> arp_answer) (needed big : Z) (fuel : nat) (a : list Z)
    (rifname : option string) (table : list arp_entry) :
  octets a -> length a = 4%nat -> 8 <= needed -> (forall n, big <= n -> sysctl n = ArpTable table) ->
  (forall n, sysctl n = ArpNoMem \/ sysctl n = ArpTable table) -> Z.max 0 (big - needed) < Z.of_nat fuel ->
  ip_to_mac if_indextoname (Some needed) sysctl fuel (inet_ntoa a) rifname
  = Ok (match List.find (fun e => bool_decide (a = arp_addr e) &&
                          match c_str <$> rifname, if_indextoname (arp_index e) with
                          | Some r, Some n => String.eqb n r
                          | _, _ => true
                          end) table with
        | Some e => ZArr [("macaddr", ZStr (ether_ntoa (arp_lladdr e)))]
        | None => ZNull
        end).
Proof.
  intros Ha Hl Hn Hbig Hans Hf. unfold ip_to_mac. rewrite c_str_plain by (by apply inet_ntoa_no_char).
  rewrite octets_4, (proj2 (Z.eqb_neq needed 0)) by (done || lia).
  destruct (arp_fetch_enough sysctl big ltac:(intros n Hnn; by rewrite Hbig) fuel needed Hn Hf) as (r & E & Hr).
  assert (r = ArpTable table) as ->.
  { clear -E Hr Hans. revert needed E. induction fuel as [|fuel IH]; intros needed E; cbn [arp_fetch] in E; [done|].
    destruct (Hans needed) as [E1|E1]; rewrite E1 in E; [by eapply IH|by injection E as <-]. }
  rewrite E. cbn [mbind outcome_bind]. rewrite arp_find_first. by destruct (List.find _ table).
Qed.

(** ** Syncing *)

(** [FreeSense_fsync] cannot succeed: it opens the directory of the file for writing, which open(2)
    refuses for directories, so that it returns FALSE for every file and the directory is never synced. *)
Theorem fsync_never_true (fs : filesystem) (fname : string) :
  (forall p, fs_isdir fs p = true -> fs_open_rdwr fs p = false) -> fs_isdir fs (dirname (c_str fname)) = true ->
  (php_fsync fs fname).1 = ZBool false /\ dirname (c_str fname) ∉ (php_fsync fs fname).2.
Proof.
  intros Hdir Hparent. unfold php_fsync. destruct (String.eqb fname ""); [split; [done|apply not_elem_of_nil]|].
  destruct (fs_open_rdwr fs (c_str fname)) eqn:E; [|split; [done|apply not_elem_of_nil]]. cbn [negb].
  destruct (fs_fsync fs (c_str fname)); [|split; [done|apply not_elem_of_nil]]. cbn [negb].
  rewrite (Hdir _ Hparent). cbn. split; [done|]. intros Eq%list_elem_of_singleton. rewrite Eq in Hparent.
  by rewrite (Hdir _ Hparent) in E.
Qed.

(** ** Modems *)

Lemma try_modem_never p : exists b, try_modem p = Ok b /\ b = false.
Proof.
  exists false. split; [|done]. unfold try_modem. destruct (sp_fcntl p); [|done]. destruct (sp_tcgetattr p); [|done].
  destruct (sp_tcsetattr p); [|done]. cbn.
  destruct (sp_write p 0); [| |done]; (destruct (sp_write p 1); [| |done]); (destruct (sp_write p 2); done).
Qed.

Definition candidate (path : string) : bool := negb (strstr path "lock" || strstr path "init").

(** [FreeSense_get_modem_devices] never reports a modem that answers: the loop that writes to a device
    only ends with its three tries used up, which is then taken for a failure.  The devices it reports
    are exactly those it could not open. *)
Theorem modem_devices_unopened (dev : string -> serial_port) (paths : list string) :
  exists val, get_modem_devices dev paths [] = Ok val /\
    forall path, path ∈ val.*1 <-> path ∈ paths /\ candidate path = true /\ sp_open (dev path) = false.
Proof.
  assert (Hgen : forall val0, exists val, get_modem_devices dev paths val0 = Ok val /\
            forall path, path ∈ val.*1 <-> path ∈ val0.*1 \/ (path ∈ paths /\ candidate path = true /\ sp_open (dev path) = false)).
  { induction paths as [|p paths IH]; intros val0.
    - exists val0. split; [done|]. intros path. split; [by left|]. intros [?|[H _]]; [done|by apply not_elem_of_nil in H].
    - cbn [get_modem_devices]. unfold candidate in *.
      destruct (strstr p "lock" || strstr p "init") eqn:Ec; [|destruct (sp_open (dev p)) eqn:Eo]; cbn [negb].
      + destruct (IH val0) as (val & E & H). exists val. split; [done|]. intros path. rewrite H, elem_of_cons.
        split; [tauto|]. intros [?|[[-> |?] [? ?]]]; [tauto|by rewrite Ec in *|tauto].
      + destruct (try_modem_never (dev p)) as (b & -> & ->). destruct (IH val0) as (val & E & H). exists val. split; [done|].
        intros path. rewrite H, elem_of_cons. split; [tauto|]. intros [?|[[-> |?] [? ?]]]; [tauto|congruence|tauto].
      + destruct (IH (add_assoc val0 p (ZStr p))) as (val & E & H). exists val. split; [done|]. intros path.
        rewrite H, add_assoc_keys, elem_of_cons. split; [|tauto]. intros [[-> |?]|?]; [|tauto|tauto].
        right. rewrite Ec. auto. }
  destruct (Hgen []) as (val & E & H). exists val. split; [done|]. intros path. rewrite H.
  split; [|by right]. intros [Hin|?]; [by apply not_elem_of_nil in Hin|done].
Qed.

(** ** The environment *)

(** What the kernel writes for an environment: every entry with a NUL behind it. *)
Fixpoint kenv_text (env : list (string * string)) : string :=
  match env with
  | [] => ""
  | (n, v) :: env => n +:+ String "=" (v +:+ String "000" (kenv_text env))
  end.

Definition env_entry (e : string * string) : Prop :=
  e.1 <> "" /\ has_char "=" e.1 = false /\ has_char "000" e.1 = false /\ has_char "000" e.2 = false.

Lemma c_str_before s rest : has_char "000" s = false -> c_str (s +:+ String "000" rest) = s.
Proof. intros Hs. by rewrite c_str_cut, c_str_plain. Qed.

Lemma kenv_loop_entry fuel n v rest val : env_entry (n, v) ->
  kenv_loop (S fuel) (n +:+ String "=" (v +:+ String "000" rest)) val = kenv_loop fuel rest (add_assoc val n (ZStr v)).
Proof.
  intros (Hne & Heq & Hn & Hv). cbn [fst snd] in *.
  assert (Hs : has_char "000" (n +:+ String "=" v) = false) by (by rewrite has_char_app, Hn; cbn [has_char orb]; rewrite Hv).
  replace (n +:+ String "=" (v +:+ String "000" rest)) with ((n +:+ String "=" v) +:+ String "000" rest) by (by rewrite append_assoc).
  set (e := n +:+ String "=" v) in *. assert (exists c s, e = String c s /\ c <> "000"%char) as (c & s & Ee & Hc).
  { destruct n as [|c n]; [done|]. exists c, (n +:+ String "=" v). split; [done|]. intros ->. done. }
  cbn [kenv_loop]. destruct (e +:+ String "000" rest) as [|c' b'] eqn:Eb; [by rewrite Ee in Eb|].
  assert (c' = c) as -> by (rewrite Ee in Eb; by injection Eb). rewrite <- Eb.
  rewrite (proj2 (Ascii.eqb_neq c "000")) by done. rewrite has_char_app. cbn [has_char orb].
  rewrite Ascii.eqb_refl, orb_true_r. cbn [negb]. rewrite c_str_before by done. rewrite str_drop_cut.
  unfold e. rewrite strchr_app by done. by rewrite str_take_app, str_drop_cut.
Qed.

Definition env_zval (env : list (string * string)) : list (string * zval) := map (fun e => (e.1, ZStr e.2)) env.

Lemma kenv_loop_env env junk : Forall env_entry env -> NoDup (env.*1) -> forall fuel val,
  (length env < fuel)%nat -> (forall n, n ∈ env.*1 -> n ∉ val.*1) ->
  kenv_loop fuel (kenv_text env +:+ String junk "") val
  = if Ascii.eqb junk "000" then Ok (val ++ env_zval env) else Fail (Oob 0).
Proof.
  intros Henv. induction Henv as [|[n v] env He _ IH]; intros Hnd fuel val Hf Hfresh; (destruct fuel as [|fuel]; [cbn in Hf; lia|]).
  - cbn [kenv_text String.append kenv_loop env_zval map]. rewrite app_nil_r. destruct (Ascii.eqb junk "000") eqn:Ej; [done|].
    cbn [has_char]. by rewrite orb_false_r, Ascii.eqb_sym, Ej.
  - cbn [kenv_text fmap list_fmap fst] in *. rewrite append_assoc. cbn [String.append]. rewrite append_assoc. cbn [String.append].
    rewrite kenv_loop_entry by done. pose proof (NoDup_cons_1_1 _ _ Hnd) as Hn. apply NoDup_cons_1_2 in Hnd.
    rewrite add_assoc_fresh by (apply Hfresh, list_elem_of_here). rewrite IH; [|done|cbn in Hf; lia|].
    + destruct (Ascii.eqb junk "000"); [|done]. by rewrite <- app_assoc.
    + intros m Hm. rewrite fmap_app, elem_of_app. cbn [fmap list_fmap fst]. rewrite list_elem_of_singleton.
      intros [Hv| ->]; [|done]. by apply (Hfresh m); [right|].
Qed.

Lemma kenv_text_length env : Forall env_entry env -> (length env <= String.length (kenv_text env))%nat.
Proof.
  induction 1 as [|[n v] env _ _ IH]; [done|]. cbn [kenv_text length]. rewrite append_length. cbn [String.length].
  rewrite append_length. cbn [String.length]. lia.
Qed.

(** [FreeSense_kenv_dump] gives every variable of the kernel's environment with its value, in order,
    whatever characters other than NUL the values hold - when the byte behind the dump is NUL.  The
    buffer is not cleared: with any other byte there the loop runs behind its end. *)
Theorem kenv_dump_roundtrip (env : list (string * string)) (junk : ascii) :
  Forall env_entry env -> NoDup (env.*1) ->
  kenv_dump (Some (kenv_text env)) junk = if Ascii.eqb junk "000" then Ok (ZArr (env_zval env)) else Fail (Oob 0).
Proof.
  intros Henv Hnd. unfold kenv_dump. rewrite kenv_loop_env; [|done|done| |by intros n _; apply not_elem_of_nil].
  - by destruct (Ascii.eqb junk "000").
  - rewrite append_length. pose proof (kenv_text_length env Henv). cbn. lia.
Qed.

(** ** The sockets *)

(** A failed start closes what it opened; a stop closes every socket the start left open. *)
Lemma minit_closes s inets inets6 root ng :
  (forall fd, ng = Some fd -> fd <> -1) ->
  match minit s inets inets6 root ng with
  | (None, closed) => closed = List.filter (fun fd => 0 <=? fd) (if s <? 0 then [] else [s; inets])
  | (Some g, closed) => closed = [] /\ forall fd, fd ∈ [s; inets; inets6] ++ (if root then option_list ng else []) -> fd ∈ mshutdown g
  end.
Proof.
  intros Hng. unfold minit. destruct (Z.ltb_spec s 0); [done|]. destruct (Z.ltb_spec inets 0).
  { cbn [List.filter]. by rewrite (proj2 (Z.leb_le 0 s)), (proj2 (Z.leb_gt 0 inets)) by lia. }
  destruct (Z.ltb_spec inets6 0).
  { cbn [List.filter]. by rewrite (proj2 (Z.leb_le 0 s)), (proj2 (Z.leb_le 0 inets)) by lia. }
  split; [done|]. intros fd Hfd. unfold mshutdown. cbn [g_s g_inets g_inets6 g_csock List.filter].
  rewrite (proj2 (Z.eqb_neq inets (-1))), (proj2 (Z.eqb_neq inets6 (-1))), (proj2 (Z.eqb_neq s (-1))) by lia. cbn [negb].
  apply elem_of_app in Hfd as [Hfd|Hfd].
  - destruct (negb _); set_solver.
  - destruct root, ng as [n|]; try (by apply not_elem_of_nil in Hfd). apply list_elem_of_singleton in Hfd as ->.
    cbn. rewrite (proj2 (Z.eqb_neq n (-1))) by (by apply Hng). left.
Qed.

(** ** Examples *)

Example dirname_examples :
  map dirname ["/etc/rc.conf"; "rc.conf"; "/"; "/etc"; "a//b/"; ""] = ["/etc"; "."; "/"; "/"; "a"; "."].
Proof. reflexivity. Qed.

Definition demo_arp : list arp_entry :=
  [{| arp_addr := [10; 0; 0; 1]; arp_index := 1; arp_lladdr := [0; 1; 2; 3; 4; 5] |};
   {| arp_addr := [10; 0; 0; 1]; arp_index := 2; arp_lladdr := [6; 7; 8; 9; 10; 11] |}].

Definition demo_ifname (i : Z) : option string := Some (if i =? 1 then "em0" else "em1").
Definition demo_arp_sysctl (n : Z) : arp_answer := if n <? 200 then ArpNoMem else ArpTable demo_arp.

Lemma ip_to_mac_first_witness :
  ip_to_mac (H := demo_if) demo_ifname (Some 100) demo_arp_sysctl 101 "10.0.0.1" (Some "em1")
  = Ok (ZArr [("macaddr", ZStr (ether_ntoa (IfKernel := demo_if) [6; 7; 8; 9; 10; 11]))]).
Proof.
  apply (ip_to_mac_first (H := demo_if) demo_ifname demo_arp_sysctl 100 200 101 [10; 0; 0; 1] (Some "em1") demo_arp);
    [repeat constructor; lia|done|lia| | |lia].
  - intros n Hn. unfold demo_arp_sysctl. by rewrite (proj2 (Z.ltb_ge n 200)) by lia.
  - intros n. unfold demo_arp_sysctl. destruct (n <? 200); auto.
Defined.

Definition demo_fs : filesystem :=
  {| fs_open_rdwr := fun p => negb (String.eqb p "/etc"); fs_fsync := fun _ => true; fs_isdir := fun p => String.eqb p "/etc" |}.

Lemma fsync_never_true_witness : (php_fsync demo_fs "/etc/rc.conf").1 = ZBool false.
Proof.
  apply (fsync_never_true demo_fs "/etc/rc.conf"); [|reflexivity].
  intros p Hp. cbn in *. by rewrite Hp.
Defined.

Lemma kenv_dump_roundtrip_witness :
  kenv_dump (Some ("a=1" +:+ String "000" ("b=x=y" +:+ String "000" ""))) "000" = Ok (ZArr [("a", ZStr "1"); ("b", ZStr "x=y")]).
Proof.
  apply (kenv_dump_roundtrip [("a", "1"); ("b", "x=y")] "000").
  - repeat constructor; done.
  - apply NoDup_cons_2; [by intros H%list_elem_of_singleton|]. apply NoDup_singleton.
Defined.
