(* ===== verification/PhpIpsec.v ===== *)
(** The PHP module, FreeSense.c: the list of IPsec security associations - the arrays that
    [build_ipsec_sa_array] makes of the messages of the VICI interface, and [FreeSense_ipsec_list_sa]. *)
From Stdlib Require Import ZArith Lia Ascii String.
From stdpp Require Import base list strings numbers.
From S2P Require Import Prelude CProg PhpStates.
Open Scope string_scope.
Open Scope list_scope.
Open Scope Z_scope.

(** ** Messages and arrays *)

(** The results of [vici_parse], with what [vici_parse_name] and [vici_parse_value_str] give. *)
Inductive vici_event : Type :=
  | VICI_PARSE_BEGIN_SECTION (name : string)
  | VICI_PARSE_END_SECTION
  | VICI_PARSE_KEY_VALUE (name value : string)
  | VICI_PARSE_BEGIN_LIST (name : string)
  | VICI_PARSE_END_LIST
  | VICI_PARSE_LIST_ITEM (value : string)
  | VICI_PARSE_END
  | VICI_PARSE_ERROR.

(** Arrays of PHP with the order of their elements. *)
Inductive sa : Type :=
  | SAStr (s : string)
  | SAArr (l : list (zkey * sa)).

#[export] Instance zkey_eq_dec : EqDecision zkey.
Proof. solve_decision. Defined.

(** The tables of symbols: a key that is a number of type [zend_long] in decimal, as it would be printed,
    is that number. *)
Definition key_of (name : string) : zkey :=
  let v := match name with String "-" r => - (dec_value 0 r).1 | _ => (dec_value 0 name).1 end in
  if String.eqb name (sdec v) && (- 2 ^ 63 <=? v) && (v <? 2 ^ 63) then KLong v else KStr name.

(** [add_assoc_zval], [add_assoc_string] *)
Fixpoint sa_put (l : list (zkey * sa)) (k : zkey) (v : sa) : list (zkey * sa) :=
  match l with
  | [] => [(k, v)]
  | (k', v') :: l => if decide (k' = k) then (k, v) :: l else (k', v') :: sa_put l k v
  end.

(** [add_next_index_zval], [add_next_index_string] *)
Definition next_free (l : list (zkey * sa)) : Z :=
  foldr (fun e m => match e.1 with KLong n => Z.max m (n + 1) | KStr _ => m end) 0 l.
Definition sa_next (l : list (zkey * sa)) (v : sa) : list (zkey * sa) := l ++ [(KLong (next_free l), v)].

(** ** The loop *)

(** [nestedarrs], of 32 elements, up to [level]: the array at [level], and below it the arrays it lies in,
    each with the key of the next one.  An array is put in its place when its section ends: nothing else
    is added to the one around it until then. *)
Record sa_state : Type := { sa_level : Z; sa_cur : list (zkey * sa); sa_up : list (zkey * list (zkey * sa)) }.

Definition NESTED : Z := 32.

(** The array at [level] must be one of [nestedarrs]. *)
Definition at_level (st : sa_state) : outcome unit :=
  if sa_level st <? 0 then Fail (ArrayBounds (sa_level st)) else Ok ().

(** [VICI_PARSE_BEGIN_SECTION], [VICI_PARSE_BEGIN_LIST] *)
Definition begin_nested (name : string) (st : sa_state) : outcome sa_state :=
  _ ← at_level st;
  if NESTED <=? sa_level st + 1 then Fail (ArrayBounds (sa_level st + 1))
  else Ok (if sa_level st =? 0 then
             {| sa_level := 1; sa_cur := [(KStr "con-id", SAStr name)];
                sa_up := (KLong (next_free (sa_cur st)), sa_cur st) :: sa_up st |}
           else {| sa_level := sa_level st + 1; sa_cur := []; sa_up := (key_of name, sa_cur st) :: sa_up st |}).

(** [VICI_PARSE_END_SECTION], [VICI_PARSE_END_LIST] *)
Definition end_nested (st : sa_state) : sa_state :=
  match sa_up st with
  | (k, l) :: up => {| sa_level := sa_level st - 1; sa_cur := sa_put l k (SAArr (sa_cur st)); sa_up := up |}
  | [] => {| sa_level := sa_level st - 1; sa_cur := sa_cur st; sa_up := [] |}
  end.

Definition set_cur (st : sa_state) (l : list (zkey * sa)) : sa_state :=
  {| sa_level := sa_level st; sa_cur := l; sa_up := sa_up st |}.

(** The array of the caller, with what is still open in it. *)
Fixpoint close_all (cur : list (zkey * sa)) (up : list (zkey * list (zkey * sa))) : list (zkey * sa) :=
  match up with [] => cur | (k, l) :: up => close_all (sa_put l k (SAArr cur)) up end.

(** [while (!done)] over the events of a message. *)
Fixpoint sa_loop (events : list vici_event) (st : sa_state) : outcome sa_state :=
  match events with
  | [] | VICI_PARSE_END :: _ | VICI_PARSE_ERROR :: _ => Ok st
  | VICI_PARSE_BEGIN_SECTION name :: events | VICI_PARSE_BEGIN_LIST name :: events =>
      st ← begin_nested name st; sa_loop events st
  | VICI_PARSE_END_SECTION :: events | VICI_PARSE_END_LIST :: events => sa_loop events (end_nested st)
  | VICI_PARSE_KEY_VALUE name value :: events =>
      _ ← at_level st;
      sa_loop events (set_cur st (sa_put (sa_cur st) (key_of name) (SAStr value)))
  | VICI_PARSE_LIST_ITEM value :: events =>
      _ ← at_level st;
      sa_loop events (set_cur st (sa_next (sa_cur st) (SAStr value)))
  end.

(** [build_ipsec_sa_array]: the caller's array after a message. *)
Definition build_ipsec_sa_array (salist : list (zkey * sa)) (events : list vici_event) : outcome (list (zkey * sa)) :=
  st ← sa_loop events {| sa_level := 0; sa_cur := salist; sa_up := [] |};
  Ok (close_all (sa_cur st) (sa_up st)).

(** [FreeSense_ipsec_list_sa]: a message for every association, in the order they come. *)
Fixpoint list_sa_loop (salist : list (zkey * sa)) (messages : list (list vici_event)) : outcome (list (zkey * sa)) :=
  match messages with
  | [] => Ok salist
  | m :: messages => l ← build_ipsec_sa_array salist m; list_sa_loop l messages
  end.
Definition ipsec_list_sa (connected registered : bool) (messages : list (list vici_event)) : outcome (list (zkey * sa)) :=
  if connected && registered then list_sa_loop [] messages else Ok [].

(** ** Messages as trees *)

Inductive vici : Type :=
  | VPair (name value : string)
  | VList (name : string) (items : list string)
  | VSection (name : string) (body : list vici).

Section vici_ind.
Context (P : vici -> Prop) (Hpair : forall n v, P (VPair n v)) (Hlist : forall n l, P (VList n l))
        (Hsection : forall n b, Forall P b -> P (VSection n b)).

Fixpoint vici_rect_nested (v : vici) : P v :=
  match v with
  | VPair n v => Hpair n v
  | VList n l => Hlist n l
  | VSection n b =>
      Hsection n b ((fix go (b : list vici) : Forall P b :=
                       match b with [] => Forall_nil _ | v :: b => Forall_cons _ _ _ (vici_rect_nested v) (go b) end) b)
  end.
End vici_ind.

(** The events of a tree. *)
Fixpoint vici_events (v : vici) : list vici_event :=
  match v with
  | VPair n s => [VICI_PARSE_KEY_VALUE n s]
  | VList n l => VICI_PARSE_BEGIN_LIST n :: map VICI_PARSE_LIST_ITEM l ++ [VICI_PARSE_END_LIST]
  | VSection n b => VICI_PARSE_BEGIN_SECTION n :: flat_map vici_events b ++ [VICI_PARSE_END_SECTION]
  end.

(** The array a tree stands for, added to the one of its section: an element per key, a list as an array
    with the keys 0, 1, ... *)
Definition list_items (l : list string) (a : list (zkey * sa)) : list (zkey * sa) :=
  fold_left (fun a s => sa_next a (SAStr s)) l a.
Fixpoint vici_put (v : vici) (a : list (zkey * sa)) : list (zkey * sa) :=
  match v with
  | VPair n s => sa_put a (key_of n) (SAStr s)
  | VList n l => sa_put a (key_of n) (SAArr (list_items l []))
  | VSection n b => sa_put a (key_of n) (SAArr (fold_left (fun a v => vici_put v a) b []))
  end.

(** At the top of a message: an association is the next element, its name under "con-id". *)
Definition vici_top (a : list (zkey * sa)) (v : vici) : list (zkey * sa) :=
  match v with
  | VPair n s => sa_put a (key_of n) (SAStr s)
  | VList n l => sa_put a (KLong (next_free a)) (SAArr (list_items l [(KStr "con-id", SAStr n)]))
  | VSection n b => sa_put a (KLong (next_free a)) (SAArr (fold_left (fun a v => vici_put v a) b [(KStr "con-id", SAStr n)]))
  end.

Fixpoint vici_depth (v : vici) : Z :=
  match v with
  | VPair _ _ => 0
  | VList _ _ => 1
  | VSection _ b => 1 + foldr (fun v d => Z.max (vici_depth v) d) 0 b
  end.

(** ** The arrays stand for the trees *)

Definition mk_sa (level : Z) (cur : list (zkey * sa)) (up : list (zkey * list (zkey * sa))) : sa_state :=
  {| sa_level := level; sa_cur := cur; sa_up := up |}.

Lemma items_loop l rest level cur up : 0 <= level ->
  sa_loop (map VICI_PARSE_LIST_ITEM l ++ rest) (mk_sa level cur up) = sa_loop rest (mk_sa level (list_items l cur) up).
Proof.
  intros Hl. revert cur. induction l as [|s l IH]; intros cur; [done|]. cbn [map app sa_loop]. unfold at_level at 1.
  cbn [sa_level mk_sa]. rewrite (proj2 (Z.ltb_ge level 0)) by lia. cbn [mbind outcome_bind]. apply IH.
Qed.

Lemma begin_inner n level cur up : 1 <= level < 31 ->
  begin_nested n (mk_sa level cur up) = Ok (mk_sa (level + 1) [] ((key_of n, cur) :: up)).
Proof.
  intros Hl. unfold begin_nested, at_level, NESTED. cbn [sa_level sa_cur sa_up mk_sa].
  rewrite (proj2 (Z.ltb_ge level 0)), (proj2 (Z.leb_gt 32 _)), (proj2 (Z.eqb_neq level 0)) by lia. done.
Qed.

Lemma depth_body b d : 0 <= d -> Forall (fun v => vici_depth v <= d) b <-> foldr (fun v d => Z.max (vici_depth v) d) 0 b <= d.
Proof.
  intros Hd. induction b as [|v b IH]; cbn; [split; [done|constructor]|]. rewrite Forall_cons_iff, IH. lia.
Qed.

Lemma body_loop b : Forall (fun v => forall rest level cur up, 1 <= level -> level + vici_depth v <= 31 ->
    sa_loop (vici_events v ++ rest) (mk_sa level cur up) = sa_loop rest (mk_sa level (vici_put v cur) up)) b ->
  forall rest level cur up, 1 <= level <= 31 -> Forall (fun v => vici_depth v <= 31 - level) b ->
    sa_loop (flat_map vici_events b ++ rest) (mk_sa level cur up)
    = sa_loop rest (mk_sa level (fold_left (fun a v => vici_put v a) b cur) up).
Proof.
  induction 1 as [|v b Hv _ IH]; intros rest level cur up Hl Hd; [done|]. apply Forall_cons_iff in Hd as [Hdv Hdb].
  cbn [flat_map fold_left]. rewrite <- app_assoc, Hv by lia. by apply IH.
Qed.

Lemma vici_loop v : forall rest level cur up, 1 <= level -> level + vici_depth v <= 31 ->
  sa_loop (vici_events v ++ rest) (mk_sa level cur up) = sa_loop rest (mk_sa level (vici_put v cur) up).
Proof.
  induction v as [n s|n l|n b Hb] using vici_rect_nested; intros rest level cur up Hl Hd.
  - cbn [vici_events app sa_loop]. unfold at_level. cbn [sa_level mk_sa]. by rewrite (proj2 (Z.ltb_ge level 0)) by lia.
  - cbn [vici_events app sa_loop vici_depth] in *. rewrite begin_inner by lia. cbn [mbind outcome_bind].
    rewrite <- app_assoc, items_loop by lia. cbn [app sa_loop end_nested sa_up mk_sa sa_level sa_cur vici_put]. do 2 f_equal. lia.
  - cbn [vici_events app sa_loop vici_depth] in *.
    assert (Hdb : foldr (fun v d => Z.max (vici_depth v) d) 0 b <= 30 - level) by lia.
    assert (0 <= foldr (fun v d => Z.max (vici_depth v) d) 0 b) by (clear; induction b; cbn; lia).
    rewrite begin_inner by lia. cbn [mbind outcome_bind]. rewrite <- app_assoc, body_loop; [|done|lia|].
    + cbn [app sa_loop end_nested sa_up mk_sa sa_level sa_cur vici_put]. do 2 f_equal. lia.
    + apply depth_body; lia.
Qed.

Lemma begin_top n cur : begin_nested n (mk_sa 0 cur []) = Ok (mk_sa 1 [(KStr "con-id", SAStr n)] [(KLong (next_free cur), cur)]).
Proof. done. Qed.

Lemma top_loop v rest cur : vici_depth v <= 31 ->
  sa_loop (vici_events v ++ rest) (mk_sa 0 cur []) = sa_loop rest (mk_sa 0 (vici_top cur v) []).
Proof.
  intros Hd. destruct v as [n s|n l|n b].
  - done.
  - cbn [vici_events app sa_loop]. rewrite begin_top. cbn [mbind outcome_bind]. by rewrite <- app_assoc, items_loop by lia.
  - cbn [vici_events app sa_loop vici_depth] in *. rewrite begin_top. cbn [mbind outcome_bind]. rewrite <- app_assoc, body_loop; [done| |lia|].
    + apply Forall_forall. intros v _. apply vici_loop.
    + apply depth_body; lia.
Qed.

Lemma message_built (msg : list vici) (salist : list (zkey * sa)) :
  Forall (fun v => vici_depth v <= 31) msg ->
  build_ipsec_sa_array salist (flat_map vici_events msg ++ [VICI_PARSE_END]) = Ok (fold_left vici_top msg salist).
Proof.
  intros Hd. unfold build_ipsec_sa_array. fold (mk_sa 0 salist []). revert salist.
  induction Hd as [|v msg Hv _ IH]; intros salist; [done|]. cbn [flat_map fold_left]. rewrite <- app_assoc, top_loop by done.
  apply IH.
Qed.

(** C19. The array [build_ipsec_sa_array] makes of a message is the tree the message is the text of: one
    more element for every association, with its name under "con-id", and in it every pair, list and
    section under its name, for sections nested at most 31 deep. *)
Theorem ipsec_sa_roundtrip (msg : list vici) (salist : list (zkey * sa)) :
  Forall (fun v => vici_depth v <= 31) msg ->
  build_ipsec_sa_array salist (flat_map vici_events msg ++ [VICI_PARSE_END]) = Ok (fold_left vici_top msg salist).
Proof. apply message_built. Qed.

(** *** Messages that nest deeper *)

Lemma begin_overflow n cur up : begin_nested n (mk_sa 31 cur up) = Fail (ArrayBounds 32).
Proof. done. Qed.

Lemma body_overflow b level :
  1 <= level <= 31 ->
  Forall (fun v => forall rest cur up, 32 <= level + vici_depth v ->
    sa_loop (vici_events v ++ rest) (mk_sa level cur up) = Fail (ArrayBounds 32)) b ->
  forall rest cur up, 32 <= level + foldr (fun v d => Z.max (vici_depth v) d) 0 b ->
    sa_loop (flat_map vici_events b ++ rest) (mk_sa level cur up) = Fail (ArrayBounds 32).
Proof.
  intros Hl. induction 1 as [|v b Hv _ IH]; intros rest cur up Hd; cbn in Hd; [lia|]. cbn [flat_map]. rewrite <- app_assoc.
  destruct (Z.le_gt_cases 32 (level + vici_depth v)); [by apply Hv|]. rewrite vici_loop by lia. apply IH. lia.
Qed.

Lemma vici_overflow v : forall level, 1 <= level <= 31 -> forall rest cur up, 32 <= level + vici_depth v ->
  sa_loop (vici_events v ++ rest) (mk_sa level cur up) = Fail (ArrayBounds 32).
Proof.
  induction v as [n s|n l|n b Hb] using vici_rect_nested; intros level Hl rest cur up Hd; cbn [vici_depth] in Hd; [lia| |];
    cbn [vici_events app sa_loop]; (destruct (Z.eq_dec level 31) as [->|Hne]; [by rewrite begin_overflow|]); [lia|].
  rewrite begin_inner by lia. cbn [mbind outcome_bind]. rewrite <- app_assoc. apply body_overflow; [lia| |lia].
  eapply Forall_impl; [|exact Hb]. intros v Hv. apply Hv. lia.
Qed.

Lemma top_overflow v rest cur : 32 <= vici_depth v ->
  sa_loop (vici_events v ++ rest) (mk_sa 0 cur []) = Fail (ArrayBounds 32).
Proof.
  intros Hd. destruct v as [n s|n l|n b]; cbn [vici_depth] in Hd; [lia|lia|]. cbn [vici_events app sa_loop].
  rewrite begin_top. cbn [mbind outcome_bind]. rewrite <- app_assoc. apply body_overflow; [lia| |lia].
  apply Forall_forall. intros v _. apply vici_overflow. lia.
Qed.

(** C40. Any message in which sections and lists nest 32 deep or more, whatever else is in it, makes
    [build_ipsec_sa_array] write behind its array of 32 levels: nothing compares the level with its
    size.  Together with [ipsec_sa_roundtrip]: a message is read exactly when it nests less deep. *)
Theorem ipsec_sa_overflow (msg : list vici) (v : vici) (salist : list (zkey * sa)) : v ∈ msg -> 32 <= vici_depth v ->
  build_ipsec_sa_array salist (flat_map vici_events msg ++ [VICI_PARSE_END]) = Fail (ArrayBounds 32).
Proof.
  intros Hin Hd. unfold build_ipsec_sa_array. fold (mk_sa 0 salist []). revert salist.
  induction msg as [|x msg IH]; intros salist; [by apply elem_of_nil in Hin|]. cbn [flat_map]. rewrite <- app_assoc.
  destruct (Z.le_gt_cases 32 (vici_depth x)); [by rewrite top_overflow|]. rewrite top_loop by lia.
  apply IH. apply elem_of_cons in Hin as [->|Hin]; [lia | done].
Qed.

(** [FreeSense_ipsec_list_sa] gives, once it is connected and registered, the associations of all
    messages in the order they come. *)
Theorem ipsec_list_sa_all (msgs : list (list vici)) :
  Forall (Forall (fun v => vici_depth v <= 31)) msgs ->
  ipsec_list_sa true true (map (fun m => flat_map vici_events m ++ [VICI_PARSE_END]) msgs)
  = Ok (fold_left vici_top (concat msgs) []).
Proof.
  intros Hd. unfold ipsec_list_sa. cbn [andb]. generalize (@nil (zkey * sa)).
  induction Hd as [|m msgs Hm _ IH]; intros a; [done|]. cbn [map list_sa_loop concat]. rewrite message_built by done.
  cbn [mbind outcome_bind]. by rewrite IH, fold_left_app.
Qed.

(** ** Examples *)

Definition demo_sa : vici :=
  VSection "con1" [VPair "uniqueid" "3"; VList "local-ts" ["10.0.0.0/24"; "10.1.0.0/24"];
                   VSection "child-sas" [VSection "con1-7" [VPair "state" "INSTALLED"]]].

Lemma ipsec_sa_roundtrip_witness :
  build_ipsec_sa_array [] (vici_events demo_sa ++ [VICI_PARSE_END])
  = Ok [(KLong 0, SAArr
          [(KStr "con-id", SAStr "con1"); (KStr "uniqueid", SAStr "3");
           (KStr "local-ts", SAArr [(KLong 0, SAStr "10.0.0.0/24"); (KLong 1, SAStr "10.1.0.0/24")]);
           (KStr "child-sas", SAArr [(KStr "con1-7", SAArr [(KStr "state", SAStr "INSTALLED")])])])].
Proof.
  change (vici_events demo_sa) with (flat_map vici_events [demo_sa]).
  apply (ipsec_sa_roundtrip [demo_sa] []). repeat constructor; done.
Defined.

(** Sections inside each other, [n] of them, beside a pair each. *)
Fixpoint deep (n : nat) : vici := match n with O => VPair "k" "v" | S n => VSection "s" [VPair "k" "v"; deep n] end.

Lemma ipsec_sa_overflow_witness :
  build_ipsec_sa_array [] (flat_map vici_events [demo_sa; deep 40; demo_sa] ++ [VICI_PARSE_END]) = Fail (ArrayBounds 32).
Proof.
  apply (ipsec_sa_overflow [demo_sa; deep 40; demo_sa] (deep 40) []); [right; left | vm_compute; congruence].
Defined.

Lemma ipsec_list_sa_all_witness :
  exists a b, ipsec_list_sa true true (map (fun m => flat_map vici_events m ++ [VICI_PARSE_END]) [[demo_sa]; [demo_sa]])
              = Ok [(KLong 0, a); (KLong 1, b)].
Proof.
  do 2 eexists. apply (ipsec_list_sa_all [[demo_sa]; [demo_sa]]). repeat constructor; done.
Defined.
