(* ===== verification/PhpCp.v ===== *)
(** The PHP module, FreeSense.c: the functions of the captive portal on pf's rulesets
    ([FreeSense_pf_cp_flush], [FreeSense_pf_cp_get_eth_pipes], [FreeSense_pf_cp_get_eth_rule_counters],
    [FreeSense_pf_cp_zerocnt], [FreeSense_pf_cp_get_eth_last_active]). *)
From Stdlib Require Import ZArith Lia Ascii String.
From stdpp Require Import base list strings numbers.
From S2P Require Import Prelude CProg PhpIfaddrs PhpInterfaces PhpStates.
Open Scope string_scope.
Open Scope list_scope.
Open Scope Z_scope.

(** ** Flushing *)

(** [strncmp(a, b, n) == 0] *)
Definition strneq (a b : string) (n : nat) : bool := String.eqb (str_take n (c_str a)) (str_take n (c_str b)).

(** The three requests of libpfctl, for the ruleset of a path. *)
Inductive flush : Type := ClearRules | ClearNat | ClearEth.

(** [strncmp(name, type, MIN(strlen(name), type_len)) == 0] *)
Definition flush_type (name type : string) : bool := strneq name type (Nat.min (String.length name) (String.length type)).

(** The request [FreeSense_pf_cp_flush] makes for a type. *)
Definition cp_flush_of (type : string) : option flush :=
  if flush_type "rules" type then Some ClearRules
  else if flush_type "nat" type then Some ClearNat
  else if flush_type "ether" type then Some ClearEth
  else None.

(** [FreeSense_pf_cp_flush]: the result, and the request that was made; [clear] tells whether it succeeds. *)
Definition pf_cp_flush (dev_pf : bool) (clear : flush -> string -> bool) (path type : string) : zval * option (flush * string) :=
  if negb dev_pf then (ZNull, None)
  else match cp_flush_of type with
  | None => (ZNull, None)
  | Some f => (ZBool (clear f (c_str path)), Some (f, c_str path))
  end.

(** ** Reading Ethernet rules *)

Definition MAXPATHLEN : nat := 1024.
Definition PFRULE_DN_IS_PIPE : Z := 0x10.

(** [struct pfctl_eth_rule], as far as it is used here. *)
Record eth_rule : Type := {
  er_dnflags : Z;
  er_dnpipe : Z;
  er_direction : Z;
  er_evaluations : Z;
  er_packets : Z * Z;
  er_bytes : Z * Z;
  er_last_active : Z
}.

(** The functions of libpfctl: the number of rules and a ticket, a rule by its number and ticket. *)
Record eth_ops : Type := {
  eth_info : string -> option (Z * Z);
  eth_get : Z -> Z -> string -> option eth_rule
}.

(** The loop over the rules from [nr] on: what [show] gives of each, up to the first that cannot be read. *)
Fixpoint eth_loop (get : Z -> option eth_rule) (show : eth_rule -> list zval) (nr : Z) (n : nat) : list zval :=
  match n with
  | O => []
  | S n => match get nr with None => [] | Some r => show r ++ eth_loop get show (nr + 1) n end
  end.

(** The common frame of the three functions: NULL before the array is made, what was read so far after. *)
Definition eth_list (dev_pf : bool) (pf : eth_ops) (show : eth_rule -> list zval) (path : string) : zval :=
  if negb dev_pf then ZNull
  else if (MAXPATHLEN <? String.length path)%nat then ZNull
  else match eth_info pf (c_str path) with
  | None => ZNull
  | Some (nr, ticket) => ZList (eth_loop (fun i => eth_get pf i ticket (c_str path)) show 0 (Z.to_nat nr))
  end.

Definition is_pipe (r : eth_rule) : bool := c_true (Z.land (er_dnflags r) PFRULE_DN_IS_PIPE).

Definition show_pipe (r : eth_rule) : list zval := if is_pipe r then [ZLong (er_dnpipe r)] else [].
Definition pf_cp_get_eth_pipes (dev_pf : bool) (pf : eth_ops) (path : string) : zval := eth_list dev_pf pf show_pipe path.

Definition show_counters (r : eth_rule) : list zval :=
  if is_pipe r then
    let put key n (val : list (string * zval)) := add_assoc val key (ZLong (i64 n)) in
    let val := put "evaluations" (er_evaluations r) (put "direction" (er_direction r) []) in
    let input val := put "input_bytes" (er_bytes r).1 (put "input_pkts" (er_packets r).1 val) in
    let output val := put "output_bytes" (er_bytes r).2 (put "output_pkts" (er_packets r).2 val) in
    [ZArr (if er_direction r =? PF_IN then input val else if er_direction r =? PF_OUT then output val
           else output (input val))]
  else [].
Definition pf_cp_get_eth_rule_counters (dev_pf : bool) (pf : eth_ops) (path : string) : zval :=
  eth_list dev_pf pf show_counters path.

Definition show_last_active (r : eth_rule) : list zval := [ZLong (i64 (er_last_active r))].
Definition pf_cp_get_eth_last_active (dev_pf : bool) (pf : eth_ops) (path : string) : zval :=
  eth_list dev_pf pf show_last_active path.

(** ** Zeroing counters *)

(** The rulesets: the Ethernet rules and, of the others, [PF_SCRUB] and [PF_PASS]. *)
Inductive ruleset : Type := RsEth | RsScrub | RsPass.

(** What libpfctl answers: the number of rules of a ruleset, and whether a rule can be read and cleared. *)
Record clear_ops : Type := {
  clear_info : ruleset -> string -> option Z;
  clear_rule : ruleset -> Z -> string -> bool
}.

(** The rules of a ruleset from [nr] on: those cleared, and whether all of them were. *)
Fixpoint clear_loop (pf : clear_ops) (rs : ruleset) (path : string) (nr : Z) (n : nat) : list (ruleset * Z) * bool :=
  match n with
  | O => ([], true)
  | S n =>
      if clear_rule pf rs nr path then
        let '(l, ok) := clear_loop pf rs path (nr + 1) n in ((rs, nr) :: l, ok)
      else ([], false)
  end.

Fixpoint clear_rulesets (pf : clear_ops) (path : string) (l : list ruleset) : list (ruleset * Z) :=
  match l with
  | [] => []
  | rs :: l =>
      match clear_info pf rs path with
      | None => []
      | Some nr =>
          let '(c, ok) := clear_loop pf rs path 0 (Z.to_nat nr) in
          if ok then c ++ clear_rulesets pf path l else c
      end
  end.

(** [FreeSense_pf_cp_zerocnt]: the rules whose counters are cleared; the result is always NULL. *)
Definition pf_cp_zerocnt (dev_pf : bool) (pf : clear_ops) (path : string) : list (ruleset * Z) :=
  if negb dev_pf then []
  else if (MAXPATHLEN <? String.length path)%nat then []
  else clear_rulesets pf (c_str path) [RsEth; RsScrub; RsPass].

(** ** What is flushed *)

(** [FreeSense_pf_cp_flush] compares its type with the names of the rulesets only as far as the shorter
    of the two goes: an empty type, or any beginning of "rules", clears the rules of the path, and so does
    every longer text that starts with it. *)
Theorem pf_cp_flush_prefix (clear : flush -> string -> bool) (path type : string) (n : nat) (more : string) :
  type = str_take n "rules" \/ type = "rules" +:+ more ->
  pf_cp_flush true clear path type = (ZBool (clear ClearRules (c_str path)), Some (ClearRules, c_str path)).
Proof.
  intros Htype. unfold pf_cp_flush, cp_flush_of. assert (flush_type "rules" type = true) as ->; [|done].
  unfold flush_type, strneq. apply String.eqb_eq. destruct Htype as [-> | ->].
  - do 6 (destruct n as [|n]; [reflexivity|]). reflexivity.
  - rewrite append_length, Nat.min_l by lia. reflexivity.
Qed.

(** ** What is read *)

Lemma eth_loop_all get show rules : forall nr,
  (forall i r, rules !! i = Some r -> get (nr + Z.of_nat i) = Some r) ->
  eth_loop get show nr (length rules) = flat_map show rules.
Proof.
  induction rules as [|r rules IH]; intros nr Hall; [done|]. cbn [length eth_loop flat_map].
  pose proof (Hall 0%nat r eq_refl) as Hr. rewrite Z.add_0_r in Hr. rewrite Hr. f_equal. apply IH. intros i r' Hi.
  specialize (Hall (S i) r' Hi). by replace (nr + 1 + Z.of_nat i) with (nr + Z.of_nat (S i)) by lia.
Qed.

(** A ruleset whose rules can all be read is read from its first rule to its last. *)
Lemma eth_list_all pf show path ticket rules : (String.length path <= MAXPATHLEN)%nat ->
  eth_info pf (c_str path) = Some (Z.of_nat (length rules), ticket) ->
  (forall i r, rules !! i = Some r -> eth_get pf (Z.of_nat i) ticket (c_str path) = Some r) ->
  eth_list true pf show path = ZList (flat_map show rules).
Proof.
  intros Hlen Hinfo Hget. unfold eth_list. cbn [negb]. rewrite (proj2 (Nat.ltb_ge _ _)), Hinfo, Nat2Z.id by done.
  f_equal. apply eth_loop_all. intros i r Hi. by apply Hget.
Qed.

(** For a path whose Ethernet rules can all be read, [FreeSense_pf_cp_get_eth_pipes] and
    [FreeSense_pf_cp_get_eth_rule_counters] list the rules with a pipe, in their order, one entry each, and
    [FreeSense_pf_cp_get_eth_last_active] every rule. *)
Theorem eth_rules_listed (pf : eth_ops) (path : string) (ticket : Z) (rules : list eth_rule) :
  (String.length path <= MAXPATHLEN)%nat -> eth_info pf (c_str path) = Some (Z.of_nat (length rules), ticket) ->
  (forall i r, rules !! i = Some r -> eth_get pf (Z.of_nat i) ticket (c_str path) = Some r) ->
  pf_cp_get_eth_pipes true pf path = ZList (map (fun r => ZLong (er_dnpipe r)) (List.filter is_pipe rules)) /\
  (exists l, pf_cp_get_eth_rule_counters true pf path = ZList l /\ length l = length (List.filter is_pipe rules)) /\
  pf_cp_get_eth_last_active true pf path = ZList (map (fun r => ZLong (i64 (er_last_active r))) rules).
Proof.
  intros Hlen Hinfo Hget. unfold pf_cp_get_eth_pipes, pf_cp_get_eth_rule_counters, pf_cp_get_eth_last_active.
  rewrite !(eth_list_all pf _ path ticket rules Hlen Hinfo Hget). split; [|split].
  - f_equal. clear. induction rules as [|r rules IH]; [done|]. cbn [flat_map List.filter]. unfold show_pipe at 1.
    rewrite IH. by destruct (is_pipe r).
  - eexists. split; [done|]. clear. induction rules as [|r rules IH]; [done|]. cbn [flat_map List.filter]. unfold show_counters at 1.
    rewrite length_app, IH. by destruct (is_pipe r).
  - f_equal.
Qed.

(** ** What is cleared *)

Lemma clear_loop_all pf rs path n : forall nr, (forall i, nr <= i < nr + Z.of_nat n -> clear_rule pf rs i path = true) ->
  clear_loop pf rs path nr n = (map (pair rs) (seqZ nr (Z.of_nat n)), true).
Proof.
  induction n as [|n IH]; intros nr Hall; [done|]. cbn [clear_loop]. rewrite (Hall nr) by lia.
  rewrite IH by (intros i Hi; apply Hall; lia). rewrite (seqZ_cons nr) by lia. cbn [map].
  by replace (Z.pred (Z.of_nat (S n))) with (Z.of_nat n) by lia.
Qed.

(** [FreeSense_pf_cp_zerocnt] clears, when nothing fails, the counters of every Ethernet, scrub and pass
    rule of the path, each exactly once. *)
Theorem zerocnt_all (pf : clear_ops) (path : string) (eth scrub pass : Z) :
  (String.length path <= MAXPATHLEN)%nat -> 0 <= eth -> 0 <= scrub -> 0 <= pass ->
  clear_info pf RsEth (c_str path) = Some eth -> clear_info pf RsScrub (c_str path) = Some scrub ->
  clear_info pf RsPass (c_str path) = Some pass -> (forall rs i, clear_rule pf rs i (c_str path) = true) ->
  NoDup (pf_cp_zerocnt true pf path) /\
  forall rs i, (rs, i) ∈ pf_cp_zerocnt true pf path <-> 0 <= i < match rs with RsEth => eth | RsScrub => scrub | RsPass => pass end.
Proof.
  intros Hlen H1 H2 H3 E1 E2 E3 Hall. unfold pf_cp_zerocnt. cbn [negb]. rewrite (proj2 (Nat.ltb_ge _ _)) by done.
  cbn [clear_rulesets]. rewrite E1, E2, E3, !clear_loop_all by (intros; apply Hall). rewrite !Z2Nat.id, app_nil_r by done.
  assert (Hin : forall (rs' rs : ruleset) (i n : Z), (rs, i) ∈ map (pair rs') (seqZ 0 n) <-> rs = rs' /\ 0 <= i < n).
  { intros rs' rs i n. rewrite (list_elem_of_fmap (pair rs')). setoid_rewrite elem_of_seqZ. naive_solver lia. }
  split.
  - apply list.NoDup_app. split; [by apply (NoDup_fmap_2 (pair RsEth)), NoDup_seqZ|]. split.
    + intros [rs i] [-> _]%Hin [[? _]%Hin|[? _]%Hin]%elem_of_app; done.
    + apply list.NoDup_app. split; [by apply (NoDup_fmap_2 (pair RsScrub)), NoDup_seqZ|]. split.
      * intros [rs i] [-> _]%Hin [? _]%Hin. done.
      * by apply (NoDup_fmap_2 (pair RsPass)), NoDup_seqZ.
  - intros rs i. rewrite !elem_of_app, !Hin. destruct rs; naive_solver.
Qed.

(** ** Examples *)

Lemma pf_cp_flush_prefix_witness : pf_cp_flush true (fun _ _ => true) "cpzoneid_2" "" = (ZBool true, Some (ClearRules, "cpzoneid_2")).
Proof. apply (pf_cp_flush_prefix (fun _ _ => true) "cpzoneid_2" "" 0 ""). by left. Defined.

Definition demo_eth (flags pipe : Z) : eth_rule :=
  {| er_dnflags := flags; er_dnpipe := pipe; er_direction := PF_IN; er_evaluations := 3; er_packets := (1, 0);
     er_bytes := (60, 0); er_last_active := 1700000000 |}.
Definition demo_eth_ops : eth_ops :=
  {| eth_info := fun _ => Some (2, 9); eth_get := fun i _ _ => Some (if i =? 0 then demo_eth 0x10 2000 else demo_eth 0 0) |}.

Lemma eth_rules_listed_witness : pf_cp_get_eth_pipes true demo_eth_ops "cp" = ZList [ZLong 2000].
Proof.
  apply (eth_rules_listed demo_eth_ops "cp" 9 [demo_eth 0x10 2000; demo_eth 0 0]); [unfold MAXPATHLEN; cbn; lia|done|].
  intros [|[|i]] r; [by intros [= <-]..|done].
Defined.

Lemma zerocnt_all_witness :
  (RsPass, 1) ∈ pf_cp_zerocnt true {| clear_info := fun _ _ => Some 2; clear_rule := fun _ _ _ => true |} "cp".
Proof.
  apply (zerocnt_all {| clear_info := fun _ _ => Some 2; clear_rule := fun _ _ _ => true |} "cp" 2 2 2);
    (reflexivity || lia || (unfold MAXPATHLEN; cbn; lia)).
Defined.
