(* ===== verification/Cpustats.v ===== *)
(** cpustats, cpustats.c: the share of each processor state in the time between two readings of the
    kernel's counters, in tenths of a percent. *)
From Stdlib Require Import ZArith Lia Ascii String.
From stdpp Require Import base list strings numbers.
From S2P Require Import Prelude CProg.
Open Scope string_scope.
Open Scope list_scope.
Open Scope Z_scope.

(** sys/resource.h *)
Definition CPUSTATES : nat := 5.
Definition CP_USER : nat := 0.
Definition CP_NICE : nat := 1.
Definition CP_SYS : nat := 2.
Definition CP_INTR : nat := 3.
Definition CP_IDLE : nat := 4.

(** ** percentages *)

(** The change of a counter; a counter that got smaller has wrapped, and the difference is cut to an
    [int]. *)
Definition change (new old : Z) : Z :=
  let c := i64 (new - old) in if c <? 0 then i32 (u64 (u64 new - u64 old)) else c.

(** The loop over the counters: the changes and their sum. *)
Fixpoint diffs_loop (new old : list Z) : list Z * Z :=
  match new, old with
  | n :: new, o :: old =>
      let '(d, total) := diffs_loop new old in
      (change n o :: d, i64 (change n o + total))
  | _, _ => ([], 0)
  end.

(** [(int)((d * 1000 + half_total) / total_change)] *)
Definition share (total d : Z) : Z := i32 (Z.quot (i64 (i64 (d * 1000) + Z.quot total 2)) total).

(** [percentages(cnt, out, new, old, diffs)]: [out], and the total; [old] becomes [new]. *)
Definition percentages (new old : list Z) : list Z * Z :=
  let '(d, total) := diffs_loop new old in
  let total := if total =? 0 then 1 else total in
  (map (share total) d, total).

(** ** main *)

(** [printf("%.1f", ((float)x)/10.)]: a tenth, exact for the values of [percentages]. *)
Definition tenth (x : Z) : string :=
  (if x <? 0 then "-" else "") +:+ udec (Z.abs x / 10) +:+ "." +:+ udec (Z.abs x mod 10).

Definition cpustatenames : list string := ["user"; "nice"; "system"; "interrupt"; "idle"].

(** The output for two readings of kern.cp_time; [names] when there is a second argument. *)
Definition cpustats (names : bool) (separator : string) (first second : list Z) : string :=
  let states := (percentages second first).1 in
  let st i := tenth (default 0 (states !! i)) in
  let nm i := if names then default "" (cpustatenames !! i) +:+ ":" else "" in
  let sp := if names then separator +:+ " " else separator in
  nm CP_USER +:+ st CP_USER +:+ sp +:+ nm CP_NICE +:+ st CP_NICE +:+ sp +:+ nm CP_SYS +:+ st CP_SYS +:+ sp +:+
  nm CP_INTR +:+ st CP_INTR +:+ sp +:+ nm CP_IDLE +:+ st CP_IDLE +:+ " " +:+ String LF "".

(** ** The shares add up *)

Definition sum (l : list Z) : Z := foldr Z.add 0 l.

(** Two readings between which no counter wrapped and the sum of changes times 1000 fits in a [long]. *)
Definition readings (new old : list Z) : Prop :=
  Forall2 (fun n o => 0 <= o <= n /\ n < 2 ^ 63) new old /\ (sum new - sum old) * 1001 < 2 ^ 63.

Lemma sum_le new old : Forall2 (fun n o => 0 <= o <= n /\ n < 2 ^ 63) new old -> sum old <= sum new.
Proof. unfold sum. induction 1 as [|n o new old Hno _ IH]; cbn [foldr]; lia. Qed.

Lemma diffs_loop_ok new old : Forall2 (fun n o => 0 <= o <= n /\ n < 2 ^ 63) new old -> sum new - sum old < 2 ^ 63 ->
  diffs_loop new old = (zip_with Z.sub new old, sum new - sum old).
Proof.
  induction 1 as [|n o new old [Hno Hn] Hf IH]; intros Hs; [done|].
  pose proof (sum_le _ _ Hf). change (sum (n :: new)) with (n + sum new) in *. change (sum (o :: old)) with (o + sum old) in *.
  cbn [diffs_loop zip_with]. rewrite IH by lia. unfold change. rewrite (i64_small (n - o)) by lia.
  destruct (Z.ltb_spec (n - o) 0); [lia|]. rewrite i64_small by lia. f_equal. lia.
Qed.

(** One share, rounded to the nearest integer. *)
Lemma share_round total d : 0 <= d <= total -> 0 < total -> total * 1001 < 2 ^ 63 ->
  share total d = (d * 1000 + total / 2) / total /\ 0 <= share total d <= 1000 /\
  2 * (share total d * total) <= 2 * (1000 * d) + total /\ 2 * (1000 * d) <= 2 * (share total d * total) + total.
Proof.
  intros Hd Ht Hb. unfold share.
  assert (Hh : 2 * (total / 2) <= total < 2 * (total / 2) + 2) by (pose proof (Z.div_mod total 2); pose proof (Z.mod_pos_bound total 2); lia).
  rewrite (i64_small (d * 1000)), (Z.quot_div_nonneg total 2), i64_small, Z.quot_div_nonneg by lia.
  set (a := d * 1000 + total / 2). pose proof (Z.div_mod a total ltac:(lia)) as Hdm. pose proof (Z.mod_pos_bound a total Ht) as Hm.
  assert (Hq : 0 <= a / total <= 1000).
  { split; [apply Z.div_pos; lia|]. apply Z.lt_succ_r, Z.div_lt_upper_bound; lia. }
  rewrite i32_small by lia. split; [done|]. split; [done|]. lia.
Qed.

(** The shares of the processor states are right: for two readings between which some time passed, each
    share is the fraction of the change rounded to a tenth of a percent, lies between 0 and 100%, and
    the five of them add up to 100% within a quarter of a percent. *)
Theorem percentages_add_up new old :
  readings new old -> length new = CPUSTATES -> sum old < sum new ->
  let '(out, total) := percentages new old in
  total = sum new - sum old /\
  out = zip_with (fun n o => ((n - o) * 1000 + total / 2) / total) new old /\
  Forall (fun x => 0 <= x <= 1000) out /\ 998 <= sum out <= 1002.
Proof.
  intros [Hf Hb] Hl Hs. unfold percentages. rewrite diffs_loop_ok by (done || lia).
  destruct (Z.eqb_spec (sum new - sum old) 0); [lia|]. set (total := sum new - sum old) in *.
  assert (Hin : forall new old, Forall2 (fun n o => 0 <= o <= n /\ n < 2 ^ 63) new old -> sum new - sum old <= total ->
    map (share total) (zip_with Z.sub new old) = zip_with (fun n o => ((n - o) * 1000 + total / 2) / total) new old /\
    Forall (fun x => 0 <= x <= 1000) (map (share total) (zip_with Z.sub new old)) /\
    2 * (sum (map (share total) (zip_with Z.sub new old)) * total) <= 2 * (1000 * (sum new - sum old)) + Z.of_nat (length new) * total /\
    2 * (1000 * (sum new - sum old)) <= 2 * (sum (map (share total) (zip_with Z.sub new old)) * total) + Z.of_nat (length new) * total).
  { clear -Hb Hs. intros new' old'. induction 1 as [|n o ns os [Hno Hn] Hf IH]; intros Hle; [cbn; split; [done|]; split; [constructor|]; lia|].
    pose proof (sum_le _ _ Hf). change (sum (n :: ns)) with (n + sum ns) in *. change (sum (o :: os)) with (o + sum os) in *.
    destruct IH as (I1 & I2 & I3 & I4); [lia|]. cbn [zip_with map length].
    change (sum (?x :: ?l)) with (x + sum l).
    destruct (share_round total (n - o)) as (S1 & S2 & S3 & S4); [lia | lia | lia |].
    split; [by rewrite S1, I1|]. split; [by constructor|]. lia. }
  destruct (Hin new old Hf) as (H1 & H2 & H3 & H4); [lia|]. rewrite Hl in H3, H4. fold total in H3, H4.
  split; [done|]. split; [done|]. split; [done|]. unfold CPUSTATES in *. nia.
Qed.

Lemma percentages_add_up_witness :
  let '(out, total) := percentages [1010; 20; 500; 30; 9000] [1000; 20; 493; 30; 8900] in
  total = 117 /\ 998 <= sum out <= 1002.
Proof.
  pose proof (percentages_add_up [1010; 20; 500; 30; 9000] [1000; 20; 493; 30; 8900]) as H.
  destruct H as (H1 & _ & _ & H2); [split; [repeat constructor; lia | vm_compute; reflexivity] | reflexivity | vm_compute; reflexivity |].
  split; [vm_compute; reflexivity | exact H2].
Defined.
