(* ===== verification/Minicron.v ===== *)
(** minicron, minicron.c: runs a command at an interval in a child process, which it starts again when it
    ends. *)
From Stdlib Require Import ZArith Lia Ascii String.
From stdpp Require Import base list strings numbers.
From S2P Require Import Prelude CProg.
Open Scope string_scope.
Open Scope list_scope.
Open Scope Z_scope.

(** ** The command of the child *)

(** [snprintf(buf, n, "%s %s", a, b)]; a null pointer prints as "(null)". *)
Definition snprintf2 (n : nat) (a : string) (b : option string) : string :=
  str_take (n - 1) (a +:+ " " +:+ default "(null)" b).

(** [argv[3]] and, if [argc > 4], [argv[4]]. *)
Definition helper_command (cmd : string) (arg : option string) : string :=
  let len := String.length cmd in
  match arg with
  | Some a => snprintf2 (len + String.length a + 2) cmd (Some a)
  | None => snprintf2 (len + 2) cmd None
  end.

(** The child: [n] rounds of sleeping [interval] seconds (an [unsigned int]) and running the command. *)
Inductive child_act : Type := Sleep (seconds : Z) | System (command : string).
Definition child (interval : Z) (cmd : string) (arg : option string) (n : nat) : list child_act :=
  concat (repeat [Sleep (u32 interval); System (helper_command cmd arg)] n).

(** The arguments: [None] for [exit(1)]. *)
Definition minicron_args (argv : list string) : option (Z * string * string * option string) :=
  match argv with
  | _ :: interval :: pidfile :: cmd :: rest =>
      let i := atoi interval in if i =? 0 then None else Some (i, pidfile, cmd, head rest)
  | _ => None
  end.

(** The variables of a CGI environment that are unset, so that the command does not see them. *)
Definition cgi_names : list string :=
  ["CONTENT_TYPE"; "GATEWAY_INTERFACE"; "REMOTE_USER"; "REMOTE_ADDR"; "AUTH_TYPE"; "SCRIPT_FILENAME"; "CONTENT_LENGTH";
   "HTTP_USER_AGENT"; "HTTP_HOST"; "SERVER_SOFTWARE"; "HTTP_REFERER"; "SERVER_PROTOCOL"; "REQUEST_METHOD"; "SERVER_PORT";
   "SCRIPT_NAME"; "SERVER_NAME"].

Definition unsetenv (environ : list (string * string)) (name : string) : list (string * string) :=
  filter (fun v => v.1 <> name) environ.

Definition clean_environ (environ : list (string * string)) : list (string * string) := fold_left unsetenv cgi_names environ.

(** [main] up to its loop: the interval, the command with its argument, the environment, and the text of the
    pid file, which may fail to open; [None] for [exit(1)]. *)
Definition minicron_start (argv : list string) (environ : list (string * string)) (daemon_ok pidfile_ok : bool) (self : Z)
    : option (Z * string * option string * list (string * string) * option string) :=
  '(interval, _, cmd, arg) ← minicron_args argv;
  if negb daemon_ok then None
  else Some (interval, cmd, arg, clean_environ environ, if pidfile_ok then Some (sdec (i32 self) +:+ String "010" "") else None).

(** ** The parent *)

(** The static variables, and the signals that were sent, with the process they were sent to.
    [handler] says whether SIGTERM is caught. *)
Record parent : Type := { pid : Z; quit : bool; handler : bool; kills : list Z }.

(** [killchild] *)
Definition killchild (p : parent) : parent :=
  {| pid := 0; quit := true; handler := handler p; kills := if pid p =? 0 then kills p else kills p ++ [pid p] |}.

(** One round of [while (!quit)] up to [wait]: [fork] gives a process, or -1. *)
Definition start_round (forked : Z) (p : parent) : parent :=
  {| pid := forked; quit := quit p; handler := true; kills := kills p |}.

(** What may happen to the parent: [wait] returns and the next child is forked, or SIGTERM arrives.
    After SIGTERM the round ends, and with it the loop. *)
Inductive parent_event : Type := Restart (forked : Z) | Term.

Inductive parent_end : Type := Waiting (p : parent) | Exited (p : parent) | Killed (p : parent).

(** After the loop: a child that is still known is killed once more. *)
Definition finish (p : parent) : parent :=
  {| pid := 0; quit := quit p; handler := handler p; kills := if pid p =? 0 then kills p else kills p ++ [pid p] |}.

Fixpoint parent_run (es : list parent_event) (p : parent) : parent_end :=
  match es with
  | [] => Waiting p
  | Restart f :: es => parent_run es (start_round f p)
  | Term :: _ => if handler p then Exited (finish (killchild p)) else Killed p
  end.

Definition parent_init : parent := {| pid := 0; quit := false; handler := false; kills := [] |}.

(** ** Theorems *)

(** The command that the child runs is the program with its argument.  The buffer has exactly the size
    it needs; without an argument [argv[4]] is a null pointer whose text is cut off by the size of the
    buffer, so that the program is run with a blank after it. *)
Theorem helper_command_exact cmd arg :
  helper_command cmd arg = cmd +:+ " " +:+ default "" arg.
Proof.
  unfold helper_command, snprintf2. destruct arg as [a|]; cbn [default].
  - apply str_take_all. rewrite !append_length. cbn. lia.
  - replace (String.length cmd + 2 - 1)%nat with (String.length (cmd +:+ " ")) by (rewrite append_length; cbn; lia).
    rewrite <- append_assoc, str_take_app. by rewrite append_nil_r.
Qed.

(** The command gets exactly the environment of minicron without the CGI variables, in the same order. *)
Theorem clean_environ_spec environ :
  clean_environ environ = filter (fun v => v.1 ∉ cgi_names) environ.
Proof.
  unfold clean_environ. generalize cgi_names. intros names. revert environ.
  induction names as [|n names IH]; intros environ; cbn [fold_left].
  - induction environ as [|v environ IH]; [done|]. rewrite filter_cons_True by apply not_elem_of_nil. by rewrite <- IH.
  - rewrite IH. unfold unsetenv. rewrite list_filter_filter. apply list_filter_iff. intros v. rewrite not_elem_of_cons. tauto.
Qed.

(** SIGTERM ends minicron and kills the child that runs at this time, and only it; but a [fork] that
    failed has left -1 in [pid], and then SIGTERM is sent to every process of the system. *)
Theorem minicron_terminates_child forks f :
  exists p, parent_run (map Restart forks ++ [Restart f; Term]) parent_init = Exited p /\
    kills p = if f =? 0 then [] else [f].
Proof.
  assert (H : forall fs p, parent_run (map Restart fs ++ [Restart f; Term]) p
    = Exited (finish (killchild (start_round f p)))).
  { induction fs as [|x fs IH]; intros p; cbn [map app parent_run]; [done|]. by rewrite IH. }
  rewrite H. eexists. split; [reflexivity|]. unfold killchild, finish, start_round, parent_init. cbn. by destruct (f =? 0).
Qed.
