(* ===== verification/ResetButton.v ===== *)
(** The reset button programs of wrapalixresetbutton: alixresetbtn.c, wrapresetbtn.c, RCC-VE.c,
    FW7541resetbtn.c and APUresetbtn.c.  Each looks at the button of one board at boot, and asks for the
    factory defaults with exit code 99 when the button is held for two seconds.  A program is a tree of
    calls ([io]); the board and the device are a function from the calls made so far to the next answer. *)
From Stdlib Require Import ZArith Lia Ascii String.
From stdpp Require Import base list strings numbers.
From S2P Require Import Prelude.
Open Scope string_scope.
Open Scope list_scope.
Open Scope Z_scope.

(** ** Programs that talk to the hardware *)

Inductive call : Type :=
  | Open (path : string)
  | Close
  | Usleep (us : Z)
  | Inb (port : Z)
  | Inl (port : Z)
  | Outb (port v : Z)
  | Outl (port v : Z)
  | Read1                  (* [read(iofd, &ch, 1)]: the byte, or -1 when none was read *)
  | Write (s : string).

#[export] Instance call_eq_dec : EqDecision call.
Proof. solve_decision. Defined.

Inductive io (A : Type) : Type :=
  | Ret (a : A)
  | Do (c : call) (k : Z -> io A).
Arguments Ret {A} a.
Arguments Do {A} c k.

#[export] Instance io_ret : MRet io := fun A => Ret.
#[export] Instance io_bind : MBind io := fun A B f =>
  fix bind (p : io A) : io B :=
    match p with Ret a => f a | Do c k => Do c (fun v => bind (k v)) end.

Definition do (c : call) : io Z := Do c Ret.

(** The calls made, each with its answer. *)
Notation history := (list (call * Z)) (only parsing).

Fixpoint perform {A} (env : history -> call -> Z) (p : io A) (h : history) : A * history :=
  match p with
  | Ret a => (a, h)
  | Do c k => let v := env h c in perform env (k v) (h ++ [(c, v)])
  end.

(** ** What the five programs share *)

(** [device]: what is opened; [setup]: before the first look; [look]: one look at the button, given the
    value of the look before; [up]: the value is that of a released button; [lights]: preparing the
    lights; [on], [off]: the lights of one blink; [restore]: the lights at the end. *)
Record board : Type := {
  device : string;
  setup : io unit;
  first_value : Z;
  look : Z -> io Z;
  up : Z -> bool;
  lights : io unit;
  on : io unit;
  off : io unit;
  restore : io unit
}.

(** [for (i = 0; i < n; i++) { usleep(100000); if (released) exit(2); }]: whether the loop was completed. *)
Fixpoint hold_loop (b : board) (n : nat) (v : Z) : io bool :=
  match n with
  | O => mret true
  | S n =>
      _ ← do (Usleep 100000);
      v ← look b v;
      if up b v then mret false else hold_loop b n v
  end.

Fixpoint blink (b : board) (n : nat) : io unit :=
  match n with
  | O => mret tt
  | S n => on b ;; do (Usleep 300000) ;; off b ;; do (Usleep 300000) ;; blink b n
  end.

(** [main] of each of the programs; the result is the exit code. *)
Definition reset_main (b : board) : io Z :=
  iofd ← do (Open (device b));
  if iofd =? -1 then mret 1 else
  setup b ;;
  v ← look b (first_value b);
  if up b v then mret 0 else
  held ← hold_loop b 20 v;
  if negb held then mret 2 else
  lights b ;;
  blink b 5 ;;
  restore b ;;
  do Close ;;
  mret 99.

(** ** alixresetbtn.c *)
Definition led_ports : list Z := [24832; 24960; 24960].  (* 0x6100, 0x6180, 0x6180 *)
Definition led_bits : list Z := [6; 9; 11].
Definition switch_port : Z := 25008.  (* 0x61b0 *)
Definition switch_bit : Z := 8.

Definition alix_led_on (i : nat) : io unit :=
  do (Outl (nth i led_ports 0) (Z.shiftl 1 (nth i led_bits 0 + 16))) ;; mret tt.
Definition alix_led_off (i : nat) : io unit :=
  do (Outl (nth i led_ports 0) (Z.shiftl 1 (nth i led_bits 0))) ;; mret tt.
Definition alix_is_switch_pressed : io Z :=
  c ← do (Inl switch_port);
  mret (Z.b2z (Z.land c (Z.shiftl 1 switch_bit) =? 0)).

Definition alix : board := {|
  device := "/dev/io"; setup := mret tt; first_value := 0;
  look := fun _ => alix_is_switch_pressed; up := fun v => v =? 0;
  lights := mret tt;
  on := alix_led_on 0 ;; alix_led_on 1 ;; alix_led_on 2;
  off := alix_led_off 0 ;; alix_led_off 1 ;; alix_led_off 2;
  restore := alix_led_on 0 |}.

(** ** wrapresetbtn.c *)
Definition wrap_GPIOBASE : Z := 62464.  (* 0xF400 *)
Definition wrap_led_gpio : list Z := [2; 3; 18].
Definition wrap_switch_gpio : Z := 40.

Definition wrap_gpio_read (gpio : Z) : io Z :=
  let '(offset, gpio) := if 32 <=? gpio then (20, gpio - 32) else (4, gpio) in
  c ← do (Inl (wrap_GPIOBASE + offset));
  mret (if c_true (Z.land c (Z.shiftl 1 gpio)) then 1 else 0).

Definition wrap_gpio_write (gpio : Z) (on : bool) : io unit :=
  let '(offset, gpio) := if 32 <=? gpio then (16, gpio - 32) else (0, gpio) in
  c ← do (Inl (wrap_GPIOBASE + offset));
  let c := if on then Z.lor c (Z.shiftl 1 gpio) else Z.land c (u32 (Z.lnot (Z.shiftl 1 gpio))) in
  do (Outl (wrap_GPIOBASE + offset) c) ;; mret tt.

Definition wrap_led_on (i : nat) : io unit := wrap_gpio_write (nth i wrap_led_gpio 0) false.
Definition wrap_led_off (i : nat) : io unit := wrap_gpio_write (nth i wrap_led_gpio 0) true.
Definition wrap_is_switch_pressed : io Z := c ← wrap_gpio_read wrap_switch_gpio; mret (Z.b2z (c =? 0)).

Definition wrap : board := {|
  device := "/dev/io"; setup := mret tt; first_value := 0;
  look := fun _ => wrap_is_switch_pressed; up := fun v => v =? 0;
  lights := mret tt;
  on := wrap_led_on 0 ;; wrap_led_on 1 ;; wrap_led_on 2;
  off := wrap_led_off 0 ;; wrap_led_off 1 ;; wrap_led_off 2;
  restore := wrap_led_on 0 |}.

(** ** RCC-VE.c (without [DEBUG]) *)
Definition rcc_GPIOBASE : Z := 1280.  (* 0x0500 *)
Definition GPIO_SC_USE_SEL : Z := rcc_GPIOBASE + 0.
Definition GPIO_SC_IO_SEL : Z := rcc_GPIOBASE + 4.
Definition GPIO_SC_GP_LVL : Z := rcc_GPIOBASE + 8.
Definition rcc_switch_gpio : Z := 11.
Definition rcc_led_gpio : Z := 15.

Definition rcc_gpio_read (reg gpio : Z) : io Z :=
  c ← do (Inl reg);
  mret (if c_true (Z.land c (Z.shiftl 1 gpio)) then 1 else 0).

Definition rcc_gpio_write (reg gpio : Z) (on : bool) : io unit :=
  c ← do (Inl reg);
  let c := if on then Z.lor c (Z.shiftl 1 gpio) else Z.land c (u32 (Z.lnot (Z.shiftl 1 gpio))) in
  do (Outl reg c) ;; mret tt.

Definition rcc_led_on : io unit := rcc_gpio_write GPIO_SC_GP_LVL rcc_led_gpio true.
Definition rcc_led_off : io unit := rcc_gpio_write GPIO_SC_GP_LVL rcc_led_gpio false.
Definition rcc_is_switch_pressed : io Z :=
  c ← rcc_gpio_read GPIO_SC_GP_LVL rcc_switch_gpio; mret (Z.b2z (c =? 0)).

(** A pin that is not used for GPIO yet is switched to it, the light as an output, the button as an input. *)
Definition pins : io unit :=
  l ← rcc_gpio_read GPIO_SC_USE_SEL rcc_led_gpio;
  (if l =? 0 then rcc_gpio_write GPIO_SC_USE_SEL rcc_led_gpio true ;; rcc_gpio_write GPIO_SC_IO_SEL rcc_led_gpio false
   else mret tt) ;;
  s ← rcc_gpio_read GPIO_SC_USE_SEL rcc_switch_gpio;
  if s =? 0 then rcc_gpio_write GPIO_SC_USE_SEL rcc_switch_gpio true ;; rcc_gpio_write GPIO_SC_IO_SEL rcc_switch_gpio true
  else mret tt.

Definition rcc_ve : board := {|
  device := "/dev/io"; setup := pins; first_value := 0;
  look := fun _ => rcc_is_switch_pressed; up := fun v => v =? 0;
  lights := mret tt; on := rcc_led_on; off := rcc_led_off; restore := rcc_led_off |}.

(** ** FW7541resetbtn.c *)
Definition INDEX_PORT : Z := 46.  (* 0x2E *)
Definition DATA_PORT : Z := 47.   (* 0x2F *)
Definition GPIO31_BIT : Z := Z.shiftl 1 1.
Definition GPIO32_BIT : Z := Z.shiftl 1 2.
Definition GPIO_GPIO31_GPIO32_MASK : Z := Z.lor GPIO31_BIT GPIO32_BIT.
Definition LED_OFF : Z := 0.
Definition LED_GREEN : Z := GPIO31_BIT.
Definition SB_GPIO_PORT_BASE : Z := 1280.  (* 0x500 *)
Definition SB_GPIO_PORT_USE_SEL : Z := 2.
Definition SB_GPIO_PORT_IO_SEL : Z := 6.
Definition SB_GPIO_PORT_OFFSET : Z := 14.
Definition SB_GPIO_PORT_REG : Z := SB_GPIO_PORT_BASE + SB_GPIO_PORT_OFFSET.
Definition GPIO20_BIT : Z := Z.shiftl 1 4.
Definition STATUS_BITMASK : Z := GPIO20_BIT.
Definition STATUS_PRESSED : Z := 0.

Definition get_btn_status : io Z := c ← do (Inb SB_GPIO_PORT_REG); mret (Z.land c STATUS_BITMASK).

Definition enter_w83627_config : io unit :=
  do (Outb INDEX_PORT 135) ;; do (Outb INDEX_PORT 135) ;; mret tt.
Definition exit_w83627_config : io unit := do (Outb INDEX_PORT 170) ;; mret tt.

Definition read_w83627_reg (LDN reg : Z) : io Z :=
  enter_w83627_config ;;
  do (Outb INDEX_PORT 7) ;;
  do (Outb DATA_PORT LDN) ;;
  do (Outb INDEX_PORT reg) ;;
  tmp ← do (Inb DATA_PORT);
  exit_w83627_config ;;
  mret tmp.

Definition write_w83627_reg (LDN reg value : Z) : io unit :=
  enter_w83627_config ;;
  do (Outb INDEX_PORT 7) ;;
  do (Outb DATA_PORT LDN) ;;
  do (Outb INDEX_PORT reg) ;;
  do (Outb DATA_PORT value) ;;
  exit_w83627_config.

Definition set_led (v : Z) : io unit :=
  tmp ← read_w83627_reg 9 241;
  write_w83627_reg 9 241 (Z.lor (Z.land tmp (u8 (Z.lnot GPIO_GPIO31_GPIO32_MASK))) v).
Definition fw_led_on : io unit := set_led LED_GREEN.
Definition fw_led_off : io unit := set_led LED_OFF.

Definition sled_gpio_init : io unit :=
  tmp ← read_w83627_reg 9 48;
  write_w83627_reg 9 48 (Z.lor tmp 2) ;;
  tmp ← read_w83627_reg 9 240;
  write_w83627_reg 9 240 (Z.land tmp (u8 (Z.lnot GPIO_GPIO31_GPIO32_MASK))).

Definition btn_gpio_init : io unit :=
  tmp ← do (Inb (SB_GPIO_PORT_BASE + SB_GPIO_PORT_USE_SEL));
  do (Outb (SB_GPIO_PORT_BASE + SB_GPIO_PORT_USE_SEL) (Z.lor tmp GPIO20_BIT)) ;;
  tmp ← do (Inb (SB_GPIO_PORT_BASE + SB_GPIO_PORT_IO_SEL));
  do (Outb (SB_GPIO_PORT_BASE + SB_GPIO_PORT_IO_SEL) (Z.lor tmp GPIO20_BIT)) ;;
  mret tt.

Definition fw7541 : board := {|
  device := "/dev/io"; setup := btn_gpio_init; first_value := 0;
  look := fun _ => get_btn_status; up := fun v => negb (v =? STATUS_PRESSED);
  lights := sled_gpio_init; on := fw_led_on; off := fw_led_off; restore := fw_led_off |}.

(** ** APUresetbtn.c *)
(** [read(iofd, &ch, sizeof(ch))] leaves [ch] as it is when it fails; the result is not looked at. *)
Definition read_ch (ch : Z) : io Z := r ← do Read1; mret (if r =? -1 then ch else r).

Definition apu : board := {|
  device := "/dev/gpioapu"; setup := mret tt; first_value := 0;
  look := read_ch; up := fun ch => ch =? 49;
  lights := mret tt;
  on := do (Write "111") ;; mret tt;
  off := do (Write "000") ;; mret tt;
  restore := do (Write "100") ;; mret tt |}.

(** ** What a history says *)

(** The values of pin [bit] of the register that [button] reads, in order. *)
Definition levels (button : call) (bit : Z) (h : history) : list bool :=
  (fun e => Z.testbit e.2 bit) <$> filter (fun e => e.1 = button) h.

(** The microseconds slept. *)
Definition slept (h : history) : Z :=
  foldr (fun e n => match e.1 with Usleep us => us + n | _ => n end) 0 h.

Lemma levels_app button bit h t : levels button bit (h ++ t) = levels button bit h ++ levels button bit t.
Proof. unfold levels. by rewrite list.filter_app, fmap_app. Qed.
Lemma slept_app h t : slept (h ++ t) = slept h + slept t.
Proof. induction h as [|[c v] h IH]; cbn; [done|]. fold (slept (h ++ t)) (slept h). destruct c; lia. Qed.

Lemma perform_bind {A B} env (p : io A) (k : A -> io B) h :
  perform env (p ≫= k) h = let '(a, h') := perform env p h in perform env (k a) h'.
Proof. revert h. induction p as [a|c k' IH]; intro h; [done|]. exact (IH _ _). Qed.

(** Every call that the program can make satisfies [P]. *)
Fixpoint calls_only {A} (P : call -> Prop) (p : io A) : Prop :=
  match p with Ret _ => True | Do c k => P c /\ forall v, calls_only P (k v) end.

Lemma calls_only_bind {A B} P (p : io A) (k : A -> io B) :
  calls_only P p -> (forall a, calls_only P (k a)) -> calls_only P (p ≫= k).
Proof.
  intros Hp Hk. induction p as [a|c k' IH]; [exact (Hk a)|].
  destruct Hp as [Hc Hp]. split; [exact Hc|]. intro v. exact (IH v (Hp v)).
Qed.

Lemma perform_calls {A} env P (p : io A) h :
  calls_only P p -> exists a t, perform env p h = (a, h ++ t) /\ Forall (fun e => P e.1) t.
Proof.
  revert h. induction p as [a|c k IH]; intros h Hp.
  - exists a, []. by rewrite app_nil_r.
  - destruct Hp as [Hc Hp]. cbn. destruct (IH _ (h ++ [(c, env h c)]) (Hp (env h c))) as (a & t & -> & Ht).
    exists a, ((c, env h c) :: t). rewrite <- app_assoc. split; [done|]. by constructor.
Qed.

Definition awake (c : call) : Prop := match c with Usleep _ => False | _ => True end.

Lemma slept_awake t : Forall (fun e => awake e.1) t -> slept t = 0.
Proof. induction 1 as [|[c v] t Hc Ht IH]; cbn; [done|]. fold (slept t). destruct c; done. Qed.
Lemma levels_none button bit t : Forall (fun e => e.1 <> button) t -> levels button bit t = [].
Proof.
  unfold levels. induction 1 as [|[c v] t Hc Ht IH]; [done|]. by rewrite filter_cons_False.
Qed.

(** ** The boards whose button is a pin of a register *)

Class Polled (b : board) (button : call) (bit : Z) : Prop := {
  button_awake : awake button;
  button_not_open path : button <> Open path;
  looks : forall v, exists f, look b v = Do button (fun c => Ret (f c)) /\ forall c, up b (f c) = Z.testbit c bit;
  setup_calls : calls_only (fun c => awake c /\ c <> button) (setup b);
  lights_calls : calls_only awake (lights b);
  on_calls : calls_only awake (on b);
  off_calls : calls_only awake (off b);
  restore_calls : calls_only awake (restore b)
}.

Lemma land_bit_eqb c k : 0 <= k -> (Z.land c (Z.shiftl 1 k) =? 0) = negb (Z.testbit c k).
Proof.
  intro Hk. rewrite Z.shiftl_1_l. destruct (Z.testbit c k) eqn:E; cbn.
  - apply Z.eqb_neq. intro H. assert (H' : Z.testbit (Z.land c (2 ^ k)) k = false) by (rewrite H; apply Z.bits_0).
    rewrite Z.land_spec, E, Z.pow2_bits_true in H'; done.
  - apply Z.eqb_eq, Z.bits_inj'. intros n Hn. rewrite Z.land_spec, Z.bits_0, Z.pow2_bits_eqb by done.
    destruct (k =? n) eqn:En; [apply Z.eqb_eq in En as <-; by rewrite E|apply andb_false_r].
Qed.

Ltac calls_tac :=
  cbn; repeat first [done | split | intro | discriminate
                    | match goal with |- context [if ?b then _ else _] => destruct b; cbn end].

(** A look reads the register once and tests the pin. *)
Ltac look_tac c k :=
  intro; eexists; split; [reflexivity|]; intro c; cbn -[Z.testbit Z.land Z.shiftl];
  unfold c_true, STATUS_PRESSED, STATUS_BITMASK, GPIO20_BIT;
  rewrite land_bit_eqb by (vm_compute; discriminate);
  match goal with |- context [Z.testbit c ?b] => change b with k end;
  destruct (Z.testbit c k); reflexivity.

#[export] Instance alix_polled : Polled alix (Inl 25008) 8.
Proof. split; try solve [calls_tac]. look_tac c 8. Qed.
#[export] Instance wrap_polled : Polled wrap (Inl 62484) 8.
Proof. split; try solve [calls_tac]. look_tac c 8. Qed.
#[export] Instance rcc_ve_polled : Polled rcc_ve (Inl 1288) 11.
Proof. split; try solve [calls_tac]. look_tac c 11. Qed.
#[export] Instance fw7541_polled : Polled fw7541 (Inb 1294) 4.
Proof. split; try solve [calls_tac]. look_tac c 4. Qed.

Section Polling.
Context (b : board) (button : call) (bit : Z) `{!Polled b button bit} (env : history -> call -> Z).

Lemma perform_do c h : perform env (do c) h = (env h c, h ++ [(c, env h c)]).
Proof. reflexivity. Qed.

Lemma perform_look v h :
  exists v', perform env (look b v) h = (v', h ++ [(button, env h button)])
             /\ up b v' = Z.testbit (env h button) bit.
Proof. destruct (looks v) as (f & E & Hf). rewrite E. cbn. exists (f (env h button)). split; [done|apply Hf]. Qed.

Lemma levels_look v : levels button bit [(button, v)] = [Z.testbit v bit].
Proof. unfold levels. by rewrite filter_cons_True. Qed.
Lemma levels_sleep us v : levels button bit [(Usleep us, v)] = [].
Proof. apply levels_none. constructor; [|done]. intros E. cbn in E. pose proof button_awake as H. by rewrite <- E in H. Qed.
Lemma slept_look v : slept [(button, v)] = 0.
Proof. apply slept_awake. constructor; [apply button_awake|done]. Qed.

(** The history of the first look. *)
Lemma first_look fd v t :
  Forall (fun e => awake e.1 /\ e.1 <> button) t ->
  levels button bit (([(Open (device b), fd)] ++ t) ++ [(button, v)]) = [Z.testbit v bit]
  /\ slept (([(Open (device b), fd)] ++ t) ++ [(button, v)]) = 0.
Proof.
  intro H. rewrite !levels_app, !slept_app, levels_look, slept_look.
  rewrite (levels_none _ _ t), (slept_awake t) by (eapply Forall_impl; [|exact H]; by intros e []).
  rewrite levels_none; [done|]. constructor; [|done]. intros E. by apply (button_not_open (device b)).
Qed.

(** What the loop adds to the history: only pressed looks when it is completed, and otherwise one
    released look after pressed ones, a tenth of a second before each. *)
Definition hold_result (held : bool) (n : nat) (t : history) : Prop :=
  if held then levels button bit t = replicate n false /\ slept t = 100000 * Z.of_nat n
  else exists k, (k < n)%nat /\ levels button bit t = replicate k false ++ [true]
                 /\ slept t = 100000 * Z.of_nat (S k).

Lemma hold_loop_spec n v h :
  exists held t, perform env (hold_loop b n v) h = (held, h ++ t) /\ hold_result held n t.
Proof.
  revert v h. induction n as [|n IH]; intros v h; cbn [hold_loop].
  { exists true, []. by rewrite app_nil_r. }
  rewrite perform_bind, perform_do, perform_bind. set (h1 := h ++ _).
  destruct (perform_look v h1) as (v' & -> & Hu). rewrite Hu.
  set (t0 := [(Usleep 100000, env h (Usleep 100000))] ++ [(button, env h1 button)]).
  assert (Eh : h1 ++ [(button, env h1 button)] = h ++ t0) by (unfold h1; by rewrite <- app_assoc).
  assert (El : levels button bit t0 = [Z.testbit (env h1 button) bit]).
  { unfold t0. by rewrite levels_app, levels_sleep, levels_look. }
  assert (Es : slept t0 = 100000) by (unfold t0; by rewrite slept_app, slept_look).
  rewrite Eh. destruct (Z.testbit _ bit).
  { exists false, t0. split; [done|]. exists O. split; [lia|]. split; [exact El|exact Es]. }
  destruct (IH v' (h ++ t0)) as (held & t & -> & Ht). exists held, (t0 ++ t). rewrite app_assoc.
  split; [done|]. unfold hold_result in *. destruct held.
  - destruct Ht as [Hl Hs]. rewrite levels_app, slept_app, El, Es, Hl. split; [done|lia].
  - destruct Ht as (k & Hk & Hl & Hs). exists (S k). rewrite levels_app, slept_app, El, Es, Hl.
    split; [lia|]. split; [done|lia].
Qed.

(** The program sleeps for [us] microseconds and returns [a]. *)
Definition takes {A} (us : Z) (p : io A) (a : A) : Prop :=
  forall h, exists t, perform env p h = (a, h ++ t) /\ slept t = us.

Lemma takes_bind {A B} us us' (p : io A) (k : A -> io B) a c :
  takes us p a -> takes us' (k a) c -> takes (us + us') (p ≫= k) c.
Proof.
  intros Hp Hk h. rewrite perform_bind. destruct (Hp h) as (t & -> & <-).
  destruct (Hk (h ++ t)) as (t' & -> & <-). exists (t ++ t'). by rewrite slept_app, app_assoc.
Qed.
Lemma takes_awake (p : io unit) : calls_only awake p -> takes 0 p tt.
Proof.
  intros Hp h. destruct (perform_calls env _ _ h Hp) as ([] & t & -> & Ht). exists t.
  split; [done|exact (slept_awake t Ht)].
Qed.
Lemma takes_do_bind {B} c us us' (k : Z -> io B) a :
  slept [(c, 0)] = us -> (forall v, takes us' (k v) a) -> takes (us + us') (do c ≫= k) a.
Proof.
  intros Hc Hk h. rewrite perform_bind, perform_do. destruct (Hk (env h c) (h ++ [(c, env h c)])) as (t & -> & Ht).
  exists ((c, env h c) :: t). rewrite <- app_assoc. split; [done|].
  change ((c, env h c) :: t) with ([(c, env h c)] ++ t). rewrite slept_app, Ht. f_equal. rewrite <- Hc. by destruct c.
Qed.

Lemma blink_takes n : takes (600000 * Z.of_nat n) (blink b n) tt.
Proof.
  induction n as [|n IH]; [intro h; exists []; by rewrite app_nil_r|].
  replace (600000 * Z.of_nat (S n)) with (0 + (300000 + (0 + (300000 + 600000 * Z.of_nat n)))) by lia.
  eapply takes_bind; [apply takes_awake, on_calls|]. apply takes_do_bind; [done|intros _].
  eapply takes_bind; [apply takes_awake, off_calls|]. apply takes_do_bind; [done|intros _]. exact IH.
Qed.

(** The end of [main], after the button was held. *)
Lemma tail_takes : takes 3000000 (lights b ;; blink b 5 ;; restore b ;; do Close ;; mret 99 : io Z) 99.
Proof.
  change 3000000 with (0 + (600000 * Z.of_nat 5 + (0 + (0 + 0)))).
  eapply takes_bind; [apply takes_awake, lights_calls|]. eapply takes_bind; [apply blink_takes|].
  eapply takes_bind; [apply takes_awake, restore_calls|]. apply takes_do_bind; [done|intros _].
  intro h. exists []. by rewrite app_nil_r.
Qed.
End Polling.

(** C30. The factory defaults are asked for exactly when the pin of the button stays low: on the ALIX, WRAP,
    RCC-VE and FW-7541 boards, whatever the hardware answers, the program exits with 1, without a look at
    the button, when its device cannot be opened; else with 99 after its 21 looks at the button all found
    the pin low over two seconds; with 0 after one look that found it high; and with 2 after a look found
    it high again within the two seconds, without waiting further.  Low is what the code of all four
    boards takes for pressed.  (On the FW-7541 the comment at the head of the file says the opposite of
    [STATUS_PRESSED].) *)
Theorem reset_when_held (b : board) (button : call) (bit : Z) (env : history -> call -> Z) :
  (b, button, bit) ∈ [(alix, Inl 25008, 8); (wrap, Inl 62484, 8);
                      (rcc_ve, Inl 1288, 11); (fw7541, Inb 1294, 4)] ->
  let '(code, h) := perform env (reset_main b) [] in
  let l := take 21 (levels button bit h) in
  if env [] (Open (device b)) =? -1 then code = 1 /\ l = [] /\ slept h = 0
  else (code = 99 /\ l = replicate 21 false /\ slept h = 2000000 + 5 * 600000)
  \/ (code = 0 /\ l = [true] /\ slept h = 0)
  \/ (code = 2 /\ exists k, (0 < k <= 20)%nat /\ l = replicate k false ++ [true]
                 /\ slept h = 100000 * Z.of_nat k).
Proof.
  intros Hb.
  assert (HP : Polled b button bit) by (rewrite !elem_of_cons, elem_of_nil in Hb; naive_solver (eauto with typeclass_instances)).
  clear Hb. unfold reset_main. rewrite perform_bind, perform_do. destruct (Z.eqb_spec (env [] (Open (device b))) (-1)) as [Ho|Ho].
  { cbn [perform mret io_ret app]. split; [done|]. split; [|done]. rewrite levels_none; [done|].
    constructor; [|constructor]. intros E. by apply (button_not_open (device b)). }
  rewrite perform_bind.
  set (fd := env [] _). change ([] ++ [(Open (device b), fd)]) with [(Open (device b), fd)].
  set (h0 := [(Open (device b), fd)]). destruct (perform_calls env _ _ h0 setup_calls) as (? & t0 & -> & H0).
  rewrite perform_bind. destruct (perform_look b button bit env (first_value b) (h0 ++ t0)) as (v & -> & Hv).
  destruct (first_look b button bit fd (env (h0 ++ t0) button) t0 H0) as [L1 S1]. fold h0 in L1, S1.
  set (h1 := (h0 ++ t0) ++ _) in *.
  rewrite Hv. destruct (Z.testbit _ bit).
  { right. left. rewrite L1, S1. done. }
  rewrite perform_bind. destruct (hold_loop_spec b button bit env 20 v h1) as (held & t & -> & Ht).
  destruct held; cbn [negb].
  - destruct Ht as [Hl Hs]. destruct (tail_takes b button bit env (h1 ++ t)) as (t2 & -> & H2).
    left. rewrite !levels_app, !slept_app, L1, S1, Hl, Hs, H2. done.
  - right. right. destruct Ht as (k & Hk & Hl & Hs). split; [done|]. exists (S k).
    rewrite levels_app, slept_app, L1, S1, Hl, Hs. split; [lia|]. split; [|lia].
    rewrite take_ge; [done|]. cbn. rewrite length_app, length_replicate. cbn. lia.
Qed.

(** A board that answers every register with the button pressed, and one where it is let go at the
    third look. *)
Definition demo_held : history -> call -> Z := fun _ _ => 0.
Definition demo_let_go : history -> call -> Z := fun h _ => if (6 <? length h)%nat then 256 else 0.

Definition demo_unreadable : history -> call -> Z := fun _ c => match c with Read1 => -1 | _ => 3 end.

Lemma reset_when_held_witness :
  (let '(code, h) := perform demo_held (reset_main wrap) [] in
   let l := take 21 (levels (Inl 62484) 8 h) in
   if demo_held [] (Open (device wrap)) =? -1 then code = 1 /\ l = [] /\ slept h = 0
   else (code = 99 /\ l = replicate 21 false /\ slept h = 2000000 + 5 * 600000)
   \/ (code = 0 /\ l = [true] /\ slept h = 0)
   \/ (code = 2 /\ exists k, (0 < k <= 20)%nat /\ l = replicate k false ++ [true]
                  /\ slept h = 100000 * Z.of_nat k))
  /\ fst (perform demo_held (reset_main wrap) []) = 99
  /\ fst (perform demo_let_go (reset_main wrap) []) = 2.
Proof.
  split; [|split; vm_compute; reflexivity].
  apply (reset_when_held wrap (Inl 62484) 8 demo_held).
  apply elem_of_cons; right; apply elem_of_cons; left; reflexivity.
Defined.

(** A button that cannot be read counts as held: when every [read] of the APU device fails, the
    program exits with 99 and so asks for the factory defaults, because [ch] starts at zero, only the
    character 1 means released, and the result of [read] is not looked at. *)
Theorem apu_unreadable_resets (env : history -> call -> Z) :
  env [] (Open "/dev/gpioapu") <> -1 -> (forall h, env h Read1 = -1) ->
  fst (perform env (reset_main apu) []) = 99.
Proof.
  intros Ho Hr. unfold reset_main. rewrite perform_bind, perform_do. cbn [device apu].
  rewrite (proj2 (Z.eqb_neq _ _) Ho).
  assert (Hlook : forall h, perform env (look apu 0) h = (0, h ++ [(Read1, -1)])).
  { intro h. cbn. by rewrite Hr. }
  assert (Hloop : forall n h, exists h', perform env (hold_loop apu n 0) h = (true, h')).
  { induction n as [|n IH]; intro h; [by exists h|]. cbn [hold_loop].
    rewrite perform_bind, perform_do, perform_bind, Hlook. apply IH. }
  assert (Hsetup : forall h, perform env (setup apu) h = (tt, h)) by reflexivity.
  rewrite perform_bind, Hsetup, perform_bind, Hlook. change (up apu 0) with false. cbv iota beta. rewrite perform_bind.
  destruct (Hloop 20%nat ([(Open "/dev/gpioapu", env [] (Open "/dev/gpioapu"))] ++ [(Read1, -1)])) as [h E].
  cbn [app] in E |- *. rewrite E. reflexivity.
Qed.

Lemma apu_unreadable_resets_witness :
  demo_unreadable [] (Open "/dev/gpioapu") <> -1
  /\ fst (perform demo_unreadable (reset_main apu) []) = 99.
Proof. split; [discriminate|]. apply (apu_unreadable_resets demo_unreadable); [discriminate|reflexivity]. Defined.
