(* ===== verification/TunnelShell.v ===== *)
(** ssh_tunnel_shell, ssh_tunnel_shell.c: the login shell of accounts that may only forward ports.  It
    notes the login, turns the echo of the terminal off, and waits until its input ends. *)
From Stdlib Require Import ZArith Lia Ascii String.
From stdpp Require Import base list strings numbers.
From S2P Require Import Prelude CProg.
Open Scope string_scope.
Open Scope list_scope.
Open Scope Z_scope.

(** The flags of termios(4); [tcflag_t] has 32 bits. *)
Class Termios : Type := {
  ECHOKE : Z; ECHOE : Z; ECHOK : Z; ECHO : Z; ECHONL : Z; ECHOPRT : Z; ECHOCTL : Z; ICANON : Z
}.

Section shell.
Context `{Termios}.

Definition quiet_mask : Z :=
  Z.lor (Z.lor (Z.lor (Z.lor (Z.lor (Z.lor (Z.lor ECHOKE ECHOE) ECHOK) ECHO) ECHONL) ECHOPRT) ECHOCTL) ICANON.

(** [t.c_lflag &= ~(...)] *)
Definition quiet_lflag (c_lflag : Z) : Z := u32 (Z.land c_lflag (Z.lnot quiet_mask)).

(** What the system answers: [isatty], [ttyname], [getlogin], the flags that [tcgetattr] reads, and whether
    [tcsetattr] succeeds. *)
Record terminal : Type := {
  is_tty : bool;
  tty_name : option string;
  login : option string;
  lflag : option Z;
  set_ok : bool
}.

(** [getchar] until it returns -1; [false] while there is no such answer yet. *)
Fixpoint wait_end (chars : list Z) : bool :=
  match chars with
  | [] => false
  | c :: chars => if c =? -1 then true else wait_end chars
  end.

(** What the shell did: the line in the log, the flags that were set, and its status, [None] while it
    waits. *)
Record done : Type := { logged : list string; set_to : option Z; status : option Z }.

Definition shell_main (t : terminal) (chars : list Z) : done :=
  if negb (is_tty t) then {| logged := []; set_to := None; status := Some 1 |}
  else
    let line := "Login by " +:+ default "UNKNOWN" (login t) +:+ " on " +:+ default "UNKNOWN" (tty_name t) in
    match lflag t with
    | None => {| logged := [line]; set_to := None; status := Some 1 |}
    | Some f =>
        if negb (set_ok t) then {| logged := [line]; set_to := None; status := Some 1 |}
        else {| logged := [line]; set_to := Some (quiet_lflag f); status := if wait_end chars then Some 1 else None |}
    end.

Lemma wait_end_spec chars : wait_end chars = true <-> -1 ∈ chars.
Proof.
  induction chars as [|c chars IH]; cbn [wait_end]; [split; [done | by intros ?%elem_of_nil]|].
  rewrite elem_of_cons. destruct (Z.eqb_spec c (-1)) as [-> |Hn]; [by split; auto|]. rewrite IH. intuition congruence.
Qed.

Lemma quiet_lflag_bits f k : 0 <= f < 2 ^ 32 -> 0 <= k ->
  Z.testbit (quiet_lflag f) k = Z.testbit f k && negb (Z.testbit quiet_mask k).
Proof.
  intros Hf Hk. unfold quiet_lflag, u32. destruct (Z.lt_ge_cases k 32).
  - by rewrite Z.mod_pow2_bits_low, Z.land_spec, Z.lnot_spec by lia.
  - rewrite Z.mod_pow2_bits_high by lia. rewrite <- (Z.mod_small f (2 ^ 32)) by lia. by rewrite Z.mod_pow2_bits_high by lia.
Qed.

(** The shell gives nothing to its user: every run writes at most one line to the log, the flags it sets are
    those of the terminal without the echo and without line editing, it reads its input to the end, whatever
    is typed, and whenever it ends its status is 1. *)
Theorem shell_only_waits t chars f :
  is_tty t = true -> lflag t = Some f -> set_ok t = true -> 0 <= f < 2 ^ 32 ->
  exists g, set_to (shell_main t chars) = Some g /\
    (forall k, 0 <= k -> Z.testbit g k = Z.testbit f k && negb (Z.testbit quiet_mask k)) /\
    length (logged (shell_main t chars)) = 1%nat /\
    (status (shell_main t chars) = Some 1 <-> -1 ∈ chars) /\ (status (shell_main t chars) = None <-> -1 ∉ chars).
Proof.
  intros Ht Hf Hs Hr. unfold shell_main. rewrite Ht, Hf, Hs. cbn [negb]. cbv zeta. exists (quiet_lflag f).
  cbn [set_to logged status]. split_and!; [done| |done| |]; [intros k Hk; by apply quiet_lflag_bits|..];
    rewrite <- wait_end_spec; destruct (wait_end chars); split; congruence || done.
Qed.
End shell.

#[export] Instance demo_termios : Termios :=
  {| ECHOKE := 1; ECHOE := 2; ECHOK := 4; ECHO := 8; ECHONL := 16; ECHOPRT := 32; ECHOCTL := 64; ICANON := 256 |}.

Definition demo_terminal : terminal :=
  {| is_tty := true; tty_name := Some "/dev/pts/0"; login := None; lflag := Some 1483; set_ok := true |}.

Lemma shell_only_waits_witness : exists g, set_to (shell_main demo_terminal [97; 255; -1]) = Some g /\
  (forall k, 0 <= k -> Z.testbit g k = Z.testbit 1483 k && negb (Z.testbit quiet_mask k)) /\
  length (logged (shell_main demo_terminal [97; 255; -1])) = 1%nat /\
  (status (shell_main demo_terminal [97; 255; -1]) = Some 1 <-> -1 ∈ [97; 255; -1]) /\
  (status (shell_main demo_terminal [97; 255; -1]) = None <-> -1 ∉ [97; 255; -1]).
Proof. apply (shell_only_waits demo_terminal [97; 255; -1] 1483); [done|done|done|lia]. Defined.
